(** * OpenSlide: the tiled region reader and the pixel-conversion kernels

    A shallow embedding of
      - src/openslide.c            (handle life cycle, level model, region reader),
      - src/openslide-image.c      (scalar and NEON pixel kernels, row padding),
      - src/openslide-image-ssse3.c, src/openslide-image-avx2.c (x86 kernels),
      - src/openslide-decode-jxr.c (JPEG XR codec adapter),
    together with the properties the specification states about them.

    Conventions.
      - A C [double] is a primitive binary64 float; [<], [==] and the
        arithmetic are the IEEE operations of [PrimFloat].
      - [int32_t]/[int64_t] values are [Z].  The [int] arithmetic of the row
        padding and the 32-bit products of the JPEG XR adapter are written
        with their reduction modulo 2^32; [size_t] values are [Z] with the
        wrap-around modulo 2^64 written out.
      - A byte buffer is a [list Z] of bytes; a pointer into it is an offset.
        An access outside the buffer is undefined behaviour in C and is the
        outcome [Fault] here; so is everything else that ends the process
        with a machine fault. *)

From Stdlib Require Import ZArith List Lia Bool String Floats.
Import ListNotations.
Local Open Scope Z_scope.

(** ** Outcomes of running a piece of C code *)

Inductive outcome (A : Type) : Type :=
| Done (a : A)      (* the code returned *)
| Fault             (* an access outside an object, a misaligned aligned
                       load, an instruction the CPU lacks *)
| Abort             (* a failed g_assert: the process is aborted *)
| Timeout.          (* the loop budget of the model ran out *)
Arguments Done {A} a.
Arguments Fault {A}.
Arguments Abort {A}.
Arguments Timeout {A}.

Definition bind {A B : Type} (m : outcome A) (k : A -> outcome B) : outcome B :=
  match m with
  | Done a => k a
  | Fault => Fault
  | Abort => Abort
  | Timeout => Timeout
  end.

Declare Scope outcome_scope.
Delimit Scope outcome_scope with outcome.
Notation "x <- m ;; k" := (bind m (fun x => k))
  (at level 61, m at next level, right associativity) : outcome_scope.
Notation "' p <- m ;; k" := (bind m (fun x => match x with p => k end))
  (at level 61, p pattern, m at next level, right associativity) : outcome_scope.
Local Open Scope outcome_scope.

Definition of_option {A : Type} (o : option A) : outcome A :=
  match o with Some a => Done a | None => Fault end.

(** A loop body either falls through to the next iteration or executes a
    [return]. *)
Inductive ctl (S R : Type) : Type :=
| Next (s : S)
| Ret (r : R).
Arguments Next {S R} s.
Arguments Ret {S R} r.

(** [for (i = lo; i < hi; i++) body], for a signed counter that the body
    does not assign: the indices are visited in increasing order and a
    [return] inside the body leaves the loop. *)
Fixpoint iota (lo : Z) (n : nat) : list Z :=
  match n with
  | O => []
  | S n' => lo :: iota (lo + 1) n'
  end.

Definition range (lo hi : Z) : list Z := iota lo (Z.to_nat (hi - lo)).

Fixpoint for_each {S R : Type} (idx : list Z)
         (body : Z -> S -> outcome (ctl S R)) (s : S) : outcome (ctl S R) :=
  match idx with
  | [] => Done (Next s)
  | i :: rest =>
      c <- body i s ;;
      match c with
      | Next s' => for_each rest body s'
      | Ret r => Done (Ret r)
      end
  end.


(** [for (size_t i = start; i < bound; i += step) body], for a counter
    the body does not assign.  The counter wraps modulo 2^64 as a [size_t]
    does; [fuel] bounds the number of iterations the model runs. *)
Definition wrap64 (z : Z) : Z := z mod 2 ^ 64.

(** The value an [int] or [int32_t] takes: the result modulo 2^32, in the
    signed range.  Where C leaves a signed overflow undefined this is what
    the two's complement arithmetic of the compiled code gives. *)
Definition wrap_int32 (z : Z) : Z := (z + 2 ^ 31) mod 2 ^ 32 - 2 ^ 31.

Fixpoint for_lt {S : Type} (fuel : nat) (i bound step : Z)
         (body : S -> outcome S) (s : S) : outcome S :=
  if i <? bound then
    match fuel with
    | O => Timeout
    | S fuel' =>
        s' <- body s ;;
        for_lt fuel' (wrap64 (i + step)) bound step body s'
    end
  else Done s.

(** [k] runs of a loop body in sequence. *)
Fixpoint iterate {S : Type} (k : nat) (body : S -> outcome S) (s : S)
  : outcome S :=
  match k with
  | O => Done s
  | S k' => s' <- body s ;; iterate k' body s'
  end.

(** ** Byte buffers *)

(** [n] bytes of [buf] from offset [off]: a read through a pointer. *)
Definition load (buf : list Z) (off n : Z) : outcome (list Z) :=
  if (off <? 0) || (n <? 0) || (Z.of_nat (List.length buf) <? off + n)
  then Fault
  else Done (firstn (Z.to_nat n) (skipn (Z.to_nat off) buf)).

(** The bytes [bs] written to [buf] at offset [off]. *)
Definition store (buf : list Z) (off : Z) (bs : list Z) : outcome (list Z) :=
  if (off <? 0) || (Z.of_nat (List.length buf) <? off + Z.of_nat (List.length bs))
  then Fault
  else Done (firstn (Z.to_nat off) buf ++ bs
             ++ skipn (Z.to_nat off + List.length bs) buf).

(** [memset(buf + off, c, n)]. *)
Definition memset (buf : list Z) (off c n : Z) : outcome (list Z) :=
  if n <? 0 then Fault else store buf off (repeat c (Z.to_nat n)).

(** [memcpy(dst + doff, src + soff, n)]. *)
Definition memcpy (dst : list Z) (doff : Z) (src : list Z) (soff n : Z)
  : outcome (list Z) :=
  bs <- load src soff n ;;
  store dst doff bs.

Definition g_assert (b : bool) : outcome unit :=
  if b then Done tt else Abort.

(** ** Facts on loops and buffers *)

Lemma iota_length (lo : Z) (n : nat) : List.length (iota lo n) = n.
Proof. revert lo; induction n; simpl; intros; [reflexivity|]. now rewrite IHn. Qed.

Lemma iota_In (lo : Z) (n : nat) (i : Z) :
  In i (iota lo n) <-> lo <= i < lo + Z.of_nat n.
Proof.
  revert lo; induction n; simpl; intros lo.
  - lia.
  - rewrite IHn. lia.
Qed.


Lemma range_cons (lo hi : Z) : lo < hi -> range lo hi = lo :: range (lo + 1) hi.
Proof.
  intros H. unfold range.
  replace (Z.to_nat (hi - lo)) with (S (Z.to_nat (hi - (lo + 1)))) by lia.
  reflexivity.
Qed.

Lemma range_nil (lo hi : Z) : hi <= lo -> range lo hi = [].
Proof.
  intros H. unfold range. replace (Z.to_nat (hi - lo)) with 0%nat by lia.
  reflexivity.
Qed.

(** A loop whose every iteration falls through with the state unchanged. *)
Lemma for_each_idle {S R : Type} (idx : list Z)
      (body : Z -> S -> outcome (ctl S R)) (s : S) :
  (forall i, In i idx -> body i s = Done (Next s)) ->
  for_each idx body s = Done (Next s).
Proof.
  induction idx as [|i rest IH]; intros H; [reflexivity|].
  cbn [for_each]. rewrite (H i (or_introl eq_refl)). cbn [bind].
  apply IH. intros j Hj. apply H. now right.
Qed.

Lemma store_ok (buf : list Z) (off : Z) (bs : list Z) :
  0 <= off -> off + Z.of_nat (List.length bs) <= Z.of_nat (List.length buf) ->
  store buf off bs =
  Done (firstn (Z.to_nat off) buf ++ bs
        ++ skipn (Z.to_nat off + List.length bs) buf).
Proof.
  intros H0 H1. unfold store.
  destruct (Z.ltb_spec off 0); [lia|].
  destruct (Z.ltb_spec (Z.of_nat (List.length buf))
                       (off + Z.of_nat (List.length bs))); [lia|].
  reflexivity.
Qed.

Lemma store_length (buf : list Z) (off : Z) (bs out : list Z) :
  store buf off bs = Done out -> List.length out = List.length buf.
Proof.
  unfold store.
  destruct (Z.ltb_spec off 0); [discriminate|].
  destruct (Z.ltb_spec (Z.of_nat (List.length buf))
                       (off + Z.of_nat (List.length bs))); [discriminate|].
  cbn [orb]. intros [= <-].
  rewrite !length_app, length_firstn, length_skipn. lia.
Qed.

Lemma load_ok (buf : list Z) (off n : Z) :
  0 <= off -> 0 <= n -> off + n <= Z.of_nat (List.length buf) ->
  load buf off n = Done (firstn (Z.to_nat n) (skipn (Z.to_nat off) buf)).
Proof.
  intros H0 H1 H2. unfold load.
  destruct (Z.ltb_spec off 0); [lia|].
  destruct (Z.ltb_spec n 0); [lia|].
  destruct (Z.ltb_spec (Z.of_nat (List.length buf)) (off + n)); [lia|].
  reflexivity.
Qed.

(** Clearing the first [n] bytes of a buffer that has them. *)
Lemma memset_ok (buf : list Z) (c n : Z) :
  0 <= n <= Z.of_nat (List.length buf) ->
  memset buf 0 c n = Done (repeat c (Z.to_nat n) ++ skipn (Z.to_nat n) buf).
Proof.
  intros H. unfold memset. destruct (Z.ltb_spec n 0); [lia|].
  rewrite store_ok by (rewrite ?repeat_length; lia).
  rewrite repeat_length. reflexivity.
Qed.

Lemma memset_all (buf : list Z) (c n : Z) :
  n = Z.of_nat (List.length buf) ->
  memset buf 0 c n = Done (repeat c (Z.to_nat n)).
Proof.
  intros ->. rewrite memset_ok by lia.
  rewrite Nat2Z.id, skipn_all, app_nil_r. reflexivity.
Qed.

Lemma wrap64_id (z : Z) : 0 <= z < 2 ^ 64 -> wrap64 z = z.
Proof. intros H. unfold wrap64. apply Z.mod_small. exact H. Qed.

Lemma wrap_int32_id (z : Z) : - 2 ^ 31 <= z < 2 ^ 31 -> wrap_int32 z = z.
Proof.
  intros H. unfold wrap_int32.
  change (2 ^ 31) with 2147483648 in *. change (2 ^ 32) with 4294967296.
  rewrite Z.mod_small; lia.
Qed.

Lemma wrap64_minus_one : wrap64 (-1) = 18446744073709551615.
Proof. reflexivity. Qed.

(** A [size_t] loop that does not wrap runs its body a known number of
    times. *)
Lemma for_lt_iterate {S : Type} (bound step : Z) (body : S -> outcome S)
      (n : nat) :
  forall (fuel : nat) (i : Z) (s : S),
    (n <= fuel)%nat -> 0 <= i -> 0 < step -> bound + step <= 2 ^ 64 ->
    bound <= i + Z.of_nat n * step ->
    (n <> 0%nat -> i + (Z.of_nat n - 1) * step < bound) ->
    for_lt fuel i bound step body s = iterate n body s.
Proof.
  induction n as [|n IH]; intros fuel i s Hfuel Hi Hstep Hb Hup Hlow.
  - destruct fuel; cbn [for_lt iterate];
      (destruct (Z.ltb_spec i bound); [lia|reflexivity]).
  - destruct fuel as [|fuel]; [lia|]. cbn [for_lt iterate].
    assert (Hi' : i < bound) by (specialize (Hlow ltac:(lia)); nia).
    destruct (Z.ltb_spec i bound); [|lia].
    rewrite wrap64_id by lia.
    destruct (body s) as [s'| | |]; cbn [bind]; try reflexivity.
    apply IH; try lia; try nia;
      try (intros Hn; specialize (Hlow ltac:(lia)); nia).
Qed.

(** A loop that has an iteration to run and whose body faults at once. *)
Lemma for_lt_faults {S : Type} (fuel : nat) (i bound step : Z)
      (body : S -> outcome S) (s : S) :
  fuel <> 0%nat -> i < bound -> body s = Fault ->
  for_lt fuel i bound step body s = Fault.
Proof.
  intros Hf Hi Hb. destruct fuel as [|fuel]; [congruence|].
  cbn [for_lt]. destruct (Z.ltb_spec i bound); [|lia].
  rewrite Hb. reflexivity.
Qed.

Lemma load_faults (buf : list Z) (off n : Z) :
  Z.of_nat (List.length buf) < off + n -> load buf off n = Fault.
Proof.
  intros H. unfold load.
  destruct (Z.ltb_spec (Z.of_nat (List.length buf)) (off + n)); [|lia].
  now rewrite !orb_true_r.
Qed.

Lemma iterate_add {S : Type} (a b : nat) (body : S -> outcome S) (s : S) :
  iterate (a + b) body s = (s' <- iterate a body s ;; iterate b body s').
Proof.
  revert s. induction a as [|a IH]; intros s; cbn [iterate Nat.add bind].
  - reflexivity.
  - destruct (body s); cbn [bind]; auto.
Qed.

Lemma firstn_plus {A : Type} (a b : nat) (l : list A) :
  firstn (a + b) l = firstn a l ++ firstn b (skipn a l).
Proof.
  revert l. induction a as [|a IH]; intros l; [reflexivity|].
  destruct l as [|x l]; simpl.
  - now rewrite firstn_nil.
  - now rewrite IH.
Qed.

Lemma skipn_plus {A : Type} (a b : nat) (l : list A) :
  skipn (a + b) l = skipn b (skipn a l).
Proof.
  revert l. induction a as [|a IH]; intros l; [reflexivity|].
  destruct l as [|x l]; simpl.
  - now rewrite skipn_nil.
  - apply IH.
Qed.

(** A store right after the part of the buffer that is already final. *)
Lemma store_app (done rest bs : list Z) (off : Z) :
  off = Z.of_nat (List.length done) ->
  (List.length bs <= List.length rest)%nat ->
  store (done ++ rest) off bs = Done (done ++ bs ++ skipn (List.length bs) rest).
Proof.
  intros -> Hlen. rewrite store_ok by (rewrite ?length_app; lia).
  rewrite Nat2Z.id, firstn_app, firstn_all, Nat.sub_diag, firstn_O, app_nil_r.
  rewrite skipn_app, skipn_all2 by lia.
  replace (List.length done + List.length bs - List.length done)%nat
    with (List.length bs) by lia.
  reflexivity.
Qed.

Lemma load_length (buf : list Z) (off n : Z) (bs : list Z) :
  load buf off n = Done bs -> List.length bs = Z.to_nat n.
Proof.
  unfold load.
  destruct (Z.ltb_spec off 0); [discriminate|].
  destruct (Z.ltb_spec n 0); [discriminate|].
  destruct (Z.ltb_spec (Z.of_nat (List.length buf)) (off + n)); [discriminate|].
  cbn [orb]. intros [= <-]. rewrite length_firstn, length_skipn. lia.
Qed.

Lemma range_In (lo hi i : Z) : In i (range lo hi) <-> lo <= i < hi.
Proof. unfold range. rewrite iota_In. lia. Qed.

(** A property of all numbers of a range, decided by running through
    the range. *)
Lemma forall_range (P : Z -> bool) (lo hi : Z) :
  forallb P (range lo hi) = true ->
  forall i, lo <= i < hi -> P i = true.
Proof.
  intros H i Hi. rewrite forallb_forall in H. apply H, range_In, Hi.
Qed.

Lemma Forall_firstn_keep {A : Type} (P : A -> Prop) (n : nat) (l : list A) :
  Forall P l -> Forall P (firstn n l).
Proof.
  intros H. revert n. induction H as [|x l Hx Hl IH]; intros [|n]; simpl;
    constructor; auto.
Qed.

Lemma Forall_skipn_keep {A : Type} (P : A -> Prop) (n : nat) (l : list A) :
  Forall P l -> Forall P (skipn n l).
Proof.
  intros H. revert n. induction H as [|x l Hx Hl IH]; intros [|n]; simpl;
    auto.
Qed.

(** ** Bytes packed into a word *)

(** Bits that do not overlap add up. *)
Lemma lor_shiftl_low (a b n : Z) :
  0 <= n -> 0 <= b < 2 ^ n -> Z.lor (Z.shiftl a n) b = a * 2 ^ n + b.
Proof.
  intros Hn Hb.
  rewrite <- (Z.shiftl_mul_pow2 a n Hn), <- Z.add_lor_land.
  assert (H0 : Z.land (Z.shiftl a n) b = 0).
  { apply Z.bits_inj'. intros k Hk.
    rewrite Z.land_spec, Z.bits_0.
    destruct (Z.ltb_spec k n).
    - rewrite Z.shiftl_spec_low by lia. reflexivity.
    - rewrite <- (Z.mod_small b (2 ^ n)) by lia.
      rewrite Z.mod_pow2_bits_high by lia. apply andb_false_r. }
  rewrite H0. lia.
Qed.

Lemma lor_low_shiftl (a b n : Z) :
  0 <= n -> 0 <= b < 2 ^ n -> Z.lor b (Z.shiftl a n) = a * 2 ^ n + b.
Proof. intros Hn Hb. rewrite Z.lor_comm. apply lor_shiftl_low; assumption. Qed.

(** [v & 0xFF] and [v >> k] as arithmetic. *)
Lemma land_255 (v : Z) : Z.land v 255 = v mod 256.
Proof. apply (Z.land_ones v 8). lia. Qed.

Lemma shiftr_div (v k : Z) : 0 <= k -> Z.shiftr v k = v / 2 ^ k.
Proof. intros H. apply Z.shiftr_div_pow2, H. Qed.
(** ** C doubles *)

Module Dbl.
Local Open Scope float_scope.

(** [(double) z] for an integer [z]: rounding to nearest even. *)
Definition of_int (z : Z) : float :=
  SF2Prim (binary_normalize 53 1024 z 0 false).

(** [(int64_t) f]: the fractional part is discarded.  The conversion of
    a NaN, an infinity or a value outside the range of the target is
    undefined in C; the model returns what the formula gives. *)
Definition to_int (f : float) : Z :=
  match Prim2SF f with
  | S754_finite s m e =>
      let a := if (0 <=? e)%Z then (Z.pos m * 2 ^ e)%Z
               else (Z.pos m / 2 ^ (- e))%Z in
      if s then (- a)%Z else a
  | _ => 0%Z
  end.

Definition is_nan (f : float) : bool := PrimFloat.is_nan f.

(** Facts on the comparison of the specification floats. *)
Lemma SFcompare_antisym (a b : spec_float) :
  SFcompare b a = option_map CompOpp (SFcompare a b).
Proof.
  destruct a as [sa|sa| |sa ma ea], b as [sb|sb| |sb mb eb]; simpl;
    try reflexivity; try (destruct sa; reflexivity);
    try (destruct sb; reflexivity);
    try (destruct sa, sb; reflexivity).
  f_equal.
  rewrite (Z.compare_antisym ea eb).
  change (PosDef.Pos.compare_cont Eq mb ma) with (Pos.compare mb ma).
  change (PosDef.Pos.compare_cont Eq ma mb) with (Pos.compare ma mb).
  rewrite (Pos.compare_antisym ma mb).
  destruct sa, sb; simpl; try reflexivity;
    destruct (ea ?= eb)%Z; simpl; try reflexivity;
    destruct (ma ?= mb)%positive; reflexivity.
Qed.

Lemma SFcompare_nan_iff (a b : spec_float) :
  SFcompare a b = None <-> a = S754_nan \/ b = S754_nan.
Proof.
  destruct a as [sa|sa| |sa ma ea], b as [sb|sb| |sb mb eb]; simpl;
    split; intros H; try discriminate; auto;
    try (destruct H as [H|H]; discriminate).
Qed.

Lemma SFltb_le_trans (t a b : spec_float) :
  SFltb t a = true -> SFltb b a = false -> b <> S754_nan ->
  SFltb t b = true.
Proof.
  unfold SFltb.
  destruct t as [st|st| |st mt et], a as [sa|sa| |sa ma ea],
           b as [sb|sb| |sb mb eb]; simpl;
    intros H1 H2 H3; try discriminate; try congruence;
    try (destruct st; discriminate); try (destruct sa; discriminate);
    try (destruct sb; discriminate);
    try (destruct st, sa; discriminate);
    try (destruct sa, sb; discriminate);
    try (destruct st, sb; reflexivity || discriminate);
    try (destruct st, sa, sb; reflexivity || discriminate).
  all: change PosDef.Pos.compare_cont with Pos.compare_cont in *;
    change (Pos.compare_cont Eq) with Pos.compare in *.
  all: destruct st, sa, sb; try discriminate; try reflexivity.
  all: repeat match goal with
         | H : context [(?x ?= ?y)%Z] |- _ =>
             destruct (Z.compare_spec x y); simpl in H
         | H : context [(?x ?= ?y)%positive] |- _ =>
             destruct (Pos.compare_spec x y); simpl in H
         end; try discriminate.
  all: repeat match goal with
         | |- context [(?x ?= ?y)%Z] =>
             destruct (Z.compare_spec x y); simpl
         | |- context [(?x ?= ?y)%positive] =>
             destruct (Pos.compare_spec x y); simpl
         end; try reflexivity; subst; try lia.
Qed.

Lemma is_nan_spec (f : float) : is_nan f = false -> Prim2SF f <> S754_nan.
Proof.
  unfold is_nan, PrimFloat.is_nan. rewrite eqb_spec. intros H E.
  rewrite E in H. discriminate.
Qed.

(** [t < a] and [a <= b] (the latter as the failed test [b < a] on a
    number) give [t < b]. *)
Lemma ltb_le_trans (t a b : float) :
  (t <? a) = true -> (b <? a) = false -> is_nan b = false ->
  (t <? b) = true.
Proof.
  rewrite !ltb_spec. intros H1 H2 H3.
  eapply SFltb_le_trans; eauto using is_nan_spec.
Qed.

(** On numbers, a failed [a < b] is [b <= a]. *)
Lemma not_ltb_leb (a b : float) :
  is_nan a = false -> is_nan b = false -> (a <? b) = false ->
  (b <=? a) = true.
Proof.
  rewrite ltb_spec, leb_spec. intros Ha Hb.
  apply is_nan_spec in Ha. apply is_nan_spec in Hb.
  unfold SFltb, SFleb. rewrite (SFcompare_antisym (Prim2SF a) (Prim2SF b)).
  destruct (SFcompare (Prim2SF a) (Prim2SF b)) as [[]|] eqn:E; simpl;
    try reflexivity; try discriminate.
  apply SFcompare_nan_iff in E. tauto.
Qed.

(** [t < a] and [a == b] give [t < b]. *)
Lemma ltb_eqb_trans (t a b : float) :
  (t <? a) = true -> (a =? b) = true -> (t <? b) = true.
Proof.
  rewrite !ltb_spec, eqb_spec. intros H1 H2. unfold SFeqb in H2.
  apply (SFltb_le_trans _ (Prim2SF a)); [exact H1| |].
  - unfold SFltb. rewrite (SFcompare_antisym (Prim2SF a) (Prim2SF b)).
    destruct (SFcompare (Prim2SF a) (Prim2SF b)) as [[]|]; simpl;
      try discriminate; reflexivity.
  - intros E.
    assert (Hn : SFcompare (Prim2SF a) (Prim2SF b) = None)
      by (apply SFcompare_nan_iff; right; exact E).
    rewrite Hn in H2. discriminate.
Qed.

Lemma ltb_not_leb (a b : float) : (a <? b) = true -> (b <=? a) = false.
Proof.
  rewrite ltb_spec, leb_spec. unfold SFltb, SFleb.
  rewrite (SFcompare_antisym (Prim2SF a) (Prim2SF b)).
  destruct (SFcompare (Prim2SF a) (Prim2SF b)) as [[]|]; simpl;
    try reflexivity; discriminate.
Qed.
End Dbl.

(** ** Row padding (openslide-image.h, openslide-image.c) *)

Module Pad.

(** [CAIRO_STRIDE_FOR_WIDTH_BPP]: the row size in bytes, rounded up to a
    multiple of four.  Its arguments are [int]s at every use: the product,
    the sum and the quotient are [int] arithmetic.  [CAIRO_STRIDE_ALIGNMENT]
    is a [sizeof], so the quotient is converted to [size_t] before the
    alignment is added and masked, and the macro's value is a [size_t]. *)
Definition CAIRO_STRIDE_ALIGNMENT : Z := 4.
Definition CAIRO_STRIDE_FOR_WIDTH_BPP (w bpp : Z) : Z :=
  Z.land (wrap64 (Z.quot (wrap_int32 (wrap_int32 (bpp * w) + 7)) 8
                  + CAIRO_STRIDE_ALIGNMENT - 1))
         (wrap64 (- CAIRO_STRIDE_ALIGNMENT)).

(** The row loop shared by the two functions: [memcpy(dst, src, w_bytes)],
    then [src += src_step; dst += dst_step]. *)
Definition copy_rows (src dst : list Z) (h w_bytes src_step dst_step : Z)
  : outcome (list Z) :=
  c <- for_each (R := unit) (range 0 h)
         (fun _ '(soff, doff, dst) =>
            dst' <- memcpy dst doff src soff w_bytes ;;
            Done (Next (soff + src_step, doff + dst_step, dst')))
         (0, 0, dst) ;;
  match c with
  | Next (_, _, dst') => Done dst'
  | Ret _ => Done dst
  end.

(** [(size_t) h * n] for an [int32_t] [n]: both operands as [size_t]s and
    their product modulo 2^64. *)
Definition size_of_rows (h n : Z) : Z := wrap64 (wrap64 h * wrap64 n).

(** padding rows in image so that they align to 4 byte boundary.
    [pixel_bytes] is an [int], [w] and [h] are [int32_t]s, [src_len] and
    [dst_len] are [size_t]s; [stride] and [w_bytes] are [int32_t]s. *)
Definition _openslide_add_row_padding (src : list Z) (src_len : Z)
           (dst : list Z) (dst_len : Z) (pixel_bytes w h : Z)
  : outcome (list Z) :=
  let stride :=
    wrap_int32 (CAIRO_STRIDE_FOR_WIDTH_BPP w (wrap_int32 (pixel_bytes * 8))) in
  let w_bytes := wrap_int32 (w * pixel_bytes) in
  _ <- g_assert (size_of_rows h w_bytes =? src_len) ;;
  _ <- g_assert (size_of_rows h stride =? dst_len) ;;
  copy_rows src dst h w_bytes w_bytes stride.

(** remove 4 byte alignment padding from image rows *)
Definition _openslide_del_row_padding (src : list Z) (src_len : Z)
           (dst : list Z) (dst_len : Z) (pixel_bytes w h : Z)
  : outcome (list Z) :=
  let stride :=
    wrap_int32 (CAIRO_STRIDE_FOR_WIDTH_BPP w (wrap_int32 (pixel_bytes * 8))) in
  let w_bytes := wrap_int32 (w * pixel_bytes) in
  _ <- g_assert (size_of_rows h stride =? src_len) ;;
  _ <- g_assert (size_of_rows h w_bytes =? dst_len) ;;
  copy_rows src dst h w_bytes stride w_bytes.

(** *** The stride *)

Lemma land_minus_4 (x : Z) : Z.land x (-4) = 4 * (x / 4).
Proof.
  change (-4) with (Z.lnot (Z.ones 2)).
  rewrite <- Z.ldiff_land, Z.ldiff_ones_r by lia.
  rewrite Z.shiftr_div_pow2, Z.shiftl_mul_pow2 by lia.
  change (2 ^ 2) with 4. lia.
Qed.

Lemma land_size_t_minus_4 (x : Z) :
  0 <= x < 2 ^ 64 -> Z.land x (wrap64 (-4)) = 4 * (x / 4).
Proof.
  intros Hx. change (wrap64 (-4)) with (Z.land (Z.ones 64) (-4)).
  rewrite Z.land_assoc, Z.land_ones, Z.mod_small by lia.
  apply land_minus_4.
Qed.

(** Within the range of an [int] the macro is the row size rounded up:
    no product or sum wraps when the row is shorter than 2^28 bytes. *)
Lemma stride_value (w pixel_bytes : Z) :
  0 <= w -> 0 <= pixel_bytes -> w * pixel_bytes < 2 ^ 28 ->
  CAIRO_STRIDE_FOR_WIDTH_BPP w (pixel_bytes * 8)
  = 4 * ((w * pixel_bytes + 3) / 4).
Proof.
  intros Hw Hp Hr. unfold CAIRO_STRIDE_FOR_WIDTH_BPP, CAIRO_STRIDE_ALIGNMENT.
  assert (H28 : 2 ^ 28 = 268435456) by reflexivity.
  assert (H31 : 2 ^ 31 = 2147483648) by reflexivity.
  assert (H64 : 2 ^ 64 = 18446744073709551616) by reflexivity.
  assert (H0 : 0 <= w * pixel_bytes) by nia.
  rewrite (wrap_int32_id (pixel_bytes * 8 * w)) by lia.
  rewrite wrap_int32_id by lia.
  rewrite Z.quot_div_nonneg by lia.
  replace (pixel_bytes * 8 * w + 7) with (7 + (w * pixel_bytes) * 8) by lia.
  rewrite Z.div_add by lia. change (7 / 8) with 0.
  rewrite wrap64_id by lia.
  rewrite land_size_t_minus_4 by lia.
  replace (0 + w * pixel_bytes + 4 - 1) with (w * pixel_bytes + 3) by lia.
  reflexivity.
Qed.

Lemma stride_bounds (w pixel_bytes : Z) :
  0 <= w -> 0 <= pixel_bytes -> w * pixel_bytes < 2 ^ 28 ->
  w * pixel_bytes <= CAIRO_STRIDE_FOR_WIDTH_BPP w (pixel_bytes * 8)
  /\ CAIRO_STRIDE_FOR_WIDTH_BPP w (pixel_bytes * 8) < w * pixel_bytes + 4.
Proof.
  intros Hw Hp Hr. rewrite stride_value by assumption.
  pose proof (Z.div_mod (w * pixel_bytes + 3) 4 ltac:(lia)) as Hd.
  pose proof (Z.mod_pos_bound (w * pixel_bytes + 3) 4 ltac:(lia)) as Hm.
  lia.
Qed.

(** X7.  For a row of [w] pixels of [pixel_bytes] bytes, both in the range
    of an [int], that is shorter than 2^28 bytes (so that the [int]
    arithmetic of the macro does not overflow) the stride is the least
    multiple of four that holds the row; it is the row size exactly when
    that is a multiple of four, and it fits the [int32_t] the callers
    store it in. *)
Theorem stride_is_row_rounded_up (w pixel_bytes : Z) :
  0 <= w < 2 ^ 31 -> 0 <= pixel_bytes < 2 ^ 28 -> w * pixel_bytes < 2 ^ 28 ->
  let stride := CAIRO_STRIDE_FOR_WIDTH_BPP w (pixel_bytes * 8) in
  stride mod 4 = 0 /\
  w * pixel_bytes <= stride < w * pixel_bytes + 4 /\
  (stride = w * pixel_bytes <-> (w * pixel_bytes) mod 4 = 0) /\
  wrap_int32 stride = stride.
Proof.
  intros [Hw _] [Hp _] Hr stride.
  assert (Hb : w * pixel_bytes <= stride < w * pixel_bytes + 4)
    by (apply stride_bounds; assumption).
  assert (H0 : 0 <= w * pixel_bytes) by nia.
  revert Hb. unfold stride. rewrite stride_value by assumption. intros Hb.
  set (r := w * pixel_bytes) in *.
  pose proof (Z.div_mod (r + 3) 4 ltac:(lia)) as Hd.
  pose proof (Z.mod_pos_bound (r + 3) 4 ltac:(lia)) as Hm.
  pose proof (Z.div_mod r 4 ltac:(lia)) as Hd'.
  pose proof (Z.mod_pos_bound r 4 ltac:(lia)) as Hm'.
  split; [|split; [|split]].
  - rewrite Z.mul_comm. apply Z.mod_mul. lia.
  - lia.
  - split; intros H.
    + rewrite <- H, Z.mul_comm. apply Z.mod_mul. lia.
    + lia.
  - apply wrap_int32_id. change (2 ^ 28) with 268435456 in Hr.
    change (2 ^ 31) with 2147483648. lia.
Qed.

Lemma stride_is_row_rounded_up_witness :
  CAIRO_STRIDE_FOR_WIDTH_BPP 3 (2 * 8) mod 4 = 0 /\
  3 * 2 <= CAIRO_STRIDE_FOR_WIDTH_BPP 3 (2 * 8) < 3 * 2 + 4 /\
  (CAIRO_STRIDE_FOR_WIDTH_BPP 3 (2 * 8) = 3 * 2 <-> (3 * 2) mod 4 = 0) /\
  wrap_int32 (CAIRO_STRIDE_FOR_WIDTH_BPP 3 (2 * 8))
  = CAIRO_STRIDE_FOR_WIDTH_BPP 3 (2 * 8).
Proof. apply (stride_is_row_rounded_up 3 2); simpl; lia. Defined.

(** A row of 2^28 bytes is where the [int] product of the macro first
    overflows: the stride the row functions compute is negative. *)
Example stride_of_a_row_of_2_28_bytes :
  wrap_int32 (CAIRO_STRIDE_FOR_WIDTH_BPP 268435456 (1 * 8)) = -268435452.
Proof. vm_compute. reflexivity. Qed.

(** *** Copying rows *)

(** The destination after [n] rows were copied: of every [sstep] source
    bytes the first [wb] are written, and the destination keeps the
    [dstep - wb] bytes that follow them. *)
Fixpoint rows_into (wb sstep dstep : nat) (n : nat) (s d : list Z) : list Z :=
  match n with
  | O => d
  | S n' =>
      firstn wb s ++ firstn (dstep - wb) (skipn wb d)
      ++ rows_into wb sstep dstep n' (skipn sstep s) (skipn dstep d)
  end.

Lemma rows_into_length (wb sstep dstep n : nat) :
  (wb <= sstep)%nat -> (wb <= dstep)%nat ->
  forall s d, (n * sstep <= List.length s)%nat ->
              (n * dstep <= List.length d)%nat ->
              List.length (rows_into wb sstep dstep n s d) = List.length d.
Proof.
  intros Hs Hd. induction n as [|n IH]; intros s d H1 H2; [reflexivity|].
  cbn [rows_into]. rewrite !length_app, IH, !length_firstn, !length_skipn;
    rewrite ?length_skipn; lia.
Qed.

(** Unpadding: byte [j] of row [i] of the result is byte [j] of row [i] of
    the padded source. *)
Lemma rows_into_nth (wb sstep : nat) :
  (wb <= sstep)%nat ->
  forall (n : nat) (s d : list Z) (i j : nat),
    (i < n)%nat -> (j < wb)%nat ->
    (i * sstep + wb <= List.length s)%nat ->
    nth (i * wb + j) (rows_into wb sstep wb n s d) 0 = nth (i * sstep + j) s 0.
Proof.
  intros Hws. induction n as [|n IH]; intros s d i j Hi Hj Hs; [lia|].
  cbn [rows_into]. rewrite Nat.sub_diag. cbn [firstn app].
  assert (Hf : List.length (firstn wb s) = wb)
    by (rewrite length_firstn; lia).
  destruct i as [|i].
  - cbn [Nat.mul Nat.add]. rewrite app_nth1 by lia.
    rewrite nth_firstn. destruct (Nat.ltb_spec j wb); [reflexivity|lia].
  - rewrite app_nth2 by (rewrite Hf; cbn [Nat.mul]; lia).
    rewrite Hf.
    replace (S i * wb + j - wb)%nat with (i * wb + j)%nat
      by (cbn [Nat.mul]; lia).
    rewrite IH; [|lia|lia|rewrite length_skipn; cbn [Nat.mul] in Hs; lia].
    rewrite nth_skipn. f_equal. cbn [Nat.mul]. lia.
Qed.

Lemma next_eq (a a' b b' : Z) (d d' : list Z) :
  a = a' -> b = b' -> d = d' ->
  @Done (ctl (Z * Z * list Z) unit) (Next (a, b, d)) = Done (Next (a', b', d')).
Proof. intros; subst; reflexivity. Qed.

Section CopyRows.

Variables (src : list Z) (w_bytes src_step dst_step : Z).
Hypothesis row_fits_src : 0 <= w_bytes <= src_step.
Hypothesis row_fits_dst : w_bytes <= dst_step.

Let body := fun (_ : Z) (st : Z * Z * list Z) =>
  let '(soff, doff, dst) := st in
  dst' <- memcpy dst doff src soff w_bytes ;;
  Done (@Next _ unit (soff + src_step, doff + dst_step, dst')).

Lemma copy_rows_loop (idx : list Z) :
  forall (soff : Z) (done rest : list Z),
    0 <= soff ->
    soff + Z.of_nat (List.length idx) * src_step
      <= Z.of_nat (List.length src) ->
    Z.of_nat (List.length idx) * dst_step <= Z.of_nat (List.length rest) ->
    for_each idx body (soff, Z.of_nat (List.length done), done ++ rest) =
    Done (Next (soff + Z.of_nat (List.length idx) * src_step,
                Z.of_nat (List.length done)
                + Z.of_nat (List.length idx) * dst_step,
                done ++ rows_into (Z.to_nat w_bytes) (Z.to_nat src_step)
                                  (Z.to_nat dst_step) (List.length idx)
                                  (skipn (Z.to_nat soff) src) rest)).
Proof.
  induction idx as [|i idx IH]; intros soff done rest H0 H1 H2.
  - cbn [for_each List.length rows_into]. apply next_eq; [lia|lia|reflexivity].
  - cbn [List.length] in *. cbn [for_each]. unfold body at 1. unfold memcpy.
    rewrite load_ok by nia. cbn [bind].
    set (row := firstn (Z.to_nat w_bytes) (skipn (Z.to_nat soff) src)).
    assert (Hrow : List.length row = Z.to_nat w_bytes).
    { unfold row. rewrite length_firstn, length_skipn. nia. }
    rewrite store_app by (try reflexivity; rewrite Hrow; nia). cbn [bind].
    rewrite Hrow.
    set (pad := firstn (Z.to_nat dst_step - Z.to_nat w_bytes)
                       (skipn (Z.to_nat w_bytes) rest)).
    assert (Hpad : List.length pad = (Z.to_nat dst_step - Z.to_nat w_bytes)%nat).
    { unfold pad. rewrite length_firstn, length_skipn. nia. }
    assert (Hsplit : skipn (Z.to_nat w_bytes) rest
                     = pad ++ skipn (Z.to_nat dst_step) rest).
    { unfold pad.
      replace (Z.to_nat dst_step)
        with (Z.to_nat w_bytes + (Z.to_nat dst_step - Z.to_nat w_bytes))%nat
        at 2 by lia.
      rewrite skipn_plus, firstn_skipn. reflexivity. }
    rewrite Hsplit.
    replace (done ++ row ++ pad ++ skipn (Z.to_nat dst_step) rest)
      with ((done ++ row ++ pad) ++ skipn (Z.to_nat dst_step) rest)
      by (rewrite <- !app_assoc; reflexivity).
    replace (Z.of_nat (List.length done) + dst_step)
      with (Z.of_nat (List.length (done ++ row ++ pad)))
      by (rewrite !length_app, Hrow, Hpad; lia).
    rewrite IH; [|lia|nia|rewrite length_skipn; nia].
    cbn [rows_into]. fold row pad.
    rewrite !length_app, Hrow, Hpad, <- !app_assoc.
    replace (Z.to_nat (soff + src_step))
      with (Z.to_nat soff + Z.to_nat src_step)%nat by lia.
    rewrite skipn_plus.
    apply next_eq; [lia|lia|reflexivity].
Qed.

Lemma copy_rows_spec (dst : list Z) (h : Z) :
  0 <= h ->
  h * src_step <= Z.of_nat (List.length src) ->
  h * dst_step <= Z.of_nat (List.length dst) ->
  copy_rows src dst h w_bytes src_step dst_step =
  Done (rows_into (Z.to_nat w_bytes) (Z.to_nat src_step) (Z.to_nat dst_step)
                  (Z.to_nat h) src dst).
Proof.
  intros Hh H1 H2. unfold copy_rows.
  pose proof (copy_rows_loop (range 0 h) 0 [] dst) as L.
  unfold range in L. rewrite iota_length, Z.sub_0_r in L.
  cbn [List.length app skipn Z.to_nat] in L. change (Z.of_nat 0) with 0 in L.
  fold body.
  unfold range. rewrite Z.sub_0_r.
  rewrite L by lia. reflexivity.
Qed.

End CopyRows.

(** *** Padding and removing it again *)

Lemma rows_round_trip (wb stride : nat) :
  (wb <= stride)%nat ->
  forall (n : nat) (src dst out : list Z),
    (n * wb <= List.length src)%nat ->
    (n * stride <= List.length dst)%nat ->
    (n * wb <= List.length out)%nat ->
    rows_into wb stride wb n (rows_into wb wb stride n src dst) out
    = firstn (n * wb) src ++ skipn (n * wb) out.
Proof.
  intros Hws. induction n as [|n IH]; intros src dst out H1 H2 H3;
    [reflexivity|].
  cbn [rows_into].
  set (A := firstn wb src).
  set (P := firstn (stride - wb) (skipn wb dst)).
  set (R := rows_into wb wb stride n (skipn wb src) (skipn stride dst)).
  assert (HA : List.length A = wb) by (unfold A; rewrite length_firstn; lia).
  assert (HP : List.length P = (stride - wb)%nat)
    by (unfold P; rewrite length_firstn, length_skipn; lia).
  rewrite firstn_app, HA, Nat.sub_diag, firstn_O, app_nil_r.
  rewrite (firstn_all2 A) by lia. cbn [app].
  replace (skipn stride (A ++ P ++ R)) with R.
  2:{ rewrite (app_assoc A P R), skipn_app, length_app, HA, HP.
      rewrite (skipn_all2 (A ++ P)) by (rewrite length_app; lia).
      replace (stride - (wb + (stride - wb)))%nat with 0%nat by lia.
      reflexivity. }
  unfold R. rewrite IH by (rewrite ?length_skipn; lia).
  unfold A. cbn [Nat.mul].
  rewrite (firstn_plus wb (n * wb) src), (skipn_plus wb (n * wb) out).
  rewrite <- app_assoc. reflexivity.
Qed.

Section RowPadding.

Variables (pixel_bytes w h : Z).
Hypothesis pixel_bytes_range : 0 <= pixel_bytes < 2 ^ 28.
Hypothesis w_range : 0 <= w < 2 ^ 31.
Hypothesis h_range : 0 <= h < 2 ^ 31.
Hypothesis row_range : w * pixel_bytes < 2 ^ 28.

Let stride := CAIRO_STRIDE_FOR_WIDTH_BPP w (pixel_bytes * 8).
Let w_bytes := w * pixel_bytes.

Lemma row_within_stride : 0 <= w_bytes <= stride /\ stride < 2 ^ 28 + 4.
Proof.
  pose proof (stride_bounds w pixel_bytes ltac:(lia) ltac:(lia) row_range)
    as [H1 H2].
  unfold w_bytes, stride. nia.
Qed.

(** The [int32_t]s and the [size_t]s of the two functions are the numbers
    they stand for. *)
Lemma stride_as_computed :
  wrap_int32 (CAIRO_STRIDE_FOR_WIDTH_BPP w (wrap_int32 (pixel_bytes * 8)))
  = stride.
Proof.
  pose proof row_within_stride as Hr.
  change (2 ^ 28) with 268435456 in *.
  rewrite (wrap_int32_id (pixel_bytes * 8))
    by (change (2 ^ 31) with 2147483648; lia).
  fold stride. apply wrap_int32_id. change (2 ^ 31) with 2147483648. lia.
Qed.

Lemma w_bytes_as_computed : wrap_int32 (w * pixel_bytes) = w_bytes.
Proof.
  pose proof row_within_stride as Hr.
  apply wrap_int32_id. fold w_bytes.
  change (2 ^ 28) with 268435456 in *. change (2 ^ 31) with 2147483648. lia.
Qed.

Lemma size_of_rows_value (n : Z) :
  0 <= n < 2 ^ 28 + 4 -> size_of_rows h n = h * n.
Proof.
  intros Hn. unfold size_of_rows.
  change (2 ^ 28) with 268435456 in *. change (2 ^ 31) with 2147483648 in *.
  assert (H64 : 2 ^ 64 = 18446744073709551616) by reflexivity.
  rewrite (wrap64_id h), (wrap64_id n) by lia.
  apply wrap64_id. nia.
Qed.

Lemma add_row_padding_rows (src dst : list Z) :
  Z.of_nat (List.length src) = h * w_bytes ->
  Z.of_nat (List.length dst) = h * stride ->
  _openslide_add_row_padding src (Z.of_nat (List.length src))
                             dst (Z.of_nat (List.length dst))
                             pixel_bytes w h =
  Done (rows_into (Z.to_nat w_bytes) (Z.to_nat w_bytes) (Z.to_nat stride)
                  (Z.to_nat h) src dst).
Proof.
  intros Hs Hd. pose proof row_within_stride as Hr.
  unfold _openslide_add_row_padding. cbv zeta.
  rewrite stride_as_computed, w_bytes_as_computed.
  rewrite !size_of_rows_value by lia.
  rewrite (proj2 (Z.eqb_eq _ _) (eq_sym Hs)).
  rewrite (proj2 (Z.eqb_eq _ _) (eq_sym Hd)). cbn [g_assert bind].
  apply copy_rows_spec; lia.
Qed.

Lemma del_row_padding_rows (src dst : list Z) :
  Z.of_nat (List.length src) = h * stride ->
  Z.of_nat (List.length dst) = h * w_bytes ->
  _openslide_del_row_padding src (Z.of_nat (List.length src))
                             dst (Z.of_nat (List.length dst))
                             pixel_bytes w h =
  Done (rows_into (Z.to_nat w_bytes) (Z.to_nat stride) (Z.to_nat w_bytes)
                  (Z.to_nat h) src dst).
Proof.
  intros Hs Hd. pose proof row_within_stride as Hr.
  unfold _openslide_del_row_padding. cbv zeta.
  rewrite stride_as_computed, w_bytes_as_computed.
  rewrite !size_of_rows_value by lia.
  rewrite (proj2 (Z.eqb_eq _ _) (eq_sym Hs)).
  rewrite (proj2 (Z.eqb_eq _ _) (eq_sym Hd)). cbn [g_assert bind].
  apply copy_rows_spec; lia.
Qed.

End RowPadding.

(** X8.  An image of [h] rows of [w] pixels, with arguments in the range
    of their C types and rows shorter than 2^28 bytes, padded into a buffer
    of [h] strides and unpadded again into a buffer of its own size, comes
    back as it was. *)
Theorem row_padding_round_trip
        (src dst out : list Z) (pixel_bytes w h : Z) :
  0 <= pixel_bytes < 2 ^ 28 -> 0 <= w < 2 ^ 31 -> 0 <= h < 2 ^ 31 ->
  w * pixel_bytes < 2 ^ 28 ->
  let stride := CAIRO_STRIDE_FOR_WIDTH_BPP w (pixel_bytes * 8) in
  let src_len := Z.of_nat (List.length src) in
  let dst_len := Z.of_nat (List.length dst) in
  src_len = h * (w * pixel_bytes) ->
  dst_len = h * stride ->
  List.length out = List.length src ->
  exists padded,
    _openslide_add_row_padding src src_len dst dst_len pixel_bytes w h
    = Done padded /\
    List.length padded = List.length dst /\
    _openslide_del_row_padding padded dst_len out src_len pixel_bytes w h
    = Done src.
Proof.
  intros Hp Hw Hh Hrow stride src_len dst_len Hs Hd Ho.
  pose proof (row_within_stride pixel_bytes w Hp Hw Hrow) as Hr.
  cbv zeta in Hr. fold stride in Hr.
  set (wb := Z.to_nat (w * pixel_bytes)) in *.
  set (padded := rows_into wb wb (Z.to_nat stride) (Z.to_nat h) src dst).
  assert (Hlen : List.length padded = List.length dst).
  { unfold padded. apply rows_into_length; unfold wb, src_len, dst_len in *; nia. }
  exists padded. split; [|split].
  - apply add_row_padding_rows; assumption.
  - exact Hlen.
  - unfold dst_len, src_len. rewrite <- Hlen, <- Ho.
    rewrite del_row_padding_rows;
      [|assumption..|rewrite Hlen; exact Hd|rewrite Ho; exact Hs].
    fold stride wb. unfold padded.
    rewrite rows_round_trip by (unfold wb, src_len, dst_len in *; nia).
    f_equal.
    replace (Z.to_nat h * wb)%nat with (List.length src)
      by (unfold wb, src_len in *; nia).
    rewrite firstn_all, <- Ho, skipn_all, app_nil_r. reflexivity.
Qed.

Lemma row_padding_round_trip_witness :
  exists padded,
    _openslide_add_row_padding [1; 2; 3; 4; 5; 6] 6 (repeat 9 8) 8 1 3 2
    = Done padded /\
    List.length padded = 8%nat /\
    _openslide_del_row_padding padded 8 (repeat 0 6) 6 1 3 2
    = Done [1; 2; 3; 4; 5; 6].
Proof.
  apply (row_padding_round_trip [1; 2; 3; 4; 5; 6] (repeat 9 8) (repeat 0 6)
                                1 3 2); try reflexivity; simpl; lia.
Defined.

End Pad.

(** ** JPEG XR codec adapter (openslide-decode-jxr.c) *)

Module Jxr.

(** jxrlib's [ERR] is a [long]; the codes are those of its header
    windowsmediaphoto.h. *)
Definition WMP_errSuccess : Z := 0.
Definition WMP_errFail : Z := -1.
Definition WMP_errNotYetImplemented : Z := -2.
Definition WMP_errAbstractMethod : Z := -3.
Definition WMP_errOutOfMemory : Z := -101.
Definition WMP_errFileIO : Z := -102.
Definition WMP_errBufferOverflow : Z := -103.
Definition WMP_errInvalidParameter : Z := -104.
Definition WMP_errInvalidArgument : Z := -105.
Definition WMP_errUnsupportedFormat : Z := -106.
Definition WMP_errIncorrectCodecVersion : Z := -107.
Definition WMP_errIndexNotFound : Z := -108.
Definition WMP_errOutOfSequence : Z := -109.
Definition WMP_errNotInitialized : Z := -110.
Definition WMP_errMustBeMultipleOf16LinesUntilLastCall : Z := -201.
Definition WMP_errPlanarAlphaBandedEncRequiresTempFile : Z := -202.
Definition WMP_errAlphaModeCannotBeTranscoded : Z := -203.
Definition WMP_errIncorrectCodecSubVersion : Z := -204.

(** [struct wmp_err_msg]; [msg = None] is the NULL of the last entry. *)
Record wmp_err_msg : Type := mk_msg {
  id : Z;
  msg : option string
}.

Definition msgs : list wmp_err_msg :=
  [ mk_msg WMP_errFail (Some "WMP_errFail"%string);
    mk_msg WMP_errNotYetImplemented (Some "WMP_errNotYetImplemented"%string);
    mk_msg WMP_errAbstractMethod (Some "WMP_errAbstractMethod"%string);
    mk_msg WMP_errOutOfMemory (Some "WMP_errOutOfMemory"%string);
    mk_msg WMP_errFileIO (Some "WMP_errFileIO"%string);
    mk_msg WMP_errBufferOverflow (Some "WMP_errBufferOverflow"%string);
    mk_msg WMP_errInvalidParameter (Some "WMP_errInvalidParameter"%string);
    mk_msg WMP_errInvalidArgument (Some "WMP_errInvalidArgument"%string);
    mk_msg WMP_errUnsupportedFormat (Some "WMP_errUnsupportedFormat"%string);
    mk_msg WMP_errIncorrectCodecVersion (Some "WMP_errIncorrectCodecVersion"%string);
    mk_msg WMP_errIndexNotFound (Some "WMP_errIndexNotFound"%string);
    mk_msg WMP_errOutOfSequence (Some "WMP_errOutOfSequence"%string);
    mk_msg WMP_errNotInitialized (Some "WMP_errNotInitialized"%string);
    mk_msg WMP_errMustBeMultipleOf16LinesUntilLastCall
           (Some "WMP_errMustBeMultipleOf16LinesUntilLastCall"%string);
    mk_msg WMP_errPlanarAlphaBandedEncRequiresTempFile
           (Some "WMP_errPlanarAlphaBandedEncRequiresTempFile"%string);
    mk_msg WMP_errAlphaModeCannotBeTranscoded
           (Some "WMP_errAlphaModeCannotBeTranscoded"%string);
    mk_msg WMP_errIncorrectCodecSubVersion
           (Some "WMP_errIncorrectCodecSubVersion"%string);
    mk_msg 0 None ].

(** [g_set_error(err, ...)]: the message is stored when no error is set
    yet. *)
Definition g_set_error (err : option string) (message : string) : option string :=
  match err with
  | None => Some message
  | Some e => Some e
  end.

(** The loop of [print_err]: [while ((p++)->msg) { if (p->id == jerr) ... }].
    The condition reads the entry under [p] and then moves [p] on, so the
    body looks at the entry after the one that was tested. *)
Fixpoint print_err_loop (fuel : nat) (p : nat) (jerr : Z) (err : option string)
  : outcome (option string) :=
  match fuel with
  | O => Timeout
  | S fuel' =>
      tested <- of_option (nth_error msgs p) ;;
      let p := S p in
      match msg tested with
      | None => Done err
      | Some _ =>
          cur <- of_option (nth_error msgs p) ;;
          if id cur =? jerr then
            Done (g_set_error err
                    (String.append "JXR decode error: "
                       (match msg cur with
                        | Some m => m
                        | None => "(null)"%string
                        end)))
          else print_err_loop fuel' p jerr err
      end
  end.

Definition print_err (jerr : Z) (err : option string) : outcome (option string) :=
  if jerr >=? 0 then Done err
  else print_err_loop (List.length msgs) 0 jerr err.

(** The pixel formats the adapter tells apart. *)
Inductive PKPixelFormatGUID : Type :=
| GUID_PKPixelFormat24bppBGR
| GUID_PKPixelFormat48bppRGB
| GUID_PKPixelFormat8bppGray
| GUID_PKPixelFormat16bppGray
| GUID_other (cbitUnit : Z).

Definition get_bits_per_pixel (pixel_format : PKPixelFormatGUID) : Z :=
  match pixel_format with
  | GUID_PKPixelFormat24bppBGR => 24
  | GUID_PKPixelFormat48bppRGB => 48
  | GUID_PKPixelFormat8bppGray => 8
  | GUID_PKPixelFormat16bppGray => 16
  | GUID_other bits => bits
  end.

(** What jxrlib does on the stream at hand: the status of each call the
    adapter makes, the image size and format the decoder reports, and the
    bytes [Copy] writes for a stride. *)
Record codec : Type := mk_codec {
  CreateCodec : Z;
  Initialize : Z;
  GetSize : Z * Z;
  GetPixelFormat : PKPixelFormatGUID;
  CreateFormatConverter : Z;
  ConverterInitialize : Z;
  Copy : Z -> list Z -> Z * list Z
}.

(** A [uint32_t] result. *)
Definition wrap32 (z : Z) : Z := z mod 2 ^ 32.

(** The [Cleanup] label: translate the status, release the decoder and the
    converter through their own [Release] pointers, and return.  A
    [Release] through a pointer that is still NULL is a NULL dereference. *)
Definition cleanup (jerr : Z) (err : option string)
           (pDecoder pConverter : bool) (dst : list Z)
  : outcome (bool * option string * list Z) :=
  err <- print_err jerr err ;;
  if negb pDecoder then Fault
  else if negb pConverter then Fault
  else Done (if jerr <? 0 then false else true, err, dst).

Definition _openslide_jxr_decode_buf (c : codec) (src_len : Z)
           (dst : list Z) (dst_len : Z)
  : outcome (bool * option string * list Z) :=
  let err : option string := None in
  let jerr := CreateCodec c in
  if jerr <? 0 then cleanup jerr err false false dst
  else
    let jerr := Initialize c in
    if jerr <? 0 then cleanup jerr err true false dst
    else
      let '(Width, Height) := GetSize c in
      let fmt := GetPixelFormat c in
      match
        (match fmt with
         | GUID_PKPixelFormat24bppBGR => Some GUID_PKPixelFormat24bppBGR
         | GUID_PKPixelFormat48bppRGB => Some GUID_PKPixelFormat48bppRGB
         | GUID_PKPixelFormat8bppGray => Some GUID_PKPixelFormat8bppGray
         | GUID_PKPixelFormat16bppGray => Some GUID_PKPixelFormat16bppGray
         | GUID_other _ => None
         end)
      with
      | None =>
          cleanup jerr
            (g_set_error err "Currently only support GUID_PKPixelFormat24bppBGR, GUID_PKPixelFormat48bppRGB, GUID_PKPixelFormat8bppGray and GUID_PKPixelFormat16bppGray")
            true false dst
      | Some fmt_out =>
          let stride :=
            wrap32 (Width *
                    Z.quot (Z.max (get_bits_per_pixel fmt)
                                  (get_bits_per_pixel fmt_out) + 7) 8) in
          (* [Height] is an [I32] and [stride] a [uint32_t]: the product is
             taken modulo 2^32 before it is widened to [int64_t] *)
          let unjxr_len := wrap32 (Height * stride) in
          (* JXR tile size may be incorrect in czi directory entries *)
          _ <- g_assert (unjxr_len <=? dst_len) ;;
          (* Create color converter *)
          let jerr := CreateFormatConverter c in
          if jerr <? 0 then cleanup jerr err true false dst
          else
            let jerr := ConverterInitialize c in
            if jerr <? 0 then cleanup jerr err true true dst
            else
              let '(jerr, dst') := Copy c stride dst in
              cleanup jerr err true true dst'
      end.

(** *** The translation of the codec status *)

(** Every status of the table but the first is translated. *)
Lemma print_err_translates_tail :
  Forall (fun e =>
            match msg e with
            | Some m =>
                print_err (id e) None =
                Done (Some (String.append "JXR decode error: " m))
            | None => True
            end) (tl msgs).
Proof. repeat constructor. Qed.

(** A stream on which the decoder and the converter are set up and the
    conversion itself fails with [WMP_errFail]. *)
Definition codec_copy_fails : codec :=
  mk_codec WMP_errSuccess WMP_errSuccess (2, 2) GUID_PKPixelFormat8bppGray
           WMP_errSuccess WMP_errSuccess
           (fun _ dst => (WMP_errFail, dst)).

(** C8 fails for the status [WMP_errFail]: the scan of the table starts
    at its second entry, so the first one is never compared, no message is
    set, and the adapter returns failure without a reason. *)
Theorem decode_failure_without_message :
  WMP_errFail < 0 /\
  print_err WMP_errFail None = Done None /\
  _openslide_jxr_decode_buf codec_copy_fails 16 [0; 0; 0; 0] 4 =
  Done (false, None, [0; 0; 0; 0]).
Proof. repeat split; vm_compute; reflexivity. Qed.

(** *** The size of a JPEG XR image from its header *)

(** [data[i]], a read of one byte. *)
Definition byte_at (data : list Z) (i : Z) : outcome Z :=
  bs <- load data i 1 ;;
  match bs with
  | [b] => Done b
  | _ => Fault
  end.

Definition short_header_flag (data : list Z) (s : Z) : outcome bool :=
  b <- byte_at data (s + 10) ;;
  Done (negb (Z.land b 128 =? 0)).

(** The characters 'W' 'M' 'P' 'H' 'O' 'T' 'O' and the NUL the scan
    compares with. *)
Definition WMPHOTO : list Z := [87; 77; 80; 72; 79; 84; 79; 0].

(** The chain [*(p + 0) == 'W' && *(p + 1) == 'M' && ...]: the bytes are
    read from left to right, up to the first one that differs. *)
Fixpoint magic_at (data : list Z) (p : Z) (magic : list Z) : outcome bool :=
  match magic with
  | [] => Done true
  | c :: magic' =>
      b <- byte_at data p ;;
      if b =? c then magic_at data (p + 1) magic' else Done false
  end.

(** [for (size_t i = 0; i < (data_len - 8); i++, p++)] with its [break]:
    the offset of the first match, or NULL. *)
Fixpoint find_magic (fuel : nat) (i bound : Z) (data : list Z) (p : Z)
  : outcome (option Z) :=
  if i <? bound then
    match fuel with
    | O => Timeout
    | S fuel' =>
        found <- magic_at data p WMPHOTO ;;
        if (found : bool) then Done (Some p)
        else find_magic fuel' (wrap64 (i + 1)) bound data (p + 1)
    end
  else Done None.

(** [GUINT16_FROM_BE(*(uint16_t *) (s + off))] and its 32-bit relative:
    the bytes in memory order, most significant first. *)
Definition GUINT16_FROM_BE (data : list Z) (off : Z) : outcome Z :=
  bs <- load data off 2 ;;
  match bs with
  | [b0; b1] => Done (Z.lor (Z.shiftl b0 8) b1)
  | _ => Fault
  end.

Definition GUINT32_FROM_BE (data : list Z) (off : Z) : outcome Z :=
  bs <- load data off 4 ;;
  match bs with
  | [b0; b1; b2; b3] =>
      Done (Z.lor (Z.lor (Z.lor (Z.shiftl b0 24) (Z.shiftl b1 16))
                         (Z.shiftl b2 8)) b3)
  | _ => Fault
  end.

(** parse jpeg xr header to get width and height.  [None] is the [false]
    return, which leaves [*width] and [*height] alone. *)
Definition _openslide_jxr_dim (data : list Z) (data_len : Z)
  : outcome (option (Z * Z)) :=
  let bound := wrap64 (data_len - 8) in
  s <- find_magic (Z.to_nat bound) 0 bound data 0 ;;
  match s with
  | None => Done None          (* JPEG XR magic WMPHOTO not found *)
  | Some s =>
      short <- short_header_flag data s ;;
      '(width1, height1) <-
         (if (short : bool) then
            width1 <- GUINT16_FROM_BE data (s + 12) ;;
            height1 <- GUINT16_FROM_BE data (s + 14) ;;
            Done (width1, height1)
          else
            width1 <- GUINT32_FROM_BE data (s + 12) ;;
            height1 <- GUINT32_FROM_BE data (s + 16) ;;
            Done (width1, height1)) ;;
      Done (Some (wrap32 (width1 + 1), wrap32 (height1 + 1)))
  end.

(** *** What the header scan finds *)

(** [l] begins with the bytes [magic]. *)
Fixpoint starts_with (magic l : list Z) : bool :=
  match magic, l with
  | [], _ => true
  | c :: magic', x :: l' => (x =? c) && starts_with magic' l'
  | _ :: _, [] => false
  end.

(** The stream has the magic at offset [j]. *)
Definition magic_here (data : list Z) (j : Z) : bool :=
  starts_with WMPHOTO (skipn (Z.to_nat j) data).

Lemma skipn_cons_nth {A : Type} (d : A) (l : list A) (n : nat) :
  (n < List.length l)%nat -> skipn n l = nth n l d :: skipn (S n) l.
Proof.
  revert n. induction l as [|x l IH]; intros [|n] H; simpl in *; try lia.
  - reflexivity.
  - apply IH. lia.
Qed.

Section HeaderScan.

Variable data : list Z.
Let len := Z.of_nat (List.length data).

Lemma byte_at_ok (i : Z) :
  0 <= i < len -> byte_at data i = Done (nth (Z.to_nat i) data 0).
Proof.
  intros H. unfold byte_at. rewrite load_ok by (fold len; lia).
  rewrite (skipn_cons_nth 0 data (Z.to_nat i)) by (unfold len in H; lia).
  reflexivity.
Qed.

Lemma byte_at_faults (i : Z) : len <= i -> byte_at data i = Fault.
Proof.
  intros H. unfold byte_at. rewrite load_faults by (fold len; lia).
  reflexivity.
Qed.

(** With all its bytes inside the buffer the comparison is decided. *)
Lemma magic_at_inside (magic : list Z) :
  forall p, 0 <= p -> p + Z.of_nat (List.length magic) <= len ->
    magic_at data p magic = Done (starts_with magic (skipn (Z.to_nat p) data)).
Proof.
  induction magic as [|c magic IH]; intros p H0 H1; [reflexivity|].
  cbn [List.length] in H1. cbn [magic_at].
  rewrite byte_at_ok by lia. cbn [bind].
  rewrite (skipn_cons_nth 0 data (Z.to_nat p)) by (unfold len in H1; lia).
  cbn [starts_with].
  destruct (nth (Z.to_nat p) data 0 =? c); cbn [andb]; [|reflexivity].
  replace (S (Z.to_nat p)) with (Z.to_nat (p + 1)) by lia.
  apply IH; lia.
Qed.

(** With fewer bytes left than the magic has, the comparison stops at a
    byte that differs or reads past the end; it never succeeds. *)
Lemma magic_at_short (magic : list Z) :
  forall p, 0 <= p <= len -> len - p < Z.of_nat (List.length magic) ->
    magic_at data p magic = Fault \/
    (p < len /\ magic_at data p magic = Done false).
Proof.
  induction magic as [|c magic IH]; intros p H0 H1; cbn [List.length] in H1;
    [lia|].
  cbn [magic_at]. destruct (Z.eq_dec p len) as [->|Hp].
  - left. rewrite byte_at_faults by lia. reflexivity.
  - rewrite byte_at_ok by lia. cbn [bind].
    destruct (nth (Z.to_nat p) data 0 =? c).
    + destruct (IH (p + 1)) as [Hf | [_ Hd]]; try lia; [left|right]; auto.
      split; [lia|exact Hd].
    + right. split; [lia|reflexivity].
Qed.

(** The scan passes every offset that does not hold the magic. *)
Lemma find_magic_skips (bound : Z) (n : nat) :
  forall (i : Z) (fuel : nat),
    0 <= i -> (n <= fuel)%nat -> i + Z.of_nat n <= bound ->
    bound + 8 <= len -> bound < 2 ^ 64 ->
    (forall j, i <= j < i + Z.of_nat n -> magic_here data j = false) ->
    find_magic fuel i bound data i =
    find_magic (fuel - n) (i + Z.of_nat n) bound data (i + Z.of_nat n).
Proof.
  induction n as [|n IH]; intros i fuel H0 Hf Hb Hl H64 Hno.
  - rewrite Nat.sub_0_r, Z.add_0_r. reflexivity.
  - destruct fuel as [|fuel]; [lia|]. cbn [find_magic].
    destruct (Z.ltb_spec i bound); [|lia].
    rewrite magic_at_inside by (cbn [WMPHOTO List.length]; lia).
    cbn [bind]. fold (magic_here data i).
    rewrite (Hno i) by lia.
    rewrite wrap64_id by lia.
    rewrite (IH (i + 1) fuel) by (try lia; intros j Hj; apply Hno; lia).
    replace (i + Z.of_nat (S n)) with (i + 1 + Z.of_nat n) by lia.
    reflexivity.
Qed.

Lemma find_magic_hit (bound k : Z) (fuel : nat) :
  0 <= k < bound -> (Z.to_nat k < fuel)%nat ->
  bound + 8 <= len -> bound < 2 ^ 64 ->
  (forall j, 0 <= j < k -> magic_here data j = false) ->
  magic_here data k = true ->
  find_magic fuel 0 bound data 0 = Done (Some k).
Proof.
  intros Hk Hf Hl H64 Hno Hyes.
  rewrite (find_magic_skips bound (Z.to_nat k) 0 fuel) by (try lia; intros j Hj; apply Hno; lia).
  replace (0 + Z.of_nat (Z.to_nat k)) with k by lia.
  destruct (fuel - Z.to_nat k)%nat as [|fuel'] eqn:E; [lia|].
  cbn [find_magic]. destruct (Z.ltb_spec k bound); [|lia].
  rewrite magic_at_inside by (cbn [WMPHOTO List.length]; lia).
  cbn [bind]. fold (magic_here data k). rewrite Hyes. reflexivity.
Qed.

Lemma find_magic_miss (bound : Z) (fuel : nat) :
  0 <= bound -> (Z.to_nat bound <= fuel)%nat ->
  bound + 8 <= len -> bound < 2 ^ 64 ->
  (forall j, 0 <= j < bound -> magic_here data j = false) ->
  find_magic fuel 0 bound data 0 = Done None.
Proof.
  intros Hb Hf Hl H64 Hno.
  rewrite (find_magic_skips bound (Z.to_nat bound) 0 fuel) by (try lia; intros j Hj; apply Hno; lia).
  replace (0 + Z.of_nat (Z.to_nat bound)) with bound by lia.
  destruct (fuel - Z.to_nat bound)%nat; cbn [find_magic];
    rewrite Z.ltb_irrefl; reflexivity.
Qed.

(** A scan that is allowed past the end of the buffer reads past it. *)
Lemma find_magic_runs_off (bound : Z) (n : nat) :
  forall (i : Z) (fuel : nat),
    0 <= i <= len -> n = Z.to_nat (len - i) -> (n < fuel)%nat ->
    len < bound -> bound < 2 ^ 64 -> len - i < 8 ->
    find_magic fuel i bound data i = Fault.
Proof.
  induction n as [|n IH]; intros i fuel H0 Hn Hf Hb H64 H8;
    (destruct fuel as [|fuel]; [lia|]); cbn [find_magic];
    (destruct (Z.ltb_spec i bound); [|lia]);
    (destruct (magic_at_short WMPHOTO i) as [Hx | [Hlt Hx]];
     [lia | cbn [WMPHOTO List.length]; lia | | ]); rewrite Hx; cbn [bind];
    try reflexivity; try lia.
  rewrite wrap64_id by lia. apply IH; lia.
Qed.

End HeaderScan.

(** *** [_openslide_jxr_dim] on whole buffers *)

Lemma short_flag_of_byte (b : Z) :
  0 <= b < 256 -> negb (Z.land b 128 =? 0) = negb (b <? 128).
Proof.
  intros Hb.
  assert (H : forallb (fun b => Bool.eqb (negb (Z.land b 128 =? 0))
                                         (negb (b <? 128)))
                      (range 0 256) = true) by (vm_compute; reflexivity).
  pose proof (forall_range _ 0 256 H b Hb) as He. cbv beta in He.
  apply Bool.eqb_prop, He.
Qed.

Section HeaderFields.

Variable data : list Z.
Let len := Z.of_nat (List.length data).
Let byte (i : Z) : Z := nth (Z.to_nat i) data 0.

Hypothesis data_bytes : Forall (fun b => 0 <= b < 256) data.

Lemma byte_range (i : Z) : 0 <= i < len -> 0 <= byte i < 256.
Proof.
  intros H. unfold byte.
  apply (proj1 (Forall_nth (fun b => 0 <= b < 256) data) data_bytes).
  unfold len in H. lia.
Qed.

Lemma uint16_from_be (off : Z) :
  0 <= off -> off + 2 <= len ->
  GUINT16_FROM_BE data off = Done (256 * byte off + byte (off + 1)).
Proof.
  intros H0 H1. unfold GUINT16_FROM_BE.
  rewrite load_ok by (fold len; lia).
  rewrite (skipn_cons_nth 0 data (Z.to_nat off)) by (unfold len in H1; lia).
  rewrite (skipn_cons_nth 0 data (S (Z.to_nat off)))
    by (unfold len in H1; lia).
  change (Z.to_nat 2) with 2%nat. cbn [firstn bind].
  replace (S (Z.to_nat off)) with (Z.to_nat (off + 1)) by lia.
  fold (byte off) (byte (off + 1)).
  rewrite (lor_shiftl_low (byte off) (byte (off + 1)) 8)
    by (try lia; apply byte_range; lia).
  f_equal. lia.
Qed.

Lemma uint32_from_be (off : Z) :
  0 <= off -> off + 4 <= len ->
  GUINT32_FROM_BE data off =
  Done (16777216 * byte off + 65536 * byte (off + 1)
        + 256 * byte (off + 2) + byte (off + 3)).
Proof.
  intros H0 H1. unfold GUINT32_FROM_BE.
  rewrite load_ok by (fold len; lia).
  rewrite (skipn_cons_nth 0 data (Z.to_nat off)) by (unfold len in H1; lia).
  rewrite (skipn_cons_nth 0 data (S (Z.to_nat off)))
    by (unfold len in H1; lia).
  rewrite (skipn_cons_nth 0 data (S (S (Z.to_nat off))))
    by (unfold len in H1; lia).
  rewrite (skipn_cons_nth 0 data (S (S (S (Z.to_nat off)))))
    by (unfold len in H1; lia).
  change (Z.to_nat 4) with 4%nat. cbn [firstn bind].
  replace (S (S (S (Z.to_nat off)))) with (Z.to_nat (off + 3)) by lia.
  replace (S (S (Z.to_nat off))) with (Z.to_nat (off + 2)) by lia.
  replace (S (Z.to_nat off)) with (Z.to_nat (off + 1)) by lia.
  fold (byte off) (byte (off + 1)) (byte (off + 2)) (byte (off + 3)).
  pose proof (byte_range off ltac:(lia)) as B0.
  pose proof (byte_range (off + 1) ltac:(lia)) as B1.
  pose proof (byte_range (off + 2) ltac:(lia)) as B2.
  pose proof (byte_range (off + 3) ltac:(lia)) as B3.
  replace (Z.shiftl (byte off) 24)
    with (Z.shiftl (Z.shiftl (byte off) 8) 16)
    by (rewrite Z.shiftl_shiftl by lia; reflexivity).
  rewrite <- Z.shiftl_lor.
  rewrite (lor_shiftl_low (byte off) (byte (off + 1)) 8) by lia.
  replace (Z.shiftl (byte off * 2 ^ 8 + byte (off + 1)) 16)
    with (Z.shiftl (Z.shiftl (byte off * 2 ^ 8 + byte (off + 1)) 8) 8)
    by (rewrite Z.shiftl_shiftl by lia; reflexivity).
  rewrite <- Z.shiftl_lor.
  rewrite (lor_shiftl_low _ (byte (off + 2)) 8) by lia.
  rewrite (lor_shiftl_low _ (byte (off + 3)) 8) by lia.
  f_equal. lia.
Qed.

End HeaderFields.

(** X1.  The first "WMPHOTO\0" of the stream, at an offset [k] below
    [data_len - 8], is taken as the start of the image header.  With bit
    7 of the byte at [k + 10] set the size is read from two big-endian
    16-bit fields at [k + 12] and [k + 14]; otherwise from two big-endian
    32-bit fields at [k + 12] and [k + 16].  The reported width and height
    are the field values plus one, as [uint32_t]. *)
Theorem jxr_dim_reads_header (data : list Z) (k : Z) :
  let len := Z.of_nat (List.length data) in
  let byte i := nth (Z.to_nat (k + i)) data 0 in
  Forall (fun b => 0 <= b < 256) data ->
  len < 2 ^ 64 ->
  0 <= k < len - 8 ->
  magic_here data k = true ->
  (forall j, 0 <= j < k -> magic_here data j = false) ->
  k + (if byte 10 <? 128 then 20 else 16) <= len ->
  _openslide_jxr_dim data len =
  Done (Some
    (if byte 10 <? 128
     then ((16777216 * byte 12 + 65536 * byte 13 + 256 * byte 14 + byte 15 + 1)
             mod 2 ^ 32,
           (16777216 * byte 16 + 65536 * byte 17 + 256 * byte 18 + byte 19 + 1)
             mod 2 ^ 32)
     else (256 * byte 12 + byte 13 + 1, 256 * byte 14 + byte 15 + 1))).
Proof.
  intros len byte Hb H64 Hk Hyes Hno Hhdr.
  assert (Hlen : k + 16 <= len) by (destruct (byte 10 <? 128); lia).
  unfold _openslide_jxr_dim. cbv zeta. fold len.
  rewrite (wrap64_id (len - 8)) by lia.
  rewrite (find_magic_hit data (len - 8) k) by (fold len; auto; lia).
  cbn [bind]. unfold short_header_flag.
  rewrite byte_at_ok by (fold len; lia). cbn [bind]. fold (byte 10).
  assert (B : forall i, 0 <= k + i < len -> 0 <= byte i < 256)
    by (intros i Hi; apply (byte_range data Hb); exact Hi).
  rewrite short_flag_of_byte by (apply B; lia).
  destruct (byte 10 <? 128); cbn [negb].
  - rewrite !(uint32_from_be data Hb) by (fold len; lia). cbn [bind].
    unfold wrap32.
    replace (k + 12 + 1) with (k + 13) by lia.
    replace (k + 12 + 2) with (k + 14) by lia.
    replace (k + 12 + 3) with (k + 15) by lia.
    replace (k + 16 + 1) with (k + 17) by lia.
    replace (k + 16 + 2) with (k + 18) by lia.
    replace (k + 16 + 3) with (k + 19) by lia.
    reflexivity.
  - rewrite !(uint16_from_be data Hb) by (fold len; lia). cbn [bind].
    replace (k + 12 + 1) with (k + 13) by lia.
    replace (k + 14 + 1) with (k + 15) by lia.
    fold (byte 12) (byte 13) (byte 14) (byte 15).
    pose proof (B 12 ltac:(lia)). pose proof (B 13 ltac:(lia)).
    pose proof (B 14 ltac:(lia)). pose proof (B 15 ltac:(lia)).
    unfold wrap32. rewrite !Z.mod_small by lia. reflexivity.
Qed.

Lemma jxr_dim_reads_header_witness :
  _openslide_jxr_dim
    [0; 0; 87; 77; 80; 72; 79; 84; 79; 0; 1; 1; 128; 0; 1; 2; 0; 3] 18
  = Done (Some (259, 4)).
Proof.
  apply (jxr_dim_reads_header
           [0; 0; 87; 77; 80; 72; 79; 84; 79; 0; 1; 1; 128; 0; 1; 2; 0; 3] 2).
  - repeat (constructor; [lia|]). constructor.
  - simpl. lia.
  - simpl. lia.
  - reflexivity.
  - intros j Hj. assert (Hc : j = 0 \/ j = 1) by lia.
    destruct Hc as [-> | ->]; reflexivity.
  - simpl. lia.
Defined.

(** X2.  A stream of at least 8 bytes that has no "WMPHOTO\0" at an offset
    below [data_len - 8] is rejected: the function returns false and
    stores no size.  The last offset at which the magic fits,
    [data_len - 8], is not looked at. *)
Theorem jxr_dim_without_magic (data : list Z) :
  let len := Z.of_nat (List.length data) in
  8 <= len < 2 ^ 64 ->
  (forall j, 0 <= j < len - 8 -> magic_here data j = false) ->
  _openslide_jxr_dim data len = Done None.
Proof.
  intros len Hlen Hno. unfold _openslide_jxr_dim. cbv zeta. fold len.
  rewrite (wrap64_id (len - 8)) by lia.
  rewrite (find_magic_miss data (len - 8)) by (fold len; auto; lia).
  reflexivity.
Qed.

Lemma jxr_dim_without_magic_witness :
  _openslide_jxr_dim [9; 87; 77; 80; 72; 79; 84; 79; 0] 9 = Done None.
Proof.
  apply (jxr_dim_without_magic [9; 87; 77; 80; 72; 79; 84; 79; 0]).
  - simpl. lia.
  - intros j Hj. simpl in Hj. assert (Hc : j = 0) by lia. subst j.
    reflexivity.
Defined.

(** X3.  On a buffer of fewer than 8 bytes the bound [data_len - 8] of the
    scan wraps around as a [size_t], and the scan reads past the end of
    the buffer. *)
Theorem jxr_dim_short_buffer (data : list Z) :
  let len := Z.of_nat (List.length data) in
  len < 8 -> _openslide_jxr_dim data len = Fault.
Proof.
  intros len Hlen. unfold _openslide_jxr_dim. cbv zeta. fold len.
  assert (Hw : wrap64 (len - 8) = 2 ^ 64 + len - 8).
  { unfold wrap64.
    rewrite <- (Z.mod_add (len - 8) 1 (2 ^ 64)) by lia.
    rewrite Z.mod_small; unfold len in *; lia. }
  rewrite Hw.
  rewrite (find_magic_runs_off data (2 ^ 64 + len - 8)
             (Z.to_nat (len - 0)) 0); fold len; try lia.
  reflexivity.
Qed.

Lemma jxr_dim_short_buffer_witness :
  _openslide_jxr_dim [87; 77; 80] 3 = Fault.
Proof. apply (jxr_dim_short_buffer [87; 77; 80]). simpl. lia. Defined.

(** *** The status translation and the decoder on all inputs *)

Ltac not_listed H :=
  let E := fresh in
  intro E; apply H; rewrite <- E; cbn [msgs tl map id];
  repeat first [left; reflexivity | right].

(** X4.  A status of zero or above, and a negative status that entries 1
    to 17 of the table do not list ([WMP_errFail], which is entry 0,
    among them), leave the [GError] as it was. *)
Theorem print_err_unlisted (jerr : Z) (err : option string) :
  0 <= jerr \/ ~ In jerr (map id (tl msgs)) -> print_err jerr err = Done err.
Proof.
  intros H. unfold print_err. destruct (Z.geb_spec jerr 0); [reflexivity|].
  destruct H as [H|H]; [lia|].
  cbn [print_err_loop msgs List.length nth_error of_option bind msg id].
  repeat match goal with
         | |- context [?a =? jerr] =>
             replace (a =? jerr) with false
               by (symmetry; apply Z.eqb_neq; not_listed H)
         end.
  reflexivity.
Qed.

Lemma print_err_unlisted_witness :
  print_err WMP_errSuccess (Some "kept"%string) = Done (Some "kept"%string) /\
  print_err WMP_errFail None = Done None /\ print_err (-5) None = Done None.
Proof.
  split; [|split]; apply print_err_unlisted.
  - left. unfold WMP_errSuccess. lia.
  - right. simpl. intuition discriminate.
  - right. simpl. intuition discriminate.
Defined.

(** The translation returns for every status. *)
Lemma print_err_returns (jerr : Z) (err : option string) :
  exists err', print_err jerr err = Done err'.
Proof.
  unfold print_err. destruct (jerr >=? 0); [eexists; reflexivity|].
  cbn [print_err_loop msgs List.length nth_error of_option bind msg id].
  repeat match goal with
         | |- context [if ?a =? jerr then _ else _] => destruct (a =? jerr)
         end; eexists; reflexivity.
Qed.

(** The formats the adapter decodes, and the bytes one pixel takes. *)
Definition pixel_bytes_of (fmt : PKPixelFormatGUID) : option Z :=
  match fmt with
  | GUID_PKPixelFormat24bppBGR => Some 3
  | GUID_PKPixelFormat48bppRGB => Some 6
  | GUID_PKPixelFormat8bppGray => Some 1
  | GUID_PKPixelFormat16bppGray => Some 2
  | GUID_other _ => None
  end.

(** X5.  The adapter returns to its caller only when the decoder was created
    and initialised, the pixel format is one of the four it supports, the
    decoded size as the adapter computes it (the 32-bit product of the
    height and the 32-bit stride) is at most [dst_len], and the format
    converter was created.  On every earlier exit the [Cleanup] code calls
    [Release] through a pointer that is still NULL, or the size assertion
    aborts. *)
Theorem decode_returns_only_after_converter
        (c : codec) (src_len : Z) (dst : list Z) (dst_len : Z)
        (r : bool * option string * list Z) :
  _openslide_jxr_decode_buf c src_len dst dst_len = Done r ->
  0 <= CreateCodec c /\ 0 <= Initialize c /\
  0 <= CreateFormatConverter c /\
  exists bytes,
    pixel_bytes_of (GetPixelFormat c) = Some bytes /\
    wrap32 (snd (GetSize c) * wrap32 (fst (GetSize c) * bytes)) <= dst_len.
Proof.
  unfold _openslide_jxr_decode_buf, cleanup. cbv zeta.
  destruct (Z.ltb_spec (CreateCodec c) 0) as [H1|H1].
  { destruct (print_err_returns (CreateCodec c) None) as (e & ->).
    cbn [bind negb]. discriminate. }
  destruct (Z.ltb_spec (Initialize c) 0) as [H2|H2].
  { destruct (print_err_returns (Initialize c) None) as (e & ->).
    cbn [bind negb]. discriminate. }
  destruct (GetSize c) as [Width Height]. cbn [fst snd].
  destruct (GetPixelFormat c) eqn:Ef;
    try (destruct (print_err_returns (Initialize c)
                     (g_set_error None "Currently only support GUID_PKPixelFormat24bppBGR, GUID_PKPixelFormat48bppRGB, GUID_PKPixelFormat8bppGray and GUID_PKPixelFormat16bppGray"))
           as (e & ->); cbn [bind negb]; discriminate);
    cbn [get_bits_per_pixel Z.max Z.compare Pos.compare Pos.compare_cont
         Z.add Pos.add Pos.succ Pos.add_carry Z.quot Z.quotrem Pos.iter];
    match goal with
    | |- context [g_assert (?a <=? dst_len)] =>
        destruct (Z.leb_spec a dst_len) as [H3|H3]
    end; cbn [g_assert bind]; try discriminate;
    (destruct (Z.ltb_spec (CreateFormatConverter c) 0) as [H4|H4];
     [ destruct (print_err_returns (CreateFormatConverter c) None) as (e & ->);
       cbn [bind negb]; discriminate | ]);
    intros _; repeat split; try assumption;
    eexists; (split; [reflexivity|]); exact H3.
Qed.

Lemma decode_returns_only_after_converter_witness :
  0 <= CreateCodec codec_copy_fails /\ 0 <= Initialize codec_copy_fails /\
  0 <= CreateFormatConverter codec_copy_fails /\
  exists bytes,
    pixel_bytes_of (GetPixelFormat codec_copy_fails) = Some bytes /\
    wrap32 (snd (GetSize codec_copy_fails)
            * wrap32 (fst (GetSize codec_copy_fails) * bytes)) <= 4.
Proof.
  apply (decode_returns_only_after_converter codec_copy_fails 16
           [0; 0; 0; 0] 4 (false, None, [0; 0; 0; 0])).
  vm_compute. reflexivity.
Defined.

(** A stream whose conversion succeeds, and one whose conversion runs
    out of memory. *)
Definition codec_copy_ok : codec :=
  mk_codec WMP_errSuccess WMP_errSuccess (2, 2) GUID_PKPixelFormat8bppGray
           WMP_errSuccess WMP_errSuccess
           (fun _ _ => (WMP_errSuccess, [1; 2; 3; 4])).

Definition codec_copy_oom : codec :=
  mk_codec WMP_errSuccess WMP_errSuccess (2, 2) GUID_PKPixelFormat8bppGray
           WMP_errSuccess WMP_errSuccess
           (fun _ dst => (WMP_errOutOfMemory, dst)).

(** X6.  Once the decoder and the converter are set up and the decoded size
    as the adapter computes it (the 32-bit product of the height and the
    32-bit stride) is at most [dst_len], the adapter calls [Copy] with
    rows of [Width] pixels of 3, 6, 1 or 2 bytes, packed, and reports its
    status: true with no error for a status of zero or
    above, false for a negative one, with the message "JXR decode error: "
    and the name of the status when entries 1 to 17 of the table list it.
    The destination is what [Copy] left. *)
Theorem decode_reports_copy_status
        (c : codec) (src_len : Z) (dst : list Z) (dst_len bytes jerr : Z)
        (dst' : list Z) :
  0 <= CreateCodec c -> 0 <= Initialize c ->
  0 <= CreateFormatConverter c -> 0 <= ConverterInitialize c ->
  pixel_bytes_of (GetPixelFormat c) = Some bytes ->
  wrap32 (snd (GetSize c) * wrap32 (fst (GetSize c) * bytes)) <= dst_len ->
  Copy c (wrap32 (fst (GetSize c) * bytes)) dst = (jerr, dst') ->
  exists err,
    _openslide_jxr_decode_buf c src_len dst dst_len =
    Done (negb (jerr <? 0), err, dst') /\
    (0 <= jerr -> err = None) /\
    (forall e m, In e (tl msgs) -> id e = jerr -> msg e = Some m ->
                 err = Some (String.append "JXR decode error: " m)).
Proof.
  intros H1 H2 H3 H4 Hf Hfit Hcopy.
  destruct (print_err_returns jerr None) as (err & Herr).
  exists err. split; [|split].
  - unfold _openslide_jxr_decode_buf, cleanup. cbv zeta.
    destruct (Z.ltb_spec (CreateCodec c) 0); [lia|].
    destruct (Z.ltb_spec (Initialize c) 0); [lia|].
    destruct (GetSize c) as [Width Height]. cbn [fst snd] in *.
    destruct (GetPixelFormat c); cbn [pixel_bytes_of] in Hf;
      inversion Hf; subst bytes;
      cbn [get_bits_per_pixel Z.max Z.compare Pos.compare Pos.compare_cont
           Z.add Pos.add Pos.succ Pos.add_carry Z.quot Z.quotrem Pos.iter];
      match goal with
      | |- context [g_assert (?a <=? dst_len)] =>
          destruct (Z.leb_spec a dst_len) as [_|Hbad];
          [|exfalso; apply (Z.lt_irrefl dst_len);
            eapply Z.lt_le_trans; [exact Hbad|exact Hfit]]
      end; cbn [g_assert bind];
      (destruct (Z.ltb_spec (CreateFormatConverter c) 0); [lia|]);
      (destruct (Z.ltb_spec (ConverterInitialize c) 0); [lia|]);
      match type of Hcopy with
      | Copy c ?t dst = _ =>
          match goal with
          | |- context [Copy c ?s dst] => change s with t
          end
      end;
      rewrite Hcopy, Herr; cbn [bind negb];
      destruct (jerr <? 0); reflexivity.
  - intros Hj. unfold print_err in Herr.
    destruct (Z.geb_spec jerr 0); [congruence|lia].
  - intros e m Hin Hid Hm.
    pose proof (proj1 (Forall_forall _ _) print_err_translates_tail e Hin)
      as Ht.
    cbv beta in Ht. rewrite Hm, Hid, Herr in Ht. congruence.
Qed.

Lemma decode_reports_copy_status_witness :
  (exists err,
     _openslide_jxr_decode_buf codec_copy_ok 16 [0; 0; 0; 0] 4 =
     Done (negb (0 <? 0), err, [1; 2; 3; 4]) /\
     (0 <= 0 -> err = None) /\
     (forall e m, In e (tl msgs) -> id e = 0 -> msg e = Some m ->
                  err = Some (String.append "JXR decode error: " m))) /\
  (exists err,
     _openslide_jxr_decode_buf codec_copy_oom 16 [0; 0; 0; 0] 4 =
     Done (negb (WMP_errOutOfMemory <? 0), err, [0; 0; 0; 0]) /\
     (0 <= WMP_errOutOfMemory -> err = None) /\
     (forall e m, In e (tl msgs) -> id e = WMP_errOutOfMemory ->
                  msg e = Some m ->
                  err = Some (String.append "JXR decode error: " m))).
Proof.
  split.
  - apply (decode_reports_copy_status codec_copy_ok 16 [0; 0; 0; 0] 4 1);
      try reflexivity; simpl; lia.
  - apply (decode_reports_copy_status codec_copy_oom 16 [0; 0; 0; 0] 4 1);
      try reflexivity; simpl; lia.
Defined.

End Jxr.
(** ** Slide handle and level model (openslide.c) *)

Module Level.
(** [struct _openslide_level]: the fields [openslide.c] reads. *)
Record t : Type := mk {
  downsample : float;
  w : Z;
  h : Z;
  tile_w : Z;
  tile_h : Z
}.

Definition set_downsample (l : t) (ds : float) : t :=
  mk ds (w l) (h l) (tile_w l) (tile_h l).
End Level.

Module Slide.
Local Open Scope float_scope.
Local Open Scope Z_scope.

(** [openslide_t]: the [levels] array, the counts and the sticky error.
    [error = None] is the NULL error pointer of a usable handle. *)
Record openslide_t : Type := mk_osr {
  levels : list Level.t;
  level_count : Z;
  level_count_all : Z;
  channel_count : Z;
  error : option string
}.

Definition set_error (osr : openslide_t) (e : option string) : openslide_t :=
  mk_osr (levels osr) (level_count osr) (level_count_all osr)
         (channel_count osr) e.

Definition set_levels (osr : openslide_t) (ls : list Level.t) : openslide_t :=
  mk_osr ls (level_count osr) (level_count_all osr)
         (channel_count osr) (error osr).

(** Modelled from the spec: [openslide_get_error] and
    [_openslide_propagate_error] live in a source file that is not part of
    this development.  The spec: the sticky error is "set at most once;
    first error wins; ... never overwritten".  A [GError *] is the message
    it carries, [None] for a NULL pointer, which sets nothing. *)
Definition openslide_get_error (osr : openslide_t) : option string :=
  error osr.

Definition _openslide_propagate_error (osr : openslide_t)
           (err : option string) : openslide_t :=
  match error osr, err with
  | None, Some msg => set_error osr (Some msg)
  | _, _ => osr
  end.

Definition has_error (osr : openslide_t) : bool :=
  match openslide_get_error osr with Some _ => true | None => false end.

(** [osr->levels[i]]: the read is outside the array when [i] is not an
    index of it. *)
Definition level_at (osr : openslide_t) (i : Z) : outcome Level.t :=
  if i <? 0 then Fault else of_option (nth_error (levels osr) (Z.to_nat i)).

Fixpoint list_set {A : Type} (l : list A) (n : nat) (a : A) : option (list A) :=
  match l, n with
  | [], _ => None
  | _ :: t, O => Some (a :: t)
  | x :: t, S n' => option_map (cons x) (list_set t n' a)
  end.

(** [osr->levels[i]->downsample = ds]. *)
Definition store_downsample (osr : openslide_t) (i : Z) (ds : float)
  : outcome openslide_t :=
  l <- level_at osr i ;;
  ls <- of_option (list_set (levels osr) (Z.to_nat i) (Level.set_downsample l ds)) ;;
  Done (set_levels osr ls).

Definition level_in_range (osr : openslide_t) (level : Z) : bool :=
  if level <? 0 then false
  else if level >? level_count osr - 1 then false
  else true.

Definition openslide_get_level_dimensions (osr : openslide_t) (level : Z)
  : outcome (Z * Z) :=
  if has_error osr then Done (-1, -1)
  else if negb (level_in_range osr level) then Done (-1, -1)
  else l <- level_at osr level ;; Done (Level.w l, Level.h l).

Definition openslide_get_level0_dimensions (osr : openslide_t)
  : outcome (Z * Z) :=
  openslide_get_level_dimensions osr 0.

Definition openslide_get_level_count (osr : openslide_t) : Z :=
  if has_error osr then -1 else level_count osr.

Definition openslide_get_channel_count (osr : openslide_t) : Z :=
  if has_error osr then -1 else channel_count osr.

Definition openslide_get_best_level_for_downsample (osr : openslide_t)
           (downsample : float) : outcome Z :=
  if has_error osr then Done (-1)
  else
    l0 <- level_at osr 0 ;;
    (* too small, return first *)
    if (downsample <? Level.downsample l0)%float then Done 0
    else
      (* find where we are in the middle *)
      c <- for_each (range 1 (level_count osr))
             (fun i (_ : unit) =>
                li <- level_at osr i ;;
                if (downsample <? Level.downsample li)%float
                then Done (Ret (i - 1))
                else Done (Next tt)) tt ;;
      match c with
      | Ret r => Done r
      | Next _ => Done (level_count osr - 1)   (* too big, return last *)
      end.

Definition openslide_get_level_downsample (osr : openslide_t) (level : Z)
  : outcome float :=
  if has_error osr || negb (level_in_range osr level) then Done (-1)%float
  else l <- level_at osr level ;; Done (Level.downsample l).

(** *** Opening a slide *)

(** What a format's [open] callback reports: its return value, the
    [GError] it left and the handle as it filled it in. *)
Record opened : Type := mk_opened {
  open_ok : bool;
  open_err : option string;
  open_osr : openslide_t
}.

(** [struct _openslide_format], for the file at hand: the verdict of
    [detect] on it, and what [open] does to the fresh handle. *)
Record _openslide_format : Type := mk_format {
  name : string;
  vendor : string;
  detect : bool;
  open : openslide_t -> opened
}.

(** The first format of the table whose [detect] accepts the file. *)
Fixpoint detect_format (formats : list _openslide_format)
  : option _openslide_format :=
  match formats with
  | [] => None            (* no match *)
  | format :: cur =>
      if detect format then Some format else detect_format cur
  end.

Definition open_backend (osr : openslide_t) (format : _openslide_format)
  : bool * option string * openslide_t :=
  let r := open format osr in
  if negb (open_ok r) then
    match open_err r with
    | None => (false, Some "Unknown error"%string, open_osr r)
    | Some e => (false, Some e, open_osr r)
    end
  else
    match open_err r with
    | Some e => (false, Some e, open_osr r)
    | None => (true, None, open_osr r)
    end.

Definition openslide_detect_vendor (formats : list _openslide_format)
  : option string :=
  match detect_format formats with
  | None => None
  | Some format => Some (vendor format)
  end.

(** [g_new0(openslide_t, 1)]. *)
Definition fresh_osr : openslide_t := mk_osr [] 0 0 0 None.

(** compute downsamples if not done already *)
Definition compute_downsamples (osr : openslide_t) : outcome openslide_t :=
  '(blw, blh) <- openslide_get_level0_dimensions osr ;;
  osr <- (if negb (level_count osr =? 0) then
            l0 <- level_at osr 0 ;;
            if (Level.downsample l0 =? 0)%float
            then store_downsample osr 0 1%float
            else Done osr
          else Done osr) ;;
  c <- for_each (R := unit) (range 1 (level_count osr))
         (fun i osr =>
            l <- level_at osr i ;;
            if (Level.downsample l =? 0)%float then
              osr' <- store_downsample osr i
                        (((Dbl.of_int blh / Dbl.of_int (Level.h l)) +
                          (Dbl.of_int blw / Dbl.of_int (Level.w l))) / 2)%float ;;
              Done (Next osr')
            else Done (Next osr)) osr ;;
  match c with
  | Next osr' => Done osr'
  | Ret _ => Done osr
  end.

(** check downsamples: [true] when some level is below its predecessor *)
Definition check_downsamples (osr : openslide_t) : outcome bool :=
  c <- for_each (range 1 (level_count osr))
         (fun i (_ : unit) =>
            li <- level_at osr i ;;
            lp <- level_at osr (i - 1) ;;
            if (Level.downsample li <? Level.downsample lp)%float
            then Done (Ret tt)
            else Done (Next tt)) tt ;;
  match c with
  | Ret _ => Done true
  | Next _ => Done false
  end.

(** [openslide_open]: [None] is the NULL return.  [pixman_works] is the
    result of the one-time pixman probe.  After the downsample check the
    function only fills the property table and binds a cache, and returns
    the handle; those two tables are not part of the model. *)
Definition openslide_open (formats : list _openslide_format)
           (pixman_works : bool) : outcome (option openslide_t) :=
  match detect_format formats with
  | None => Done None          (* not a slide file *)
  | Some format =>
      let osr := fresh_osr in
      if negb pixman_works then
        Done (Some (_openslide_propagate_error osr
          (Some "pixman 0.38.x does not render correctly; upgrade or downgrade pixman"%string)))
      else
        let '(ok, tmp_err, osr) := open_backend osr format in
        if negb ok then
          (* failed to read slide *)
          Done (Some (_openslide_propagate_error osr tmp_err))
        else
          osr <- compute_downsamples osr ;;
          bad <- check_downsamples osr ;;
          if (bad : bool) then Done None
          else Done (Some osr)
  end.

(** *** The compositing surface (cairo), as far as the reader uses it *)

Inductive cairo_format_t : Type :=
| CAIRO_FORMAT_ARGB32
| CAIRO_FORMAT_A8
| CAIRO_FORMAT_RGB16_565.

Inductive cairo_operator_t : Type :=
| CAIRO_OPERATOR_OVER
| CAIRO_OPERATOR_SATURATE.

(** A pointer of the region reader: NULL, or a byte offset into the
    caller's [dest] or into the temporary [buf_cr] of the gray reader. *)
Inductive ptr : Type :=
| Null
| InDest (off : Z)
| InBufCr (off : Z).

Definition ptr_add (p : ptr) (n : Z) : ptr :=
  match p with
  | Null => Null
  | InDest off => InDest (off + n)
  | InBufCr off => InBufCr (off + n)
  end.

Definition is_null (p : ptr) : bool :=
  match p with Null => true | _ => false end.

Record cairo_surface_t : Type := mk_surface {
  surf_data : ptr;               (* Null: the nil surface *)
  surf_format : cairo_format_t;
  surf_width : Z;
  surf_height : Z;
  surf_stride : Z
}.

Record cairo_t : Type := mk_cr {
  cr_surface : cairo_surface_t;
  cr_operator : cairo_operator_t;
  cr_tx : Z;
  cr_ty : Z;
  cr_dst_fmt : option cairo_format_t;   (* user data under [_openslide_cairo_key] *)
  cr_status : option string             (* [None]: CAIRO_STATUS_SUCCESS *)
}.

Definition cairo_image_surface_create_for_data (data : ptr)
           (format : cairo_format_t) (width height stride : Z)
  : cairo_surface_t :=
  mk_surface data format width height stride.

Definition cairo_image_surface_create (format : cairo_format_t)
           (width height : Z) : cairo_surface_t :=
  mk_surface Null format width height 0.

Definition cairo_set_operator (cr : cairo_t) (op : cairo_operator_t) : cairo_t :=
  mk_cr (cr_surface cr) op (cr_tx cr) (cr_ty cr) (cr_dst_fmt cr) (cr_status cr).

Definition cairo_translate (cr : cairo_t) (tx ty : Z) : cairo_t :=
  mk_cr (cr_surface cr) (cr_operator cr) (cr_tx cr + tx) (cr_ty cr + ty)
        (cr_dst_fmt cr) (cr_status cr).

Definition cairo_set_user_data (cr : cairo_t) (fmt : cairo_format_t) : cairo_t :=
  mk_cr (cr_surface cr) (cr_operator cr) (cr_tx cr) (cr_ty cr)
        (Some fmt) (cr_status cr).

Definition bits_per_pixel (format : cairo_format_t) : Z :=
  match format with
  | CAIRO_FORMAT_ARGB32 => 32
  | CAIRO_FORMAT_A8 => 8
  | CAIRO_FORMAT_RGB16_565 => 16
  end.

(** cairo's [cairo_format_stride_for_width]: the macro above as an [int],
    or -1 for a width too large for a surface. *)
Definition cairo_format_stride_for_width (format : cairo_format_t) (width : Z) : Z :=
  let bpp := bits_per_pixel format in
  if Z.quot (2147483647 - 7) bpp <=? width then -1
  else wrap_int32 (Pad.CAIRO_STRIDE_FOR_WIDTH_BPP width bpp).

(** Modelled from the spec: [_openslide_check_cairo_status] is in a source
    file that is not part of this development; it is the "status query
    used to detect internal allocation/addressing failures". *)
Definition _openslide_check_cairo_status (cr : cairo_t) : bool * option string :=
  match cr_status cr with
  | None => (true, None)
  | Some msg => (false, Some (String.append "cairo error: " msg))
  end.

(** *** The region reader *)

(** The memory the reader works on: the handle, the caller's [dest]
    ([None]: the caller passed NULL), the temporary buffer of the gray
    reader once allocated, and, as ghost state, what [dest] held at each
    call of the backend's [paint_region], latest first. *)
Record world : Type := mk_world {
  osr : openslide_t;
  dest : option (list Z);
  buf_cr : option (list Z);
  paints : list (option (list Z))
}.

Definition with_osr (s : world) (o : openslide_t) : world :=
  mk_world o (dest s) (buf_cr s) (paints s).
Definition with_dest (s : world) (d : option (list Z)) : world :=
  mk_world (osr s) d (buf_cr s) (paints s).
Definition with_buf_cr (s : world) (b : option (list Z)) : world :=
  mk_world (osr s) (dest s) b (paints s).
Definition log_paint (s : world) : world :=
  mk_world (osr s) (dest s) (buf_cr s) (dest s :: paints s).

Definition propagate (s : world) (err : option string) : world :=
  with_osr s (_openslide_propagate_error (osr s) err).

(** The buffer a pointer points into. *)
Definition pointee (s : world) (p : ptr) : option (list Z) :=
  match p with
  | Null => None
  | InDest _ => dest s
  | InBufCr _ => buf_cr s
  end.

Definition set_pointee (s : world) (p : ptr) (b : option (list Z)) : world :=
  match p with
  | Null => s
  | InDest _ => with_dest s b
  | InBufCr _ => with_buf_cr s b
  end.

Definition offset_of (p : ptr) : Z :=
  match p with
  | Null => 0
  | InDest off => off
  | InBufCr off => off
  end.

(** [memset(p, c, n)] through a pointer of the reader. *)
Definition memset_at (s : world) (p : ptr) (c n : Z) : outcome world :=
  match pointee s p with
  | None => Fault
  | Some b =>
      b' <- memset b (offset_of p) c n ;;
      Done (set_pointee s p (Some b'))
  end.

(** What a call of the backend's [paint_region] leaves behind: its return
    value, the [GError], the pixels of the buffer under the surface and
    the status of the cairo context. *)
Record painted : Type := mk_painted {
  paint_ok : bool;
  paint_err : option string;
  paint_pixels : option (list Z);
  paint_status : option string
}.

Section RegionReader.

(** The backend capability [osr->ops->paint_region]: any function of the
    handle, the cairo context, the level-0 origin, the level, the size and
    the present pixels of the buffer under the surface. *)
Variable paint_region :
  openslide_t -> cairo_t -> Z -> Z -> Level.t -> Z -> Z ->
  option (list Z) -> painted.

(** The status a fresh cairo context has on a surface (cairo refuses
    surfaces it cannot address). *)
Variable cairo_create_status : cairo_surface_t -> option string.

(** Whether [g_try_malloc] fails on a request, and the byte an
    uninitialised block is filled with. *)
Variable alloc_fails : Z -> bool.
Variable junk : Z.

Definition cairo_create (surface : cairo_surface_t) : cairo_t :=
  mk_cr surface CAIRO_OPERATOR_OVER 0 0 None (cairo_create_status surface).

(** [g_try_malloc(n)] is NULL for [n = 0] and when the allocation fails. *)
Definition g_try_malloc (n : Z) : option (list Z) :=
  if (n =? 0) || alloc_fails n then None
  else Some (repeat junk (Z.to_nat n)).

(** The call [osr->ops->paint_region(osr, cr, x, y, l, w, h, err)]. *)
Definition call_paint (s : world) (cr : cairo_t) (x y : Z) (l : Level.t)
           (w h : Z) : bool * option string * cairo_t * world :=
  let s := log_paint s in
  let p := surf_data (cr_surface cr) in
  let r := paint_region (osr s) cr x y l w h (pointee s p) in
  let cr' := mk_cr (cr_surface cr) (cr_operator cr) (cr_tx cr) (cr_ty cr)
                   (cr_dst_fmt cr)
                   (match cr_status cr with
                    | Some e => Some e
                    | None => paint_status r
                    end) in
  (paint_ok r, paint_err r, cr', set_pointee s p (paint_pixels r)).

(** offset if given negative coordinates *)
Definition clip_negative (x w : Z) (ds : float) : Z * Z * Z :=
  if x <? 0 then
    let tx := Dbl.to_int (Dbl.of_int (- x) / ds)%float in
    (tx, 0, w - tx)
  else (0, x, w).

Definition read_region_area (s : world) (dest : ptr) (stride : Z)
           (x y level w h : Z) : outcome (bool * option string * world) :=
  (* create the cairo surface for the dest *)
  let surface :=
    if negb (is_null dest)
    then cairo_image_surface_create_for_data dest CAIRO_FORMAT_ARGB32 w h stride
    else cairo_image_surface_create CAIRO_FORMAT_ARGB32 0 0 in
  let cr := cairo_create surface in
  (* saturate those seams away! *)
  let cr := cairo_set_operator cr CAIRO_OPERATOR_SATURATE in
  let finish (cr : cairo_t) (s : world) :=
    let '(ok, err) := _openslide_check_cairo_status cr in
    Done (ok, err, s) in
  if level_in_range (osr s) level then
    l <- level_at (osr s) level ;;
    let ds := Level.downsample l in
    let '(tx, x, w) := clip_negative x w ds in
    let '(ty, y, h) := clip_negative y h ds in
    let cr := cairo_translate cr tx ty in
    (* paint *)
    if (w >? 0) && (h >? 0) then
      let '(ok, err, cr, s) := call_paint s cr x y l w h in
      if negb ok then Done (false, err, s)
      else finish cr s
    else finish cr s
  else finish cr s.

Definition tile_edge : Z := 4096.

Definition result_of (c : ctl world world) : world :=
  match c with Next s => s | Ret s => s end.

(** The body of the tile loops of [openslide_read_region], at tile
    ([row], [col]). *)
Definition read_tile (dest : ptr) (x y level w h : Z) (ds : float)
           (row col : Z) (s : world) : outcome (ctl world world) :=
  let d := tile_edge in
  (* calculate surface coordinates and size *)
  let sx := Dbl.to_int (Dbl.of_int x + Dbl.of_int (col * d) * ds)%float in
  let sy := Dbl.to_int (Dbl.of_int y + Dbl.of_int (row * d) * ds)%float in
  let sw := Z.min (w - col * d) d in
  let sh := Z.min (h - row * d) d in
  (* paint *)
  '(ok, tmp_err, s) <-
     read_region_area s
       (ptr_add dest (4 * (w * row * d + col * d))) (w * 4)
       sx sy level sw sh ;;
  if negb (ok : bool) then
    let s := propagate s tmp_err in
    (* ensure we don't return a partial result *)
    s <- (if negb (is_null dest) then memset_at s dest 0 (w * h * 4)
          else Done s) ;;
    Done (Ret s)
  else Done (Next s).

Definition openslide_read_region (s : world) (dest : ptr)
           (x y level w h : Z) : outcome world :=
  if (w <? 0) || (h <? 0) then
    Done (propagate s (Some "negative width or negative height not allowed"%string))
  else if channel_count (osr s) >? 1 then
    (* Only read single channel slide. *)
    Done (propagate s
            (Some "openslide_read_region() can only read single channel slide"%string))
  else
    (* clear the dest *)
    s <- (if negb (is_null dest) then memset_at s dest 0 (w * h * 4)
          else Done s) ;;
    (* now that it's cleared, return if an error occurred *)
    if has_error (osr s) then Done s
    else
      let d := tile_edge in
      ds <- openslide_get_level_downsample (osr s) level ;;
      c <- for_each (range 0 (Z.quot (h + d - 1) d))
             (fun row s =>
                for_each (range 0 (Z.quot (w + d - 1) d))
                  (read_tile dest x y level w h ds row) s) s ;;
      Done (result_of c).

(** *** The gray reader *)

Definition PIXEL_BYTES_GRAY8 : Z := 1.
Definition PIXEL_BYTES_GRAY16 : Z := 2.

Definition read_region_area_gray (s : world) (dest : ptr) (stride : Z)
           (pixel_bytes x y level w h : Z)
  : outcome (bool * option string * world) :=
  match
    (if pixel_bytes =? 1 then Some CAIRO_FORMAT_A8
     else if pixel_bytes =? 2 then Some CAIRO_FORMAT_RGB16_565
     else None)
  with
  | None => Done (false, None, s)
  | Some cr_fmt =>
      let surface :=
        if negb (is_null dest)
        then cairo_image_surface_create_for_data dest cr_fmt w h stride
        else cairo_image_surface_create cr_fmt 0 0 in
      let cr := cairo_create surface in
      (* attach the cairo destination type to cairo context *)
      let cr := cairo_set_user_data cr cr_fmt in
      if level >? level_count_all (osr s) - 1 then
        let s := propagate s (Some "invalid level"%string) in
        Done (false, None, s)
      else
        l <- level_at (osr s) level ;;
        (* offset if given negative coordinates *)
        let ds := Level.downsample l in
        let '(tx, x, w) := clip_negative x w ds in
        let '(ty, y, h) := clip_negative y h ds in
        let cr := cairo_translate cr tx ty in
        let finish (cr : cairo_t) (s : world) :=
          let '(ok, err) := _openslide_check_cairo_status cr in
          Done (ok, err, s) in
        if (w >? 0) && (h >? 0) then
          let '(ok, err, cr, s) := call_paint s cr x y l w h in
          if negb ok then Done (false, err, s)
          else finish cr s
        else finish cr s
  end.

Definition openslide_get_level_downsample_gray (osr : openslide_t) (level : Z)
  : outcome float :=
  if has_error osr then Done (-1)%float
  else if (level <? 0) || (level >? level_count_all osr - 1) then Done (-1)%float
  else l <- level_at osr level ;; Done (Level.downsample l).

(** The body of the tile loops of [openslide_read_region_gray], at tile
    ([row], [col]); [buf] is [dest] or the temporary buffer. *)
Definition read_tile_gray (buf : ptr) (cr_fmt : cairo_format_t)
           (stride pixel_bytes x y level w h : Z) (ds : float)
           (row col : Z) (s : world) : outcome (ctl world world) :=
  let d := tile_edge in
  (* calculate surface coordinates and size *)
  let sx := Dbl.to_int (Dbl.of_int x + Dbl.of_int (col * d) * ds)%float in
  let sy := Dbl.to_int (Dbl.of_int y + Dbl.of_int (row * d) * ds)%float in
  let sw := Z.min (w - col * d) d in
  let sh := Z.min (h - row * d) d in
  let area_stride := cairo_format_stride_for_width cr_fmt sw in
  '(ok, tmp_err, s) <-
     read_region_area_gray s (ptr_add buf (w * row * d + col * d))
       area_stride pixel_bytes sx sy level sw sh ;;
  if negb (ok : bool) then
    let s := propagate s tmp_err in
    (* ensure we don't return a partial result *)
    s <- (if negb (is_null buf)
          then memset_at s buf 0 (wrap64 (h * stride))
          else Done s) ;;
    Done (Ret s)
  else Done (Next s).

(** openslide_read_region() modified to read gray8 and gray16 *)
Definition openslide_read_region_gray (s : world) (dest : ptr)
           (pixel_bytes x y level w h : Z) : outcome world :=
  if (w <? 0) || (h <? 0) then
    Done (propagate s (Some "negative width or negative height not allowed"%string))
  else
    match
      (if pixel_bytes =? 1 then Some CAIRO_FORMAT_A8
       else if pixel_bytes =? 2 then Some CAIRO_FORMAT_RGB16_565
       else None)
    with
    | None =>
        Done (propagate s (Some "pixel_bytes must either 1 or 2"%string))
    | Some cr_fmt =>
        let s := with_buf_cr s None in      (* buf_cr = NULL *)
        let stride := cairo_format_stride_for_width cr_fmt w in
        let len := wrap64 (h * stride) in
        let alloc :=
          if stride =? w * pixel_bytes then
            (* do not need additional padding for image row *)
            Some (dest, s)
          else
            match g_try_malloc len with
            | None => None
            | Some block => Some (InBufCr 0, with_buf_cr s (Some block))
            end in
        match alloc with
        | None =>
            Done (propagate s
                    (Some "Couldn't allocate bytes for openslide_read_region_gray()"%string))
        | Some (buf, s) =>
            s <- (if negb (is_null buf) then memset_at s buf 0 len
                  else Done s) ;;
            (* now that it's cleared, return if an error occurred *)
            if has_error (osr s) then Done s
            else
              let d := tile_edge in
              ds <- openslide_get_level_downsample_gray (osr s) level ;;
              c <- for_each (range 0 (Z.quot (h + d - 1) d))
                     (fun row s =>
                        for_each (range 0 (Z.quot (w + d - 1) d))
                          (read_tile_gray buf cr_fmt stride pixel_bytes
                                          x y level w h ds row) s) s ;;
              match c with
              | Ret s => Done s
              | Next s =>
                  (* remove stride padding *)
                  match buf_cr s with
                  | Some block =>
                      match Slide.dest s with
                      | None => Fault
                      | Some out =>
                          (* [w] and [h] are passed as [int32_t]s *)
                          out' <- Pad._openslide_del_row_padding block len out
                                    (w * h * pixel_bytes) pixel_bytes
                                    (wrap_int32 w) (wrap_int32 h) ;;
                          Done (with_dest s (Some out'))
                      end
                  | None => Done s
                  end
              end
        end
    end.

Definition openslide_read_region_gray8 (s : world) (dest : ptr)
           (x y level w h : Z) : outcome world :=
  openslide_read_region_gray s dest PIXEL_BYTES_GRAY8 x y level w h.

Definition openslide_read_region_gray16 (s : world) (dest : ptr)
           (x y level w h : Z) : outcome world :=
  openslide_read_region_gray s dest PIXEL_BYTES_GRAY16 x y level w h.

End RegionReader.

(** *** Properties of the level model *)

(** The downsample of level [i], for an index of the array. *)
Definition downsample_at (osr : openslide_t) (i : Z) : float :=
  match nth_error (levels osr) (Z.to_nat i) with
  | Some l => Level.downsample l
  | None => nan
  end.

Lemma level_at_ok (osr : openslide_t) (i : Z) :
  0 <= i < Z.of_nat (List.length (levels osr)) ->
  exists l, level_at osr i = Done l /\ Level.downsample l = downsample_at osr i.
Proof.
  intros Hi. unfold level_at, downsample_at.
  destruct (Z.ltb_spec i 0); [lia|].
  destruct (nth_error (levels osr) (Z.to_nat i)) eqn:E.
  - eexists; split; reflexivity.
  - apply nth_error_None in E. lia.
Qed.

(** The scan of [openslide_get_best_level_for_downsample], started at
    level [k] with [m] levels to go. *)
Definition scan_body (osr : openslide_t) (target : float) (i : Z) (_ : unit)
  : outcome (ctl unit Z) :=
  li <- level_at osr i ;;
  if (target <? Level.downsample li)%float
  then Done (Ret (i - 1))
  else Done (Next tt).

Lemma scan_spec (osr : openslide_t) (target : float) (m : nat) (k : Z) :
  1 <= k ->
  k + Z.of_nat m <= Z.of_nat (List.length (levels osr)) ->
  (forall i, 1 <= i < k -> (target <? downsample_at osr i)%float = false) ->
  (exists r, for_each (iota k m) (scan_body osr target) tt = Done (Ret r)
             /\ k - 1 <= r < k + Z.of_nat m - 1
             /\ (target <? downsample_at osr (r + 1))%float = true
             /\ forall i, 1 <= i <= r ->
                          (target <? downsample_at osr i)%float = false)
  \/ (for_each (iota k m) (scan_body osr target) tt = Done (Next tt)
      /\ forall i, 1 <= i < k + Z.of_nat m ->
                   (target <? downsample_at osr i)%float = false).
Proof.
  revert k. induction m as [|m IH]; intros k Hk Hlen Hpre.
  - right. split; [reflexivity|]. intros i Hi. apply Hpre. lia.
  - assert (Hstep : for_each (iota k (S m)) (scan_body osr target) tt =
                    if (target <? downsample_at osr k)%float
                    then Done (Ret (k - 1))
                    else for_each (iota (k + 1) m) (scan_body osr target) tt).
    { cbn [iota for_each]. unfold scan_body at 1.
      destruct (level_at_ok osr k) as (l & -> & Hl); [lia|].
      cbn [bind]. rewrite Hl.
      destruct (target <? downsample_at osr k)%float; reflexivity. }
    rewrite Hstep.
    destruct (target <? downsample_at osr k)%float eqn:E.
    + left. exists (k - 1). split; [reflexivity|].
      split; [lia|]. split.
      * replace (k - 1 + 1) with k by lia. exact E.
      * intros i Hi. apply Hpre. lia.
    + destruct (IH (k + 1)) as [(r & Hr & Hb & Ht & Hall)|(Hr & Hall)].
      * lia.
      * lia.
      * intros i Hi. destruct (Z.eq_dec i k) as [->|]; [exact E|].
        apply Hpre. lia.
      * left. exists r. split; [exact Hr|]. split; [lia|]. split; assumption.
      * right. split; [exact Hr|]. intros i Hi. apply Hall. lia.
Qed.

(** The handle invariant [openslide_open] establishes before it returns a
    usable handle: no level's downsample is below its predecessor's. *)
Definition downsamples_ordered (osr : openslide_t) : Prop :=
  forall i, 1 <= i < level_count osr ->
            (downsample_at osr i <? downsample_at osr (i - 1))%float = false.

Definition downsamples_are_numbers (osr : openslide_t) : Prop :=
  forall i, 0 <= i < level_count osr ->
            Dbl.is_nan (downsample_at osr i) = false.

Lemma above_target_upwards (osr : openslide_t) (target : float) (r : Z) :
  downsamples_ordered osr -> downsamples_are_numbers osr ->
  0 <= r ->
  (target <? downsample_at osr (r + 1))%float = true ->
  forall j, r < j < level_count osr ->
            (target <? downsample_at osr j)%float = true.
Proof.
  intros Hord Hnum Hr Ht j Hj.
  assert (H : forall n : nat, r + 1 + Z.of_nat n < level_count osr ->
            (target <? downsample_at osr (r + 1 + Z.of_nat n))%float = true).
  { induction n as [|n IHn]; intros Hn.
    - replace (r + 1 + Z.of_nat 0) with (r + 1) by lia. exact Ht.
    - eapply Dbl.ltb_le_trans.
      + apply IHn. lia.
      + replace (r + 1 + Z.of_nat n) with (r + 1 + Z.of_nat (S n) - 1) by lia.
        apply Hord. lia.
      + apply Hnum. lia. }
  replace j with (r + 1 + Z.of_nat (Z.to_nat (j - r - 1))) by lia.
  apply H. lia.
Qed.

Definition handle_123 : openslide_t :=
  mk_osr [Level.mk 1 1600 1600 0 0; Level.mk 4 400 400 0 0;
          Level.mk 16 100 100 0 0] 3 3 1 None.

(** The same levels with level 1 repeated. *)
Definition handle_with_tie : openslide_t :=
  mk_osr [Level.mk 1 1600 1600 0 0; Level.mk 4 400 400 0 0;
          Level.mk 4 400 400 0 0; Level.mk 16 100 100 0 0] 4 4 1 None.

Lemma handle_with_tie_ordered : downsamples_ordered handle_with_tie.
Proof.
  intros i Hi. simpl in Hi.
  assert (i = 1 \/ i = 2 \/ i = 3) as [-> | [-> | ->]] by lia;
    vm_compute; reflexivity.
Qed.

(** C4 as stated fails on ties.  With the downsamples 1, 4, 4, 16 and the
    target 4, levels 1 and 2 both have the largest downsample that is at
    most the target; the scan goes on over equal downsamples and returns
    level 2, the higher index of the two, where the claim favours the
    lower. *)
Lemma best_level_tie_gives_higher_index :
  openslide_get_error handle_with_tie = None /\
  downsamples_ordered handle_with_tie /\
  (downsample_at handle_with_tie 1 =? downsample_at handle_with_tie 2)%float
  = true /\
  (downsample_at handle_with_tie 1 <=? 4)%float = true /\
  openslide_get_best_level_for_downsample handle_with_tie 4%float = Done 2.
Proof.
  split; [reflexivity|]. split; [exact handle_with_tie_ordered|].
  split; [vm_compute; reflexivity|].
  split; vm_compute; reflexivity.
Qed.

(** C4, amended.  On a handle without error and with at least one level,
    [openslide_get_best_level_for_downsample] returns 0 when the target
    compares below level 0's downsample.  Otherwise it returns the level
    before the first level, counted from level 1, whose downsample
    compares above the target, and the last level when there is none.
    When no downsample and not the target is a NaN and the levels have
    the order [openslide_open] checks, that is the last level whose
    downsample is at most the target: level [r] is at most the target,
    every level after [r] is not, and no level after [r] has the
    downsample of [r], so that among equal downsamples the highest index
    is returned.  For the downsamples 1, 4, 16 the targets 0.5, 4, 10 and
    100 give the levels 0, 1, 1 and 2. *)
Theorem best_level_for_downsample_spec :
  (forall (osr : openslide_t) (target : float),
      openslide_get_error osr = None ->
      1 <= level_count osr <= Z.of_nat (List.length (levels osr)) ->
      exists r,
        openslide_get_best_level_for_downsample osr target = Done r /\
        0 <= r < level_count osr /\
        ((target <? downsample_at osr 0)%float = true -> r = 0) /\
        ((target <? downsample_at osr 0)%float = false ->
         (forall i, 0 <= i <= r ->
                    (target <? downsample_at osr i)%float = false) /\
         (r < level_count osr - 1 ->
          (target <? downsample_at osr (r + 1))%float = true)) /\
        (downsamples_ordered osr ->
         downsamples_are_numbers osr ->
         Dbl.is_nan target = false ->
         (target <? downsample_at osr 0)%float = false ->
         (downsample_at osr r <=? target)%float = true /\
         (forall j, r < j < level_count osr ->
                    (downsample_at osr j <=? target)%float = false) /\
         (forall j, r < j < level_count osr ->
                    (downsample_at osr j =? downsample_at osr r)%float
                    = false)))
  /\ openslide_get_best_level_for_downsample handle_123 0.5%float = Done 0
  /\ openslide_get_best_level_for_downsample handle_123 4%float = Done 1
  /\ openslide_get_best_level_for_downsample handle_123 10%float = Done 1
  /\ openslide_get_best_level_for_downsample handle_123 100%float = Done 2.
Proof.
  split; [|repeat split; vm_compute; reflexivity].
  intros osr target Herr Hcount.
  assert (Hlast : forall r,
             0 <= r < level_count osr ->
             (forall i, 0 <= i <= r ->
                        (target <? downsample_at osr i)%float = false) ->
             (r < level_count osr - 1 ->
              (target <? downsample_at osr (r + 1))%float = true) ->
             downsamples_ordered osr ->
             downsamples_are_numbers osr ->
             Dbl.is_nan target = false ->
             (downsample_at osr r <=? target)%float = true /\
             (forall j, r < j < level_count osr ->
                        (downsample_at osr j <=? target)%float = false) /\
             (forall j, r < j < level_count osr ->
                        (downsample_at osr j =? downsample_at osr r)%float
                        = false)).
  { intros r Hr Hbelow Hnext Hord Hnum Htarget.
    assert (Habove : forall j, r < j < level_count osr ->
                               (target <? downsample_at osr j)%float = true).
    { intros j Hj.
      apply (above_target_upwards osr target r); auto; try lia.
      apply Hnext. lia. }
    split; [|split].
    - apply Dbl.not_ltb_leb; [exact Htarget|apply Hnum; lia|].
      apply Hbelow. lia.
    - intros j Hj. apply Dbl.ltb_not_leb, Habove, Hj.
    - intros j Hj.
      destruct (downsample_at osr j =? downsample_at osr r)%float eqn:E;
        [|reflexivity].
      pose proof (Dbl.ltb_eqb_trans _ _ _ (Habove j Hj) E) as Hlt.
      rewrite Hbelow in Hlt by lia. discriminate. }
  unfold openslide_get_best_level_for_downsample, has_error.
  rewrite Herr.
  destruct (level_at_ok osr 0) as (l0 & -> & Hl0); [lia|].
  cbn [bind]. rewrite Hl0.
  destruct (target <? downsample_at osr 0)%float eqn:E0.
  - exists 0. split; [reflexivity|]. split; [lia|].
    split; [reflexivity|]. split; discriminate.
  - unfold range.
    change (fun i (_ : unit) =>
              li <- level_at osr i ;;
              if (target <? Level.downsample li)%float
              then Done (Ret (i - 1)) else Done (Next tt))
      with (scan_body osr target).
    destruct (scan_spec osr target (Z.to_nat (level_count osr - 1)) 1)
      as [(r & Hr & Hb & Ht & Hall)|(Hr & Hall)]; try lia.
    + rewrite Hr. cbn [bind]. exists r.
      assert (Hbelow : forall i, 0 <= i <= r ->
                (target <? downsample_at osr i)%float = false).
      { intros i Hi. destruct (Z.eq_dec i 0) as [->|]; [exact E0|].
        apply Hall. lia. }
      split; [reflexivity|]. split; [lia|]. split; [discriminate|].
      split.
      * intros _. split; [exact Hbelow|]. intros _. exact Ht.
      * intros Hord Hnum Htarget _.
        apply Hlast; auto; lia.
    + rewrite Hr. cbn [bind]. exists (level_count osr - 1).
      assert (Hbelow : forall i, 0 <= i <= level_count osr - 1 ->
                (target <? downsample_at osr i)%float = false).
      { intros i Hi. destruct (Z.eq_dec i 0) as [->|]; [exact E0|].
        apply Hall. lia. }
      split; [reflexivity|]. split; [lia|]. split; [discriminate|].
      split.
      * intros _. split; [exact Hbelow|]. lia.
      * intros Hord Hnum Htarget _.
        apply Hlast; auto; lia.
Qed.

Lemma best_level_for_downsample_witness :
  exists r,
    openslide_get_best_level_for_downsample handle_with_tie 4%float = Done r /\
    0 <= r < level_count handle_with_tie /\
    (downsample_at handle_with_tie r <=? 4)%float = true /\
    (forall j, r < j < level_count handle_with_tie ->
               (downsample_at handle_with_tie j <=? 4)%float = false) /\
    (forall j, r < j < level_count handle_with_tie ->
               (downsample_at handle_with_tie j
                =? downsample_at handle_with_tie r)%float = false).
Proof.
  destruct (proj1 best_level_for_downsample_spec handle_with_tie 4%float)
    as (r & Hr & Hrange & _ & _ & Hlast).
  - reflexivity.
  - simpl. lia.
  - exists r. split; [exact Hr|]. split; [exact Hrange|].
    apply Hlast.
    + exact handle_with_tie_ordered.
    + intros i Hi. simpl in Hi.
      assert (i = 0 \/ i = 1 \/ i = 2 \/ i = 3)
        as [-> | [-> | [-> | ->]]] by lia; vm_compute; reflexivity.
    + vm_compute. reflexivity.
    + vm_compute. reflexivity.
Defined.

(** *** Properties of [openslide_open] *)

Lemma list_set_ok {A : Type} (l : list A) (n : nat) (a : A) :
  (n < List.length l)%nat ->
  exists l', list_set l n a = Some l' /\
             List.length l' = List.length l /\
             forall j, nth_error l' j =
                       if (j =? n)%nat then Some a else nth_error l j.
Proof.
  revert n. induction l as [|x t IH]; intros n Hn; simpl in Hn; [lia|].
  destruct n as [|n].
  - eexists. split; [reflexivity|]. split; [reflexivity|].
    intros [|j]; reflexivity.
  - destruct (IH n) as (t' & Ht' & Hlen & Hnth); [lia|].
    exists (x :: t'). simpl. rewrite Ht'. split; [reflexivity|].
    split; [simpl; lia|]. intros [|j]; [reflexivity|]. simpl. apply Hnth.
Qed.

(** The handle fields the open path leaves alone. *)
Definition same_header (a b : openslide_t) : Prop :=
  level_count a = level_count b /\ level_count_all a = level_count_all b /\
  channel_count a = channel_count b /\ error a = error b /\
  List.length (levels a) = List.length (levels b).

Lemma store_downsample_ok (osr : openslide_t) (i : Z) (ds : float) (l : Level.t) :
  0 <= i -> nth_error (levels osr) (Z.to_nat i) = Some l ->
  exists osr', store_downsample osr i ds = Done osr' /\
               same_header osr' osr /\
               forall j, nth_error (levels osr') j =
                         if (j =? Z.to_nat i)%nat
                         then Some (Level.set_downsample l ds)
                         else nth_error (levels osr) j.
Proof.
  intros Hi Hl. unfold store_downsample, level_at.
  destruct (Z.ltb_spec i 0); [lia|]. rewrite Hl. cbn [of_option bind].
  destruct (list_set_ok (levels osr) (Z.to_nat i) (Level.set_downsample l ds))
    as (ls & -> & Hlen & Hnth).
  { apply nth_error_Some. congruence. }
  cbn [of_option bind]. eexists. split; [reflexivity|].
  split; [|exact Hnth]. unfold same_header; simpl. tauto.
Qed.

(** The dimensions [openslide_get_level0_dimensions] reports. *)
Definition level0_dims (osr : openslide_t) : Z * Z :=
  if has_error osr then (-1, -1)
  else if negb (level_in_range osr 0) then (-1, -1)
  else match nth_error (levels osr) 0 with
       | Some l => (Level.w l, Level.h l)
       | None => (-1, -1)
       end.

(** Half the sum of the height ratio and the width ratio of level 0 to
    the level [l]: their arithmetic mean. *)
Definition mean_of_ratios (blw blh : Z) (l : Level.t) : float :=
  (((Dbl.of_int blh / Dbl.of_int (Level.h l)) +
    (Dbl.of_int blw / Dbl.of_int (Level.w l))) / 2)%float.

(** The geometric mean of two ratios, as the specification words it. *)
Definition geometric_mean (a b : float) : float := PrimFloat.sqrt (a * b).

(** The downsample level [i] has once the missing ones are computed. *)
Definition inferred_downsample (osr : openslide_t) (i : Z) (l : Level.t) : float :=
  if (Level.downsample l =? 0)%float then
    if i =? 0 then 1%float
    else mean_of_ratios (fst (level0_dims osr)) (snd (level0_dims osr)) l
  else Level.downsample l.

Definition well_formed (osr : openslide_t) : Prop :=
  0 <= level_count osr <= Z.of_nat (List.length (levels osr)).

Lemma level_at_nth (osr : openslide_t) (i : Z) (l : Level.t) :
  0 <= i -> nth_error (levels osr) (Z.to_nat i) = Some l ->
  level_at osr i = Done l.
Proof.
  intros Hi Hl. unfold level_at. destruct (Z.ltb_spec i 0); [lia|].
  now rewrite Hl.
Qed.

Lemma level0_dims_ok (osr : openslide_t) :
  well_formed osr ->
  openslide_get_level0_dimensions osr = Done (level0_dims osr).
Proof.
  intros [H0 Hlen].
  unfold openslide_get_level0_dimensions, openslide_get_level_dimensions,
    level0_dims.
  destruct (has_error osr); [reflexivity|].
  destruct (level_in_range osr 0) eqn:E; [|reflexivity]. cbn [negb].
  unfold level_in_range in E. simpl in E.
  destruct (Z.gtb_spec 0 (level_count osr - 1)); [discriminate|].
  destruct (nth_error (levels osr) 0) as [l|] eqn:El.
  - rewrite (level_at_nth osr 0 l); [reflexivity|lia|exact El].
  - apply nth_error_None in El. lia.
Qed.

Definition infer_body (blw blh : Z) (i : Z) (osr : openslide_t)
  : outcome (ctl openslide_t unit) :=
  l <- level_at osr i ;;
  if (Level.downsample l =? 0)%float then
    osr' <- store_downsample osr i (mean_of_ratios blw blh l) ;;
    Done (Next osr')
  else Done (Next osr).

Definition infer_level (blw blh : Z) (l : Level.t) : Level.t :=
  if (Level.downsample l =? 0)%float
  then Level.set_downsample l (mean_of_ratios blw blh l)
  else l.

Lemma infer_loop_spec (blw blh : Z) (m : nat) (k : Z) (cur : openslide_t) :
  0 <= k ->
  (m <> 0%nat -> k + Z.of_nat m <= Z.of_nat (List.length (levels cur))) ->
  exists osr1,
    for_each (iota k m) (infer_body blw blh) cur = Done (Next osr1) /\
    same_header osr1 cur /\
    forall j, nth_error (levels osr1) j =
              if (Z.to_nat k <=? j)%nat && (j <? Z.to_nat k + m)%nat
              then option_map (infer_level blw blh) (nth_error (levels cur) j)
              else nth_error (levels cur) j.
Proof.
  revert k cur. induction m as [|m IH]; intros k cur Hk Hlen.
  - exists cur. split; [reflexivity|]. split; [unfold same_header; tauto|].
    intros j. destruct (Z.to_nat k <=? j)%nat eqn:E1; simpl; [|reflexivity].
    destruct (Nat.ltb_spec j (Z.to_nat k + 0)); [|reflexivity].
    apply Nat.leb_le in E1. lia.
  - assert (Hlen' : k + Z.of_nat (S m) <= Z.of_nat (List.length (levels cur)))
      by (apply Hlen; lia).
    destruct (nth_error (levels cur) (Z.to_nat k)) as [l|] eqn:El.
    2:{ apply nth_error_None in El. lia. }
    assert (Hone : exists cur',
               infer_body blw blh k cur = Done (Next cur') /\
               same_header cur' cur /\
               forall j, nth_error (levels cur') j =
                         if (j =? Z.to_nat k)%nat
                         then Some (infer_level blw blh l)
                         else nth_error (levels cur) j).
    { unfold infer_body, infer_level. rewrite (level_at_nth cur k l Hk El).
      cbn [bind]. destruct (Level.downsample l =? 0)%float.
      - destruct (store_downsample_ok cur k (mean_of_ratios blw blh l) l Hk El)
          as (cur' & -> & Hh & Hn).
        exists cur'. cbn [bind]. auto.
      - exists cur. split; [reflexivity|]. split; [unfold same_header; tauto|].
        intros j. destruct (Nat.eqb_spec j (Z.to_nat k)); congruence. }
    destruct Hone as (cur' & Hb & Hh & Hn).
    destruct Hh as (H1 & H2 & H3 & H4 & H5).
    destruct (IH (k + 1) cur') as (osr1 & Hl & Hh1 & Hn1); [lia|intros; lia|].
    exists osr1. cbn [iota for_each]. rewrite Hb. cbn [bind].
    split; [exact Hl|]. split.
    { unfold same_header in *. intuition congruence. }
    intros j. rewrite Hn1, Hn.
    replace (Z.to_nat (k + 1)) with (S (Z.to_nat k)) by lia.
    destruct (Nat.eqb_spec j (Z.to_nat k)) as [->|Hne];
      [rewrite El|];
      repeat match goal with
        | |- context [(?a <=? ?b)%nat] => destruct (Nat.leb_spec a b)
        | |- context [(?a <? ?b)%nat] => destruct (Nat.ltb_spec a b)
        end; cbn [andb option_map]; try reflexivity; try lia.
Qed.

(** The downsample of level [i] of the backend's handle [b] once
    [compute_downsamples] has run. *)
Definition final_downsample (b : openslide_t) (i : Z) : float :=
  match nth_error (levels b) (Z.to_nat i) with
  | Some l => inferred_downsample b i l
  | None => nan
  end.

Lemma set_downsample_same (l : Level.t) :
  Level.set_downsample l (Level.downsample l) = l.
Proof. destruct l; reflexivity. Qed.

Lemma compute_downsamples_spec (b : openslide_t) :
  well_formed b ->
  exists osr1,
    compute_downsamples b = Done osr1 /\
    same_header osr1 b /\
    forall i, 0 <= i < level_count b ->
              downsample_at osr1 i = final_downsample b i.
Proof.
  intros Hwf. pose proof Hwf as [H0 Hlen].
  unfold compute_downsamples. rewrite (level0_dims_ok b Hwf).
  destruct (level0_dims b) as [blw blh] eqn:Edims. cbn [bind].
  change (fun i osr =>
            l <- level_at osr i ;;
            if (Level.downsample l =? 0)%float then
              osr' <- store_downsample osr i
                        (((Dbl.of_int blh / Dbl.of_int (Level.h l)) +
                          (Dbl.of_int blw / Dbl.of_int (Level.w l))) / 2)%float ;;
              Done (Next osr')
            else Done (Next osr))
    with (infer_body blw blh).
  (* level 0 *)
  assert (Hzero : exists osr0,
             (if negb (level_count b =? 0) then
                l0 <- level_at b 0 ;;
                if (Level.downsample l0 =? 0)%float
                then store_downsample b 0 1%float
                else Done b
              else Done b) = Done osr0 /\
             same_header osr0 b /\
             forall j, nth_error (levels osr0) j =
                       if (j =? 0)%nat && negb (level_count b =? 0)
                       then option_map
                              (fun l => Level.set_downsample l
                                          (inferred_downsample b 0 l))
                              (nth_error (levels b) j)
                       else nth_error (levels b) j).
  { destruct (Z.eqb_spec (level_count b) 0) as [Ez|Ez]; cbn [negb].
    - exists b. split; [reflexivity|]. split; [unfold same_header; tauto|].
      intros j. rewrite andb_false_r. reflexivity.
    - destruct (nth_error (levels b) 0) as [l0|] eqn:El0.
      2:{ apply nth_error_None in El0. lia. }
      rewrite (level_at_nth b 0 l0); [|lia|exact El0]. cbn [bind].
      unfold inferred_downsample.
      destruct (Level.downsample l0 =? 0)%float eqn:Eds.
      + destruct (store_downsample_ok b 0 1%float l0) as (o & -> & Hh & Hn);
          [lia|exact El0|].
        exists o. split; [reflexivity|]. split; [exact Hh|].
        intros j. rewrite Hn. change (Z.to_nat 0) with 0%nat.
        destruct (Nat.eqb_spec j 0) as [->|]; cbn [andb]; [|reflexivity].
        rewrite El0. cbn [option_map]. rewrite Eds. reflexivity.
      + exists b. split; [reflexivity|]. split; [unfold same_header; tauto|].
        intros j. destruct (Nat.eqb_spec j 0) as [->|]; cbn [andb];
          [|reflexivity].
        rewrite El0. cbn [option_map]. rewrite Eds.
        now rewrite set_downsample_same. }
  destruct Hzero as (osr0 & -> & Hh0 & Hn0). cbn [bind].
  destruct Hh0 as (H1 & H2 & H3 & H4 & H5).
  unfold range. rewrite H1.
  destruct (infer_loop_spec blw blh (Z.to_nat (level_count b - 1)) 1 osr0)
    as (osr1 & -> & Hh1 & Hn1); [lia|intros; lia|].
  cbn [bind]. exists osr1. split; [reflexivity|].
  split; [unfold same_header in *; intuition congruence|].
  intros i Hi. unfold downsample_at, final_downsample.
  rewrite Hn1, Hn0. change (Z.to_nat 1) with 1%nat.
  destruct (nth_error (levels b) (Z.to_nat i)) as [l|] eqn:El.
  2:{ apply nth_error_None in El. lia. }
  destruct (Z.eq_dec i 0) as [->|Hne].
  - change (Z.to_nat 0) with 0%nat in *. cbn [Nat.leb andb Nat.eqb].
    destruct (Z.eqb_spec (level_count b) 0); [lia|]. cbn [negb].
    reflexivity.
  - destruct (Nat.leb_spec 1 (Z.to_nat i)); [|lia].
    destruct (Nat.ltb_spec (Z.to_nat i) (1 + Z.to_nat (level_count b - 1)));
      [|lia].
    destruct (Nat.eqb_spec (Z.to_nat i) 0); [lia|].
    cbn [andb option_map].
    unfold infer_level, inferred_downsample. rewrite Edims. cbn [fst snd].
    destruct (Z.eqb_spec i 0); [lia|].
    destruct (Level.downsample l =? 0)%float; reflexivity.
Qed.

Definition check_body (osr : openslide_t) (i : Z) (_ : unit)
  : outcome (ctl unit unit) :=
  li <- level_at osr i ;;
  lp <- level_at osr (i - 1) ;;
  if (Level.downsample li <? Level.downsample lp)%float
  then Done (Ret tt)
  else Done (Next tt).

Lemma check_loop_spec (osr : openslide_t) (m : nat) (k : Z) :
  1 <= k ->
  (m <> 0%nat -> k + Z.of_nat m <= Z.of_nat (List.length (levels osr))) ->
  (for_each (iota k m) (check_body osr) tt = Done (Ret tt) /\
   exists i, k <= i < k + Z.of_nat m /\
             (downsample_at osr i <? downsample_at osr (i - 1))%float = true)
  \/ (for_each (iota k m) (check_body osr) tt = Done (Next tt) /\
      forall i, k <= i < k + Z.of_nat m ->
                (downsample_at osr i <? downsample_at osr (i - 1))%float = false).
Proof.
  revert k. induction m as [|m IH]; intros k Hk Hlen.
  - right. split; [reflexivity|]. intros; lia.
  - assert (Hlen' : k + Z.of_nat (S m) <= Z.of_nat (List.length (levels osr)))
      by (apply Hlen; lia).
    assert (Hstep : for_each (iota k (S m)) (check_body osr) tt =
                    if (downsample_at osr k <? downsample_at osr (k - 1))%float
                    then Done (Ret tt)
                    else for_each (iota (k + 1) m) (check_body osr) tt).
    { cbn [iota for_each]. unfold check_body at 1.
      destruct (level_at_ok osr k) as (l & -> & Hl); [lia|].
      destruct (level_at_ok osr (k - 1)) as (lp & -> & Hlp); [lia|].
      cbn [bind]. rewrite Hl, Hlp.
      destruct (downsample_at osr k <? downsample_at osr (k - 1))%float;
        reflexivity. }
    rewrite Hstep.
    destruct (downsample_at osr k <? downsample_at osr (k - 1))%float eqn:E.
    + left. split; [reflexivity|]. exists k. split; [lia|exact E].
    + destruct (IH (k + 1)) as [(Hr & i & Hi & Hd)|(Hr & Hall)];
        try lia; try (intros; lia).
      * left. split; [exact Hr|]. exists i. split; [lia|exact Hd].
      * right. split; [exact Hr|]. intros i Hi.
        destruct (Z.eq_dec i k) as [->|]; [exact E|]. apply Hall. lia.
Qed.

Lemma check_downsamples_spec (osr : openslide_t) :
  well_formed osr ->
  (check_downsamples osr = Done true /\
   exists i, 1 <= i < level_count osr /\
             (downsample_at osr i <? downsample_at osr (i - 1))%float = true)
  \/ (check_downsamples osr = Done false /\ downsamples_ordered osr).
Proof.
  intros [H0 Hlen]. unfold check_downsamples, range.
  change (fun i (_ : unit) =>
            li <- level_at osr i ;;
            lp <- level_at osr (i - 1) ;;
            if (Level.downsample li <? Level.downsample lp)%float
            then Done (Ret tt) else Done (Next tt))
    with (check_body osr).
  destruct (check_loop_spec osr (Z.to_nat (level_count osr - 1)) 1)
    as [(-> & i & Hi & Hd)|(-> & Hall)];
    try lia; try (intros; lia); cbn [bind].
  - left. split; [reflexivity|]. exists i. split; [lia|exact Hd].
  - right. split; [reflexivity|]. intros i Hi. apply Hall. lia.
Qed.

(** The open path on a file the format [format] claims and opens without
    error, leaving the handle [b]. *)
Lemma open_ready_path (formats : list _openslide_format)
      (format : _openslide_format) (b : openslide_t) :
  detect_format formats = Some format ->
  open format fresh_osr = mk_opened true None b ->
  openslide_open formats true =
  (osr <- compute_downsamples b ;;
   bad <- check_downsamples osr ;;
   if (bad : bool) then Done None else Done (Some osr)).
Proof.
  intros Hd Ho. unfold openslide_open, open_backend. rewrite Hd, Ho.
  reflexivity.
Qed.

(** A format whose [open] fills the fresh handle with the given levels. *)
Definition format_with_levels (ls : list Level.t) : _openslide_format :=
  mk_format "synthetic" "synthetic" true
    (fun osr => mk_opened true None
                  (mk_osr ls (Z.of_nat (List.length ls))
                          (Z.of_nat (List.length ls)) 1 None)).

(** Level 0 of 400 x 100 pixels and level 1 of 100 x 100 pixels, both with
    the zero sentinel: the width ratio is 4 and the height ratio is 1. *)
Definition levels_4_1 : list Level.t :=
  [Level.mk 0 400 100 0 0; Level.mk 0 100 100 0 0].

(** Three levels whose downsamples 1, 4, 2 are out of order. *)
Definition levels_1_4_2 : list Level.t :=
  [Level.mk 1 800 800 0 0; Level.mk 4 200 200 0 0; Level.mk 2 400 400 0 0].

(** C5 as stated fails: for the ratios 4 and 1 the open path stores 2.5,
    half their sum, and not their geometric mean 2. *)
Lemma open_downsample_is_not_geometric_mean :
  exists osr',
    openslide_open [format_with_levels levels_4_1] true = Done (Some osr') /\
    downsample_at osr' 1 = 2.5%float /\
    geometric_mean (Dbl.of_int 400 / Dbl.of_int 100)
                   (Dbl.of_int 100 / Dbl.of_int 100) = 2%float /\
    (downsample_at osr' 1 =?
     geometric_mean (Dbl.of_int 400 / Dbl.of_int 100)
                    (Dbl.of_int 100 / Dbl.of_int 100))%float = false.
Proof.
  eexists. split; [vm_compute; reflexivity|].
  repeat split; vm_compute; reflexivity.
Qed.

(** C5, amended.  For every level after level 0 whose backend-supplied
    downsample is the zero sentinel, the open path stores as its downsample
    the arithmetic mean of the height ratio and the width ratio of level
    0's dimensions to that level's: half their sum. *)
Theorem open_infers_missing_downsample
        (formats : list _openslide_format) (format : _openslide_format)
        (b osr' : openslide_t) (l0 : Level.t) :
  detect_format formats = Some format ->
  open format fresh_osr = mk_opened true None b ->
  well_formed b ->
  error b = None ->
  nth_error (levels b) 0 = Some l0 ->
  openslide_open formats true = Done (Some osr') ->
  forall (i : Z) (l : Level.t),
    1 <= i < level_count b ->
    nth_error (levels b) (Z.to_nat i) = Some l ->
    (Level.downsample l =? 0)%float = true ->
    downsample_at osr' i =
    (((Dbl.of_int (Level.h l0) / Dbl.of_int (Level.h l)) +
      (Dbl.of_int (Level.w l0) / Dbl.of_int (Level.w l))) / 2)%float.
Proof.
  intros Hd Ho Hwf Herr Hl0 Hopen i l Hi Hl Hz.
  rewrite (open_ready_path formats format b Hd Ho) in Hopen.
  destruct (compute_downsamples_spec b Hwf) as (osr1 & Hc & Hh & Hds).
  rewrite Hc in Hopen. cbn [bind] in Hopen.
  destruct (check_downsamples osr1) as [[|]| | |]; cbn [bind] in Hopen;
    try discriminate.
  injection Hopen as <-.
  rewrite Hds by lia. unfold final_downsample. rewrite Hl.
  unfold inferred_downsample. rewrite Hz.
  destruct (Z.eqb_spec i 0); [lia|].
  unfold level0_dims, has_error, openslide_get_error. rewrite Herr.
  assert (Hr : level_in_range b 0 = true).
  { unfold level_in_range. simpl.
    destruct (Z.gtb_spec 0 (level_count b - 1)); [lia|reflexivity]. }
  rewrite Hr, Hl0. reflexivity.
Qed.

Lemma open_infers_missing_downsample_witness :
  downsample_at
    (mk_osr [Level.mk 1 400 100 0 0; Level.mk 2.5 100 100 0 0] 2 2 1 None) 1 =
  (((Dbl.of_int 100 / Dbl.of_int 100) +
    (Dbl.of_int 400 / Dbl.of_int 100)) / 2)%float.
Proof.
  apply (open_infers_missing_downsample
           [format_with_levels levels_4_1] (format_with_levels levels_4_1)
           (mk_osr levels_4_1 2 2 1 None) _ (Level.mk 0 400 100 0 0))
    with (l := Level.mk 0 100 100 0 0).
  - reflexivity.
  - reflexivity.
  - unfold well_formed; simpl; lia.
  - reflexivity.
  - reflexivity.
  - vm_compute. reflexivity.
  - simpl; lia.
  - reflexivity.
  - vm_compute. reflexivity.
Defined.

(** Three levels without pixels: levels 0 and 1 carry the zero sentinel,
    level 2 the downsample 0.5.  The open path stores 1 for level 0 and
    for level 1 the mean of 0/0 and 0/0, a NaN. *)
Definition levels_around_nan : list Level.t :=
  [Level.mk 0 0 0 0 0; Level.mk 0 0 0 0 0; Level.mk 0.5 0 0 0 0].

(** C6 as stated fails when a computed downsample is a NaN.  The
    downsamples 1, NaN, 0.5 are not non-decreasing (level 2 is below level
    0), but a NaN compares below nothing and nothing compares below it:
    the check of each level against its predecessor passes and the caller
    gets a usable handle. *)
Lemma open_accepts_order_broken_by_nan :
  exists osr',
    openslide_open [format_with_levels levels_around_nan] true
    = Done (Some osr') /\
    error osr' = None /\
    downsample_at osr' 0 = 1%float /\
    Dbl.is_nan (downsample_at osr' 1) = true /\
    downsample_at osr' 2 = 0.5%float /\
    (downsample_at osr' 2 <? downsample_at osr' 0)%float = true.
Proof.
  eexists. split; [vm_compute; reflexivity|].
  repeat split; vm_compute; reflexivity.
Qed.

(** C6, amended.  When the backend has opened the file and, once the
    missing downsamples are computed, some level's downsample compares
    below its predecessor's, [openslide_open] returns NULL: the caller
    gets no handle. *)
Theorem open_rejects_unordered_downsamples
        (formats : list _openslide_format) (format : _openslide_format)
        (b : openslide_t) :
  detect_format formats = Some format ->
  open format fresh_osr = mk_opened true None b ->
  well_formed b ->
  (exists i, 1 <= i < level_count b /\
             (final_downsample b i <? final_downsample b (i - 1))%float = true) ->
  openslide_open formats true = Done None.
Proof.
  intros Hd Ho Hwf (i & Hi & Hdesc).
  rewrite (open_ready_path formats format b Hd Ho).
  destruct (compute_downsamples_spec b Hwf) as (osr1 & -> & Hh & Hds).
  cbn [bind].
  assert (Hwf1 : well_formed osr1).
  { destruct Hh as (H1 & _ & _ & _ & H5). unfold well_formed in *.
    rewrite H1, H5. exact Hwf. }
  assert (Hc : level_count osr1 = level_count b) by apply Hh.
  destruct (check_downsamples_spec osr1 Hwf1) as [(-> & _)|(_ & Hord)].
  - reflexivity.
  - specialize (Hord i). rewrite Hc in Hord.
    rewrite !Hds in Hord by lia. rewrite Hord in Hdesc by lia.
    discriminate.
Qed.

Lemma open_rejects_unordered_downsamples_witness :
  openslide_open [format_with_levels levels_1_4_2] true = Done None.
Proof.
  apply (open_rejects_unordered_downsamples
           [format_with_levels levels_1_4_2] (format_with_levels levels_1_4_2)
           (mk_osr levels_1_4_2 3 3 1 None)).
  - reflexivity.
  - reflexivity.
  - unfold well_formed; simpl; lia.
  - exists 2. split; [simpl; lia|]. vm_compute. reflexivity.
Defined.

(** *** Properties of the region reader *)

Lemma propagate_sets_error (s : world) (msg : string) :
  error (osr (propagate s (Some msg))) <> None.
Proof.
  unfold propagate, _openslide_propagate_error. simpl.
  destruct (error (osr s)) eqn:E; simpl; congruence.
Qed.

Lemma propagate_keeps_memory (s : world) (err : option string) :
  dest (propagate s err) = dest s /\ buf_cr (propagate s err) = buf_cr s /\
  paints (propagate s err) = paints s.
Proof. unfold propagate, with_osr; simpl. tauto. Qed.

Lemma propagate_keeps_error (s : world) (err : option string) :
  error (osr s) <> None -> error (osr (propagate s err)) = error (osr s).
Proof.
  unfold propagate, _openslide_propagate_error. simpl.
  destruct (error (osr s)) eqn:E; [intros _; simpl; exact E|congruence].
Qed.

Section RegionReaderFacts.

Variable paint_region :
  openslide_t -> cairo_t -> Z -> Z -> Level.t -> Z -> Z ->
  option (list Z) -> painted.
Variable cairo_create_status : cairo_surface_t -> option string.
Variable alloc_fails : Z -> bool.
Variable junk : Z.

Let read_region := openslide_read_region paint_region cairo_create_status.
Let read_region_gray :=
  openslide_read_region_gray paint_region cairo_create_status alloc_fails junk.

Lemma read_region_rejects (s : world) (p : ptr) (x y level w h : Z) :
  w < 0 \/ h < 0 \/ channel_count (osr s) > 1 ->
  exists msg, read_region s p x y level w h = Done (propagate s (Some msg)).
Proof.
  intros H. unfold read_region, openslide_read_region.
  destruct ((w <? 0) || (h <? 0)) eqn:E; [eexists; reflexivity|].
  apply orb_false_iff in E. destruct E as [Ew Eh].
  apply Z.ltb_ge in Ew, Eh.
  destruct (Z.gtb_spec (channel_count (osr s)) 1); [eexists; reflexivity|lia].
Qed.

Lemma read_region_gray_rejects (s : world) (p : ptr)
      (pixel_bytes x y level w h : Z) :
  w < 0 \/ h < 0 ->
  exists msg,
    read_region_gray s p pixel_bytes x y level w h =
    Done (propagate s (Some msg)).
Proof.
  intros H. unfold read_region_gray, openslide_read_region_gray.
  destruct ((w <? 0) || (h <? 0)) eqn:E; [eexists; reflexivity|].
  apply orb_false_iff in E. destruct E as [Ew Eh].
  apply Z.ltb_ge in Ew, Eh. lia.
Qed.

(** The caller's pointer is NULL, or the start of a [dest] buffer of at
    least [n] bytes. *)
Definition dest_fits (s : world) (p : ptr) (n : Z) : Prop :=
  match p with
  | Null => True
  | InDest off =>
      off = 0 /\ exists b, dest s = Some b /\ n <= Z.of_nat (List.length b)
  | InBufCr _ => False
  end.

Lemma tile_count_pos (n : Z) : 0 < n -> 0 < Z.quot (n + tile_edge - 1) tile_edge.
Proof.
  intros H. unfold tile_edge. rewrite Z.quot_div_nonneg by lia.
  apply Z.div_str_pos. lia.
Qed.

Lemma tile_count_zero (n : Z) : n = 0 -> Z.quot (n + tile_edge - 1) tile_edge = 0.
Proof. intros ->. reflexivity. Qed.

(** The tile loops when the first tile executes a [return]. *)
Lemma tiles_first_returns (rows cols : Z)
      (body : Z -> Z -> world -> outcome (ctl world world)) (s s' : world) :
  0 < rows -> 0 < cols ->
  body 0 0 s = Done (Ret s') ->
  for_each (range 0 rows) (fun row s => for_each (range 0 cols) (body row) s) s
  = Done (Ret s').
Proof.
  intros Hr Hc Hb.
  rewrite (range_cons 0 rows Hr). cbn [for_each].
  rewrite (range_cons 0 cols Hc). cbn [for_each].
  rewrite Hb. reflexivity.
Qed.

(** The tile loops when every tile leaves the state as it is. *)
Lemma tiles_idle (rows cols : Z)
      (body : Z -> Z -> world -> outcome (ctl world world)) (s : world) :
  (forall row col, body row col s = Done (Next s)) ->
  for_each (range 0 rows) (fun row s => for_each (range 0 cols) (body row) s) s
  = Done (Next s).
Proof.
  intros Hb. apply for_each_idle. intros row _.
  apply for_each_idle. intros col _. apply Hb.
Qed.

Lemma memset_at_dest (s : world) (b : list Z) (n : Z) :
  dest s = Some b -> 0 <= n <= Z.of_nat (List.length b) ->
  memset_at s (InDest 0) 0 n =
  Done (with_dest s (Some (repeat 0 (Z.to_nat n) ++ skipn (Z.to_nat n) b))).
Proof.
  intros Hd Hn. unfold memset_at. cbn [pointee offset_of]. rewrite Hd.
  rewrite memset_ok by exact Hn. reflexivity.
Qed.

Lemma memset_at_buf_cr (s : world) (b : list Z) (n : Z) :
  buf_cr s = Some b -> 0 <= n <= Z.of_nat (List.length b) ->
  memset_at s (InBufCr 0) 0 n =
  Done (with_buf_cr s (Some (repeat 0 (Z.to_nat n) ++ skipn (Z.to_nat n) b))).
Proof.
  intros Hd Hn. unfold memset_at. cbn [pointee offset_of]. rewrite Hd.
  rewrite memset_ok by exact Hn. reflexivity.
Qed.

Lemma has_error_true (o : openslide_t) : has_error o = true -> error o <> None.
Proof.
  unfold has_error, openslide_get_error. destruct (error o); congruence.
Qed.

Lemma has_error_false (o : openslide_t) : has_error o = false -> error o = None.
Proof.
  unfold has_error, openslide_get_error. destruct (error o); congruence.
Qed.

Lemma wrap64_small (z : Z) : 0 <= z -> 0 <= wrap64 z <= z.
Proof.
  intros H. unfold wrap64. split.
  - apply Z.mod_pos_bound. lia.
  - apply Z.mod_le; lia.
Qed.

Lemma area_gray_invalid_level (s : world) (p : ptr)
      (stride pixel_bytes x y level w h : Z) :
  pixel_bytes = 1 \/ pixel_bytes = 2 ->
  level > level_count_all (osr s) - 1 ->
  read_region_area_gray paint_region cairo_create_status s p stride
                        pixel_bytes x y level w h =
  Done (false, None, propagate s (Some "invalid level"%string)).
Proof.
  intros Hpb Hl. unfold read_region_area_gray.
  destruct Hpb as [-> | ->]; cbn [Z.eqb Pos.eqb];
    (destruct (Z.gtb_spec level (level_count_all (osr s) - 1));
     [reflexivity|lia]).
Qed.

(** The gray reader on a non-empty region of a level above the last one:
    the first tile reports the invalid level. *)
Lemma gray_invalid_level_sets_error (s : world) (p : ptr)
      (pixel_bytes x y level w h : Z) :
  pixel_bytes = 1 \/ pixel_bytes = 2 ->
  0 < w -> 0 < h ->
  level > level_count_all (osr s) - 1 ->
  dest_fits s p (w * h * pixel_bytes) ->
  exists s', read_region_gray s p pixel_bytes x y level w h = Done s' /\
             error (osr s') <> None.
Proof.
  intros Hpb Hw Hh Hlevel Hfits.
  unfold read_region_gray, openslide_read_region_gray.
  destruct (Z.ltb_spec w 0); [lia|]. destruct (Z.ltb_spec h 0); [lia|].
  cbn [orb].
  set (fmt := if pixel_bytes =? 1 then Some CAIRO_FORMAT_A8
              else if pixel_bytes =? 2 then Some CAIRO_FORMAT_RGB16_565
              else None).
  assert (Hfmt : exists f, fmt = Some f).
  { subst fmt. destruct Hpb as [-> | ->]; eexists; reflexivity. }
  destruct Hfmt as (cr_fmt & ->).
  set (stride := cairo_format_stride_for_width cr_fmt w).
  set (len := wrap64 (h * stride)).
  (* the tile loop, from any state whose buffer can be cleared *)
  assert (Hloop : forall (buf : ptr) (s2 : world),
             level > level_count_all (osr s2) - 1 ->
             (is_null buf = true \/
              exists s3, memset_at (propagate (propagate s2 (Some "invalid level"%string)) None)
                                   buf 0 len = Done s3 /\
                         error (osr s3) <> None) ->
             exists c,
               for_each (range 0 (Z.quot (h + tile_edge - 1) tile_edge))
                 (fun row s =>
                    for_each (range 0 (Z.quot (w + tile_edge - 1) tile_edge))
                      (read_tile_gray paint_region cairo_create_status buf
                         cr_fmt stride pixel_bytes x y level w h (-1)%float row)
                      s) s2 = Done (Ret c)
               /\ error (osr c) <> None).
  { intros buf s2 Hl2 Hbuf.
    assert (Htile : forall s3,
               (if negb (is_null buf)
                then memset_at (propagate (propagate s2 (Some "invalid level"%string)) None)
                               buf 0 len
                else Done (propagate (propagate s2 (Some "invalid level"%string)) None))
               = Done s3 ->
               read_tile_gray paint_region cairo_create_status buf cr_fmt
                 stride pixel_bytes x y level w h (-1)%float 0 0 s2
               = Done (Ret s3)).
    { intros s3 Hs3. unfold read_tile_gray. cbv zeta.
      rewrite area_gray_invalid_level by assumption.
      cbn [bind negb]. fold len. rewrite Hs3. reflexivity. }
    destruct (is_null buf) eqn:Hn; cbn [negb] in Htile.
    - eexists. split.
      + apply tiles_first_returns; try (apply tile_count_pos; lia).
        apply Htile. reflexivity.
      + rewrite propagate_keeps_error; apply propagate_sets_error.
    - destruct Hbuf as [Hnull | (s3 & Hms & Hosr)]; [discriminate|].
      exists s3. split.
      + apply tiles_first_returns; try (apply tile_count_pos; lia).
        apply Htile. exact Hms.
      + exact Hosr. }
  assert (Hgray : forall s2 : world,
             has_error (osr s2) = false ->
             level > level_count_all (osr s2) - 1 ->
             openslide_get_level_downsample_gray (osr s2) level
             = Done (-1)%float).
  { intros s2 He Hl2. unfold openslide_get_level_downsample_gray. rewrite He.
    destruct (Z.gtb_spec level (level_count_all (osr s2) - 1)); [|lia].
    rewrite orb_true_r. reflexivity. }
  cbv zeta.
  destruct (Z.eqb_spec stride (w * pixel_bytes)) as [Es|Es].
  - (* no padding: the buffer is the caller's *)
    destruct p as [|off|off]; cbn [dest_fits] in Hfits.
    + cbn [is_null negb bind].
      destruct (has_error (osr (with_buf_cr s None))) eqn:He.
      * eexists. split; [reflexivity|]. apply has_error_true. exact He.
      * rewrite (Hgray _ He Hlevel). cbn [bind].
        destruct (Hloop Null (with_buf_cr s None) Hlevel) as (c & Hc & Hec);
          [left; reflexivity|].
        rewrite Hc. cbn [bind]. exists c. split; [reflexivity|exact Hec].
    + destruct Hfits as (-> & b & Hb & Hlen).
      assert (Hrange : 0 <= len <= Z.of_nat (List.length b)).
      { subst len. rewrite Es.
        pose proof (wrap64_small (h * (w * pixel_bytes))).
        destruct Hpb; subst pixel_bytes; nia. }
      cbn [is_null negb].
      rewrite (memset_at_dest (with_buf_cr s None) b len Hb Hrange).
      cbn [bind].
      set (s1 := with_dest (with_buf_cr s None) _).
      destruct (has_error (osr s1)) eqn:He.
      * eexists. split; [reflexivity|]. apply has_error_true. exact He.
      * rewrite (Hgray _ He Hlevel). cbn [bind].
        destruct (Hloop (InDest 0) s1 Hlevel) as (c & Hc & Hec).
        { right. eexists. split.
          - apply memset_at_dest; [reflexivity|].
            rewrite length_app, repeat_length, length_skipn. lia.
          - change (error (osr (propagate (propagate s1 (Some "invalid level"%string)) None)) <> None).
            rewrite propagate_keeps_error; apply propagate_sets_error. }
        rewrite Hc. cbn [bind]. exists c. split; [reflexivity|exact Hec].
    + contradiction.
  - (* padding: a temporary buffer *)
    unfold g_try_malloc.
    destruct ((len =? 0) || alloc_fails len) eqn:Ea.
    + eexists. split; [reflexivity|]. apply propagate_sets_error.
    + cbn [is_null negb].
      assert (Hlen0 : 0 <= len) by (apply Z.mod_pos_bound; lia).
      rewrite (memset_at_buf_cr
                 (with_buf_cr (with_buf_cr s None)
                              (Some (repeat junk (Z.to_nat len))))
                 (repeat junk (Z.to_nat len)) len eq_refl)
        by (rewrite repeat_length; lia).
      cbn [bind].
      set (s1 := with_buf_cr _ _).
      destruct (has_error (osr s1)) eqn:He.
      * eexists. split; [reflexivity|]. apply has_error_true. exact He.
      * rewrite (Hgray _ He Hlevel). cbn [bind].
        destruct (Hloop (InBufCr 0) s1 Hlevel) as (c & Hc & Hec).
        { right. eexists. split.
          - apply memset_at_buf_cr; [reflexivity|].
            rewrite length_app, !repeat_length, length_skipn, repeat_length.
            lia.
          - change (error (osr (propagate (propagate s1 (Some "invalid level"%string)) None)) <> None).
            rewrite propagate_keeps_error; apply propagate_sets_error. }
        rewrite Hc. cbn [bind]. exists c. split; [reflexivity|exact Hec].
Qed.

Lemma area_out_of_range (s : world) (p : ptr) (stride x y level w h : Z) :
  level_in_range (osr s) level = false ->
  read_region_area paint_region cairo_create_status s p stride x y level w h =
  Done (match cairo_create_status
                (if negb (is_null p)
                 then cairo_image_surface_create_for_data p CAIRO_FORMAT_ARGB32 w h stride
                 else cairo_image_surface_create CAIRO_FORMAT_ARGB32 0 0)
        with
        | None => (true, None, s)
        | Some msg => (false, Some (String.append "cairo error: " msg), s)
        end).
Proof.
  intros Hr. unfold read_region_area. rewrite Hr.
  unfold _openslide_check_cairo_status, cairo_set_operator, cairo_create.
  cbn [cr_status].
  destruct (cairo_create_status _); reflexivity.
Qed.

(** The full-colour reader on a level that is out of range: nothing is
    painted and no error is recorded. *)
Lemma read_region_out_of_range_level (s : world) (p : ptr) (x y level w h : Z) :
  (forall surface, cairo_create_status surface = None) ->
  0 <= w -> 0 <= h ->
  channel_count (osr s) <= 1 ->
  error (osr s) = None ->
  level_in_range (osr s) level = false ->
  dest_fits s p (w * h * 4) ->
  exists s', read_region s p x y level w h = Done s' /\
             error (osr s') = None /\
             paints s' = paints s /\
             (forall b, dest s = Some b -> p = InDest 0 ->
                        dest s' = Some (repeat 0 (Z.to_nat (w * h * 4))
                                        ++ skipn (Z.to_nat (w * h * 4)) b)).
Proof.
  intros Hcs Hw Hh Hch Herr Hlevel Hfits.
  unfold read_region, openslide_read_region.
  destruct (Z.ltb_spec w 0); [lia|]. destruct (Z.ltb_spec h 0); [lia|].
  cbn [orb]. destruct (Z.gtb_spec (channel_count (osr s)) 1); [lia|].
  cbv zeta.
  assert (Hrun : forall s1 : world,
             osr s1 = osr s ->
             exists s',
               (if has_error (osr s1) then Done s1
                else
                  ds <- openslide_get_level_downsample (osr s1) level ;;
                  c <- for_each (range 0 (Z.quot (h + tile_edge - 1) tile_edge))
                         (fun row s =>
                            for_each (range 0 (Z.quot (w + tile_edge - 1) tile_edge))
                              (read_tile paint_region cairo_create_status
                                         p x y level w h ds row) s) s1 ;;
                  Done (result_of c)) = Done s' /\ s' = s1).
  { intros s1 Ho. exists s1. split; [|reflexivity].
    unfold openslide_get_level_downsample, has_error, openslide_get_error.
    rewrite Ho, Herr, Hlevel. cbn [negb orb bind].
    rewrite tiles_idle; [reflexivity|].
    intros row col. unfold read_tile. cbv zeta.
    rewrite area_out_of_range by (rewrite Ho; exact Hlevel).
    rewrite Hcs. reflexivity. }
  destruct p as [|off|off]; cbn [dest_fits] in Hfits.
  - cbn [is_null negb bind].
    destruct (Hrun s eq_refl) as (s' & -> & ->).
    exists s. repeat split; auto. intros b _ [=].
  - destruct Hfits as (-> & b & Hb & Hlen).
    cbn [is_null negb].
    rewrite (memset_at_dest s b (w * h * 4) Hb) by nia.
    cbn [bind].
    destruct (Hrun (with_dest s (Some (repeat 0 (Z.to_nat (w * h * 4))
                                       ++ skipn (Z.to_nat (w * h * 4)) b)))
                   eq_refl) as (s' & -> & ->).
    eexists. split; [reflexivity|]. cbn [osr with_dest paints dest].
    repeat split; auto. intros b' Hb' _. congruence.
  - contradiction.
Qed.

End RegionReaderFacts.

(** *** The claims on request validation and on failed reads *)

(** A backend whose [paint_region] paints nothing and succeeds, and one
    that fails with a decode error before it paints. *)
Definition paint_nothing (_ : openslide_t) (_ : cairo_t) (_ _ : Z)
           (_ : Level.t) (_ _ : Z) (pixels : option (list Z)) : painted :=
  mk_painted true None pixels None.

Definition paint_fails (_ : openslide_t) (_ : cairo_t) (_ _ : Z)
           (_ : Level.t) (_ _ : Z) (pixels : option (list Z)) : painted :=
  mk_painted false (Some "decode error"%string) pixels None.

Definition cairo_ok (_ : cairo_surface_t) : option string := None.
Definition alloc_ok (_ : Z) : bool := false.

(** A world around a handle, with the caller's buffer. *)
Definition world_of (o : openslide_t) (d : option (list Z)) : world :=
  mk_world o d None [].

(** C3 as stated fails on the level index: a full-colour read of level 7
    of a three-level slide returns with the buffer cleared and the handle
    still free of error. *)
Lemma read_region_bad_level_sets_no_error :
  exists s',
    level_in_range handle_123 7 = false /\
    openslide_read_region paint_nothing cairo_ok
      (world_of handle_123 (Some [9; 9; 9; 9])) (InDest 0) 0 0 7 1 1 = Done s' /\
    error (osr s') = None /\
    dest s' = Some [0; 0; 0; 0].
Proof.
  eexists. split; [reflexivity|]. split; [vm_compute; reflexivity|].
  split; reflexivity.
Qed.

(** C3, amended.  A region read with a negative width or height (full
    colour or gray), and a full-colour read on a handle with more than one
    channel, leave the sticky error set when they return; so does a gray
    read (one or two bytes per pixel) of a non-empty region whose level
    index is above the last level.  A full-colour read of a level that is
    out of range records no error: it clears the [w * h * 4] bytes of the
    destination and paints nothing. *)
Theorem invalid_request_sets_error :
  forall (paint_region :
            openslide_t -> cairo_t -> Z -> Z -> Level.t -> Z -> Z ->
            option (list Z) -> painted)
         (cairo_create_status : cairo_surface_t -> option string)
         (alloc_fails : Z -> bool) (junk : Z)
         (s : world) (p : ptr) (x y level w h : Z),
    (w < 0 \/ h < 0 \/ channel_count (osr s) > 1 ->
     exists s',
       openslide_read_region paint_region cairo_create_status
                             s p x y level w h = Done s' /\
       error (osr s') <> None)
    /\ (forall pixel_bytes,
           w < 0 \/ h < 0 ->
           exists s',
             openslide_read_region_gray paint_region cairo_create_status
               alloc_fails junk s p pixel_bytes x y level w h = Done s' /\
             error (osr s') <> None)
    /\ (forall pixel_bytes,
           pixel_bytes = PIXEL_BYTES_GRAY8 \/ pixel_bytes = PIXEL_BYTES_GRAY16 ->
           0 < w -> 0 < h ->
           level > level_count_all (osr s) - 1 ->
           dest_fits s p (w * h * pixel_bytes) ->
           exists s',
             openslide_read_region_gray paint_region cairo_create_status
               alloc_fails junk s p pixel_bytes x y level w h = Done s' /\
             error (osr s') <> None)
    /\ ((forall surface, cairo_create_status surface = None) ->
        0 <= w -> 0 <= h ->
        channel_count (osr s) <= 1 ->
        error (osr s) = None ->
        level_in_range (osr s) level = false ->
        dest_fits s p (w * h * 4) ->
        exists s',
          openslide_read_region paint_region cairo_create_status
                                s p x y level w h = Done s' /\
          error (osr s') = None /\ paints s' = paints s /\
          (forall b, dest s = Some b -> p = InDest 0 ->
                     dest s' = Some (repeat 0 (Z.to_nat (w * h * 4))
                                     ++ skipn (Z.to_nat (w * h * 4)) b))).
Proof.
  intros paint cs af junk s p x y level w h. repeat split.
  - intros H.
    destruct (read_region_rejects paint cs s p x y level w h H) as (msg & ->).
    eexists. split; [reflexivity|apply propagate_sets_error].
  - intros pb H.
    destruct (read_region_gray_rejects paint cs af junk s p pb x y level w h H)
      as (msg & ->).
    eexists. split; [reflexivity|apply propagate_sets_error].
  - intros pb Hpb Hw Hh Hl Hf.
    apply gray_invalid_level_sets_error; assumption.
  - intros Hcs Hw Hh Hch Herr Hl Hf.
    destruct (read_region_out_of_range_level paint cs s p x y level w h)
      as (s' & Hr & He & Hp & Hz); auto.
    exists s'. auto.
Qed.

Lemma invalid_request_sets_error_witness :
  (exists s',
      openslide_read_region paint_nothing cairo_ok
        (world_of handle_123 (Some [9; 9; 9; 9])) (InDest 0) 0 0 0 (-1) 1
      = Done s' /\ error (osr s') <> None)
  /\ (exists s',
         openslide_read_region_gray paint_nothing cairo_ok alloc_ok 0
           (world_of handle_123 (Some [9; 9; 9; 9])) (InDest 0)
           PIXEL_BYTES_GRAY8 0 0 3 4 1
         = Done s' /\ error (osr s') <> None)
  /\ (exists s',
         openslide_read_region paint_nothing cairo_ok
           (world_of handle_123 (Some [9; 9; 9; 9; 9])) (InDest 0) 0 0 7 1 1
         = Done s' /\ error (osr s') = None /\ paints s' = [] /\
         dest s' = Some [0; 0; 0; 0; 9]).
Proof.
  pose proof (invalid_request_sets_error paint_nothing cairo_ok alloc_ok 0
                (world_of handle_123 (Some [9; 9; 9; 9])) (InDest 0) 0 0 0 (-1) 1)
    as (H1 & _).
  pose proof (invalid_request_sets_error paint_nothing cairo_ok alloc_ok 0
                (world_of handle_123 (Some [9; 9; 9; 9])) (InDest 0) 0 0 3 4 1)
    as (_ & _ & H3 & _).
  pose proof (invalid_request_sets_error paint_nothing cairo_ok alloc_ok 0
                (world_of handle_123 (Some [9; 9; 9; 9; 9])) (InDest 0)
                0 0 7 1 1)
    as (_ & _ & _ & H4).
  split; [|split].
  - apply H1. left. lia.
  - apply (H3 PIXEL_BYTES_GRAY8).
    + left. reflexivity.
    + lia.
    + lia.
    + simpl. lia.
    + simpl. split; [reflexivity|]. eexists. split; [reflexivity|]. simpl. lia.
  - destruct H4 as (s' & Hr & He & Hp & Hz).
    + reflexivity.
    + lia.
    + lia.
    + simpl. lia.
    + reflexivity.
    + reflexivity.
    + simpl. split; [reflexivity|]. eexists. split; [reflexivity|]. simpl. lia.
    + exists s'. split; [exact Hr|]. split; [exact He|]. split; [exact Hp|].
      apply (Hz [9; 9; 9; 9; 9]); reflexivity.
Defined.

(** C10.  A full-colour read that is rejected by the request validation
    (a negative width or height, or more than one channel) returns with
    the caller's destination buffer as it was: the validation comes before
    the clearing, and no paint is attempted. *)
Theorem rejected_read_leaves_dest :
  forall (paint_region :
            openslide_t -> cairo_t -> Z -> Z -> Level.t -> Z -> Z ->
            option (list Z) -> painted)
         (cairo_create_status : cairo_surface_t -> option string)
         (s : world) (p : ptr) (x y level w h : Z),
    w < 0 \/ h < 0 \/ channel_count (osr s) > 1 ->
    exists s',
      openslide_read_region paint_region cairo_create_status
                            s p x y level w h = Done s' /\
      dest s' = dest s /\ paints s' = paints s.
Proof.
  intros paint cs s p x y level w h H.
  destruct (read_region_rejects paint cs s p x y level w h H) as (msg & ->).
  eexists. split; [reflexivity|].
  destruct (propagate_keeps_memory s (Some msg)) as (Hd & _ & Hp). auto.
Qed.

Lemma rejected_read_leaves_dest_witness :
  exists s',
    openslide_read_region paint_nothing cairo_ok
      (world_of (mk_osr [Level.mk 1 8 8 0 0] 1 1 3 None) (Some [9; 9; 9; 9]))
      (InDest 0) 0 0 0 1 1 = Done s' /\
    dest s' = Some [9; 9; 9; 9] /\ paints s' = [].
Proof.
  apply (rejected_read_leaves_dest paint_nothing cairo_ok
           (world_of (mk_osr [Level.mk 1 8 8 0 0] 1 1 3 None)
                     (Some [9; 9; 9; 9]))
           (InDest 0) 0 0 0 1 1).
  right. right. simpl. lia.
Defined.

(** C2 fails on the gray reader when the rows need padding.  A one-row
    gray8 read of width 3 (stride 4) on a handle without error, whose
    backend fails to decode: the reader clears and re-clears its temporary
    buffer only; the caller's buffer holds its old bytes both when the
    backend is called and when the call returns. *)
Theorem gray_padded_read_leaves_dest_stale :
  exists s',
    openslide_read_region_gray8 paint_fails cairo_ok alloc_ok 205
      (world_of handle_123 (Some [7; 7; 7])) (InDest 0) 0 0 0 3 1 = Done s' /\
    error (osr s') = Some "decode error"%string /\
    paints s' = [Some [7; 7; 7]] /\
    dest s' = Some [7; 7; 7].
Proof.
  eexists. split; [vm_compute; reflexivity|].
  repeat split; reflexivity.
Qed.

(** The same request with width 4 needs no padding, and the caller's
    buffer is cleared before the backend runs and again after it fails. *)
Example gray_unpadded_read_clears_dest :
  exists s',
    openslide_read_region_gray8 paint_fails cairo_ok alloc_ok 205
      (world_of handle_123 (Some [7; 7; 7; 7])) (InDest 0) 0 0 0 4 1 = Done s' /\
    error (osr s') = Some "decode error"%string /\
    paints s' = [Some [0; 0; 0; 0]] /\
    dest s' = Some [0; 0; 0; 0].
Proof.
  eexists. split; [vm_compute; reflexivity|].
  repeat split; reflexivity.
Qed.

(** *** What a handle from [openslide_open] guarantees *)

Lemma propagate_some_sets (osr : openslide_t) (msg : string) :
  error (_openslide_propagate_error osr (Some msg)) <> None.
Proof.
  unfold _openslide_propagate_error.
  destruct (error osr) eqn:E; cbn [error set_error]; congruence.
Qed.

Lemma level0_not_zero (b : openslide_t) :
  (final_downsample b 0 =? 0)%float = false.
Proof.
  unfold final_downsample, inferred_downsample. change (Z.to_nat 0) with 0%nat.
  destruct (nth_error (levels b) 0) as [l|]; [|reflexivity].
  destruct (Level.downsample l =? 0)%float eqn:E; [reflexivity|exact E].
Qed.

(** X17.  A handle that [openslide_open] returns without an error comes from a
    working pixman and a backend that reported success; it has the
    header the backend filled in, no level whose downsample is below its
    predecessor's, and a level 0 whose downsample is not zero. *)
Theorem open_establishes_level_order
        (formats : list _openslide_format) (pixman_works : bool)
        (format : _openslide_format) (osr : openslide_t) :
  detect_format formats = Some format ->
  well_formed (open_osr (open format fresh_osr)) ->
  openslide_open formats pixman_works = Done (Some osr) ->
  error osr = None ->
  pixman_works = true /\
  open_ok (open format fresh_osr) = true /\
  same_header osr (open_osr (open format fresh_osr)) /\
  downsamples_ordered osr /\
  (1 <= level_count osr -> (downsample_at osr 0 =? 0)%float = false).
Proof.
  intros Hd Hwf Hopen Herr. unfold openslide_open in Hopen. rewrite Hd in Hopen.
  destruct pixman_works; cbn [negb] in Hopen.
  2:{ injection Hopen as <-. exfalso. revert Herr. apply propagate_some_sets. }
  unfold open_backend in Hopen.
  destruct (open format fresh_osr) as [ok err b]. cbn [open_ok open_err open_osr] in *.
  destruct ok; cbn [negb] in Hopen.
  2:{ destruct err; injection Hopen as <-; exfalso; revert Herr;
      apply propagate_some_sets. }
  destruct err as [e|]; cbn [negb] in Hopen.
  { injection Hopen as <-. exfalso. revert Herr. apply propagate_some_sets. }
  destruct (compute_downsamples_spec b Hwf) as (osr1 & Hc & Hh & Hds).
  rewrite Hc in Hopen. cbn [bind] in Hopen.
  assert (Hwf1 : well_formed osr1).
  { destruct Hh as (H1 & _ & _ & _ & H5). unfold well_formed in *.
    rewrite H1, H5. exact Hwf. }
  destruct (check_downsamples_spec osr1 Hwf1) as [(Hk & _)|(Hk & Hord)];
    rewrite Hk in Hopen; cbn [bind] in Hopen; [discriminate|].
  injection Hopen as <-.
  repeat split; try assumption; try apply Hh.
  intros Hone. rewrite Hds by (destruct Hh as (H1 & _); lia).
  apply level0_not_zero.
Qed.

Lemma open_establishes_level_order_witness :
  true = true /\
  open_ok (open (format_with_levels levels_4_1) fresh_osr) = true /\
  same_header
    (mk_osr [Level.mk 1 400 100 0 0; Level.mk 2.5 100 100 0 0] 2 2 1 None)
    (open_osr (open (format_with_levels levels_4_1) fresh_osr)) /\
  downsamples_ordered
    (mk_osr [Level.mk 1 400 100 0 0; Level.mk 2.5 100 100 0 0] 2 2 1 None) /\
  (1 <= level_count
          (mk_osr [Level.mk 1 400 100 0 0; Level.mk 2.5 100 100 0 0] 2 2 1 None)
   -> (downsample_at
         (mk_osr [Level.mk 1 400 100 0 0; Level.mk 2.5 100 100 0 0] 2 2 1 None)
         0 =? 0)%float = false).
Proof.
  apply (open_establishes_level_order
           [format_with_levels levels_4_1] true (format_with_levels levels_4_1)).
  - reflexivity.
  - unfold well_formed; simpl; lia.
  - vm_compute. reflexivity.
  - reflexivity.
Defined.

(** X18.  When a format claims the file but pixman is broken, or the format's
    [open] returns false or leaves an error, the caller gets a handle in
    error state, never NULL.  On a handle the backend left without an
    error the message is pixman's, the backend's, or "Unknown error" for a
    backend that failed without one. *)
Theorem open_failure_gives_error_handle
        (formats : list _openslide_format) (pixman_works : bool)
        (format : _openslide_format) :
  detect_format formats = Some format ->
  let r := open format fresh_osr in
  pixman_works = false \/ open_ok r = false \/ open_err r <> None ->
  exists osr,
    openslide_open formats pixman_works = Done (Some osr) /\
    error osr <> None /\
    (pixman_works = true -> error (open_osr r) = None ->
     error osr = Some (match open_err r with
                       | Some e => e
                       | None => "Unknown error"%string
                       end)).
Proof.
  intros Hd r Hfail. unfold openslide_open. rewrite Hd.
  destruct pixman_works; cbn [negb].
  2:{ eexists. split; [reflexivity|]. split; [apply propagate_some_sets|].
      discriminate. }
  unfold open_backend. fold r.
  destruct (open_ok r) eqn:Eok; cbn [negb].
  - destruct (open_err r) as [e|] eqn:Ee.
    + eexists. split; [reflexivity|]. split; [apply propagate_some_sets|].
      intros _ He. unfold _openslide_propagate_error. rewrite He. reflexivity.
    + destruct Hfail as [H|[H|H]]; congruence.
  - destruct (open_err r) as [e|] eqn:Ee;
      (eexists; split; [reflexivity|]; split; [apply propagate_some_sets|];
       intros _ He; unfold _openslide_propagate_error; rewrite He; reflexivity).
Qed.

(** A format whose [open] fails without saying why. *)
Definition format_that_fails : _openslide_format :=
  mk_format "synthetic" "synthetic" true
    (fun osr => mk_opened false None osr).

Lemma open_failure_gives_error_handle_witness :
  exists osr,
    openslide_open [format_that_fails] true = Done (Some osr) /\
    error osr <> None /\
    (true = true -> error (open_osr (open format_that_fails fresh_osr)) = None ->
     error osr = Some (match open_err (open format_that_fails fresh_osr) with
                       | Some e => e
                       | None => "Unknown error"%string
                       end)).
Proof.
  apply (open_failure_gives_error_handle [format_that_fails] true
                                         format_that_fails).
  - reflexivity.
  - right. left. reflexivity.
Defined.

(** X19.  The format that opens a file is the first one of the table whose
    [detect] accepts it; [openslide_detect_vendor] reports its vendor, and
    NULL exactly when [openslide_open] finds no format either. *)
Theorem detect_vendor_is_first_match (formats : list _openslide_format) :
  match detect_format formats with
  | Some format =>
      openslide_detect_vendor formats = Some (vendor format) /\
      exists before after,
        formats = before ++ format :: after /\
        detect format = true /\
        Forall (fun f => detect f = false) before
  | None =>
      openslide_detect_vendor formats = None /\
      Forall (fun f => detect f = false) formats /\
      forall pixman_works, openslide_open formats pixman_works = Done None
  end.
Proof.
  unfold openslide_detect_vendor, openslide_open.
  induction formats as [|f formats IH]; cbn [detect_format].
  - repeat split; constructor.
  - destruct (detect f) eqn:Ef.
    + split; [reflexivity|]. exists [], formats.
      repeat split; [exact Ef|constructor].
    + destruct (detect_format formats) as [format|].
      * destruct IH as (Hv & before & after & -> & Hdet & Hall).
        split; [exact Hv|]. exists (f :: before), after.
        repeat split; [exact Hdet|constructor; assumption].
      * destruct IH as (Hv & Hall & Hopen).
        repeat split; [constructor; assumption].
Qed.

(** *** The level queries on every index *)

(** X20.  On a handle whose level count is within its level array, the level
    queries return for every index, also a negative one or one past the
    last level: the sentinels (-1, -1) and -1.0 when the handle is in
    error state or the index is not a level, the level's dimensions and
    downsample otherwise. *)
Theorem level_queries_total (osr : openslide_t) (level : Z) :
  well_formed osr ->
  (error osr <> None \/ level < 0 \/ level_count osr <= level ->
   openslide_get_level_dimensions osr level = Done (-1, -1) /\
   openslide_get_level_downsample osr level = Done (-1)%float) /\
  (error osr = None -> 0 <= level < level_count osr ->
   exists l,
     nth_error (levels osr) (Z.to_nat level) = Some l /\
     openslide_get_level_dimensions osr level = Done (Level.w l, Level.h l) /\
     openslide_get_level_downsample osr level = Done (Level.downsample l)).
Proof.
  intros [H0 Hlen].
  unfold openslide_get_level_dimensions, openslide_get_level_downsample,
    has_error, openslide_get_error, level_in_range.
  split.
  - intros [He|[Hl|Hl]].
    + destruct (error osr); [split; reflexivity|congruence].
    + destruct (error osr); [split; reflexivity|].
      destruct (Z.ltb_spec level 0); [split; reflexivity|lia].
    + destruct (error osr); [split; reflexivity|].
      destruct (Z.ltb_spec level 0); [split; reflexivity|].
      destruct (Z.gtb_spec level (level_count osr - 1)); [split; reflexivity|lia].
  - intros He Hl. rewrite He.
    destruct (Z.ltb_spec level 0); [lia|].
    destruct (Z.gtb_spec level (level_count osr - 1)); [lia|].
    cbn [negb orb].
    destruct (nth_error (levels osr) (Z.to_nat level)) as [l|] eqn:El.
    2:{ apply nth_error_None in El. lia. }
    exists l. split; [reflexivity|].
    rewrite (level_at_nth osr level l) by (lia || assumption).
    split; reflexivity.
Qed.

Lemma level_queries_total_witness :
  (error handle_123 <> None \/ 7 < 0 \/ level_count handle_123 <= 7 ->
   openslide_get_level_dimensions handle_123 7 = Done (-1, -1) /\
   openslide_get_level_downsample handle_123 7 = Done (-1)%float) /\
  (error handle_123 = None -> 0 <= 7 < level_count handle_123 ->
   exists l,
     nth_error (levels handle_123) (Z.to_nat 7) = Some l /\
     openslide_get_level_dimensions handle_123 7 = Done (Level.w l, Level.h l) /\
     openslide_get_level_downsample handle_123 7 = Done (Level.downsample l)).
Proof.
  apply (level_queries_total handle_123 7). unfold well_formed; simpl; lia.
Defined.

(** *** No partial result from the full-colour reader *)

(** A loop whose body keeps an invariant while it falls through and
    establishes a postcondition when it returns. *)
Lemma for_each_inv {S R : Type} (I : S -> Prop) (Q : R -> Prop)
      (idx : list Z) (body : Z -> S -> outcome (ctl S R)) :
  (forall i s, In i idx -> I s ->
               exists c, body i s = Done c /\
                         match c with Next s' => I s' | Ret r => Q r end) ->
  forall s, I s ->
            exists c, for_each idx body s = Done c /\
                      match c with Next s' => I s' | Ret r => Q r end.
Proof.
  induction idx as [|i idx IH]; intros Hbody s Hs.
  - exists (Next s). split; [reflexivity|exact Hs].
  - cbn [for_each].
    destruct (Hbody i s (or_introl eq_refl) Hs) as (c & -> & Hc).
    cbn [bind]. destruct c as [s'|r].
    + apply IH; [|exact Hc]. intros j s0 Hj. apply Hbody. right. exact Hj.
    + exists (Ret r). split; [reflexivity|exact Hc].
Qed.

Lemma zero_prefix (n : nat) (b : list Z) :
  (n <= List.length b)%nat ->
  List.length (repeat 0 n ++ skipn n b) = List.length b /\
  firstn n (repeat 0 n ++ skipn n b) = repeat 0 n.
Proof.
  intros H. split.
  - rewrite length_app, repeat_length, length_skipn. lia.
  - rewrite firstn_app, repeat_length, Nat.sub_diag, firstn_O, app_nil_r.
    apply firstn_all2. rewrite repeat_length. lia.
Qed.

Section NoPartialResult.

Variable paint_region :
  openslide_t -> cairo_t -> Z -> Z -> Level.t -> Z -> Z ->
  option (list Z) -> painted.
Variable cairo_create_status : cairo_surface_t -> option string.

(** The backend paints into the buffer it is given: it leaves a buffer
    of the same size. *)
Hypothesis paint_keeps_size :
  forall o cr x y l w h px,
    exists px', paint_pixels (paint_region o cr x y l w h (Some px)) = Some px'
                /\ List.length px' = List.length px.

Variable handle : openslide_t.
Hypothesis handle_levels : well_formed handle.
Variable size : nat.

(** The handle is untouched and [dest] has kept its size. *)
Definition reading (s : world) : Prop :=
  osr s = handle /\ exists d, dest s = Some d /\ List.length d = size.

(** [dest] has kept its size and its first [n] bytes are zero. *)
Definition cleared (n : nat) (s : world) : Prop :=
  exists d, dest s = Some d /\ List.length d = size /\
            firstn n d = repeat 0 n.

Lemma read_region_area_keeps (s : world) (off stride x y level w h : Z) :
  reading s ->
  exists ok err s',
    read_region_area paint_region cairo_create_status s (InDest off) stride
                     x y level w h = Done (ok, err, s') /\
    reading s'.
Proof.
  intros (Ho & d & Hd & Hlen). unfold read_region_area.
  cbn [is_null negb]. cbv zeta.
  assert (Hfinish : forall (cr : cairo_t) (s1 : world), reading s1 ->
            exists ok err s',
              (let '(ok, err) := _openslide_check_cairo_status cr in
               Done (ok, err, s1)) = Done (ok, err, s') /\ reading s').
  { intros cr s1 H1. unfold _openslide_check_cairo_status.
    destruct (cr_status cr); do 3 eexists; (split; [reflexivity|exact H1]). }
  assert (Hsame : reading s) by (split; [exact Ho|exists d; auto]).
  destruct (level_in_range (osr s) level) eqn:Er; [|apply Hfinish, Hsame].
  rewrite Ho in *. destruct handle_levels as [H0 Hl].
  unfold level_in_range in Er.
  destruct (Z.ltb_spec level 0); [discriminate|].
  destruct (Z.gtb_spec level (level_count handle - 1)); [discriminate|].
  destruct (nth_error (levels handle) (Z.to_nat level)) as [l|] eqn:El.
  2:{ apply nth_error_None in El. lia. }
  rewrite (level_at_nth handle level l) by (lia || assumption). cbn [bind].
  destruct (clip_negative x w (Level.downsample l)) as [[tx x'] w'].
  destruct (clip_negative y h (Level.downsample l)) as [[ty y'] h'].
  destruct ((w' >? 0) && (h' >? 0)); [|apply Hfinish, Hsame].
  unfold call_paint. cbv zeta.
  cbn [cairo_translate cairo_set_operator cairo_create cr_surface
       cairo_image_surface_create_for_data surf_data log_paint pointee
       set_pointee dest osr].
  rewrite Hd.
  match goal with
  | |- context [paint_region ?o ?cr ?a ?b ?c ?e ?f (Some d)] =>
      destruct (paint_keeps_size o cr a b c e f d) as (px' & Hpx & Hlpx);
      set (r := paint_region o cr a b c e f (Some d)) in *
  end.
  assert (Hafter : reading (with_dest (log_paint s) (paint_pixels r))).
  { split; [exact Ho|]. exists px'. cbn [with_dest dest]. split; [exact Hpx|].
    lia. }
  destruct (paint_ok r); cbn [negb].
  - apply Hfinish. exact Hafter.
  - do 3 eexists. split; [reflexivity|exact Hafter].
Qed.

Lemma read_tile_keeps_or_clears (x y level w h : Z) (ds : float)
      (row col : Z) (s : world) :
  0 <= w * h * 4 <= Z.of_nat size ->
  reading s ->
  exists c,
    read_tile paint_region cairo_create_status (InDest 0) x y level w h ds
              row col s = Done c /\
    match c with
    | Next s' => reading s'
    | Ret s' => cleared (Z.to_nat (w * h * 4)) s'
    end.
Proof.
  intros Hn Hs. unfold read_tile. cbv zeta. cbn [ptr_add].
  match goal with
  | |- context [read_region_area _ _ s (InDest ?off) ?st ?a ?b ?c ?e ?f] =>
      destruct (read_region_area_keeps s off st a b c e f Hs)
        as (ok & err & s' & -> & (Ho & d & Hd & Hlen))
  end.
  cbn [bind]. destruct ok; cbn [negb is_null].
  - exists (Next s'). split; [reflexivity|].
    split; [exact Ho|exists d; auto].
  - destruct (propagate_keeps_memory s' err) as (Hpd & _).
    rewrite (memset_at_dest (propagate s' err) d (w * h * 4))
      by (rewrite ?Hpd; auto; lia).
    cbn [bind]. eexists. split; [reflexivity|].
    destruct (zero_prefix (Z.to_nat (w * h * 4)) d ltac:(lia)) as (Hz1 & Hz2).
    eexists. cbn [with_dest dest]. split; [reflexivity|].
    split; [lia|exact Hz2].
Qed.

End NoPartialResult.

Lemma level_downsample_returns (o : openslide_t) (level : Z) :
  well_formed o -> exists ds, openslide_get_level_downsample o level = Done ds.
Proof.
  intros [H0 Hl]. unfold openslide_get_level_downsample, level_in_range.
  destruct (has_error o); [eexists; reflexivity|].
  destruct (Z.ltb_spec level 0); [eexists; reflexivity|].
  destruct (Z.gtb_spec level (level_count o - 1)); [eexists; reflexivity|].
  cbn [negb orb].
  destruct (nth_error (levels o) (Z.to_nat level)) as [l|] eqn:El.
  2:{ apply nth_error_None in El. lia. }
  rewrite (level_at_nth o level l) by (lia || assumption).
  eexists. reflexivity.
Qed.

(** X22.  A full-colour read of a valid request (width and height not
    negative, one channel) into a buffer that holds the region always
    returns, with [dest] still the size it was.  If the handle is in error
    state when the read returns (because it was before, or because the
    backend failed on some tile), the [w * h * 4] bytes of the region are
    all zero: the caller never sees a partly painted region.  The backend
    is any function that paints into the buffer it is given. *)
Theorem read_region_no_partial_result
        (paint_region :
           openslide_t -> cairo_t -> Z -> Z -> Level.t -> Z -> Z ->
           option (list Z) -> painted)
        (cairo_create_status : cairo_surface_t -> option string)
        (s : world) (b : list Z) (x y level w h : Z) :
  (forall o cr x y l w h px,
      exists px',
        paint_pixels (paint_region o cr x y l w h (Some px)) = Some px' /\
        List.length px' = List.length px) ->
  well_formed (osr s) ->
  0 <= w -> 0 <= h -> channel_count (osr s) <= 1 ->
  dest s = Some b -> w * h * 4 <= Z.of_nat (List.length b) ->
  exists s' d,
    openslide_read_region paint_region cairo_create_status
                          s (InDest 0) x y level w h = Done s' /\
    dest s' = Some d /\ List.length d = List.length b /\
    (error (osr s') <> None ->
     firstn (Z.to_nat (w * h * 4)) d = repeat 0 (Z.to_nat (w * h * 4))).
Proof.
  intros Hpaint Hwf Hw Hh Hch Hd Hfit.
  unfold openslide_read_region.
  destruct (Z.ltb_spec w 0); [lia|]. destruct (Z.ltb_spec h 0); [lia|].
  cbn [orb]. destruct (Z.gtb_spec (channel_count (osr s)) 1); [lia|].
  cbn [is_null negb].
  rewrite (memset_at_dest s b (w * h * 4) Hd) by nia. cbn [bind].
  destruct (zero_prefix (Z.to_nat (w * h * 4)) b ltac:(nia)) as (Hz1 & Hz2).
  set (cleared_dest := repeat 0 (Z.to_nat (w * h * 4))
                       ++ skipn (Z.to_nat (w * h * 4)) b) in *.
  set (s1 := with_dest s (Some cleared_dest)).
  change (osr s1) with (osr s).
  destruct (has_error (osr s)) eqn:Eerr.
  { exists s1, cleared_dest. repeat split; auto. }
  destruct (level_downsample_returns (osr s) level Hwf) as (ds & ->).
  cbn [bind]. cbv zeta.
  assert (Hstart : reading (osr s) (List.length b) s1).
  { split; [reflexivity|]. exists cleared_dest. split; [reflexivity|exact Hz1]. }
  destruct (for_each_inv
              (reading (osr s) (List.length b))
              (cleared (List.length b) (Z.to_nat (w * h * 4)))
              (range 0 (Z.quot (h + tile_edge - 1) tile_edge))
              (fun row s =>
                 for_each (range 0 (Z.quot (w + tile_edge - 1) tile_edge))
                   (read_tile paint_region cairo_create_status (InDest 0)
                              x y level w h ds row) s))
    with (s := s1) as (c & -> & Hc); [|exact Hstart|].
  { intros row s2 _ Hs2.
    apply (for_each_inv (reading (osr s) (List.length b))
                        (cleared (List.length b) (Z.to_nat (w * h * 4))));
      [|exact Hs2].
    intros col s3 _ Hs3.
    apply (read_tile_keeps_or_clears paint_region cairo_create_status Hpaint
                                     (osr s) Hwf (List.length b));
      [nia|exact Hs3]. }
  cbn [bind]. destruct c as [s'|s']; cbn [result_of].
  - destruct Hc as (Ho & d & Hd' & Hlen). exists s', d.
    repeat split; auto. intros Hne. exfalso. apply Hne. rewrite Ho.
    apply has_error_false, Eerr.
  - destruct Hc as (d & Hd' & Hlen & Hzero). exists s', d.
    repeat split; auto.
Qed.

Lemma read_region_no_partial_result_witness :
  exists s' d,
    openslide_read_region paint_fails cairo_ok
      (world_of handle_123 (Some [9; 9; 9; 9; 9])) (InDest 0) 0 0 0 1 1
    = Done s' /\
    dest s' = Some d /\ List.length d = 5%nat /\
    (error (osr s') <> None ->
     firstn (Z.to_nat (1 * 1 * 4)) d = repeat 0 (Z.to_nat (1 * 1 * 4))).
Proof.
  apply (read_region_no_partial_result paint_fails cairo_ok
           (world_of handle_123 (Some [9; 9; 9; 9; 9])) [9; 9; 9; 9; 9]
           0 0 0 1 1).
  - intros o cr x y l w h px. exists px. split; reflexivity.
  - unfold well_formed; simpl; lia.
  - lia.
  - lia.
  - simpl. lia.
  - reflexivity.
  - simpl. lia.
Defined.

(** X23.  A full-colour read that passes the request validation (width and
    height not negative, at most one channel) on a handle that is already
    in error state, into a buffer that holds the region, clears the
    [w * h * 4] bytes of the region in [dest] and returns: the backend is
    not called and the handle is as it was.  (A request that fails the
    validation returns before the clearing, see C10.) *)
Theorem read_region_on_failed_handle
        (paint_region :
           openslide_t -> cairo_t -> Z -> Z -> Level.t -> Z -> Z ->
           option (list Z) -> painted)
        (cairo_create_status : cairo_surface_t -> option string)
        (s : world) (b : list Z) (x y level w h : Z) :
  error (osr s) <> None ->
  0 <= w -> 0 <= h -> channel_count (osr s) <= 1 ->
  dest s = Some b -> w * h * 4 <= Z.of_nat (List.length b) ->
  exists s',
    openslide_read_region paint_region cairo_create_status
                          s (InDest 0) x y level w h = Done s' /\
    dest s' = Some (repeat 0 (Z.to_nat (w * h * 4))
                    ++ skipn (Z.to_nat (w * h * 4)) b) /\
    paints s' = paints s /\ osr s' = osr s.
Proof.
  intros Herr Hw Hh Hch Hd Hfit.
  unfold openslide_read_region.
  destruct (Z.ltb_spec w 0); [lia|]. destruct (Z.ltb_spec h 0); [lia|].
  cbn [orb]. destruct (Z.gtb_spec (channel_count (osr s)) 1); [lia|].
  cbn [is_null negb].
  rewrite (memset_at_dest s b (w * h * 4) Hd) by nia. cbn [bind].
  cbn [with_dest osr].
  assert (He : has_error (osr s) = true).
  { unfold has_error, openslide_get_error. destruct (error (osr s)); congruence. }
  rewrite He. eexists. split; [reflexivity|]. repeat split.
Qed.

Lemma read_region_on_failed_handle_witness :
  exists s',
    openslide_read_region paint_nothing cairo_ok
      (world_of (mk_osr [Level.mk 1 8 8 0 0] 1 1 1 (Some "broken"%string))
                (Some [9; 9; 9; 9; 9]))
      (InDest 0) 0 0 0 1 1 = Done s' /\
    dest s' = Some (repeat 0 (Z.to_nat (1 * 1 * 4))
                    ++ skipn (Z.to_nat (1 * 1 * 4)) [9; 9; 9; 9; 9]) /\
    paints s' = [] /\
    osr s' = mk_osr [Level.mk 1 8 8 0 0] 1 1 1 (Some "broken"%string).
Proof.
  apply (read_region_on_failed_handle paint_nothing cairo_ok
           (world_of (mk_osr [Level.mk 1 8 8 0 0] 1 1 1 (Some "broken"%string))
                     (Some [9; 9; 9; 9; 9]))
           [9; 9; 9; 9; 9] 0 0 0 1 1); try reflexivity; simpl; try lia.
  discriminate.
Defined.

(** X24.  A full-colour read of an empty region (width and height not
    negative and one of them zero) on a usable handle with at most one
    channel and its level count within the level array calls no backend,
    sets no error and leaves [dest] as it was. *)
Theorem read_region_of_empty_region
        (paint_region :
           openslide_t -> cairo_t -> Z -> Z -> Level.t -> Z -> Z ->
           option (list Z) -> painted)
        (cairo_create_status : cairo_surface_t -> option string)
        (s : world) (b : list Z) (x y level w h : Z) :
  well_formed (osr s) -> error (osr s) = None ->
  channel_count (osr s) <= 1 ->
  0 <= w -> 0 <= h -> w = 0 \/ h = 0 ->
  dest s = Some b ->
  openslide_read_region paint_region cairo_create_status
                        s (InDest 0) x y level w h = Done s.
Proof.
  intros Hwf Herr Hch Hw Hh Hzero Hd.
  unfold openslide_read_region.
  destruct (Z.ltb_spec w 0); [lia|]. destruct (Z.ltb_spec h 0); [lia|].
  cbn [orb]. destruct (Z.gtb_spec (channel_count (osr s)) 1); [lia|].
  cbn [is_null negb].
  assert (Hn : w * h * 4 = 0) by nia.
  rewrite (memset_at_dest s b (w * h * 4) Hd) by lia. rewrite Hn.
  change (Z.to_nat 0) with 0%nat. cbn [repeat skipn app bind].
  assert (Hs : with_dest s (Some b) = s)
    by (destruct s; cbn in Hd |- *; rewrite Hd; reflexivity).
  rewrite Hs.
  unfold has_error, openslide_get_error. rewrite Herr.
  destruct (level_downsample_returns (osr s) level Hwf) as (ds & ->).
  cbn [bind]. cbv zeta.
  rewrite for_each_idle; [reflexivity|].
  intros row Hrow. apply range_In in Hrow.
  destruct Hzero as [-> | ->].
  - reflexivity.
  - rewrite tile_count_zero in Hrow by reflexivity. lia.
Qed.

Lemma read_region_of_empty_region_witness :
  openslide_read_region paint_fails cairo_ok
    (world_of handle_123 (Some [9; 9; 9; 9])) (InDest 0) 5 5 0 0 3
  = Done (world_of handle_123 (Some [9; 9; 9; 9])).
Proof.
  apply (read_region_of_empty_region paint_fails cairo_ok
           (world_of handle_123 (Some [9; 9; 9; 9])) [9; 9; 9; 9] 5 5 0 0 3);
    try reflexivity; try (unfold well_formed; simpl; lia).
Defined.

(** *** The level scan without the level order *)

Lemma ltb_nan_l (t x : float) :
  Dbl.is_nan t = true -> (t <? x)%float = false.
Proof.
  unfold Dbl.is_nan, PrimFloat.is_nan. rewrite eqb_spec, ltb_spec.
  destruct (Prim2SF t) as [s|s| |s m e]; simpl.
  - destruct s; discriminate.
  - destruct s; discriminate.
  - intros _. unfold SFltb. simpl. reflexivity.
  - unfold SFeqb. simpl.
    rewrite Z.compare_refl.
    change (PosDef.Pos.compare_cont Eq m m) with (Pos.compare m m).
    rewrite Pos.compare_refl. destruct s; discriminate.
Qed.

(** X21.  On a usable handle with at least one level, whatever the order of
    its downsamples and whatever the target,
    [openslide_get_best_level_for_downsample] returns a level index: 0
    when the target is below level 0's downsample; otherwise the level
    before the first level, counted from level 1, whose downsample is
    above the target, and the last level when there is none.  A NaN
    target compares below nothing and gives the last level. *)
Theorem best_level_first_above_target (osr : openslide_t) (target : float) :
  openslide_get_error osr = None ->
  1 <= level_count osr <= Z.of_nat (List.length (levels osr)) ->
  exists r,
    openslide_get_best_level_for_downsample osr target = Done r /\
    0 <= r < level_count osr /\
    ((target <? downsample_at osr 0)%float = true -> r = 0) /\
    ((target <? downsample_at osr 0)%float = false ->
     (forall i, 0 <= i <= r ->
                (target <? downsample_at osr i)%float = false) /\
     (r < level_count osr - 1 ->
      (target <? downsample_at osr (r + 1))%float = true)) /\
    (Dbl.is_nan target = true -> r = level_count osr - 1).
Proof.
  intros Herr Hcount.
  unfold openslide_get_best_level_for_downsample, has_error.
  rewrite Herr.
  destruct (level_at_ok osr 0) as (l0 & -> & Hl0); [lia|].
  cbn [bind]. rewrite Hl0.
  destruct (target <? downsample_at osr 0)%float eqn:E0.
  - exists 0. split; [reflexivity|]. split; [lia|].
    split; [reflexivity|]. split; [discriminate|].
    intros Hnan. rewrite ltb_nan_l in E0 by exact Hnan. discriminate.
  - unfold range.
    change (fun i (_ : unit) =>
              li <- level_at osr i ;;
              if (target <? Level.downsample li)%float
              then Done (Ret (i - 1)) else Done (Next tt))
      with (scan_body osr target).
    destruct (scan_spec osr target (Z.to_nat (level_count osr - 1)) 1)
      as [(r & Hr & Hb & Ht & Hall)|(Hr & Hall)]; try lia.
    + rewrite Hr. cbn [bind]. exists r.
      split; [reflexivity|]. split; [lia|]. split; [discriminate|].
      split.
      * intros _. split.
        -- intros i Hi. destruct (Z.eq_dec i 0) as [->|]; [exact E0|].
           apply Hall. lia.
        -- intros _. exact Ht.
      * intros Hnan. rewrite ltb_nan_l in Ht by exact Hnan. discriminate.
    + rewrite Hr. cbn [bind]. exists (level_count osr - 1).
      split; [reflexivity|]. split; [lia|]. split; [discriminate|].
      split.
      * intros _. split.
        -- intros i Hi. destruct (Z.eq_dec i 0) as [->|]; [exact E0|].
           apply Hall. lia.
        -- lia.
      * reflexivity.
Qed.

(** Three levels whose downsamples 1, 16, 4 are not in order. *)
Definition handle_unordered : openslide_t :=
  mk_osr [Level.mk 1 1600 1600 0 0; Level.mk 16 100 100 0 0;
          Level.mk 4 400 400 0 0] 3 3 1 None.

Lemma best_level_first_above_target_witness :
  exists r,
    openslide_get_best_level_for_downsample handle_unordered 8%float = Done r /\
    0 <= r < level_count handle_unordered /\
    ((8 <? downsample_at handle_unordered 0)%float = true -> r = 0) /\
    ((8 <? downsample_at handle_unordered 0)%float = false ->
     (forall i, 0 <= i <= r ->
                (8 <? downsample_at handle_unordered i)%float = false) /\
     (r < level_count handle_unordered - 1 ->
      (8 <? downsample_at handle_unordered (r + 1))%float = true)) /\
    (Dbl.is_nan 8%float = true -> r = level_count handle_unordered - 1).
Proof.
  apply (best_level_first_above_target handle_unordered 8%float).
  - reflexivity.
  - simpl. lia.
Defined.

(** *** A gray read of a negative level *)

Lemma tiles_first_faults (rows cols : Z)
      (body : Z -> Z -> world -> outcome (ctl world world)) (s : world) :
  0 < rows -> 0 < cols ->
  body 0 0 s = Fault ->
  for_each (range 0 rows) (fun row s => for_each (range 0 cols) (body row) s) s
  = Fault.
Proof.
  intros Hr Hc Hb.
  rewrite (range_cons 0 rows Hr). cbn [for_each].
  rewrite (range_cons 0 cols Hc). cbn [for_each].
  rewrite Hb. reflexivity.
Qed.

Section GrayNegativeLevel.

Variable paint_region :
  openslide_t -> cairo_t -> Z -> Z -> Level.t -> Z -> Z ->
  option (list Z) -> painted.
Variable cairo_create_status : cairo_surface_t -> option string.
Variable alloc_fails : Z -> bool.
Variable junk : Z.

Lemma area_gray_negative_level (s : world) (p : ptr)
      (stride pixel_bytes x y level w h : Z) :
  pixel_bytes = 1 \/ pixel_bytes = 2 ->
  level < 0 -> 0 <= level_count_all (osr s) ->
  read_region_area_gray paint_region cairo_create_status s p stride
                        pixel_bytes x y level w h = Fault.
Proof.
  intros Hpb Hl Hc. unfold read_region_area_gray, level_at.
  destruct Hpb as [-> | ->]; cbn [Z.eqb Pos.eqb];
    (destruct (Z.gtb_spec level (level_count_all (osr s) - 1)); [lia|]);
    (destruct (Z.ltb_spec level 0); [reflexivity|lia]).
Qed.

(** The stride cairo reports for a gray surface whose width passes its
    size check. *)
Lemma gray_stride_value (pixel_bytes w : Z) :
  pixel_bytes = 1 \/ pixel_bytes = 2 ->
  0 <= w -> w < Z.quot (2147483647 - 7) (pixel_bytes * 8) ->
  cairo_format_stride_for_width
    (if pixel_bytes =? 1 then CAIRO_FORMAT_A8 else CAIRO_FORMAT_RGB16_565) w
  = 4 * ((w * pixel_bytes + 3) / 4).
Proof.
  intros Hpb Hw Hmax. unfold cairo_format_stride_for_width.
  assert (H28 : 2 ^ 28 = 268435456) by reflexivity.
  assert (H31 : 2 ^ 31 = 2147483648) by reflexivity.
  destruct Hpb as [-> | ->]; cbn [Z.eqb Pos.eqb bits_per_pixel].
  - change (Z.quot (2147483647 - 7) (1 * 8)) with 268435455 in Hmax.
    change (Z.quot (2147483647 - 7) 8) with 268435455.
    destruct (Z.leb_spec 268435455 w); [lia|].
    change 8 with (1 * 8). rewrite Pad.stride_value by lia.
    pose proof (Z.div_mod (w * 1 + 3) 4 ltac:(lia)) as Hd.
    pose proof (Z.mod_pos_bound (w * 1 + 3) 4 ltac:(lia)) as Hm.
    apply wrap_int32_id. lia.
  - change (Z.quot (2147483647 - 7) (2 * 8)) with 134217727 in Hmax.
    change (Z.quot (2147483647 - 7) 16) with 134217727.
    destruct (Z.leb_spec 134217727 w); [lia|].
    change 16 with (2 * 8). rewrite Pad.stride_value by lia.
    pose proof (Z.div_mod (w * 2 + 3) 4 ltac:(lia)) as Hd.
    pose proof (Z.mod_pos_bound (w * 2 + 3) 4 ltac:(lia)) as Hm.
    apply wrap_int32_id. lia.
Qed.

(** Rows that need no padding: the stride is the row size. *)
Lemma unpadded_stride (pixel_bytes w : Z) :
  pixel_bytes = 1 \/ pixel_bytes = 2 ->
  0 <= w < 2 ^ 27 -> (w * pixel_bytes) mod 4 = 0 ->
  cairo_format_stride_for_width
    (if pixel_bytes =? 1 then CAIRO_FORMAT_A8 else CAIRO_FORMAT_RGB16_565) w
  = w * pixel_bytes.
Proof.
  intros Hpb Hw Hm.
  assert (H27 : 2 ^ 27 = 134217728) by reflexivity.
  assert (Hmax : w < Z.quot (2147483647 - 7) (pixel_bytes * 8)).
  { destruct Hpb as [-> | ->].
    - change (Z.quot (2147483647 - 7) (1 * 8)) with 268435455. lia.
    - change (Z.quot (2147483647 - 7) (2 * 8)) with 134217727.
      destruct (Z.eq_dec w 134217727) as [->|]; [discriminate|lia]. }
  rewrite gray_stride_value by (assumption || lia).
  pose proof (Z.div_mod (w * pixel_bytes) 4 ltac:(lia)) as Hd.
  rewrite Hm in Hd.
  replace (w * pixel_bytes + 3) with (3 + (w * pixel_bytes / 4) * 4) by lia.
  rewrite Z.div_add by lia. change (3 / 4) with 0. lia.
Qed.

End GrayNegativeLevel.

(** X26.  A gray read of a non-empty region with a negative level index, on a
    usable handle and with rows that need no padding, clears [dest] and
    then reads [osr->levels[level]] before the start of the level array:
    the gray reader has no lower bound on the level, where the
    full-colour reader checks [level_in_range]. *)
Theorem gray_read_of_negative_level_faults
        (paint_region :
           openslide_t -> cairo_t -> Z -> Z -> Level.t -> Z -> Z ->
           option (list Z) -> painted)
        (cairo_create_status : cairo_surface_t -> option string)
        (alloc_fails : Z -> bool) (junk : Z)
        (s : world) (b : list Z) (pixel_bytes x y level w h : Z) :
  pixel_bytes = 1 \/ pixel_bytes = 2 ->
  0 < w < 2 ^ 27 -> (w * pixel_bytes) mod 4 = 0 ->
  0 < h < 2 ^ 31 ->
  level < 0 -> 0 <= level_count_all (osr s) ->
  error (osr s) = None ->
  dest s = Some b -> w * h * pixel_bytes <= Z.of_nat (List.length b) ->
  openslide_read_region_gray paint_region cairo_create_status alloc_fails junk
                             s (InDest 0) pixel_bytes x y level w h = Fault.
Proof.
  intros Hpb Hw Hm Hh Hl Hc Herr Hd Hfit.
  assert (H27 : 2 ^ 27 = 134217728) by reflexivity.
  assert (H31 : 2 ^ 31 = 2147483648) by reflexivity.
  unfold openslide_read_region_gray.
  destruct (Z.ltb_spec w 0); [lia|]. destruct (Z.ltb_spec h 0); [lia|].
  cbn [orb].
  pose proof (unpadded_stride pixel_bytes w Hpb ltac:(lia) Hm) as Hs.
  assert (Hfmt : (if pixel_bytes =? 1 then Some CAIRO_FORMAT_A8
                  else if pixel_bytes =? 2 then Some CAIRO_FORMAT_RGB16_565
                  else None)
                 = Some (if pixel_bytes =? 1 then CAIRO_FORMAT_A8
                         else CAIRO_FORMAT_RGB16_565))
    by (destruct Hpb as [-> | ->]; reflexivity).
  rewrite Hfmt. cbv zeta. rewrite Hs, Z.eqb_refl.
  assert (Hlen : wrap64 (h * (w * pixel_bytes)) = h * (w * pixel_bytes)).
  { apply wrap64_id. change (2 ^ 64) with 18446744073709551616.
    destruct Hpb; subst pixel_bytes; nia. }
  rewrite Hlen. cbn [is_null negb].
  rewrite (memset_at_dest (with_buf_cr s None) b (h * (w * pixel_bytes)) Hd)
    by (destruct Hpb; subst pixel_bytes; nia).
  cbn [bind with_dest with_buf_cr osr].
  unfold has_error, openslide_get_error. rewrite Herr.
  unfold openslide_get_level_downsample_gray, has_error, openslide_get_error.
  rewrite Herr. destruct (Z.ltb_spec level 0); [|lia]. cbn [orb bind].
  rewrite tiles_first_faults; try (apply tile_count_pos; lia);
    [reflexivity|].
  unfold read_tile_gray. cbv zeta.
  rewrite area_gray_negative_level by assumption. reflexivity.
Qed.

Lemma gray_read_of_negative_level_faults_witness :
  openslide_read_region_gray8 paint_nothing cairo_ok alloc_ok 205
    (world_of handle_123 (Some [7; 7; 7; 7])) (InDest 0) 0 0 (-1) 4 1 = Fault.
Proof.
  apply (gray_read_of_negative_level_faults paint_nothing cairo_ok alloc_ok 205
           (world_of handle_123 (Some [7; 7; 7; 7])) [7; 7; 7; 7]
           1 0 0 (-1) 4 1); try reflexivity; try (simpl; lia).
Defined.

(** *** No partial result from the gray reader when rows need no padding *)

Section GrayNoPartialResult.

Variable paint_region :
  openslide_t -> cairo_t -> Z -> Z -> Level.t -> Z -> Z ->
  option (list Z) -> painted.
Variable cairo_create_status : cairo_surface_t -> option string.

Hypothesis paint_keeps_size :
  forall o cr x y l w h px,
    exists px', paint_pixels (paint_region o cr x y l w h (Some px)) = Some px'
                /\ List.length px' = List.length px.

Variable handle : openslide_t.
Hypothesis handle_levels :
  level_count_all handle <= Z.of_nat (List.length (levels handle)).
Variable size : nat.

(** The handle is untouched, [dest] has kept its size and no temporary
    buffer is in use. *)
Definition reading_gray (s : world) : Prop :=
  reading handle size s /\ buf_cr s = None.

Definition cleared_gray (n : nat) (s : world) : Prop :=
  cleared size n s /\ buf_cr s = None.

Lemma read_region_area_gray_keeps (s : world)
      (off stride pixel_bytes x y level w h : Z) :
  0 <= level ->
  reading_gray s ->
  exists ok err s',
    read_region_area_gray paint_region cairo_create_status s (InDest off)
                          stride pixel_bytes x y level w h
    = Done (ok, err, s') /\
    (exists d, dest s' = Some d /\ List.length d = size) /\
    buf_cr s' = None /\
    (ok = true -> osr s' = handle).
Proof.
  intros Hlevel ((Ho & d & Hd & Hlen) & Hb). unfold read_region_area_gray.
  assert (Hkept : exists d0, dest s = Some d0 /\ List.length d0 = size)
    by (exists d; auto).
  destruct (if pixel_bytes =? 1 then Some CAIRO_FORMAT_A8
            else if pixel_bytes =? 2 then Some CAIRO_FORMAT_RGB16_565
            else None) as [cr_fmt|].
  2:{ do 3 eexists. split; [reflexivity|]. repeat split; auto; discriminate. }
  cbn [is_null negb]. cbv zeta.
  destruct (Z.gtb_spec level (level_count_all (osr s) - 1)).
  { do 3 eexists. split; [reflexivity|].
    destruct (propagate_keeps_memory s (Some "invalid level"%string))
      as (Hpd & Hpb & _).
    rewrite Hpd, Hpb. repeat split; auto; discriminate. }
  rewrite Ho in *.
  destruct (nth_error (levels handle) (Z.to_nat level)) as [l|] eqn:El.
  2:{ apply nth_error_None in El. lia. }
  rewrite (level_at_nth handle level l) by (lia || assumption). cbn [bind].
  destruct (clip_negative x w (Level.downsample l)) as [[tx x'] w'].
  destruct (clip_negative y h (Level.downsample l)) as [[ty y'] h'].
  assert (Hfinish : forall (cr : cairo_t) (s1 : world),
            (exists d0, dest s1 = Some d0 /\ List.length d0 = size) ->
            buf_cr s1 = None -> osr s1 = handle ->
            exists ok err s',
              (let '(ok, err) := _openslide_check_cairo_status cr in
               Done (ok, err, s1)) = Done (ok, err, s') /\
              (exists d0, dest s' = Some d0 /\ List.length d0 = size) /\
              buf_cr s' = None /\ (ok = true -> osr s' = handle)).
  { intros cr s1 H1 H2 H3. unfold _openslide_check_cairo_status.
    destruct (cr_status cr); do 3 eexists;
      (split; [reflexivity|]); repeat split; auto. }
  destruct ((w' >? 0) && (h' >? 0)); [|apply Hfinish; auto].
  unfold call_paint. cbv zeta.
  cbn [cairo_translate cairo_set_user_data cairo_create cr_surface
       cairo_image_surface_create_for_data surf_data log_paint pointee
       set_pointee dest osr].
  rewrite Hd.
  match goal with
  | |- context [paint_region ?o ?cr ?a ?b ?c ?e ?f (Some d)] =>
      destruct (paint_keeps_size o cr a b c e f d) as (px' & Hpx & Hlpx);
      set (r := paint_region o cr a b c e f (Some d)) in *
  end.
  assert (Hafter : exists d0,
             dest (with_dest (log_paint s) (paint_pixels r)) = Some d0 /\
             List.length d0 = size).
  { exists px'. cbn [with_dest dest]. split; [exact Hpx|lia]. }
  destruct (paint_ok r); cbn [negb].
  - apply Hfinish; auto.
  - do 3 eexists. split; [reflexivity|]. repeat split; auto; discriminate.
Qed.

Lemma read_tile_gray_keeps_or_clears (cr_fmt : cairo_format_t)
      (stride pixel_bytes x y level w h : Z) (ds : float)
      (row col : Z) (s : world) :
  0 <= level ->
  0 <= wrap64 (h * stride) <= Z.of_nat size ->
  reading_gray s ->
  exists c,
    read_tile_gray paint_region cairo_create_status (InDest 0) cr_fmt
                   stride pixel_bytes x y level w h ds row col s = Done c /\
    match c with
    | Next s' => reading_gray s'
    | Ret s' => cleared_gray (Z.to_nat (wrap64 (h * stride))) s'
    end.
Proof.
  intros Hlevel Hn Hs. unfold read_tile_gray. cbv zeta. cbn [ptr_add].
  match goal with
  | |- context [read_region_area_gray _ _ s (InDest ?off) ?st ?pb
                                      ?a ?b ?c ?e ?f] =>
      destruct (read_region_area_gray_keeps s off st pb a b c e f Hlevel Hs)
        as (ok & err & s' & -> & (d & Hd & Hlen) & Hb & Hok)
  end.
  cbn [bind]. destruct ok; cbn [negb is_null].
  - exists (Next s'). split; [reflexivity|].
    split; [split; [auto|exists d; auto]|exact Hb].
  - destruct (propagate_keeps_memory s' err) as (Hpd & Hpb & _).
    rewrite (memset_at_dest (propagate s' err) d (wrap64 (h * stride)))
      by (rewrite ?Hpd; auto; lia).
    cbn [bind]. eexists. split; [reflexivity|].
    destruct (zero_prefix (Z.to_nat (wrap64 (h * stride))) d ltac:(lia))
      as (Hz1 & Hz2).
    split.
    + eexists. cbn [with_dest dest]. split; [reflexivity|].
      split; [lia|exact Hz2].
    + cbn [with_dest buf_cr]. rewrite Hpb. exact Hb.
Qed.

End GrayNoPartialResult.

Lemma level_downsample_gray_returns (o : openslide_t) (level : Z) :
  level_count_all o <= Z.of_nat (List.length (levels o)) ->
  exists ds, openslide_get_level_downsample_gray o level = Done ds.
Proof.
  intros Hl. unfold openslide_get_level_downsample_gray.
  destruct (has_error o); [eexists; reflexivity|].
  destruct (Z.ltb_spec level 0); [eexists; reflexivity|].
  destruct (Z.gtb_spec level (level_count_all o - 1)); [eexists; reflexivity|].
  cbn [orb].
  destruct (nth_error (levels o) (Z.to_nat level)) as [l|] eqn:El.
  2:{ apply nth_error_None in El. lia. }
  rewrite (level_at_nth o level l) by (lia || assumption).
  eexists. reflexivity.
Qed.

(** X25.  A gray read (one or two bytes per pixel) with rows that need no
    padding, of a level index that is not negative, into a buffer that
    holds the region: the read returns with [dest] the size it was, and if
    the handle is in error state then (it was before, the level index is
    past the last level, or the backend failed on some tile) the bytes of
    the region are all zero. *)
Theorem gray_read_no_partial_result
        (paint_region :
           openslide_t -> cairo_t -> Z -> Z -> Level.t -> Z -> Z ->
           option (list Z) -> painted)
        (cairo_create_status : cairo_surface_t -> option string)
        (alloc_fails : Z -> bool) (junk : Z)
        (s : world) (b : list Z) (pixel_bytes x y level w h : Z) :
  (forall o cr x y l w h px,
      exists px',
        paint_pixels (paint_region o cr x y l w h (Some px)) = Some px' /\
        List.length px' = List.length px) ->
  pixel_bytes = 1 \/ pixel_bytes = 2 ->
  0 <= w < 2 ^ 27 -> (w * pixel_bytes) mod 4 = 0 ->
  0 <= h < 2 ^ 31 ->
  0 <= level ->
  level_count_all (osr s) <= Z.of_nat (List.length (levels (osr s))) ->
  dest s = Some b -> w * h * pixel_bytes <= Z.of_nat (List.length b) ->
  exists s' d,
    openslide_read_region_gray paint_region cairo_create_status
      alloc_fails junk s (InDest 0) pixel_bytes x y level w h = Done s' /\
    dest s' = Some d /\ List.length d = List.length b /\
    (error (osr s') <> None ->
     firstn (Z.to_nat (w * h * pixel_bytes)) d
     = repeat 0 (Z.to_nat (w * h * pixel_bytes))).
Proof.
  intros Hpaint Hpb Hw Hm Hh Hlevel Hwf Hd Hfit.
  assert (H27 : 2 ^ 27 = 134217728) by reflexivity.
  assert (H31 : 2 ^ 31 = 2147483648) by reflexivity.
  unfold openslide_read_region_gray.
  destruct (Z.ltb_spec w 0); [lia|]. destruct (Z.ltb_spec h 0); [lia|].
  cbn [orb].
  pose proof (unpadded_stride pixel_bytes w Hpb ltac:(lia) Hm) as Hs.
  assert (Hfmt : (if pixel_bytes =? 1 then Some CAIRO_FORMAT_A8
                  else if pixel_bytes =? 2 then Some CAIRO_FORMAT_RGB16_565
                  else None)
                 = Some (if pixel_bytes =? 1 then CAIRO_FORMAT_A8
                         else CAIRO_FORMAT_RGB16_565))
    by (destruct Hpb as [-> | ->]; reflexivity).
  rewrite Hfmt. cbv zeta. rewrite Hs, Z.eqb_refl.
  assert (Hlen : wrap64 (h * (w * pixel_bytes)) = w * h * pixel_bytes).
  { rewrite wrap64_id; [lia|]. change (2 ^ 64) with 18446744073709551616.
    destruct Hpb; subst pixel_bytes; nia. }
  rewrite Hlen. cbn [is_null negb].
  assert (Hn : 0 <= w * h * pixel_bytes)
    by (destruct Hpb; subst pixel_bytes; nia).
  rewrite (memset_at_dest (with_buf_cr s None) b (w * h * pixel_bytes) Hd)
    by lia.
  cbn [bind].
  destruct (zero_prefix (Z.to_nat (w * h * pixel_bytes)) b ltac:(lia))
    as (Hz1 & Hz2).
  set (cleared_dest := repeat 0 (Z.to_nat (w * h * pixel_bytes))
                       ++ skipn (Z.to_nat (w * h * pixel_bytes)) b) in *.
  set (s1 := with_dest (with_buf_cr s None) (Some cleared_dest)).
  change (osr s1) with (osr s).
  destruct (has_error (osr s)) eqn:Eerr.
  { exists s1, cleared_dest. repeat split; auto. }
  destruct (level_downsample_gray_returns (osr s) level Hwf) as (ds & ->).
  cbn [bind].
  assert (Hstart : reading_gray (osr s) (List.length b) s1).
  { split; [|reflexivity]. split; [reflexivity|].
    exists cleared_dest. split; [reflexivity|exact Hz1]. }
  destruct (for_each_inv
              (reading_gray (osr s) (List.length b))
              (cleared_gray (List.length b) (Z.to_nat (w * h * pixel_bytes)))
              (range 0 (Z.quot (h + tile_edge - 1) tile_edge))
              (fun row s =>
                 for_each (range 0 (Z.quot (w + tile_edge - 1) tile_edge))
                   (read_tile_gray paint_region cairo_create_status (InDest 0)
                      (if pixel_bytes =? 1 then CAIRO_FORMAT_A8
                       else CAIRO_FORMAT_RGB16_565)
                      (w * pixel_bytes) pixel_bytes x y level w h ds row) s))
    with (s := s1) as (c & -> & Hc); [|exact Hstart|].
  { intros row s2 _ Hs2.
    apply (for_each_inv
             (reading_gray (osr s) (List.length b))
             (cleared_gray (List.length b) (Z.to_nat (w * h * pixel_bytes))));
      [|exact Hs2].
    intros col s3 _ Hs3. rewrite <- Hlen.
    apply (read_tile_gray_keeps_or_clears paint_region cairo_create_status
             Hpaint (osr s) Hwf (List.length b));
      [exact Hlevel|rewrite Hlen; lia|exact Hs3]. }
  cbn [bind]. destruct c as [s'|s'].
  - destruct Hc as ((Ho & d & Hd' & Hdl) & Hbuf). rewrite Hbuf.
    exists s', d. repeat split; auto. intros Hne. exfalso. apply Hne.
    rewrite Ho. apply has_error_false, Eerr.
  - destruct Hc as ((d & Hd' & Hdl & Hzero) & _). exists s', d.
    repeat split; auto.
Qed.

Lemma gray_read_no_partial_result_witness :
  exists s' d,
    openslide_read_region_gray8 paint_fails cairo_ok alloc_ok 205
      (world_of handle_123 (Some [7; 7; 7; 7; 7])) (InDest 0) 0 0 0 4 1
    = Done s' /\
    dest s' = Some d /\ List.length d = 5%nat /\
    (error (osr s') <> None ->
     firstn (Z.to_nat (4 * 1 * 1)) d = repeat 0 (Z.to_nat (4 * 1 * 1))).
Proof.
  apply (gray_read_no_partial_result paint_fails cairo_ok alloc_ok 205
           (world_of handle_123 (Some [7; 7; 7; 7; 7])) [7; 7; 7; 7; 7]
           1 0 0 0 4 1); try reflexivity; try (simpl; lia).
  intros o cr x y l w h px. exists px. split; reflexivity.
Defined.
(** *** The gray reader when rows need padding *)

(** The level-0 origin the readers compute for tile [k] of a row or a
    column of tiles that starts at [x]. *)
Definition tile_origin (x k : Z) (ds : float) : Z :=
  Dbl.to_int (Dbl.of_int x + Dbl.of_int (k * tile_edge) * ds)%float.

(** A region of at most one tile. *)
Lemma one_tile (n : Z) :
  0 < n <= tile_edge -> range 0 (Z.quot (n + tile_edge - 1) tile_edge) = [0].
Proof.
  intros H. unfold tile_edge in *.
  rewrite Z.quot_div_nonneg by lia.
  replace ((n + 4096 - 1) / 4096) with 1; [reflexivity|].
  apply Z.div_unique with (r := n - 1); lia.
Qed.

(** Rows that need padding: the stride is the row size rounded up, and
    differs from it. *)
Lemma padded_stride (pixel_bytes w : Z) :
  pixel_bytes = 1 \/ pixel_bytes = 2 ->
  0 < w <= tile_edge -> (w * pixel_bytes) mod 4 <> 0 ->
  let stride := 4 * ((w * pixel_bytes + 3) / 4) in
  cairo_format_stride_for_width
    (if pixel_bytes =? 1 then CAIRO_FORMAT_A8 else CAIRO_FORMAT_RGB16_565) w
  = stride /\
  Pad.CAIRO_STRIDE_FOR_WIDTH_BPP w (pixel_bytes * 8) = stride /\
  w * pixel_bytes < stride < w * pixel_bytes + 4.
Proof.
  intros Hpb Hw Hm stride. unfold tile_edge in Hw.
  assert (H28 : 2 ^ 28 = 268435456) by reflexivity.
  assert (Hrow : 0 < w * pixel_bytes <= 8192) by (destruct Hpb; subst; lia).
  split; [|split].
  - apply gray_stride_value; [exact Hpb|lia|].
    destruct Hpb as [-> | ->].
    + change (Z.quot (2147483647 - 7) (1 * 8)) with 268435455. lia.
    + change (Z.quot (2147483647 - 7) (2 * 8)) with 134217727. lia.
  - apply Pad.stride_value; lia.
  - unfold stride.
    pose proof (Z.div_mod (w * pixel_bytes + 3) 4 ltac:(lia)) as Hd.
    pose proof (Z.mod_pos_bound (w * pixel_bytes + 3) 4 ltac:(lia)) as Hb.
    pose proof (Z.div_mod (w * pixel_bytes) 4 ltac:(lia)) as Hd'.
    pose proof (Z.mod_pos_bound (w * pixel_bytes) 4 ltac:(lia)) as Hb'.
    assert (Hne : 4 * ((w * pixel_bytes + 3) / 4) <> w * pixel_bytes).
    { intros E. apply Hm. rewrite <- E, Z.mul_comm. apply Z.mod_mul. lia. }
    lia.
Qed.

Lemma clip_negative_none (x w : Z) (ds : float) :
  0 <= x -> clip_negative x w ds = (0, x, w).
Proof.
  intros H. unfold clip_negative. destruct (Z.ltb_spec x 0); [lia|reflexivity].
Qed.

(** X27.  A gray read (one or two bytes per pixel) of a region of at most
    one tile whose rows need padding (the row size is not a multiple of
    four), of a level of the slide and on a handle without error, with a
    backend that keeps the size of the buffer it paints into.  The reader
    paints once, into a zeroed temporary buffer of [h] strides; when the
    backend is called the caller's [dest] holds what it held before the
    read.  If the paint fails or leaves the cairo context in error,
    [dest] is returned as it was.  Otherwise the handle stays free of
    error and [dest] holds the painted rows without their padding: byte
    [j] of row [i] of [dest] is byte [j] of row [i] of the painted
    buffer. *)
Theorem gray_padded_read_result
        (paint_region :
           openslide_t -> cairo_t -> Z -> Z -> Level.t -> Z -> Z ->
           option (list Z) -> painted)
        (cairo_create_status : cairo_surface_t -> option string)
        (alloc_fails : Z -> bool) (junk : Z)
        (s : world) (b : list Z) (l : Level.t)
        (pixel_bytes x y level w h : Z) :
  (forall o cr x y l w h px,
      exists px',
        paint_pixels (paint_region o cr x y l w h (Some px)) = Some px' /\
        List.length px' = List.length px) ->
  pixel_bytes = 1 \/ pixel_bytes = 2 ->
  0 < w <= tile_edge -> 0 < h <= tile_edge ->
  (w * pixel_bytes) mod 4 <> 0 ->
  error (osr s) = None ->
  0 <= level <= level_count_all (osr s) - 1 ->
  nth_error (levels (osr s)) (Z.to_nat level) = Some l ->
  let sx := tile_origin x 0 (Level.downsample l) in
  let sy := tile_origin y 0 (Level.downsample l) in
  0 <= sx -> 0 <= sy ->
  let stride := 4 * ((w * pixel_bytes + 3) / 4) in
  alloc_fails (h * stride) = false ->
  dest s = Some b -> Z.of_nat (List.length b) = h * (w * pixel_bytes) ->
  let cr_fmt := if pixel_bytes =? 1 then CAIRO_FORMAT_A8
                else CAIRO_FORMAT_RGB16_565 in
  let surface :=
    cairo_image_surface_create_for_data (InBufCr 0) cr_fmt w h stride in
  let cr :=
    cairo_translate
      (cairo_set_user_data (cairo_create cairo_create_status surface) cr_fmt)
      0 0 in
  let r := paint_region (osr s) cr sx sy l w h
                        (Some (repeat 0 (Z.to_nat (h * stride)))) in
  exists s',
    openslide_read_region_gray paint_region cairo_create_status
      alloc_fails junk s (InDest 0) pixel_bytes x y level w h = Done s' /\
    paints s' = Some b :: paints s /\
    (paint_ok r = false \/ cairo_create_status surface <> None
     \/ paint_status r <> None ->
     dest s' = Some b) /\
    (paint_ok r = true -> cairo_create_status surface = None ->
     paint_status r = None ->
     error (osr s') = None /\
     exists px d,
       paint_pixels r = Some px /\
       Z.of_nat (List.length px) = h * stride /\
       dest s' = Some d /\ List.length d = List.length b /\
       forall i j, 0 <= i < h -> 0 <= j < w * pixel_bytes ->
                   nth (Z.to_nat (i * (w * pixel_bytes) + j)) d 0
                   = nth (Z.to_nat (i * stride + j)) px 0).
Proof.
  intros Hpaint Hpb Hw Hh Hm Herr Hlevel Hl sx sy Hsx Hsy stride
         Halloc Hd Hfit cr_fmt surface cr r.
  destruct (padded_stride pixel_bytes w Hpb Hw Hm) as (Hcs & Hps & Hsb).
  fold stride in Hcs, Hps, Hsb. fold cr_fmt in Hcs.
  assert (Hte : tile_edge = 4096) by reflexivity.
  assert (Hrow : 0 < w * pixel_bytes <= 8192) by (destruct Hpb; subst; lia).
  assert (Hn : 0 < h * stride < 2 ^ 64).
  { change (2 ^ 64) with 18446744073709551616. nia. }
  unfold openslide_read_region_gray.
  destruct (Z.ltb_spec w 0); [lia|]. destruct (Z.ltb_spec h 0); [lia|].
  cbn [orb].
  assert (Hfmt : (if pixel_bytes =? 1 then Some CAIRO_FORMAT_A8
                  else if pixel_bytes =? 2 then Some CAIRO_FORMAT_RGB16_565
                  else None) = Some cr_fmt)
    by (unfold cr_fmt; destruct Hpb as [-> | ->]; reflexivity).
  rewrite Hfmt. cbv zeta. rewrite Hcs.
  destruct (Z.eqb_spec stride (w * pixel_bytes)); [lia|].
  rewrite (wrap64_id (h * stride)) by lia.
  unfold g_try_malloc.
  destruct (Z.eqb_spec (h * stride) 0); [lia|].
  rewrite Halloc. cbn [orb is_null negb].
  rewrite (memset_at_buf_cr
             (with_buf_cr (with_buf_cr s None)
                          (Some (repeat junk (Z.to_nat (h * stride)))))
             (repeat junk (Z.to_nat (h * stride))) (h * stride) eq_refl)
    by (rewrite repeat_length; lia).
  rewrite skipn_all2 by (rewrite repeat_length; lia).
  rewrite app_nil_r. cbn [bind].
  set (zeros := repeat 0 (Z.to_nat (h * stride))) in *.
  set (s1 := with_buf_cr _ (Some zeros)).
  change (osr s1) with (osr s).
  unfold openslide_get_level_downsample_gray, has_error, openslide_get_error.
  rewrite Herr.
  destruct (Z.ltb_spec level 0); [lia|].
  destruct (Z.gtb_spec level (level_count_all (osr s) - 1)); [lia|].
  cbn [orb].
  rewrite (level_at_nth (osr s) level l) by (lia || assumption).
  cbn [bind].
  rewrite (one_tile h Hh), (one_tile w Hw). cbn [for_each].
  unfold read_tile_gray. cbv zeta.
  replace (w * 0 * tile_edge + 0 * tile_edge) with 0 by lia.
  replace (w - 0 * tile_edge) with w by lia.
  replace (h - 0 * tile_edge) with h by lia.
  rewrite !Z.min_l by lia. rewrite Hcs.
  cbn [ptr_add]. change (0 + 0) with 0.
  fold (tile_origin x 0 (Level.downsample l)).
  fold (tile_origin y 0 (Level.downsample l)). fold sx sy.
  unfold read_region_area_gray. rewrite Hfmt. cbv zeta.
  cbn [is_null negb].
  change (osr s1) with (osr s).
  destruct (Z.gtb_spec level (level_count_all (osr s) - 1)); [lia|].
  rewrite (level_at_nth (osr s) level l) by (lia || assumption).
  cbn [bind].
  rewrite (clip_negative_none sx w _ Hsx), (clip_negative_none sy h _ Hsy).
  destruct (Z.gtb_spec w 0); [|lia]. destruct (Z.gtb_spec h 0); [|lia].
  cbn [andb]. unfold call_paint. cbv zeta.
  fold surface. fold cr.
  assert (Hr : paint_region (osr (log_paint s1)) cr sx sy l w h
                 (pointee (log_paint s1) (surf_data (cr_surface cr))) = r)
    by reflexivity.
  rewrite Hr.
  change (surf_data (cr_surface cr)) with (InBufCr 0).
  change (cr_status cr) with (cairo_create_status surface).
  cbn [set_pointee].
  destruct (Hpaint (osr s) cr sx sy l w h zeros) as (px & Hpx & Hlpx).
  fold r in Hpx.
  assert (Hlen : Z.of_nat (List.length px) = h * stride)
    by (rewrite Hlpx; unfold zeros; rewrite repeat_length; lia).
  set (s2 := with_buf_cr (log_paint s1) (paint_pixels r)).
  assert (Hfail : forall err,
             exists s',
               (s3 <- memset_at (propagate s2 err) (InBufCr 0) 0
                        (wrap64 (h * stride)) ;;
                Done (@Ret world world s3)) = Done (Ret s') /\
               paints s' = Some b :: paints s /\ dest s' = Some b).
  { intros err.
    rewrite (memset_at_buf_cr (propagate s2 err) px (wrap64 (h * stride)))
      by (try (unfold s2; cbn; exact Hpx);
          rewrite (wrap64_id (h * stride)) by lia; lia).
    cbn [bind]. eexists. split; [reflexivity|].
    cbn. rewrite Hd. split; reflexivity. }
  unfold _openslide_check_cairo_status. cbn [cr_status].
  destruct (paint_ok r) eqn:Eok; cbn [negb bind].
  2:{ destruct (Hfail (paint_err r)) as (s' & -> & Hp' & Hd').
      cbn [bind]. exists s'. split; [reflexivity|]. split; [exact Hp'|].
      split; [intros _; exact Hd'|discriminate]. }
  destruct (cairo_create_status surface) as [e|] eqn:Ecs.
  { cbn [negb bind].
    destruct (Hfail (Some (String.append "cairo error: " e)))
      as (s' & -> & Hp' & Hd').
    cbn [bind]. exists s'. split; [reflexivity|]. split; [exact Hp'|].
    split; [intros _; exact Hd'|discriminate]. }
  destruct (paint_status r) as [e|] eqn:Eps.
  { cbn [negb bind].
    destruct (Hfail (Some (String.append "cairo error: " e)))
      as (s' & -> & Hp' & Hd').
    cbn [bind]. exists s'. split; [reflexivity|]. split; [exact Hp'|].
    split; [intros _; exact Hd'|discriminate]. }
  cbn [negb bind].
  change (buf_cr s2) with (paint_pixels r). rewrite Hpx.
  change (dest s2) with (dest s). rewrite Hd.
  assert (H31 : 2 ^ 31 = 2147483648) by reflexivity.
  assert (H28 : 2 ^ 28 = 268435456) by reflexivity.
  rewrite (wrap_int32_id w), (wrap_int32_id h) by lia.
  replace (h * stride) with (Z.of_nat (List.length px)) by exact Hlen.
  replace (w * h * pixel_bytes) with (Z.of_nat (List.length b))
    by (rewrite Hfit; ring).
  rewrite (Pad.del_row_padding_rows pixel_bytes w h)
    by (rewrite ?Hps; destruct Hpb; subst pixel_bytes; lia).
  rewrite Hps. cbn [bind].
  set (d := Pad.rows_into (Z.to_nat (w * pixel_bytes)) (Z.to_nat stride)
                          (Z.to_nat (w * pixel_bytes)) (Z.to_nat h) px b).
  exists (with_dest s2 (Some d)). split; [reflexivity|].
  split; [cbn; rewrite Hd; reflexivity|].
  split; [intros [Habs|[Habs|Habs]]; congruence|].
  intros _ _ _. split; [exact Herr|].
  exists px, d. split; [reflexivity|]. split; [reflexivity|].
  split; [reflexivity|]. split.
  - unfold d. apply Pad.rows_into_length; nia.
  - intros i j Hi Hj. unfold d.
    replace (Z.to_nat (i * (w * pixel_bytes) + j))
      with (Z.to_nat i * Z.to_nat (w * pixel_bytes) + Z.to_nat j)%nat by nia.
    replace (Z.to_nat (i * stride + j))
      with (Z.to_nat i * Z.to_nat stride + Z.to_nat j)%nat by nia.
    apply Pad.rows_into_nth; nia.
Qed.

(** A backend that paints the bytes 1, 2, 3, ... over the buffer it is
    given. *)
Definition paint_count (_ : openslide_t) (_ : cairo_t) (_ _ : Z)
           (_ : Level.t) (_ _ : Z) (pixels : option (list Z)) : painted :=
  mk_painted true None
             (option_map (fun px => map (fun k => k + 1)
                                        (iota 0 (List.length px))) pixels)
             None.

Lemma gray_padded_read_result_witness :
  exists s',
    openslide_read_region_gray8 paint_count cairo_ok alloc_ok 205
      (world_of handle_123 (Some [7; 7; 7; 7; 7; 7])) (InDest 0) 0 0 0 3 2
    = Done s' /\
    paints s' = [Some [7; 7; 7; 7; 7; 7]] /\
    error (osr s') = None /\
    dest s' = Some [1; 2; 3; 5; 6; 7].
Proof.
  destruct (gray_padded_read_result paint_count cairo_ok alloc_ok 205
              (world_of handle_123 (Some [7; 7; 7; 7; 7; 7]))
              [7; 7; 7; 7; 7; 7] (Level.mk 1 1600 1600 0 0) 1 0 0 0 3 2)
    as (s' & Hrun & Hp & _ & Hok).
  - intros o cr x y l w h px. eexists. split; [reflexivity|].
    rewrite length_map, iota_length. reflexivity.
  - left. reflexivity.
  - unfold tile_edge. lia.
  - unfold tile_edge. lia.
  - discriminate.
  - reflexivity.
  - simpl. lia.
  - reflexivity.
  - vm_compute. discriminate.
  - vm_compute. discriminate.
  - reflexivity.
  - reflexivity.
  - reflexivity.
  - destruct Hok as (He & px & d & Hpx & _ & Hd & Hlen & Hnth);
      try reflexivity.
    exists s'. split; [exact Hrun|]. split; [exact Hp|]. split; [exact He|].
    rewrite Hd. f_equal.
    injection Hpx as <-.
    destruct d as [|d0 [|d1 [|d2 [|d3 [|d4 [|d5 [|]]]]]]]; try discriminate.
    pose proof (Hnth 0 0 ltac:(lia) ltac:(lia)) as H00.
    pose proof (Hnth 0 1 ltac:(lia) ltac:(lia)) as H01.
    pose proof (Hnth 0 2 ltac:(lia) ltac:(lia)) as H02.
    pose proof (Hnth 1 0 ltac:(lia) ltac:(lia)) as H10.
    pose proof (Hnth 1 1 ltac:(lia) ltac:(lia)) as H11.
    pose proof (Hnth 1 2 ltac:(lia) ltac:(lia)) as H12.
    vm_compute in H00, H01, H02, H10, H11, H12. congruence.
Defined.

End Slide.

(** ** Pixel kernels (openslide-image.h, openslide-image.c,
       openslide-image-ssse3.c, openslide-image-avx2.c) *)

Module Image.

(** *** Integers and memory as the kernels see them

    The targets of the vector code are little-endian: a [uint16_t] or a
    [uint32_t] in memory is its bytes, lowest first. *)

Definition is_byte (b : Z) : Prop := 0 <= b < 256.

Definition u16_of_bytes (b0 b1 : Z) : Z := Z.lor b0 (Z.shiftl b1 8).

Definition bytes_of_u16 (v : Z) : list Z :=
  [Z.land v 255; Z.land (Z.shiftr v 8) 255].

Definition bytes_of_u32 (v : Z) : list Z :=
  [Z.land v 255; Z.land (Z.shiftr v 8) 255;
   Z.land (Z.shiftr v 16) 255; Z.land (Z.shiftr v 24) 255].

(** The state of a kernel loop: the [src] pointer and the [dst] pointer as
    byte offsets, and the contents of the destination buffer. *)
Definition kstate : Type := (Z * Z * list Z)%type.

(** *** The macros of openslide-image.h *)

Definition BGR24TOARGB32 (p0 p1 p2 : Z) : Z :=
  Z.lor (Z.lor (Z.lor 4278190080 p0) (Z.shiftl p1 8)) (Z.shiftl p2 16).

Definition BGR48TOARGB32 (p1 p3 p5 : Z) : Z :=
  Z.lor (Z.lor (Z.lor 4278190080 p1) (Z.shiftl p3 8)) (Z.shiftl p5 16).

(** *** Scalar kernels (openslide-image.c) *)

(** [*dst++ = BGR24TOARGB32(src)], then [src += 3]. *)
Definition bgr24_pixel (src : list Z) (s : kstate) : outcome kstate :=
  let '(so, do, dst) := s in
  p <- load src so 3 ;;
  match p with
  | [p0; p1; p2] =>
      dst' <- store dst do (bytes_of_u32 (BGR24TOARGB32 p0 p1 p2)) ;;
      Done (so + 3, do + 4, dst')
  | _ => Fault
  end.

Definition bgr24_to_argb32_generic (src : list Z) (src_len : Z) (dst : list Z)
  : outcome (list Z) :=
  (* one 24-bit pixel at a time *)
  '(_, _, dst') <- for_lt (Z.to_nat src_len) 0 src_len 3
                     (bgr24_pixel src) (0, 0, dst) ;;
  Done dst'.

Definition bgr48_pixel (src : list Z) (s : kstate) : outcome kstate :=
  let '(so, do, dst) := s in
  p <- load src so 6 ;;
  match p with
  | [_; p1; _; p3; _; p5] =>
      dst' <- store dst do (bytes_of_u32 (BGR48TOARGB32 p1 p3 p5)) ;;
      Done (so + 6, do + 4, dst')
  | _ => Fault
  end.

Definition _openslide_bgr48_to_argb32_generic (src : list Z) (src_len : Z)
           (dst : list Z) : outcome (list Z) :=
  (* one 48-bit pixel at a time *)
  '(_, _, dst') <- for_lt (Z.to_nat src_len) 0 src_len 6
                     (bgr48_pixel src) (0, 0, dst) ;;
  Done dst'.

(** The state of a restore loop: the pointers [slo], [shi] into [src], the
    pointer [p] into [dst], and the destination. *)
Definition rstate : Type := (Z * Z * Z * list Z)%type.

(** [*p++ = *slo++; *p++ = *shi++;] *)
Definition restore_byte_pair (src : list Z) (s : rstate) : outcome rstate :=
  let '(slo, shi, p, dst) := s in
  lo <- load src slo 1 ;;
  dst <- store dst p lo ;;
  hi <- load src shi 1 ;;
  dst <- store dst (p + 1) hi ;;
  Done (slo + 1, shi + 1, p + 2, dst).

Definition restore_czi_zstd1_generic (src : list Z) (src_len : Z) (dst : list Z)
  : outcome (list Z) :=
  let half_len := src_len / 2 in
  '(_, _, _, dst') <- for_lt (Z.to_nat half_len) 0 half_len 1
                        (restore_byte_pair src) (0, half_len, 0, dst) ;;
  Done dst'.

(** [gray16togray8(p, ns)] on the two bytes under [p].  The shift is
    defined in C for [0 <= ns < 32]. *)
Definition gray16togray8 (p0 p1 : Z) (ns : Z) : Z :=
  let v := (Z.shiftr (u16_of_bytes p0 p1) ns) mod 2 ^ 16 in
  (* 14 bits gray image in zeiss Axioscan7 sometimes uses more than 14 bits *)
  if v >? 255 then 255 else v mod 256.

(** [*dst++ = gray16togray8(src, nshift); src += 2;] *)
Definition gray16_pixel (src : list Z) (nshift : Z) (s : kstate) : outcome kstate :=
  let '(so, do, dst) := s in
  p <- load src so 2 ;;
  match p with
  | [p0; p1] =>
      dst' <- store dst do [gray16togray8 p0 p1 nshift] ;;
      Done (so + 2, do + 1, dst')
  | _ => Fault
  end.

Definition gray16_to_gray8_generic (src : list Z) (src_len : Z)
           (pixel_real_bits : Z) (dst : list Z) : outcome (list Z) :=
  let nshift := pixel_real_bits - 8 in
  '(_, _, dst') <- for_lt (Z.to_nat src_len) 0 src_len 2
                     (gray16_pixel src nshift) (0, 0, dst) ;;
  Done dst'.

(** *** Vector registers and the intrinsics the kernels use

    A 128-bit register is the list of its 16 bytes, lowest first; a
    256-bit register is 32 bytes, the low lane first. *)

Fixpoint map2 {A B C : Type} (f : A -> B -> C) (a : list A) (b : list B)
  : list C :=
  match a, b with
  | x :: a', y :: b' => f x y :: map2 f a' b'
  | _, _ => []
  end.

Fixpoint interleave {A : Type} (a b : list A) : list A :=
  match a, b with
  | x :: a', y :: b' => x :: y :: interleave a' b'
  | _, _ => []
  end.

Definition lo128 (v : list Z) : list Z := firstn 16 v.
Definition hi128 (v : list Z) : list Z := skipn 16 v.

(** A [char] argument as the byte it is stored as. *)
Definition _mm_setr_epi8 (cs : list Z) : list Z := map (fun c => c mod 256) cs.
Definition _mm256_setr_epi8 (cs : list Z) : list Z := _mm_setr_epi8 cs.
Definition _mm_set_epi64x (e1 e0 : Z) : list Z :=
  map (fun k => Z.land (Z.shiftr e0 (8 * k)) 255) (range 0 8) ++
  map (fun k => Z.land (Z.shiftr e1 (8 * k)) 255) (range 0 8).
Definition _mm256_set_epi64x (e3 e2 e1 e0 : Z) : list Z :=
  _mm_set_epi64x e1 e0 ++ _mm_set_epi64x e3 e2.

(** Loads and stores.  [_mm_load_si128] (MOVDQA) requires an address that
    is a multiple of 16 and raises a general-protection fault on any
    other; [addr] is the address of the first byte of the buffer.  The
    other loads and the stores take any address. *)
Definition _mm_lddqu_si128 (src : list Z) (off : Z) := load src off 16.
Definition _mm_loadu_si128 (src : list Z) (off : Z) := load src off 16.
Definition _mm_load_si128 (addr : Z) (src : list Z) (off : Z) :=
  if (addr + off) mod 16 =? 0 then load src off 16 else Fault.
Definition _mm256_lddqu_si256 (src : list Z) (off : Z) := load src off 32.
Definition _mm_storeu_si128 (dst : list Z) (off : Z) (v : list Z) := store dst off v.
Definition _mm256_storeu_si256 (dst : list Z) (off : Z) (v : list Z) := store dst off v.
Definition _mm256_setr_m128i (lo hi : list Z) : list Z := lo ++ hi.

(** PSHUFB: a control byte with the top bit set gives 0, otherwise its low
    four bits select a byte of [a]. *)
Definition _mm_shuffle_epi8 (a b : list Z) : list Z :=
  map (fun c => if Z.testbit c 7 then 0
                else nth (Z.to_nat (Z.land c 15)) a 0) b.
Definition _mm256_shuffle_epi8 (a b : list Z) : list Z :=
  _mm_shuffle_epi8 (lo128 a) (lo128 b) ++ _mm_shuffle_epi8 (hi128 a) (hi128 b).

Definition _mm_or_si128 (a b : list Z) : list Z := map2 Z.lor a b.
Definition _mm256_or_si256 (a b : list Z) : list Z := map2 Z.lor a b.

(** The 16-bit lanes of a register. *)
Fixpoint lanes16 (v : list Z) : list Z :=
  match v with
  | b0 :: b1 :: v' => u16_of_bytes b0 b1 :: lanes16 v'
  | _ => []
  end.
Definition of_lanes16 (l : list Z) : list Z := flat_map bytes_of_u16 l.

(** PSRLW: a logical right shift of every 16-bit lane; a count above 15
    clears the lane. *)
Definition srl16 (count lane : Z) : Z :=
  if (count <? 0) || (15 <? count) then 0 else Z.shiftr lane count.
Definition _mm_srli_epi16 (a : list Z) (imm8 : Z) : list Z :=
  of_lanes16 (map (srl16 imm8) (lanes16 a)).
Definition _mm256_srli_epi16 (a : list Z) (imm8 : Z) : list Z :=
  _mm_srli_epi16 a imm8.

(** PCMPGTB: a signed comparison of bytes. *)
Definition signed8 (b : Z) : Z := if b <? 128 then b else b - 256.
Definition cmpgt8 (x y : Z) : Z := if signed8 y <? signed8 x then 255 else 0.
Definition _mm_cmpgt_epi8 (a b : list Z) : list Z := map2 cmpgt8 a b.
Definition _mm256_cmpgt_epi8 (a b : list Z) : list Z := map2 cmpgt8 a b.

(** PUNPCKLBW and PUNPCKHBW. *)
Definition _mm_unpacklo_epi8 (a b : list Z) : list Z :=
  interleave (firstn 8 a) (firstn 8 b).
Definition _mm_unpackhi_epi8 (a b : list Z) : list Z :=
  interleave (skipn 8 a) (skipn 8 b).
Definition _mm256_unpacklo_epi8 (a b : list Z) : list Z :=
  _mm_unpacklo_epi8 (lo128 a) (lo128 b) ++ _mm_unpacklo_epi8 (hi128 a) (hi128 b).
Definition _mm256_unpackhi_epi8 (a b : list Z) : list Z :=
  _mm_unpackhi_epi8 (lo128 a) (lo128 b) ++ _mm_unpackhi_epi8 (hi128 a) (hi128 b).

(** VPERM2I128: each half of the result is a lane of [a] or [b], or zero. *)
Definition select128 (a b : list Z) (control : Z) : list Z :=
  if Z.testbit control 3 then repeat 0 16
  else match Z.land control 3 with
       | 0 => lo128 a
       | 1 => hi128 a
       | 2 => lo128 b
       | _ => hi128 b
       end.
Definition _mm256_permute2x128_si256 (a b : list Z) (imm8 : Z) : list Z :=
  select128 a b (Z.land imm8 15) ++ select128 a b (Z.land (Z.shiftr imm8 4) 15).

(** VPERMQ: every 64-bit element of the result is the element of [a] two
    bits of [imm8] select. *)
Definition qword (a : list Z) (k : Z) : list Z :=
  firstn 8 (skipn (Z.to_nat (8 * k)) a).
Definition _mm256_permute4x64_epi64 (a : list Z) (imm8 : Z) : list Z :=
  qword a (Z.land imm8 3) ++ qword a (Z.land (Z.shiftr imm8 2) 3) ++
  qword a (Z.land (Z.shiftr imm8 4) 3) ++ qword a (Z.land (Z.shiftr imm8 6) 3).

(** NEON. *)
Definition vld1q_u8 (src : list Z) (off : Z) := load src off 16.
Definition vst1q_u8 (dst : list Z) (off : Z) (v : list Z) := store dst off v.
Definition vqtbl1q_u8 (t idx : list Z) : list Z :=
  map (fun i => if i <? 16 then nth (Z.to_nat i) t 0 else 0) idx.
Definition vorrq_u8 (a b : list Z) : list Z := map2 Z.lor a b.
Definition vzip1q_u8 (a b : list Z) : list Z :=
  interleave (firstn 8 a) (firstn 8 b).
Definition vzip2q_u8 (a b : list Z) : list Z :=
  interleave (skipn 8 a) (skipn 8 b).

(** *** SSSE3 / SSE2 kernels (openslide-image-ssse3.c) *)

Definition cff : Z := -1.   (* (char)0xFF *)

Definition shuffle_bgr24 : list Z :=
  [0; 1; 2; cff; 3; 4; 5; cff; 6; 7; 8; cff; 9; 10; 11; cff].
Definition opaque_argb : list Z :=
  [0; 0; 0; cff; 0; 0; 0; cff; 0; 0; 0; cff; 0; 0; 0; cff].

Definition bgr24_ssse3_step (src : list Z) (s : kstate) : outcome kstate :=
  let mm_step := 12 in
  let shuffle := _mm_setr_epi8 shuffle_bgr24 in
  let opaque := _mm_setr_epi8 opaque_argb in
  let '(so, do, dst) := s in
  bgr <- _mm_lddqu_si128 src so ;;
  let argb := _mm_shuffle_epi8 bgr shuffle in  (* SSSE3. No alternative in SSE2 *)
  let out := _mm_or_si128 argb opaque in
  dst' <- _mm_storeu_si128 dst do out ;;
  Done (so + mm_step, do + 4 * 4, dst').

Definition _openslide_bgr24_to_argb32_ssse3 (src : list Z) (src_len : Z)
           (dst : list Z) : outcome (list Z) :=
  (* four 24-bits pixels a time *)
  let mm_step := 12 in
  (* Decrease mm_len by 1 so that the last read is still 16 bytes inside
     source buffer. *)
  let mm_len := wrap64 (src_len / mm_step - 1) in
  s <- for_lt (Z.to_nat mm_len) 0 mm_len 1 (bgr24_ssse3_step src) (0, 0, dst) ;;
  '(_, _, dst') <- for_lt (Z.to_nat src_len) (wrap64 (mm_len * mm_step))
                     src_len 3 (bgr24_pixel src) s ;;
  Done dst'.

Definition restore_sse3_step (src : list Z) (s : rstate) : outcome rstate :=
  let mm_step := 16 in
  let '(slo, shi, p, dst) := s in
  vlo <- _mm_lddqu_si128 src slo ;;   (* SSE3 *)
  vhi <- _mm_lddqu_si128 src shi ;;
  let tmp := _mm_unpacklo_epi8 vlo vhi in
  dst <- _mm_storeu_si128 dst p tmp ;;
  let p := p + mm_step in
  let tmp := _mm_unpackhi_epi8 vlo vhi in
  dst <- _mm_storeu_si128 dst p tmp ;;
  let p := p + mm_step in
  Done (slo + mm_step, shi + mm_step, p, dst).

Definition _openslide_restore_czi_zstd1_sse3 (src : list Z) (src_len : Z)
           (dst : list Z) : outcome (list Z) :=
  let half_len := src_len / 2 in
  let mm_step := 16 in
  let len_mm := half_len / mm_step in
  let len_remain := half_len mod mm_step in
  s <- for_lt (Z.to_nat len_mm) 0 len_mm 1 (restore_sse3_step src)
         (0, half_len, 0, dst) ;;
  '(_, _, _, dst') <- for_lt (Z.to_nat len_remain) 0 len_remain 1
                        (restore_byte_pair src) s ;;
  Done dst'.

Definition hi8_mask : list Z :=
  [1; 3; 5; 7; 9; 11; 13; 15; -1; -1; -1; -1; -1; -1; -1; -1].
Definition lo8_mask : list Z :=
  [0; 2; 4; 6; 8; 10; 12; 14; -1; -1; -1; -1; -1; -1; -1; -1].

(** The CPU the code runs on, as the set of features it supports.  An
    instruction of a feature the CPU lacks is an invalid opcode. *)
Definition cpu_t : Type := string -> bool.

Definition needs (cpu : cpu_t) (feature : string) : outcome unit :=
  if cpu feature then Done tt else Fault.

Definition cpu_with_all : cpu_t := fun _ => true.

(** The Gray16 kernel below is the one kernel whose dispatcher tests
    another feature than the one its code uses, and the one kernel with
    an aligned load: the CPU and the address of [src] are arguments of
    its model. *)
Definition gray16_sse2_step (cpu : cpu_t) (src_addr : Z)
           (src : list Z) (nshift : Z) (s : kstate)
  : outcome kstate :=
  let mm_step := 16 in
  let hi8 := _mm_setr_epi8 hi8_mask in
  let lo8 := _mm_setr_epi8 lo8_mask in
  let allzero := _mm_set_epi64x 0 0 in
  let '(so, do, dst) := s in
  gray16 <- _mm_load_si128 src_addr src so ;;
  let tmp2 := _mm_srli_epi16 gray16 nshift in
  _ <- needs cpu "ssse3" ;;      (* PSHUFB is an SSSE3 instruction *)
  let gray8 := _mm_shuffle_epi8 tmp2 lo8 in
  (* check after right shift, whether the high 8 bits are non-zero *)
  let tmp1 := _mm_shuffle_epi8 tmp2 hi8 in
  (* 0xFF if high 8 bits is non-zero, 0 otherwise *)
  let tmp2 := _mm_cmpgt_epi8 tmp1 allzero in
  let tmp1 := _mm_or_si128 tmp2 gray8 in
  dst' <- _mm_storeu_si128 dst do tmp1 ;;
  Done (so + mm_step, do + 8, dst').

Definition _openslide_gray16_to_gray8_sse2 (cpu : cpu_t) (src_addr : Z)
           (src : list Z) (src_len : Z)
           (pixel_real_bits : Z) (dst : list Z) : outcome (list Z) :=
  (* eight 16-bits pixels a time *)
  let nshift := pixel_real_bits - 8 in
  let mm_step := 16 in
  (* Decrease mm_len by 1 so that the last write is still 16 bytes inside
     dst buffer. *)
  let mm_len := wrap64 (src_len / mm_step - 1) in
  s <- for_lt (Z.to_nat mm_len) 0 mm_len 1
         (gray16_sse2_step cpu src_addr src nshift) (0, 0, dst) ;;
  '(_, _, dst') <- for_lt (Z.to_nat src_len) (wrap64 (mm_len * mm_step))
                     src_len 2 (gray16_pixel src nshift) s ;;
  Done dst'.

(** *** AVX2 kernels (openslide-image-avx2.c) *)

Definition bgr24_avx2_step (src : list Z) (s : kstate) : outcome kstate :=
  let mm_step := 24 in
  let shuffle := _mm256_setr_epi8 (shuffle_bgr24 ++ shuffle_bgr24) in
  let opaque := _mm256_setr_epi8 (opaque_argb ++ opaque_argb) in
  let '(so, do, dst) := s in
  (* Load 16 bytes into lower and upper lane of an AVX2 register. *)
  lo <- _mm_loadu_si128 src so ;;
  hi <- _mm_loadu_si128 src (so + 12) ;;
  let bgr := _mm256_setr_m128i lo hi in
  let argb := _mm256_shuffle_epi8 bgr shuffle in
  let out := _mm256_or_si256 argb opaque in   (* change alpha to 255 *)
  dst' <- _mm256_storeu_si256 dst do out ;;
  Done (so + mm_step, do + 4 * 8, dst').

Definition _openslide_bgr24_to_argb32_avx2 (src : list Z) (src_len : Z)
           (dst : list Z) : outcome (list Z) :=
  (* eight 24-bits pixels a time *)
  let mm_step := 24 in
  let mm_len := wrap64 (src_len / mm_step - 1) in
  s <- for_lt (Z.to_nat mm_len) 0 mm_len 1 (bgr24_avx2_step src) (0, 0, dst) ;;
  '(_, _, dst') <- for_lt (Z.to_nat src_len) (wrap64 (mm_len * mm_step))
                     src_len 3 (bgr24_pixel src) s ;;
  Done dst'.

Definition restore_avx2_step (src : list Z) (s : rstate) : outcome rstate :=
  let mm_step := 32 in
  let '(slo, shi, p, dst) := s in
  vlo <- _mm256_lddqu_si256 src slo ;;
  vhi <- _mm256_lddqu_si256 src shi ;;
  let tmp1 := _mm256_unpacklo_epi8 vlo vhi in  (* [Aa-mix Cc-mix] *)
  let tmp2 := _mm256_unpackhi_epi8 vlo vhi in  (* [Bb-mix Dd-mix] *)
  let out := _mm256_permute2x128_si256 tmp1 tmp2 32 in  (* 0x20: [Aa-mix Bb-mix] *)
  dst <- _mm256_storeu_si256 dst p out ;;
  let p := p + mm_step in
  let out := _mm256_permute2x128_si256 tmp1 tmp2 49 in  (* 0x31: [Cc-mix Dd-mix] *)
  dst <- _mm256_storeu_si256 dst p out ;;
  let p := p + mm_step in
  Done (slo + mm_step, shi + mm_step, p, dst).

Definition _openslide_restore_czi_zstd1_avx2 (src : list Z) (src_len : Z)
           (dst : list Z) : outcome (list Z) :=
  let half_len := src_len / 2 in
  let mm_step := 32 in
  let len_mm := half_len / mm_step in
  let len_remain := half_len mod mm_step in
  s <- for_lt (Z.to_nat len_mm) 0 len_mm 1 (restore_avx2_step src)
         (0, half_len, 0, dst) ;;
  '(_, _, _, dst') <- for_lt (Z.to_nat len_remain) 0 len_remain 1
                        (restore_byte_pair src) s ;;
  Done dst'.

Definition gray16_avx2_step (src : list Z) (nshift : Z) (s : kstate)
  : outcome kstate :=
  let mm_step := 32 in
  let hi8 := _mm256_setr_epi8 (hi8_mask ++ hi8_mask) in
  let lo8 := _mm256_setr_epi8 (lo8_mask ++ lo8_mask) in
  let allzero := _mm256_set_epi64x 0 0 0 0 in
  let '(so, do, dst) := s in
  tmp1 <- _mm256_lddqu_si256 src so ;;              (* gray16 *)
  let tmp2 := _mm256_srli_epi16 tmp1 nshift in      (* right shift *)
  let gray8 := _mm256_shuffle_epi8 tmp2 lo8 in      (* bits 0-7 of gray16 *)
  let tmp1 := _mm256_shuffle_epi8 tmp2 hi8 in       (* bits 8-15 of gray16 *)
  let tmp2 := _mm256_cmpgt_epi8 tmp1 allzero in
  let tmp1 := _mm256_or_si256 tmp2 gray8 in
  let tmp2 := _mm256_permute4x64_epi64 tmp1 8 in    (* 0x08 *)
  dst' <- _mm256_storeu_si256 dst do tmp2 ;;
  Done (so + mm_step, do + 16, dst').

Definition _openslide_gray16_to_gray8_avx2 (src : list Z) (src_len : Z)
           (pixel_real_bits : Z) (dst : list Z) : outcome (list Z) :=
  (* sixteen 16-bits pixels a time *)
  let nshift := pixel_real_bits - 8 in
  let mm_step := 32 in
  let mm_len := wrap64 (src_len / mm_step - 1) in
  s <- for_lt (Z.to_nat mm_len) 0 mm_len 1 (gray16_avx2_step src nshift)
         (0, 0, dst) ;;
  '(_, _, dst') <- for_lt (Z.to_nat src_len) (wrap64 (mm_len * mm_step))
                     src_len 2 (gray16_pixel src nshift) s ;;
  Done dst'.

(** *** NEON kernels (openslide-image.c) *)

Definition shuffle_bgr24_argb32_arr : list Z :=
  [0; 1; 2; 255; 3; 4; 5; 255; 6; 7; 8; 255; 9; 10; 11; 255].
Definition opaque_arr : list Z :=
  [0; 0; 0; 255; 0; 0; 0; 255; 0; 0; 0; 255; 0; 0; 0; 255].

Definition bgr24_neon_step (src : list Z) (s : kstate) : outcome kstate :=
  let mm_step := 12 in
  let shuffle := shuffle_bgr24_argb32_arr in
  let opaque := opaque_arr in
  let '(so, do, dst) := s in
  bgr <- vld1q_u8 src so ;;
  let argb := vqtbl1q_u8 bgr shuffle in
  let out := vorrq_u8 argb opaque in
  dst' <- vst1q_u8 dst do out ;;
  Done (so + mm_step, do + 4 * 4, dst').

Definition bgr24_to_argb32_neon (src : list Z) (src_len : Z) (dst : list Z)
  : outcome (list Z) :=
  (* four 24-bits pixels a time *)
  let mm_step := 12 in
  let mm_len := wrap64 (src_len / mm_step - 1) in
  s <- for_lt (Z.to_nat mm_len) 0 mm_len 1 (bgr24_neon_step src) (0, 0, dst) ;;
  '(_, _, dst') <- for_lt (Z.to_nat src_len) (wrap64 (mm_len * mm_step))
                     src_len 3 (bgr24_pixel src) s ;;
  Done dst'.

Definition restore_neon_step (src : list Z) (s : rstate) : outcome rstate :=
  let mm_step := 16 in
  let '(slo, shi, p, dst) := s in
  vlo <- vld1q_u8 src slo ;;
  vhi <- vld1q_u8 src shi ;;
  let tmp := vzip1q_u8 vlo vhi in   (* lower half of vlo and vhi *)
  dst <- vst1q_u8 dst p tmp ;;
  let p := p + mm_step in
  let tmp := vzip2q_u8 vlo vhi in   (* upper half of vlo and vhi *)
  dst <- vst1q_u8 dst p tmp ;;
  let p := p + mm_step in
  Done (slo + mm_step, shi + mm_step, p, dst).

Definition restore_czi_zstd1_neon (src : list Z) (src_len : Z) (dst : list Z)
  : outcome (list Z) :=
  let half_len := src_len / 2 in
  let mm_step := 16 in
  let len_mm := half_len / mm_step in
  let len_remain := half_len mod mm_step in
  s <- for_lt (Z.to_nat len_mm) 0 len_mm 1 (restore_neon_step src)
         (0, half_len, 0, dst) ;;
  '(_, _, _, dst') <- for_lt (Z.to_nat len_remain) 0 len_remain 1
                        (restore_byte_pair src) s ;;
  Done dst'.

(** *** The kernels on small inputs *)

Definition ramp (n : nat) : list Z := map (fun k => (7 * k + 3) mod 256) (iota 0 n).

Example bgr24_generic_27 :
  bgr24_to_argb32_generic (ramp 27) 27 (repeat 0 36) =
  Done [3; 10; 17; 255; 24; 31; 38; 255; 45; 52; 59; 255; 66; 73; 80; 255;
        87; 94; 101; 255; 108; 115; 122; 255; 129; 136; 143; 255;
        150; 157; 164; 255; 171; 178; 185; 255].
Proof. vm_compute. reflexivity. Qed.

Example bgr24_variants_27 :
  _openslide_bgr24_to_argb32_ssse3 (ramp 27) 27 (repeat 0 36) =
  bgr24_to_argb32_generic (ramp 27) 27 (repeat 0 36) /\
  bgr24_to_argb32_neon (ramp 27) 27 (repeat 0 36) =
  bgr24_to_argb32_generic (ramp 27) 27 (repeat 0 36) /\
  _openslide_bgr24_to_argb32_avx2 (ramp 51) 51 (repeat 0 68) =
  bgr24_to_argb32_generic (ramp 51) 51 (repeat 0 68).
Proof. repeat split; vm_compute; reflexivity. Qed.

Example restore_variants_70 :
  _openslide_restore_czi_zstd1_sse3 (ramp 70) 70 (repeat 0 70) =
  restore_czi_zstd1_generic (ramp 70) 70 (repeat 0 70) /\
  _openslide_restore_czi_zstd1_avx2 (ramp 70) 70 (repeat 0 70) =
  restore_czi_zstd1_generic (ramp 70) 70 (repeat 0 70) /\
  restore_czi_zstd1_neon (ramp 70) 70 (repeat 0 70) =
  restore_czi_zstd1_generic (ramp 70) 70 (repeat 0 70).
Proof. repeat split; vm_compute; reflexivity. Qed.

Example gray16_variants_70 :
  _openslide_gray16_to_gray8_sse2 cpu_with_all 0 (ramp 70) 70 14 (repeat 0 35) =
  gray16_to_gray8_generic (ramp 70) 70 14 (repeat 0 35) /\
  _openslide_gray16_to_gray8_avx2 (ramp 70) 70 14 (repeat 0 35) =
  gray16_to_gray8_generic (ramp 70) 70 14 (repeat 0 35).
Proof. repeat split; vm_compute; reflexivity. Qed.

(** *** Inputs shorter than one vector step *)

(** The loop count [src_len / mm_step - 1] of a buffer shorter than
    [mm_step] bytes: the [size_t] subtraction wraps. *)
Lemma mm_len_underflow (src_len mm_step : Z) :
  0 <= src_len < mm_step ->
  wrap64 (src_len / mm_step - 1) = 18446744073709551615.
Proof.
  intros H. rewrite Z.div_small by lia. reflexivity.
Qed.

Lemma huge_fuel : Z.to_nat 18446744073709551615 <> 0%nat.
Proof. lia. Qed.

Section Underflow.

Variables (src dst : list Z).
Let src_len := Z.of_nat (List.length src).

Lemma bgr24_ssse3_underflow :
  src_len < 12 -> _openslide_bgr24_to_argb32_ssse3 src src_len dst = Fault.
Proof.
  intros H. unfold _openslide_bgr24_to_argb32_ssse3. cbv zeta.
  rewrite (mm_len_underflow src_len 12) by (unfold src_len in *; lia).
  rewrite for_lt_faults; [reflexivity|apply huge_fuel|lia|].
  unfold bgr24_ssse3_step, _mm_lddqu_si128. cbv zeta.
  rewrite load_faults by (fold src_len; lia). reflexivity.
Qed.

Lemma bgr24_neon_underflow :
  src_len < 12 -> bgr24_to_argb32_neon src src_len dst = Fault.
Proof.
  intros H. unfold bgr24_to_argb32_neon. cbv zeta.
  rewrite (mm_len_underflow src_len 12) by (unfold src_len in *; lia).
  rewrite for_lt_faults; [reflexivity|apply huge_fuel|lia|].
  unfold bgr24_neon_step, vld1q_u8. cbv zeta.
  rewrite load_faults by (fold src_len; lia). reflexivity.
Qed.

Lemma bgr24_avx2_underflow :
  src_len < 16 -> _openslide_bgr24_to_argb32_avx2 src src_len dst = Fault.
Proof.
  intros H. unfold _openslide_bgr24_to_argb32_avx2. cbv zeta.
  rewrite (mm_len_underflow src_len 24) by (unfold src_len in *; lia).
  rewrite for_lt_faults; [reflexivity|apply huge_fuel|lia|].
  unfold bgr24_avx2_step, _mm_loadu_si128. cbv zeta.
  rewrite load_faults by (fold src_len; lia). reflexivity.
Qed.

Lemma gray16_sse2_underflow (cpu : cpu_t) (src_addr pixel_real_bits : Z) :
  src_len < 16 ->
  _openslide_gray16_to_gray8_sse2 cpu src_addr src src_len pixel_real_bits dst
  = Fault.
Proof.
  intros H. unfold _openslide_gray16_to_gray8_sse2. cbv zeta.
  rewrite (mm_len_underflow src_len 16) by (unfold src_len in *; lia).
  rewrite for_lt_faults; [reflexivity|apply huge_fuel|lia|].
  unfold gray16_sse2_step, _mm_load_si128. cbv zeta.
  rewrite load_faults by (fold src_len; lia).
  destruct ((src_addr + 0) mod 16 =? 0); reflexivity.
Qed.

Lemma gray16_avx2_underflow (pixel_real_bits : Z) :
  src_len < 32 ->
  _openslide_gray16_to_gray8_avx2 src src_len pixel_real_bits dst = Fault.
Proof.
  intros H. unfold _openslide_gray16_to_gray8_avx2. cbv zeta.
  rewrite (mm_len_underflow src_len 32) by (unfold src_len in *; lia).
  rewrite for_lt_faults; [reflexivity|apply huge_fuel|lia|].
  unfold gray16_avx2_step, _mm256_lddqu_si256. cbv zeta.
  rewrite load_faults by (fold src_len; lia). reflexivity.
Qed.

End Underflow.

(** C1 fails on the empty buffer and on a buffer shorter than one vector
    step.  The scalar BGR24 kernel writes nothing for the empty buffer and
    one pixel for three bytes; in the SSSE3, AVX2 and NEON kernels (and in
    the SSE2 and AVX2 Gray16 kernels) the loop count [src_len / mm_step - 1]
    wraps to 2^64 - 1 and the first vector load is outside the source
    buffer.  For the SSE2 Gray16 kernel this holds on every CPU and at
    every address of the buffer. *)
Theorem vector_kernels_fault_on_short_input :
  bgr24_to_argb32_generic [] 0 [] = Done []
  /\ _openslide_bgr24_to_argb32_ssse3 [] 0 [] = Fault
  /\ _openslide_bgr24_to_argb32_avx2 [] 0 [] = Fault
  /\ bgr24_to_argb32_neon [] 0 [] = Fault
  /\ bgr24_to_argb32_generic [1; 2; 3] 3 [0; 0; 0; 0] = Done [1; 2; 3; 255]
  /\ _openslide_bgr24_to_argb32_ssse3 [1; 2; 3] 3 [0; 0; 0; 0] = Fault
  /\ _openslide_bgr24_to_argb32_avx2 [1; 2; 3] 3 [0; 0; 0; 0] = Fault
  /\ bgr24_to_argb32_neon [1; 2; 3] 3 [0; 0; 0; 0] = Fault
  /\ gray16_to_gray8_generic [52; 18] 2 16 [0] = Done [18]
  /\ (forall (cpu : cpu_t) (src_addr : Z),
         _openslide_gray16_to_gray8_sse2 cpu src_addr [52; 18] 2 16 [0]
         = Fault)
  /\ _openslide_gray16_to_gray8_avx2 [52; 18] 2 16 [0] = Fault.
Proof.
  repeat split;
    first [ apply (bgr24_ssse3_underflow [] []); simpl; lia
          | apply (bgr24_avx2_underflow [] []); simpl; lia
          | apply (bgr24_neon_underflow [] []); simpl; lia
          | apply (bgr24_ssse3_underflow [1; 2; 3]); simpl; lia
          | apply (bgr24_avx2_underflow [1; 2; 3]); simpl; lia
          | apply (bgr24_neon_underflow [1; 2; 3]); simpl; lia
          | intros cpu src_addr;
            apply (gray16_sse2_underflow [52; 18]); simpl; lia
          | apply (gray16_avx2_underflow [52; 18]); simpl; lia
          | vm_compute; reflexivity ].
Qed.

(** *** Byte-plane restore: every variant interleaves the two planes *)

Lemma interleave_app {A : Type} (a1 a2 b1 b2 : list A) :
  List.length a1 = List.length b1 ->
  interleave (a1 ++ a2) (b1 ++ b2) = interleave a1 b1 ++ interleave a2 b2.
Proof.
  revert b1. induction a1 as [|x a1 IH]; intros [|y b1] H; simpl in *;
    try discriminate; [reflexivity|].
  now rewrite IH by lia.
Qed.

Lemma interleave_length {A : Type} (a b : list A) :
  List.length a = List.length b ->
  List.length (interleave a b) = (2 * List.length a)%nat.
Proof.
  revert b. induction a as [|x a IH]; intros [|y b] H; simpl in *;
    try discriminate; [reflexivity|].
  rewrite IH by lia. lia.
Qed.

(** The two planes of [src] from the offsets [slo] and [shi], [n] bytes
    each, interleaved. *)
Definition zipped (src : list Z) (slo shi : Z) (n : nat) : list Z :=
  interleave (firstn n (skipn (Z.to_nat slo) src))
             (firstn n (skipn (Z.to_nat shi) src)).

Lemma zipped_length (src : list Z) (slo shi : Z) (n : nat) :
  0 <= slo -> 0 <= shi ->
  slo + Z.of_nat n <= Z.of_nat (List.length src) ->
  shi + Z.of_nat n <= Z.of_nat (List.length src) ->
  List.length (zipped src slo shi n) = (2 * n)%nat.
Proof.
  intros. unfold zipped.
  rewrite interleave_length; rewrite !length_firstn, !length_skipn; lia.
Qed.

Lemma zipped_plus (src : list Z) (slo shi : Z) (a b : nat) :
  0 <= slo -> 0 <= shi ->
  slo + Z.of_nat a <= Z.of_nat (List.length src) ->
  shi + Z.of_nat a <= Z.of_nat (List.length src) ->
  zipped src slo shi (a + b) =
  zipped src slo shi a ++ zipped src (slo + Z.of_nat a) (shi + Z.of_nat a) b.
Proof.
  intros. unfold zipped. rewrite !firstn_plus.
  rewrite interleave_app by (rewrite !length_firstn, !length_skipn; lia).
  rewrite <- !skipn_plus.
  replace (Z.to_nat (slo + Z.of_nat a)) with (Z.to_nat slo + a)%nat by lia.
  replace (Z.to_nat (shi + Z.of_nat a)) with (Z.to_nat shi + a)%nat by lia.
  reflexivity.
Qed.

Lemma rstate_eq (a a' b b' c c' : Z) (d d' : list Z) :
  a = a' -> b = b' -> c = c' -> d = d' ->
  @Done rstate (a, b, c, d) = Done (a', b', c', d').
Proof. intros; subst; reflexivity. Qed.

Section RestoreBlocks.

Variable src : list Z.

(** A loop body that restores [B] byte pairs per iteration. *)
Definition restores_block (B : nat) (step : rstate -> outcome rstate) : Prop :=
  forall (slo shi : Z) (done rest : list Z),
    0 <= slo -> 0 <= shi ->
    slo + Z.of_nat B <= Z.of_nat (List.length src) ->
    shi + Z.of_nat B <= Z.of_nat (List.length src) ->
    (2 * B <= List.length rest)%nat ->
    step (slo, shi, Z.of_nat (List.length done), done ++ rest) =
    Done (slo + Z.of_nat B, shi + Z.of_nat B,
          Z.of_nat (List.length done) + 2 * Z.of_nat B,
          done ++ zipped src slo shi B ++ skipn (2 * B) rest).

Lemma blocks_iterate (B : nat) (step : rstate -> outcome rstate) :
  restores_block B step ->
  forall (m : nat) (slo shi : Z) (done rest : list Z),
    0 <= slo -> 0 <= shi ->
    slo + Z.of_nat (m * B) <= Z.of_nat (List.length src) ->
    shi + Z.of_nat (m * B) <= Z.of_nat (List.length src) ->
    (2 * (m * B) <= List.length rest)%nat ->
    iterate m step (slo, shi, Z.of_nat (List.length done), done ++ rest) =
    Done (slo + Z.of_nat (m * B), shi + Z.of_nat (m * B),
          Z.of_nat (List.length done) + 2 * Z.of_nat (m * B),
          done ++ zipped src slo shi (m * B) ++ skipn (2 * (m * B)) rest).
Proof.
  intros Hstep. induction m as [|m IH]; intros slo shi done rest H1 H2 H3 H4 H5.
  - cbn [iterate Nat.mul]. unfold zipped. cbn [firstn interleave skipn app].
    apply rstate_eq; try lia. reflexivity.
  - cbn [iterate]. rewrite Hstep by lia. cbn [bind].
    assert (Hz : List.length (zipped src slo shi B) = (2 * B)%nat)
      by (apply zipped_length; lia).
    replace (Z.of_nat (List.length done) + 2 * Z.of_nat B)
      with (Z.of_nat (List.length (done ++ zipped src slo shi B)))
      by (rewrite length_app, Hz; lia).
    rewrite (app_assoc done). rewrite IH; try lia.
    2:{ rewrite length_skipn. lia. }
    rewrite length_app, Hz.
    replace (S m * B)%nat with (B + m * B)%nat by lia.
    rewrite (zipped_plus src slo shi B (m * B)) by lia.
    rewrite <- !app_assoc, <- skipn_plus.
    clear. generalize (m * B)%nat. intros k.
    apply rstate_eq; try lia. do 3 f_equal. f_equal. lia.
Qed.

Lemma byte_pair_block : restores_block 1 (restore_byte_pair src).
Proof.
  intros slo shi done rest H1 H2 H3 H4 H5.
  unfold restore_byte_pair.
  rewrite (load_ok src slo 1) by lia.
  cbn [bind].
  destruct (skipn (Z.to_nat slo) src) as [|x l1] eqn:E1.
  { apply (f_equal (@List.length Z)) in E1. rewrite length_skipn in E1.
    simpl in E1. lia. }
  change (firstn (Z.to_nat 1) (x :: l1)) with [x].
  rewrite (store_app done rest [x]) by (simpl; lia || reflexivity).
  cbn [bind]. rewrite (load_ok src shi 1) by lia. cbn [bind].
  destruct (skipn (Z.to_nat shi) src) as [|y l2] eqn:E2.
  { apply (f_equal (@List.length Z)) in E2. rewrite length_skipn in E2.
    simpl in E2. lia. }
  change (firstn (Z.to_nat 1) (y :: l2)) with [y].
  destruct rest as [|r0 [|r1 rest]]; try (simpl in H5; lia).
  cbn [List.length skipn app].
  replace (done ++ x :: r1 :: rest) with ((done ++ [x]) ++ r1 :: rest)
    by (rewrite <- app_assoc; reflexivity).
  rewrite (store_app (done ++ [x]) (r1 :: rest) [y])
    by (rewrite ?length_app; simpl; lia).
  cbn [bind]. unfold zipped. rewrite E1, E2.
  cbn [firstn interleave List.length skipn app Nat.mul Nat.add].
  rewrite <- app_assoc. cbn [app].
  apply rstate_eq; try lia. reflexivity.
Qed.

End RestoreBlocks.

(** Name the elements of a list whose length is known. *)
Ltac explode l H :=
  repeat (destruct l as [|? l]; [exfalso; simpl in H; lia|]);
  destruct l; [|exfalso; simpl in H; lia]; clear H.

Section RestoreVectorSteps.

Variable src : list Z.

Lemma plane_chunk_length (off : Z) (n : nat) :
  0 <= off -> off + Z.of_nat n <= Z.of_nat (List.length src) ->
  List.length (firstn n (skipn (Z.to_nat off) src)) = n.
Proof. intros. rewrite length_firstn, length_skipn. lia. Qed.

(** Two stores of 16 (or 32) bytes, one after the other. *)
Lemma store_twice (done rest a b : list Z) (n : nat) (k : Z) :
  List.length a = n -> List.length b = n -> k = Z.of_nat n ->
  (2 * n <= List.length rest)%nat ->
  exists d,
    store (done ++ rest) (Z.of_nat (List.length done)) a = Done d /\
    store d (Z.of_nat (List.length done) + k) b =
    Done (done ++ (a ++ b) ++ skipn (2 * n) rest).
Proof.
  intros Ha Hb -> Hr. rewrite store_app by lia.
  eexists. split; [reflexivity|].
  rewrite (app_assoc done a).
  rewrite store_app; rewrite ?length_app, ?length_skipn; try lia.
  rewrite <- skipn_plus, <- !app_assoc, Ha, Hb.
  replace (n + n)%nat with (2 * n)%nat by lia. reflexivity.
Qed.

(** What the unpack and zip instructions of one iteration produce. *)
Lemma unpack_sse3 (vlo vhi : list Z) :
  List.length vlo = 16%nat -> List.length vhi = 16%nat ->
  List.length (_mm_unpacklo_epi8 vlo vhi) = 16%nat /\
  List.length (_mm_unpackhi_epi8 vlo vhi) = 16%nat /\
  _mm_unpacklo_epi8 vlo vhi ++ _mm_unpackhi_epi8 vlo vhi = interleave vlo vhi.
Proof.
  intros Hlo Hhi. explode vlo Hlo. explode vhi Hhi.
  repeat split; reflexivity.
Qed.

Lemma zip_neon (vlo vhi : list Z) :
  List.length vlo = 16%nat -> List.length vhi = 16%nat ->
  List.length (vzip1q_u8 vlo vhi) = 16%nat /\
  List.length (vzip2q_u8 vlo vhi) = 16%nat /\
  vzip1q_u8 vlo vhi ++ vzip2q_u8 vlo vhi = interleave vlo vhi.
Proof. exact (unpack_sse3 vlo vhi). Qed.

Lemma unpack_avx2 (vlo vhi : list Z) :
  List.length vlo = 32%nat -> List.length vhi = 32%nat ->
  let tmp1 := _mm256_unpacklo_epi8 vlo vhi in
  let tmp2 := _mm256_unpackhi_epi8 vlo vhi in
  List.length (_mm256_permute2x128_si256 tmp1 tmp2 32) = 32%nat /\
  List.length (_mm256_permute2x128_si256 tmp1 tmp2 49) = 32%nat /\
  _mm256_permute2x128_si256 tmp1 tmp2 32 ++
  _mm256_permute2x128_si256 tmp1 tmp2 49 = interleave vlo vhi.
Proof.
  intros Hlo Hhi. explode vlo Hlo. explode vhi Hhi.
  repeat split; reflexivity.
Qed.

Lemma sse3_block : restores_block src 16 (restore_sse3_step src).
Proof.
  intros slo shi done rest H1 H2 H3 H4 H5.
  unfold restore_sse3_step, _mm_lddqu_si128, _mm_storeu_si128. cbv zeta.
  rewrite (load_ok src slo 16), (load_ok src shi 16) by lia. cbn [bind].
  unfold zipped. change (Z.to_nat 16) with 16%nat.
  pose proof (plane_chunk_length slo 16 H1 H3) as Hlo.
  pose proof (plane_chunk_length shi 16 H2 H4) as Hhi.
  set (vlo := firstn 16 (skipn (Z.to_nat slo) src)) in *.
  set (vhi := firstn 16 (skipn (Z.to_nat shi) src)) in *.
  destruct (unpack_sse3 vlo vhi Hlo Hhi) as (La & Lb & <-).
  destruct (store_twice done rest _ _ 16 16 La Lb eq_refl H5) as (d & -> & Hd).
  cbn [bind]. rewrite Hd. cbn [bind].
  apply rstate_eq; try lia. reflexivity.
Qed.

Lemma neon_block : restores_block src 16 (restore_neon_step src).
Proof.
  intros slo shi done rest H1 H2 H3 H4 H5.
  unfold restore_neon_step, vld1q_u8, vst1q_u8. cbv zeta.
  rewrite (load_ok src slo 16), (load_ok src shi 16) by lia. cbn [bind].
  unfold zipped. change (Z.to_nat 16) with 16%nat.
  pose proof (plane_chunk_length slo 16 H1 H3) as Hlo.
  pose proof (plane_chunk_length shi 16 H2 H4) as Hhi.
  set (vlo := firstn 16 (skipn (Z.to_nat slo) src)) in *.
  set (vhi := firstn 16 (skipn (Z.to_nat shi) src)) in *.
  destruct (zip_neon vlo vhi Hlo Hhi) as (La & Lb & <-).
  destruct (store_twice done rest _ _ 16 16 La Lb eq_refl H5) as (d & -> & Hd).
  cbn [bind]. rewrite Hd. cbn [bind].
  apply rstate_eq; try lia. reflexivity.
Qed.

Lemma avx2_block : restores_block src 32 (restore_avx2_step src).
Proof.
  intros slo shi done rest H1 H2 H3 H4 H5.
  unfold restore_avx2_step, _mm256_lddqu_si256, _mm256_storeu_si256. cbv zeta.
  rewrite (load_ok src slo 32), (load_ok src shi 32) by lia. cbn [bind].
  unfold zipped. change (Z.to_nat 32) with 32%nat.
  pose proof (plane_chunk_length slo 32 H1 H3) as Hlo.
  pose proof (plane_chunk_length shi 32 H2 H4) as Hhi.
  set (vlo := firstn 32 (skipn (Z.to_nat slo) src)) in *.
  set (vhi := firstn 32 (skipn (Z.to_nat shi) src)) in *.
  destruct (unpack_avx2 vlo vhi Hlo Hhi) as (La & Lb & <-).
  destruct (store_twice done rest _ _ 32 32 La Lb eq_refl H5) as (d & -> & Hd).
  cbn [bind]. rewrite Hd. cbn [bind].
  apply rstate_eq; try lia. reflexivity.
Qed.

End RestoreVectorSteps.

Section RestoreKernels.

Variables (src dst : list Z).
Let src_len := Z.of_nat (List.length src).
Let half_len := src_len / 2.

Hypothesis src_addressable : src_len < 2 ^ 63.
Hypothesis dst_fits : 2 * half_len <= Z.of_nat (List.length dst).

(** The destination every variant leaves: the two halves of [src]
    interleaved, then the rest of [dst]. *)
Definition restored (src dst : list Z) : list Z :=
  let half := (List.length src / 2)%nat in
  interleave (firstn half src) (firstn half (skipn half src))
  ++ skipn (2 * half) dst.

Lemma half_len_nat : Z.to_nat half_len = (List.length src / 2)%nat.
Proof.
  unfold half_len, src_len.
  rewrite <- (Nat2Z.id (List.length src / 2)). f_equal.
  rewrite Nat2Z.inj_div. reflexivity.
Qed.

Lemma half_len_bounds : 0 <= half_len /\ 2 * half_len <= src_len.
Proof.
  unfold half_len. pose proof (Z.mul_div_le src_len 2).
  assert (0 <= src_len / 2) by (apply Z.div_pos; unfold src_len; lia).
  lia.
Qed.

Lemma zipped_restored :
  zipped src 0 half_len (Z.to_nat half_len) ++ skipn (2 * Z.to_nat half_len) dst
  = restored src dst.
Proof.
  unfold zipped, restored. rewrite half_len_nat. cbv zeta. reflexivity.
Qed.

(** A vector loop of [half_len / B] blocks followed by the scalar loop
    over the [half_len % B] remaining pairs. *)
Lemma vector_restore (B : nat) (step : rstate -> outcome rstate) :
  (0 < B)%nat -> restores_block src B step ->
  (s <- for_lt (Z.to_nat (half_len / Z.of_nat B)) 0 (half_len / Z.of_nat B) 1
          step (0, half_len, 0, dst) ;;
   '(_, _, _, dst') <- for_lt (Z.to_nat (half_len mod Z.of_nat B)) 0
                         (half_len mod Z.of_nat B) 1
                         (restore_byte_pair src) s ;;
   Done dst') = Done (restored src dst).
Proof.
  intros HB Hstep.
  pose proof half_len_bounds as [Hh0 Hh1].
  assert (Hq : 0 <= half_len / Z.of_nat B) by (apply Z.div_pos; lia).
  assert (Hr : 0 <= half_len mod Z.of_nat B < Z.of_nat B)
    by (apply Z.mod_pos_bound; lia).
  assert (Hdiv : half_len = Z.of_nat B * (half_len / Z.of_nat B)
                            + half_len mod Z.of_nat B)
    by (apply Z.div_mod; lia).
  set (m := Z.to_nat (half_len / Z.of_nat B)) in *.
  set (r := Z.to_nat (half_len mod Z.of_nat B)) in *.
  assert (Hm : half_len / Z.of_nat B = Z.of_nat m) by lia.
  assert (Hr' : half_len mod Z.of_nat B = Z.of_nat r) by lia.
  rewrite Hm, Hr' in *.
  assert (Hsum : Z.of_nat (m * B + r) = half_len) by lia.
  assert (Hmb : Z.of_nat (m * B) <= half_len) by lia.
  rewrite (for_lt_iterate (Z.of_nat m) 1 step m m 0); try lia.
  change (0, half_len, 0, dst)
    with (0, half_len, Z.of_nat (List.length (@nil Z)), [] ++ dst).
  rewrite (blocks_iterate src B step Hstep m); try lia.
  cbn [bind].
  rewrite (for_lt_iterate (Z.of_nat r) 1 (restore_byte_pair src) r r 0);
    try lia.
  cbn [List.length app]. change (Z.of_nat 0) with 0.
  assert (Hz : List.length (zipped src 0 half_len (m * B)) = (2 * (m * B))%nat)
    by (apply zipped_length; lia).
  replace (0 + 2 * Z.of_nat (m * B))
    with (Z.of_nat (List.length (zipped src 0 half_len (m * B))))
    by (rewrite Hz; lia).
  rewrite (blocks_iterate src 1 (restore_byte_pair src) (byte_pair_block src) r);
    rewrite ?length_skipn; try lia.
  cbn [bind]. rewrite Nat.mul_1_r.
  rewrite <- zipped_restored.
  replace (Z.to_nat half_len) with (m * B + r)%nat by lia.
  rewrite (zipped_plus src 0 half_len (m * B) r) by lia.
  rewrite <- app_assoc, <- skipn_plus, Nat.mul_add_distr_l.
  reflexivity.
Qed.

Lemma generic_restores :
  restore_czi_zstd1_generic src src_len dst = Done (restored src dst).
Proof.
  pose proof half_len_bounds as [Hh0 Hh1].
  unfold restore_czi_zstd1_generic. cbv zeta. fold half_len.
  rewrite (for_lt_iterate half_len 1 (restore_byte_pair src)
                          (Z.to_nat half_len) (Z.to_nat half_len) 0); try lia.
  change (0, half_len, 0, dst)
    with (0, half_len, Z.of_nat (List.length (@nil Z)), [] ++ dst).
  rewrite (blocks_iterate src 1 (restore_byte_pair src) (byte_pair_block src));
    try lia.
  cbn [bind app]. rewrite Nat.mul_1_r. apply f_equal, zipped_restored.
Qed.

Lemma sse3_restores :
  _openslide_restore_czi_zstd1_sse3 src src_len dst = Done (restored src dst).
Proof.
  unfold _openslide_restore_czi_zstd1_sse3. cbv zeta. fold half_len.
  apply (vector_restore 16 (restore_sse3_step src)); [lia|apply sse3_block].
Qed.

Lemma avx2_restores :
  _openslide_restore_czi_zstd1_avx2 src src_len dst = Done (restored src dst).
Proof.
  unfold _openslide_restore_czi_zstd1_avx2. cbv zeta. fold half_len.
  apply (vector_restore 32 (restore_avx2_step src)); [lia|apply avx2_block].
Qed.

Lemma neon_restores :
  restore_czi_zstd1_neon src src_len dst = Done (restored src dst).
Proof.
  unfold restore_czi_zstd1_neon. cbv zeta. fold half_len.
  apply (vector_restore 16 (restore_neon_step src)); [lia|apply neon_block].
Qed.

End RestoreKernels.

(** *** Restore is the inverse of the split *)

(** The split the restore undoes, as the specification words it: the
    low bytes of all samples, contiguously, followed by all high bytes. *)
Fixpoint low_plane (s : list Z) : list Z :=
  match s with
  | lo :: _ :: s' => lo :: low_plane s'
  | _ => []
  end.

Fixpoint high_plane (s : list Z) : list Z :=
  match s with
  | _ :: hi :: s' => hi :: high_plane s'
  | _ => []
  end.

Definition split_planes (s : list Z) : list Z := low_plane s ++ high_plane s.

Lemma even_length_ind (P : list Z -> Prop) :
  P [] -> (forall a b l, P l -> P (a :: b :: l)) ->
  forall l, Nat.Even (List.length l) -> P l.
Proof.
  intros Hnil Hcons l.
  assert (H : forall n l, (List.length l <= n)%nat ->
                          Nat.Even (List.length l) -> P l).
  { induction n as [|n IH]; intros [|a [|b t]] Hlen Hev; simpl in *;
      try exact Hnil; try lia.
    - destruct Hev as [k Hk]. lia.
    - apply Hcons. apply IH; [lia|]. destruct Hev as [k Hk].
      exists (k - 1)%nat. lia. }
  apply (H (List.length l)). lia.
Qed.

Lemma planes_of_even (s : list Z) :
  Nat.Even (List.length s) ->
  (List.length (low_plane s) = List.length s / 2)%nat /\
  (List.length (high_plane s) = List.length s / 2)%nat /\
  interleave (low_plane s) (high_plane s) = s.
Proof.
  revert s. apply even_length_ind.
  - repeat split; reflexivity.
  - intros a b l (H1 & H2 & H3).
    cbn [low_plane high_plane interleave List.length].
    rewrite H1, H2, H3.
    change (S (S (List.length l))) with (1 * 2 + List.length l)%nat.
    rewrite Nat.div_add_l by lia. repeat split; lia.
Qed.

Lemma restored_split (s dst : list Z) :
  Nat.Even (List.length s) ->
  restored (split_planes s) dst = s ++ skipn (List.length s) dst.
Proof.
  intros Hev. destruct (planes_of_even s Hev) as (H1 & H2 & H3).
  unfold restored, split_planes. cbv zeta.
  rewrite length_app, H1, H2.
  destruct Hev as [k Hk]. rewrite Hk.
  replace (2 * k)%nat with (k * 2)%nat by lia.
  rewrite Nat.div_mul by lia.
  replace ((k + k) / 2)%nat with k
    by (replace (k + k)%nat with (k * 2)%nat by lia;
        now rewrite Nat.div_mul by lia).
  assert (Hl : List.length (low_plane s) = k)
    by (rewrite H1, Hk; replace (2 * k)%nat with (k * 2)%nat by lia;
        now rewrite Nat.div_mul by lia).
  assert (Hh : List.length (high_plane s) = k)
    by (rewrite H2, Hk; replace (2 * k)%nat with (k * 2)%nat by lia;
        now rewrite Nat.div_mul by lia).
  rewrite firstn_app, skipn_app, Hl, Nat.sub_diag.
  rewrite (firstn_all2 (low_plane s)), (skipn_all2 (low_plane s)) by lia.
  cbn [firstn skipn app]. rewrite app_nil_r.
  rewrite (firstn_all2 (high_plane s)) by lia. rewrite H3.
  f_equal. f_equal. lia.
Qed.

(** C9.  For every byte stream [s] of even length (the empty one
    included) and every destination with room for it, each restore kernel
    (the scalar reference and the SSE3, AVX2 and NEON variants), run on
    the low plane of [s] followed by its high plane, writes [s] back and
    leaves the rest of the destination alone. *)
Theorem restore_inverts_split (s dst : list Z) :
  Nat.Even (List.length s) ->
  Z.of_nat (List.length s) < 2 ^ 63 ->
  (List.length s <= List.length dst)%nat ->
  let planes := split_planes s in
  let src_len := Z.of_nat (List.length planes) in
  restore_czi_zstd1_generic planes src_len dst
    = Done (s ++ skipn (List.length s) dst) /\
  _openslide_restore_czi_zstd1_sse3 planes src_len dst
    = Done (s ++ skipn (List.length s) dst) /\
  _openslide_restore_czi_zstd1_avx2 planes src_len dst
    = Done (s ++ skipn (List.length s) dst) /\
  restore_czi_zstd1_neon planes src_len dst
    = Done (s ++ skipn (List.length s) dst).
Proof.
  intros Hev Hsize Hdst planes src_len.
  destruct (planes_of_even s Hev) as (H1 & H2 & _).
  assert (Hlen : List.length planes = List.length s).
  { unfold planes, split_planes. rewrite length_app, H1, H2.
    destruct Hev as [k Hk]. rewrite Hk.
    replace (2 * k)%nat with (k * 2)%nat by lia.
    rewrite Nat.div_mul by lia. lia. }
  assert (Ha : Z.of_nat (List.length planes) < 2 ^ 63) by (rewrite Hlen; lia).
  assert (Hf : 2 * (Z.of_nat (List.length planes) / 2)
               <= Z.of_nat (List.length dst)).
  { pose proof (Z.mul_div_le (Z.of_nat (List.length planes)) 2). lia. }
  rewrite <- (restored_split s dst Hev).
  repeat split.
  - apply generic_restores; assumption.
  - apply sse3_restores; assumption.
  - apply avx2_restores; assumption.
  - apply neon_restores; assumption.
Qed.

Lemma restore_inverts_split_witness :
  restore_czi_zstd1_generic [1; 3; 5; 2; 4; 6] 6 [0; 0; 0; 0; 0; 0; 9]
    = Done [1; 2; 3; 4; 5; 6; 9] /\
  _openslide_restore_czi_zstd1_sse3 [1; 3; 5; 2; 4; 6] 6 [0; 0; 0; 0; 0; 0; 9]
    = Done [1; 2; 3; 4; 5; 6; 9] /\
  _openslide_restore_czi_zstd1_avx2 [1; 3; 5; 2; 4; 6] 6 [0; 0; 0; 0; 0; 0; 9]
    = Done [1; 2; 3; 4; 5; 6; 9] /\
  restore_czi_zstd1_neon [1; 3; 5; 2; 4; 6] 6 [0; 0; 0; 0; 0; 0; 9]
    = Done [1; 2; 3; 4; 5; 6; 9].
Proof.
  apply (restore_inverts_split [1; 2; 3; 4; 5; 6] [0; 0; 0; 0; 0; 0; 9]).
  - exists 3%nat. reflexivity.
  - simpl. lia.
  - simpl. lia.
Defined.

(** *** Kernels that convert a buffer chunk by chunk *)

Lemma kstate_eq (a a' b b' : Z) (d d' : list Z) :
  a = a' -> b = b' -> d = d' ->
  @Done kstate (a, b, d) = Done (a', b', d').
Proof. intros; subst; reflexivity. Qed.

Lemma two64 : 2 ^ 64 = 2 * 2 ^ 63.
Proof. reflexivity. Qed.

Section Chunks.

(** A chunk of [c] source bytes becomes [o] destination bytes through
    [f]. *)
Variables (c o : nat) (f : list Z -> list Z) (src : list Z).
Hypothesis c_pos : (0 < c)%nat.
Hypothesis f_length : forall ch, List.length ch = c -> List.length (f ch) = o.

(** The conversion of the first [n] chunks of a buffer. *)
Fixpoint convert (n : nat) (l : list Z) : list Z :=
  match n with
  | O => []
  | S n' => f (firstn c l) ++ convert n' (skipn c l)
  end.

Lemma convert_length (n : nat) (l : list Z) :
  (n * c <= List.length l)%nat -> List.length (convert n l) = (n * o)%nat.
Proof.
  revert l. induction n as [|n IH]; intros l H; cbn [convert]; [reflexivity|].
  rewrite length_app, f_length, IH.
  - lia.
  - rewrite length_skipn. lia.
  - rewrite length_firstn. lia.
Qed.

Lemma convert_plus (a b : nat) (l : list Z) :
  convert (a + b) l = convert a l ++ convert b (skipn (a * c) l).
Proof.
  revert l. induction a as [|a IH]; intros l; cbn [convert Nat.add Nat.mul].
  - reflexivity.
  - rewrite IH, <- app_assoc, <- skipn_plus. reflexivity.
Qed.

(** A loop body that converts [V] chunks per iteration, called at source
    offsets that are multiples of its step.  It may read [slack_in] bytes
    past the chunks, and it may write [slack_out] bytes past their
    conversion, which later iterations overwrite. *)
Definition converts_block (V slack_in slack_out : nat)
           (step : kstate -> outcome kstate) : Prop :=
  forall (so : Z) (done rest : list Z),
    0 <= so ->
    so mod Z.of_nat (V * c) = 0 ->
    so + Z.of_nat (V * c + slack_in) <= Z.of_nat (List.length src) ->
    (V * o + slack_out <= List.length rest)%nat ->
    exists junk,
      List.length junk = slack_out /\
      step (so, Z.of_nat (List.length done), done ++ rest) =
      Done (so + Z.of_nat (V * c),
            Z.of_nat (List.length done) + Z.of_nat (V * o),
            done ++ convert V (skipn (Z.to_nat so) src) ++ junk
            ++ skipn (V * o + slack_out) rest).

Lemma blocks_convert (V slack_in slack_out : nat)
      (step : kstate -> outcome kstate) :
  converts_block V slack_in slack_out step ->
  forall (m : nat) (so : Z) (done rest : list Z),
    0 <= so ->
    so mod Z.of_nat (V * c) = 0 ->
    so + Z.of_nat (m * V * c + slack_in) <= Z.of_nat (List.length src) ->
    (m * V * o + slack_out <= List.length rest)%nat ->
    exists junk,
      List.length junk = slack_out /\
      iterate m step (so, Z.of_nat (List.length done), done ++ rest) =
      Done (so + Z.of_nat (m * V * c),
            Z.of_nat (List.length done) + Z.of_nat (m * V * o),
            done ++ convert (m * V) (skipn (Z.to_nat so) src) ++ junk
            ++ skipn (m * V * o + slack_out) rest).
Proof.
  intros Hstep. induction m as [|m IH]; intros so done rest H0 Hal H1 H2.
  - exists (firstn slack_out rest). split.
    + rewrite length_firstn. cbn [Nat.mul Nat.add] in H2. lia.
    + cbn [iterate Nat.mul Nat.add convert app].
      rewrite firstn_skipn. apply kstate_eq; try lia. reflexivity.
  - assert (HV : (S m * V = V + m * V)%nat) by lia.
    destruct (Hstep so done rest H0 Hal) as (junk & Hj & Hs); try nia.
    cbn [iterate]. rewrite Hs. cbn [bind].
    assert (Hc : List.length (convert V (skipn (Z.to_nat so) src)) = (V * o)%nat).
    { apply convert_length. rewrite length_skipn. nia. }
    rewrite (app_assoc done).
    replace (Z.of_nat (List.length done) + Z.of_nat (V * o))
      with (Z.of_nat (List.length
                        (done ++ convert V (skipn (Z.to_nat so) src))))
      by (rewrite length_app, Hc; lia).
    destruct (IH (so + Z.of_nat (V * c))
                 (done ++ convert V (skipn (Z.to_nat so) src))
                 (junk ++ skipn (V * o + slack_out) rest))
      as (junk' & Hj' & Hi); try nia.
    { replace (so + Z.of_nat (V * c)) with (so + 1 * Z.of_nat (V * c)) by lia.
      rewrite Z_mod_plus_full. exact Hal. }
    { rewrite length_app, length_skipn. nia. }
    exists junk'. split; [exact Hj'|]. rewrite Hi.
    apply kstate_eq.
    + nia.
    + rewrite length_app, Hc. nia.
    + rewrite HV, convert_plus, <- !app_assoc. do 2 f_equal.
      replace (Z.to_nat (so + Z.of_nat (V * c)))
        with (Z.to_nat so + V * c)%nat by lia.
      rewrite skipn_plus. do 2 f_equal.
      rewrite skipn_app, Hj.
      rewrite (skipn_all2 junk) by lia. cbn [app].
      rewrite <- skipn_plus. f_equal. nia.
Qed.

(** The scalar loop: one chunk per iteration, nothing beyond it. *)
Corollary chunks_convert (step : kstate -> outcome kstate) :
  converts_block 1 0 0 step ->
  forall (n : nat) (so : Z) (done rest : list Z),
    0 <= so ->
    so mod Z.of_nat c = 0 ->
    so + Z.of_nat (n * c) <= Z.of_nat (List.length src) ->
    (n * o <= List.length rest)%nat ->
    iterate n step (so, Z.of_nat (List.length done), done ++ rest) =
    Done (so + Z.of_nat (n * c),
          Z.of_nat (List.length done) + Z.of_nat (n * o),
          done ++ convert n (skipn (Z.to_nat so) src) ++ skipn (n * o) rest).
Proof.
  intros Hstep n so done rest H0 Hal H1 H2.
  destruct (blocks_convert 1 0 0 step Hstep n so done rest H0)
    as (junk & Hj & Hi); try lia.
  { rewrite Nat.mul_1_l. exact Hal. }
  rewrite Hi. destruct junk; [|discriminate]. cbn [app].
  rewrite !Nat.mul_1_r, Nat.add_0_r. reflexivity.
Qed.

End Chunks.

Section ChunkKernels.

Variables (c o : nat) (f : list Z -> list Z) (src dst : list Z).
Hypothesis c_pos : (0 < c)%nat.
Hypothesis c_small : Z.of_nat c < 2 ^ 63.
Hypothesis f_length : forall ch, List.length ch = c -> List.length (f ch) = o.

(** The buffer holds [N] whole chunks and the destination has room for
    their conversion. *)
Variable N : nat.
Let src_len := Z.of_nat (List.length src).
Hypothesis src_chunks : List.length src = (N * c)%nat.
Hypothesis src_addressable : src_len < 2 ^ 63.
Hypothesis dst_fits : (N * o <= List.length dst)%nat.

(** What every variant must leave in the destination. *)
Definition converted : list Z := convert c f N src ++ skipn (N * o) dst.

Lemma src_len_chunks : src_len = Z.of_nat (N * c).
Proof. unfold src_len. rewrite src_chunks. reflexivity. Qed.

Lemma no_wrap_after_src : src_len + Z.of_nat c <= 2 ^ 64.
Proof. rewrite two64. lia. Qed.

Lemma scalar_kernel (step : kstate -> outcome kstate) (cz : Z) :
  cz = Z.of_nat c ->
  converts_block c o f src 1 0 0 step ->
  exists so do,
    for_lt (Z.to_nat src_len) 0 src_len cz step (0, 0, dst) =
    Done (so, do, converted).
Proof.
  intros -> Hstep. pose proof src_len_chunks as Hlen.
  rewrite (for_lt_iterate src_len (Z.of_nat c) step N (Z.to_nat src_len) 0);
    [ | nia | lia | lia | exact no_wrap_after_src | nia | nia ].
  change (0, 0, dst) with (0, Z.of_nat (List.length (@nil Z)), [] ++ dst).
  rewrite (chunks_convert c o f src c_pos f_length step Hstep N); try lia.
  2:{ apply Z.mod_0_l. lia. }
  cbn [app skipn Z.to_nat]. do 2 eexists. reflexivity.
Qed.

Lemma vector_kernel (V slack_in slack_out : nat)
      (vstep sstep : kstate -> outcome kstate) (mm_step cz : Z) :
  mm_step = Z.of_nat (V * c) -> cz = Z.of_nat c ->
  (0 < V)%nat -> (slack_in <= V * c)%nat -> (slack_out <= V * o)%nat ->
  converts_block c o f src V slack_in slack_out vstep ->
  converts_block c o f src 1 0 0 sstep ->
  mm_step <= src_len ->
  let mm_len := wrap64 (src_len / mm_step - 1) in
  exists so do,
    (s <- for_lt (Z.to_nat mm_len) 0 mm_len 1 vstep (0, 0, dst) ;;
     for_lt (Z.to_nat src_len) (wrap64 (mm_len * mm_step)) src_len cz sstep s)
    = Done (so, do, converted).
Proof.
  intros -> -> HV Hsi Hso Hv Hs Hone mm_len.
  pose proof src_len_chunks as Hlen.
  assert (Hstep_pos : 0 < Z.of_nat (V * c)) by nia.
  assert (Hq : 1 <= src_len / Z.of_nat (V * c))
    by (apply Z.div_le_lower_bound; lia).
  assert (Hqle : Z.of_nat (V * c) * (src_len / Z.of_nat (V * c)) <= src_len)
    by (apply Z.mul_div_le; lia).
  assert (Hqlt : src_len / Z.of_nat (V * c) <= src_len)
    by (apply Z.div_le_upper_bound; nia).
  set (m := Z.to_nat (src_len / Z.of_nat (V * c) - 1)).
  assert (Hmq : Z.of_nat m = src_len / Z.of_nat (V * c) - 1) by lia.
  assert (Hsmall : 0 <= Z.of_nat m < 2 ^ 64 /\ Z.of_nat m + 1 <= 2 ^ 64
                   /\ 0 <= Z.of_nat m * Z.of_nat (V * c) < 2 ^ 64).
  { rewrite two64. nia. }
  destruct Hsmall as (Hs1 & Hs2 & Hs3).
  assert (Hm : mm_len = Z.of_nat m).
  { unfold mm_len. rewrite <- Hmq. apply wrap64_id. exact Hs1. }
  rewrite Hm. clearbody mm_len.
  (* the chunks the vector loop leaves to the scalar loop *)
  assert (Hmv : (m * (V * c) + V * c <= N * c)%nat) by nia.
  assert (HmN : (m * V + V <= N)%nat) by nia.
  set (t := (N - m * V)%nat).
  assert (Ht : (m * V + t = N)%nat) by lia.
  rewrite (for_lt_iterate (Z.of_nat m) 1 vstep m (Z.to_nat (Z.of_nat m)) 0);
    [ | lia | lia | lia | exact Hs2 | lia | lia ].
  change (0, 0, dst) with (0, Z.of_nat (List.length (@nil Z)), [] ++ dst).
  destruct (blocks_convert c o f src c_pos f_length V slack_in slack_out vstep Hv
                           m 0 [] dst) as (junk & Hj & Hi).
  { lia. }
  { apply Z.mod_0_l. lia. }
  { rewrite src_chunks. apply Nat2Z.inj_le. nia. }
  { nia. }
  rewrite Hi. cbn [bind app List.length].
  change (Z.to_nat 0) with 0%nat. cbn [skipn].
  rewrite (wrap64_id _ Hs3).
  assert (Htc : Z.of_nat m * Z.of_nat (V * c) + Z.of_nat t * Z.of_nat c
                = src_len) by (rewrite Hlen; nia).
  rewrite (for_lt_iterate src_len (Z.of_nat c) sstep t (Z.to_nat src_len)
                          (Z.of_nat m * Z.of_nat (V * c)));
    [ | nia | lia | lia | exact no_wrap_after_src | lia | nia ].
  assert (Hc : List.length (convert c f (m * V) src) = (m * V * o)%nat).
  { apply (convert_length c o f c_pos f_length). nia. }
  replace (Z.of_nat 0 + Z.of_nat (m * V * o))
    with (Z.of_nat (List.length (convert c f (m * V) src)))
    by (rewrite Hc; lia).
  replace (0 + Z.of_nat (m * V * c)) with (Z.of_nat (m * V * c)) by lia.
  rewrite (chunks_convert c o f src c_pos f_length sstep Hs t).
  2:{ lia. }
  2:{ rewrite Nat2Z.inj_mul. apply Z.mod_mul. lia. }
  2:{ rewrite src_chunks, <- Ht, Nat.mul_add_distr_r. lia. }
  2:{ rewrite length_app, length_skipn. nia. }
  do 2 eexists. apply kstate_eq; try reflexivity.
  unfold converted. rewrite <- Ht at 1.
  rewrite convert_plus, <- app_assoc. do 2 f_equal.
  - rewrite Nat2Z.id. reflexivity.
  - rewrite skipn_app, Hj.
    rewrite (skipn_all2 junk) by nia. cbn [app].
    rewrite <- skipn_plus. f_equal. nia.
Qed.

End ChunkKernels.

(** *** Gray16 to Gray8: the vector kernels against the scalar one *)

(** One lane of the SSE2/AVX2 computation: shift the 16-bit sample, take
    its low byte, and OR it with 0xFF when the signed high byte is above
    zero. *)
Definition vector_gray (ns p0 p1 : Z) : Z :=
  let r := srl16 ns (u16_of_bytes p0 p1) in
  Z.lor (cmpgt8 (Z.land (Z.shiftr r 8) 255) 0) (Z.land r 255).

Fixpoint vector_gray_lanes (ns : Z) (v : list Z) : list Z :=
  match v with
  | p0 :: p1 :: v' => vector_gray ns p0 p1 :: vector_gray_lanes ns v'
  | _ => []
  end.

(** The two bytes of a sample as a number. *)
Lemma u16_of_bytes_value (p0 p1 : Z) :
  is_byte p0 -> is_byte p1 -> u16_of_bytes p0 p1 = p0 + 256 * p1.
Proof.
  intros H0 H1.
  assert (H : forallb (fun a => forallb (fun b =>
                 u16_of_bytes a b =? a + 256 * b) (range 0 256)) (range 0 256)
              = true) by (vm_compute; reflexivity).
  pose proof (forall_range _ 0 256 H p0 H0) as Ha. cbv beta in Ha.
  pose proof (forall_range _ 0 256 Ha p1 H1) as Hb. cbv beta in Hb.
  apply Z.eqb_eq. exact Hb.
Qed.

(** For a real bit depth of 9 to 16 the lane computes what
    [gray16togray8] does. *)
Lemma vector_gray_scalar (ns p0 p1 : Z) :
  1 <= ns <= 8 -> is_byte p0 -> is_byte p1 ->
  vector_gray ns p0 p1 = gray16togray8 p0 p1 ns.
Proof.
  intros Hn H0 H1.
  assert (H : forallb (fun n => forallb (fun a => forallb (fun b =>
                 vector_gray n a b =? gray16togray8 a b n)
                 (range 0 256)) (range 0 256)) (range 1 9) = true)
    by (vm_compute; reflexivity).
  pose proof (forall_range _ 1 9 H ns ltac:(lia)) as Hc. cbv beta in Hc.
  pose proof (forall_range _ 0 256 Hc p0 H0) as Ha. cbv beta in Ha.
  pose proof (forall_range _ 0 256 Ha p1 H1) as Hb. cbv beta in Hb.
  apply Z.eqb_eq. exact Hb.
Qed.

(** [gray16togray8] shifts the sample right and saturates: the result is
    255 when the shifted sample has a non-zero high byte, and the shifted
    sample otherwise. *)
Lemma gray16togray8_saturates (p0 p1 ns : Z) :
  is_byte p0 -> is_byte p1 -> 0 <= ns ->
  let shifted := (p0 + 256 * p1) / 2 ^ ns in
  gray16togray8 p0 p1 ns = if shifted / 256 =? 0 then shifted else 255.
Proof.
  intros H0 H1 Hn shifted. unfold gray16togray8.
  rewrite (u16_of_bytes_value p0 p1 H0 H1), Z.shiftr_div_pow2 by lia.
  fold shifted.
  assert (Hx : 0 <= p0 + 256 * p1 < 65536) by (unfold is_byte in *; lia).
  assert (Hs : 0 <= shifted < 65536).
  { unfold shifted. split.
    - apply Z.div_pos; [lia|]. apply Z.pow_pos_nonneg; lia.
    - apply Z.div_lt_upper_bound; [apply Z.pow_pos_nonneg; lia|].
      assert (1 <= 2 ^ ns) by (apply (Z.pow_le_mono_r 2 0 ns); lia). nia. }
  change (2 ^ 16) with 65536. rewrite (Z.mod_small shifted) by lia.
  destruct (Z.gtb_spec shifted 255), (Z.eqb_spec (shifted / 256) 0);
    try reflexivity.
  - assert (shifted < 256); [|lia].
    rewrite (Z.div_mod shifted 256) by lia.
    pose proof (Z.mod_pos_bound shifted 256). lia.
  - rewrite Z.mod_small by lia. reflexivity.
  - exfalso. rewrite Z.div_small in *; lia.
Qed.

(** The scalar conversion of one chunk of two bytes. *)
Definition gray_chunk (ns : Z) (ch : list Z) : list Z :=
  match ch with
  | [p0; p1] => [gray16togray8 p0 p1 ns]
  | _ => [0]
  end.

Lemma gray_chunk_length (ns : Z) (ch : list Z) :
  List.length ch = 2%nat -> List.length (gray_chunk ns ch) = 1%nat.
Proof. destruct ch as [|a [|b [|]]]; intros [=]; reflexivity. Qed.

(** The Gray8 image of a Gray16 buffer: one byte per sample. *)
Definition gray8_of (ns : Z) (src : list Z) : list Z :=
  convert 2 (gray_chunk ns) (List.length src / 2) src.

Lemma vector_gray_lanes_scalar (ns : Z) (v : list Z) (n : nat) :
  1 <= ns <= 8 -> Forall is_byte v -> List.length v = (2 * n)%nat ->
  vector_gray_lanes ns v = convert 2 (gray_chunk ns) n v.
Proof.
  intros Hns. revert v. induction n as [|n IH]; intros v Hb Hl.
  - destruct v; [reflexivity|discriminate].
  - destruct v as [|p0 [|p1 v]]; try (simpl in Hl; lia).
    inversion Hb as [|? ? H0 Hb']; subst. inversion Hb' as [|? ? H1 Hb'']; subst.
    cbn [vector_gray_lanes convert firstn skipn gray_chunk app].
    rewrite vector_gray_scalar by assumption.
    rewrite IH; [reflexivity|assumption|simpl in Hl; lia].
Qed.

Lemma convert_firstn (c : nat) (f : list Z -> list Z) (n : nat) (l : list Z) :
  convert c f n l = convert c f n (firstn (n * c) l).
Proof.
  revert l. induction n as [|n IH]; intros l; cbn [convert]; [reflexivity|].
  replace (S n * c)%nat with (c + n * c)%nat by lia.
  rewrite (IH (skipn c l)), (IH (skipn c (firstn (c + n * c) l))).
  rewrite firstn_firstn, Nat.min_l by lia.
  rewrite skipn_firstn_comm.
  replace (c + n * c - c)%nat with (n * c)%nat by lia.
  rewrite firstn_firstn, Nat.min_id. reflexivity.
Qed.

(** What the register holds before the store, for 16 and for 32 loaded
    bytes. *)
Lemma sse2_register (ns : Z) (v : list Z) :
  List.length v = 16%nat ->
  let hi8 := _mm_setr_epi8 hi8_mask in
  let lo8 := _mm_setr_epi8 lo8_mask in
  let allzero := _mm_set_epi64x 0 0 in
  let tmp2 := _mm_srli_epi16 v ns in
  let gray8 := _mm_shuffle_epi8 tmp2 lo8 in
  let tmp1 := _mm_shuffle_epi8 tmp2 hi8 in
  let tmp2 := _mm_cmpgt_epi8 tmp1 allzero in
  _mm_or_si128 tmp2 gray8 = vector_gray_lanes ns v ++ repeat 0 8.
Proof. intros Hv. explode v Hv. reflexivity. Qed.

Lemma avx2_register (ns : Z) (v : list Z) :
  List.length v = 32%nat ->
  let hi8 := _mm256_setr_epi8 (hi8_mask ++ hi8_mask) in
  let lo8 := _mm256_setr_epi8 (lo8_mask ++ lo8_mask) in
  let allzero := _mm256_set_epi64x 0 0 0 0 in
  let tmp2 := _mm256_srli_epi16 v ns in
  let gray8 := _mm256_shuffle_epi8 tmp2 lo8 in
  let tmp1 := _mm256_shuffle_epi8 tmp2 hi8 in
  let tmp2 := _mm256_cmpgt_epi8 tmp1 allzero in
  let tmp1 := _mm256_or_si256 tmp2 gray8 in
  _mm256_permute4x64_epi64 tmp1 8 =
  vector_gray_lanes ns v ++ firstn 8 (vector_gray_lanes ns v)
                        ++ firstn 8 (vector_gray_lanes ns v).
Proof. intros Hv. explode v Hv. reflexivity. Qed.

Section GraySteps.

Variables (src : list Z) (nshift : Z).
Hypothesis src_bytes : Forall is_byte src.

Lemma chunk_at (so : Z) (n : nat) :
  0 <= so -> so + Z.of_nat n <= Z.of_nat (List.length src) ->
  List.length (firstn n (skipn (Z.to_nat so) src)) = n /\
  Forall is_byte (firstn n (skipn (Z.to_nat so) src)).
Proof.
  intros H0 H1. split.
  - rewrite length_firstn, length_skipn. lia.
  - apply Forall_firstn_keep, Forall_skipn_keep, src_bytes.
Qed.

Lemma gray16_pixel_block :
  converts_block 2 1 (gray_chunk nshift) src 1 0 0 (gray16_pixel src nshift).
Proof.
  intros so done rest H0 _ H1 H2. exists []. split; [reflexivity|].
  unfold gray16_pixel. rewrite (load_ok src so 2) by lia. cbn [bind].
  destruct (chunk_at so 2 H0 ltac:(lia)) as (Hl & _).
  change (Z.to_nat 2) with 2%nat.
  set (ch := firstn 2 (skipn (Z.to_nat so) src)) in *.
  cbn [convert Nat.mul Nat.add app]. fold ch.
  clearbody ch. explode ch Hl.
  rewrite store_app by (simpl; lia || reflexivity). cbn [bind].
  apply kstate_eq; [lia|lia|]. reflexivity.
Qed.

Hypothesis depth : 1 <= nshift <= 8.

(** The SSE2 step on a CPU with SSSE3 and a source buffer at an aligned
    address: the loop calls it at offsets that are multiples of 16. *)
Lemma gray16_sse2_block (cpu : cpu_t) (src_addr : Z) :
  cpu "ssse3"%string = true -> src_addr mod 16 = 0 ->
  converts_block 2 1 (gray_chunk nshift) src 8 0 8
                 (gray16_sse2_step cpu src_addr src nshift).
Proof.
  intros Hcpu Haddr so done rest H0 Hal H1 H2.
  exists (repeat 0 8). split; [reflexivity|].
  unfold gray16_sse2_step, _mm_load_si128, _mm_storeu_si128, needs. cbv zeta.
  change (Z.of_nat (8 * 2)) with 16 in Hal.
  assert (Haligned : (src_addr + so) mod 16 = 0)
    by (rewrite Z.add_mod, Haddr, Hal by lia; reflexivity).
  rewrite Haligned, Hcpu. cbn [Z.eqb].
  rewrite (load_ok src so 16) by lia. cbn [bind].
  destruct (chunk_at so 16 H0 ltac:(lia)) as (Hl & Hb).
  change (Z.to_nat 16) with 16%nat.
  rewrite (convert_firstn 2 (gray_chunk nshift) 8).
  change (8 * 2)%nat with 16%nat.
  set (v := firstn 16 (skipn (Z.to_nat so) src)) in *.
  rewrite (sse2_register nshift v Hl).
  rewrite (vector_gray_lanes_scalar nshift v 8 depth Hb Hl).
  assert (Hc : List.length (convert 2 (gray_chunk nshift) 8 v) = 8%nat).
  { rewrite (convert_length 2 1 (gray_chunk nshift)); try lia.
    apply gray_chunk_length. }
  rewrite store_app; [|reflexivity|rewrite length_app, Hc; simpl; lia].
  cbn [bind]. rewrite length_app, Hc, <- app_assoc.
  apply kstate_eq; [lia|lia|]. reflexivity.
Qed.

Lemma gray16_avx2_block :
  converts_block 2 1 (gray_chunk nshift) src 16 0 16
                 (gray16_avx2_step src nshift).
Proof.
  intros so done rest H0 _ H1 H2.
  unfold gray16_avx2_step, _mm256_lddqu_si256, _mm256_storeu_si256. cbv zeta.
  rewrite (load_ok src so 32) by lia. cbn [bind].
  destruct (chunk_at so 32 H0 ltac:(lia)) as (Hl & Hb).
  change (Z.to_nat 32) with 32%nat.
  rewrite (convert_firstn 2 (gray_chunk nshift) 16).
  change (16 * 2)%nat with 32%nat.
  set (v := firstn 32 (skipn (Z.to_nat so) src)) in *.
  rewrite (avx2_register nshift v Hl).
  rewrite (vector_gray_lanes_scalar nshift v 16 depth Hb Hl).
  assert (Hc : List.length (convert 2 (gray_chunk nshift) 16 v) = 16%nat).
  { rewrite (convert_length 2 1 (gray_chunk nshift)); try lia.
    apply gray_chunk_length. }
  set (g := convert 2 (gray_chunk nshift) 16 v) in *.
  exists (firstn 8 g ++ firstn 8 g). split.
  { rewrite length_app, length_firstn, Hc. reflexivity. }
  rewrite store_app;
    [|reflexivity|rewrite !length_app, length_firstn, Hc; simpl; lia].
  cbn [bind]. rewrite !length_app, length_firstn, Hc, <- !app_assoc.
  apply kstate_eq; [lia|lia|]. reflexivity.
Qed.

End GraySteps.

(** *** The Gray16 kernels on whole buffers *)

(** What the specification asks of sample [k] of a little-endian Gray16
    buffer: shift it right by [ns]; a result with a non-zero high byte
    becomes 255. *)
Definition sample16 (src : list Z) (k : nat) : Z :=
  nth (2 * k) src 0 + 256 * nth (2 * k + 1) src 0.

Definition saturated_shift (ns : Z) (src : list Z) (k : nat) : Z :=
  let shifted := sample16 src k / 2 ^ ns in
  if shifted / 256 =? 0 then shifted else 255.

Definition saturated_image (ns : Z) (src : list Z) : list Z :=
  map (saturated_shift ns src) (seq 0 (List.length src / 2)).

Lemma saturated_shift_tail (ns p0 p1 : Z) (src : list Z) (k : nat) :
  saturated_shift ns (p0 :: p1 :: src) (S k) = saturated_shift ns src k.
Proof.
  unfold saturated_shift, sample16.
  replace (2 * S k)%nat with (S (S (2 * k))) by lia.
  replace (S (S (2 * k)) + 1)%nat with (S (S (2 * k + 1))) by lia.
  reflexivity.
Qed.

Lemma gray_chunks_saturate (ns : Z) (N : nat) :
  0 <= ns ->
  forall src, Forall is_byte src -> List.length src = (2 * N)%nat ->
    convert 2 (gray_chunk ns) N src = map (saturated_shift ns src) (seq 0 N).
Proof.
  intros Hns. induction N as [|N IH]; intros src Hb Hl; [reflexivity|].
  destruct src as [|p0 [|p1 src]]; try (simpl in Hl; lia).
  inversion Hb as [|? ? H0 Hb']; subst. inversion Hb' as [|? ? H1 Hb'']; subst.
  cbn [convert firstn skipn gray_chunk app seq map].
  rewrite <- seq_shift, map_map. f_equal.
  - rewrite (gray16togray8_saturates p0 p1 ns H0 H1 Hns). reflexivity.
  - rewrite IH; [|assumption|simpl in Hl; lia].
    apply map_ext. intros k. symmetry. apply saturated_shift_tail.
Qed.

Lemma after_vector_loop (first : outcome kstate)
      (rest : kstate -> outcome kstate) (r : kstate) :
  (s <- first ;; rest s) = Done r ->
  (s <- first ;; '(_, _, dst') <- rest s ;; Done dst') = Done (snd r).
Proof.
  destruct first as [s| | |]; cbn [bind]; try discriminate.
  intros ->. destruct r as [[so do] d]. reflexivity.
Qed.

Section GrayKernels.

Variables (src dst : list Z) (pixel_real_bits : Z) (N : nat).
Let src_len := Z.of_nat (List.length src).
Let nshift := pixel_real_bits - 8.

Hypothesis src_bytes : Forall is_byte src.
Hypothesis src_samples : List.length src = (N * 2)%nat.
Hypothesis src_addressable : src_len < 2 ^ 63.
Hypothesis dst_fits : (N * 1 <= List.length dst)%nat.

Lemma two_small : Z.of_nat 2 < 2 ^ 63.
Proof. reflexivity. Qed.

Lemma gray_generic_converts :
  gray16_to_gray8_generic src src_len pixel_real_bits dst =
  Done (converted 2 1 (gray_chunk nshift) src dst N).
Proof.
  unfold gray16_to_gray8_generic. cbv zeta. fold nshift.
  destruct (scalar_kernel 2 1 (gray_chunk nshift) src dst ltac:(lia) two_small
              (gray_chunk_length nshift) N src_samples src_addressable
              dst_fits (gray16_pixel src nshift) 2 eq_refl
              (gray16_pixel_block src nshift src_bytes)) as (so & do & H).
  fold src_len in H. rewrite H. reflexivity.
Qed.

Hypothesis depth : 9 <= pixel_real_bits <= 16.

Lemma gray_sse2_converts (cpu : cpu_t) (src_addr : Z) :
  cpu "ssse3"%string = true -> src_addr mod 16 = 0 ->
  16 <= src_len ->
  _openslide_gray16_to_gray8_sse2 cpu src_addr src src_len pixel_real_bits dst =
  Done (converted 2 1 (gray_chunk nshift) src dst N).
Proof.
  intros Hcpu Haddr Hlen.
  unfold _openslide_gray16_to_gray8_sse2. cbv zeta. fold nshift.
  destruct (vector_kernel 2 1 (gray_chunk nshift) src dst ltac:(lia) two_small
              (gray_chunk_length nshift) N src_samples src_addressable
              dst_fits 8 0 8 (gray16_sse2_step cpu src_addr src nshift)
              (gray16_pixel src nshift) 16 2 eq_refl eq_refl
              ltac:(lia) ltac:(lia) ltac:(lia)
              (gray16_sse2_block src nshift src_bytes ltac:(unfold nshift; lia)
                                 cpu src_addr Hcpu Haddr)
              (gray16_pixel_block src nshift src_bytes) Hlen) as (so & do & H).
  fold src_len in H. cbv zeta in H. apply (after_vector_loop _ _ _ H).
Qed.

Lemma gray_avx2_converts :
  32 <= src_len ->
  _openslide_gray16_to_gray8_avx2 src src_len pixel_real_bits dst =
  Done (converted 2 1 (gray_chunk nshift) src dst N).
Proof.
  intros Hlen. unfold _openslide_gray16_to_gray8_avx2. cbv zeta. fold nshift.
  destruct (vector_kernel 2 1 (gray_chunk nshift) src dst ltac:(lia) two_small
              (gray_chunk_length nshift) N src_samples src_addressable
              dst_fits 16 0 16 (gray16_avx2_step src nshift)
              (gray16_pixel src nshift) 32 2 eq_refl eq_refl
              ltac:(lia) ltac:(lia) ltac:(lia)
              (gray16_avx2_block src nshift src_bytes ltac:(unfold nshift; lia))
              (gray16_pixel_block src nshift src_bytes) Hlen) as (so & do & H).
  fold src_len in H. cbv zeta in H. apply (after_vector_loop _ _ _ H).
Qed.

End GrayKernels.

(** *** Saturation in the three Gray16 variants *)

(** C7 fails at a real bit depth of 8.  A buffer whose first sample is
    0x8000 is converted with a shift by zero, so the high byte of the
    shifted sample is 0x80.  The scalar code writes 255.  The vector code
    compares that byte as a signed number with zero, finds it negative and
    writes the low byte, 0: the comment in the kernels takes the sign bit
    to be clear after the shift, which a shift by zero does not give.  The
    SSE2 kernel runs here on a CPU with SSSE3 and an aligned buffer. *)
Example gray16_vector_wraps_at_depth_8 :
  let src := [0; 128] ++ repeat 0 62 in
  let dst := repeat 7 32 in
  gray16_to_gray8_generic src 64 8 dst = Done (255 :: repeat 0 31) /\
  _openslide_gray16_to_gray8_sse2 cpu_with_all 0 src 64 8 dst
  = Done (0 :: repeat 0 31) /\
  _openslide_gray16_to_gray8_avx2 src 64 8 dst = Done (0 :: repeat 0 31).
Proof. repeat split; vm_compute; reflexivity. Qed.

(** At depth 8 the scalar and the vector code agree exactly on the
    samples below 0x8000. *)
Lemma vector_gray_at_depth_8 (p0 p1 : Z) :
  is_byte p0 -> is_byte p1 ->
  vector_gray 0 p0 p1 = (if p1 <? 128 then gray16togray8 p0 p1 0 else p0).
Proof.
  intros H0 H1.
  assert (H : forallb (fun a => forallb (fun b =>
                 vector_gray 0 a b =?
                 (if b <? 128 then gray16togray8 a b 0 else a))
                 (range 0 256)) (range 0 256) = true)
    by (vm_compute; reflexivity).
  pose proof (forall_range _ 0 256 H p0 H0) as Ha. cbv beta in Ha.
  pose proof (forall_range _ 0 256 Ha p1 H1) as Hb. cbv beta in Hb.
  apply Z.eqb_eq. exact Hb.
Qed.

(** X28.  On a buffer of [N] little-endian 16-bit samples and a
    destination with room for [N] bytes, the scalar conversion at a real
    bit depth of 8 to 16 returns and leaves, for every sample, the sample
    shifted right by the depth minus 8 when that value has a zero high
    byte and exactly 255 otherwise.  For depths 9 to 16 the SSE2 kernel
    leaves the same bytes on a buffer of at least 16 bytes, when the CPU
    has SSSE3 and the address of the buffer is a multiple of 16, and the
    AVX2 kernel on a buffer of at least 32 bytes.  Nothing past the [N]
    bytes is changed. *)
Theorem gray16_saturates_in_every_variant
        (src dst : list Z) (pixel_real_bits : Z) (N : nat) :
  Forall is_byte src ->
  List.length src = (2 * N)%nat ->
  Z.of_nat (List.length src) < 2 ^ 63 ->
  (N <= List.length dst)%nat ->
  8 <= pixel_real_bits <= 16 ->
  let src_len := Z.of_nat (List.length src) in
  let out := map (saturated_shift (pixel_real_bits - 8) src) (seq 0 N)
             ++ skipn N dst in
  gray16_to_gray8_generic src src_len pixel_real_bits dst = Done out /\
  (forall (cpu : cpu_t) (src_addr : Z),
      cpu "ssse3"%string = true -> src_addr mod 16 = 0 ->
      9 <= pixel_real_bits -> 16 <= src_len ->
      _openslide_gray16_to_gray8_sse2 cpu src_addr src src_len
                                      pixel_real_bits dst = Done out)
  /\
  (9 <= pixel_real_bits -> 32 <= src_len ->
   _openslide_gray16_to_gray8_avx2 src src_len pixel_real_bits dst = Done out).
Proof.
  intros Hb Hl Ha Hd Hbits src_len out.
  assert (Hl' : List.length src = (N * 2)%nat) by lia.
  assert (Hd' : (N * 1 <= List.length dst)%nat) by lia.
  assert (Hout : converted 2 1 (gray_chunk (pixel_real_bits - 8)) src dst N
                 = out).
  { unfold converted, out.
    rewrite (gray_chunks_saturate (pixel_real_bits - 8) N) by (lia || assumption).
    rewrite Nat.mul_1_r. reflexivity. }
  rewrite <- Hout. split; [|split].
  - apply gray_generic_converts; assumption.
  - intros cpu src_addr Hcpu Haddr H9 Hlen.
    apply gray_sse2_converts; [assumption..|lia|exact Hcpu|exact Haddr|exact Hlen].
  - intros H9 Hlen. apply gray_avx2_converts; [assumption..|lia|exact Hlen].
Qed.

Lemma gray16_saturates_in_every_variant_witness :
  let src := [255; 63; 0; 64; 64; 0; 0; 128; 255; 255; 0; 1; 128; 0; 0; 0;
              0; 0; 0; 0; 0; 0; 0; 0; 0; 0; 0; 0; 0; 0; 0; 0] in
  let dst := repeat 7 17 in
  let out := [255; 255; 1; 255; 255; 4; 2; 0; 0; 0; 0; 0; 0; 0; 0; 0; 7] in
  gray16_to_gray8_generic src 32 14 dst = Done out /\
  _openslide_gray16_to_gray8_sse2 cpu_with_all 4096 src 32 14 dst = Done out /\
  _openslide_gray16_to_gray8_avx2 src 32 14 dst = Done out.
Proof.
  intros src dst out.
  destruct (gray16_saturates_in_every_variant src dst 14 16)
    as (Hg & Hs & Ha).
  - repeat (constructor; [unfold is_byte; lia|]). constructor.
  - reflexivity.
  - simpl. lia.
  - simpl. lia.
  - lia.
  - split; [exact Hg|split; [apply Hs|apply Ha]];
      try reflexivity; simpl; lia.
Defined.

(** *** BGR to ARGB32: the scalar kernels and the vector kernels *)

(** The bytes of a word that was put together from bytes. *)
Lemma byte_lanes (p : Z) :
  is_byte p ->
  Z.land p 255 = p /\
  Z.land (Z.shiftr p 8) 255 = 0 /\
  Z.land (Z.shiftr p 16) 255 = 0 /\
  Z.land (Z.shiftr p 24) 255 = 0 /\
  Z.land (Z.shiftl p 8) 255 = 0 /\
  Z.land (Z.shiftr (Z.shiftl p 8) 8) 255 = p /\
  Z.land (Z.shiftr (Z.shiftl p 8) 16) 255 = 0 /\
  Z.land (Z.shiftr (Z.shiftl p 8) 24) 255 = 0 /\
  Z.land (Z.shiftl p 16) 255 = 0 /\
  Z.land (Z.shiftr (Z.shiftl p 16) 8) 255 = 0 /\
  Z.land (Z.shiftr (Z.shiftl p 16) 16) 255 = p /\
  Z.land (Z.shiftr (Z.shiftl p 16) 24) 255 = 0.
Proof.
  intros Hp.
  assert (H : forallb (fun p =>
      (Z.land p 255 =? p) &&
      (Z.land (Z.shiftr p 8) 255 =? 0) &&
      (Z.land (Z.shiftr p 16) 255 =? 0) &&
      (Z.land (Z.shiftr p 24) 255 =? 0) &&
      (Z.land (Z.shiftl p 8) 255 =? 0) &&
      (Z.land (Z.shiftr (Z.shiftl p 8) 8) 255 =? p) &&
      (Z.land (Z.shiftr (Z.shiftl p 8) 16) 255 =? 0) &&
      (Z.land (Z.shiftr (Z.shiftl p 8) 24) 255 =? 0) &&
      (Z.land (Z.shiftl p 16) 255 =? 0) &&
      (Z.land (Z.shiftr (Z.shiftl p 16) 8) 255 =? 0) &&
      (Z.land (Z.shiftr (Z.shiftl p 16) 16) 255 =? p) &&
      (Z.land (Z.shiftr (Z.shiftl p 16) 24) 255 =? 0)) (range 0 256) = true)
    by (vm_compute; reflexivity).
  pose proof (forall_range _ 0 256 H p Hp) as Hb. cbv beta in Hb.
  repeat (apply andb_true_iff in Hb; destruct Hb as [Hb ?]).
  repeat split; apply Z.eqb_eq; assumption.
Qed.

(** [BGR24TOARGB32] stores blue, green, red and an alpha of 255, in this
    order in memory. *)
Lemma bgr24_word_bytes (p0 p1 p2 : Z) :
  is_byte p0 -> is_byte p1 -> is_byte p2 ->
  bytes_of_u32 (BGR24TOARGB32 p0 p1 p2) = [p0; p1; p2; 255].
Proof.
  intros H0 H1 H2.
  destruct (byte_lanes p0 H0) as (A0 & A1 & A2 & A3 & _).
  destruct (byte_lanes p1 H1)
    as (_ & _ & _ & _ & B0 & B1 & B2 & B3 & _).
  destruct (byte_lanes p2 H2)
    as (_ & _ & _ & _ & _ & _ & _ & _ & C0 & C1 & C2 & C3).
  unfold bytes_of_u32, BGR24TOARGB32.
  rewrite !Z.shiftr_lor, !Z.land_lor_distr_l.
  rewrite A0, A1, A2, A3, B0, B1, B2, B3, C0, C1, C2, C3.
  change (Z.land 4278190080 255) with 0.
  change (Z.land (Z.shiftr 4278190080 8) 255) with 0.
  change (Z.land (Z.shiftr 4278190080 16) 255) with 0.
  change (Z.land (Z.shiftr 4278190080 24) 255) with 255.
  rewrite !Z.lor_0_r, !Z.lor_0_l. reflexivity.
Qed.

(** The scalar conversion of one pixel of three bytes, and of one pixel
    of three 16-bit channels. *)
Definition bgr24_chunk (ch : list Z) : list Z :=
  match ch with
  | [p0; p1; p2] => bytes_of_u32 (BGR24TOARGB32 p0 p1 p2)
  | _ => repeat 0 4
  end.

Definition bgr48_chunk (ch : list Z) : list Z :=
  match ch with
  | [_; p1; _; p3; _; p5] => bytes_of_u32 (BGR48TOARGB32 p1 p3 p5)
  | _ => repeat 0 4
  end.

Lemma bgr24_chunk_length (ch : list Z) :
  List.length ch = 3%nat -> List.length (bgr24_chunk ch) = 4%nat.
Proof. destruct ch as [|a [|b [|c [|]]]]; intros [=]; reflexivity. Qed.

Lemma bgr48_chunk_length (ch : list Z) :
  List.length ch = 6%nat -> List.length (bgr48_chunk ch) = 4%nat.
Proof.
  destruct ch as [|a [|b [|c [|d [|e [|f [|]]]]]]]; intros [=]; reflexivity.
Qed.

(** What the specification of the kernels asks for: every pixel as blue,
    green, red and an opaque alpha. *)
Fixpoint opaque_pixels (src : list Z) : list Z :=
  match src with
  | b :: g :: r :: src' => b :: g :: r :: 255 :: opaque_pixels src'
  | _ => []
  end.

(** The same for 16-bit channels stored low byte first: the high byte of
    each channel is kept. *)
Fixpoint opaque_pixels48 (src : list Z) : list Z :=
  match src with
  | _ :: b :: _ :: g :: _ :: r :: src' =>
      b :: g :: r :: 255 :: opaque_pixels48 src'
  | _ => []
  end.

Lemma bgr24_chunks_opaque (N : nat) :
  forall src, Forall is_byte src -> List.length src = (N * 3)%nat ->
    convert 3 bgr24_chunk N src = opaque_pixels src.
Proof.
  induction N as [|N IH]; intros src Hb Hl.
  - destruct src; [reflexivity|discriminate].
  - destruct src as [|p0 [|p1 [|p2 src]]]; try (simpl in Hl; lia).
    inversion Hb as [|? ? H0 Hb0]; subst.
    inversion Hb0 as [|? ? H1 Hb1]; subst.
    inversion Hb1 as [|? ? H2 Hb2]; subst.
    cbn [convert firstn skipn bgr24_chunk opaque_pixels].
    rewrite bgr24_word_bytes by assumption.
    rewrite IH; [reflexivity|assumption|simpl in Hl; lia].
Qed.

Lemma bgr48_chunks_opaque (N : nat) :
  forall src, Forall is_byte src -> List.length src = (N * 6)%nat ->
    convert 6 bgr48_chunk N src = opaque_pixels48 src.
Proof.
  induction N as [|N IH]; intros src Hb Hl.
  - destruct src; [reflexivity|discriminate].
  - destruct src as [|q0 [|p1 [|q2 [|p3 [|q4 [|p5 src]]]]]];
      try (simpl in Hl; lia).
    inversion Hb as [|? ? H0 Hb0]; subst.
    inversion Hb0 as [|? ? H1 Hb1]; subst.
    inversion Hb1 as [|? ? H2 Hb2]; subst.
    inversion Hb2 as [|? ? H3 Hb3]; subst.
    inversion Hb3 as [|? ? H4 Hb4]; subst.
    inversion Hb4 as [|? ? H5 Hb5]; subst.
    cbn [convert firstn skipn bgr48_chunk opaque_pixels48].
    change (BGR48TOARGB32 p1 p3 p5) with (BGR24TOARGB32 p1 p3 p5).
    rewrite bgr24_word_bytes by assumption.
    rewrite IH; [reflexivity|assumption|simpl in Hl; lia].
Qed.

Section BgrSteps.

Variable src : list Z.

Lemma bgr24_pixel_block :
  converts_block 3 4 bgr24_chunk src 1 0 0 (bgr24_pixel src).
Proof.
  intros so done rest H0 _ H1 H2. exists []. split; [reflexivity|].
  unfold bgr24_pixel. rewrite (load_ok src so 3) by lia. cbn [bind].
  assert (Hl : List.length (firstn 3 (skipn (Z.to_nat so) src)) = 3%nat)
    by (rewrite length_firstn, length_skipn; lia).
  change (Z.to_nat 3) with 3%nat.
  set (ch := firstn 3 (skipn (Z.to_nat so) src)) in *.
  cbn [convert Nat.mul Nat.add app]. fold ch.
  clearbody ch. explode ch Hl.
  rewrite store_app by (simpl; lia || reflexivity). cbn [bind].
  apply kstate_eq; [lia|lia|]. reflexivity.
Qed.

Lemma bgr48_pixel_block :
  converts_block 6 4 bgr48_chunk src 1 0 0 (bgr48_pixel src).
Proof.
  intros so done rest H0 _ H1 H2. exists []. split; [reflexivity|].
  unfold bgr48_pixel. rewrite (load_ok src so 6) by lia. cbn [bind].
  assert (Hl : List.length (firstn 6 (skipn (Z.to_nat so) src)) = 6%nat)
    by (rewrite length_firstn, length_skipn; lia).
  change (Z.to_nat 6) with 6%nat.
  set (ch := firstn 6 (skipn (Z.to_nat so) src)) in *.
  cbn [convert Nat.mul Nat.add app]. fold ch.
  clearbody ch. explode ch Hl.
  rewrite store_app by (simpl; lia || reflexivity). cbn [bind].
  apply kstate_eq; [lia|lia|]. reflexivity.
Qed.

End BgrSteps.

(** *** The vector steps of the BGR24 kernels *)

(** What the shuffle and the OR with the opaque mask leave in a register:
    per pixel its three bytes, each ORed with zero, and 255. *)
Fixpoint shuffled_bgr (n : nat) (v : list Z) : list Z :=
  match n with
  | O => []
  | S n' =>
      match v with
      | p0 :: p1 :: p2 :: v' =>
          Z.lor p0 0 :: Z.lor p1 0 :: Z.lor p2 0 :: 255 :: shuffled_bgr n' v'
      | _ => []
      end
  end.

Lemma ssse3_bgr_register (v : list Z) :
  List.length v = 16%nat ->
  let shuffle := _mm_setr_epi8 shuffle_bgr24 in
  let opaque := _mm_setr_epi8 opaque_argb in
  _mm_or_si128 (_mm_shuffle_epi8 v shuffle) opaque = shuffled_bgr 4 v.
Proof. intros Hv. explode v Hv. reflexivity. Qed.

Lemma neon_bgr_register (v : list Z) :
  List.length v = 16%nat ->
  vorrq_u8 (vqtbl1q_u8 v shuffle_bgr24_argb32_arr) opaque_arr
  = shuffled_bgr 4 v.
Proof. intros Hv. explode v Hv. reflexivity. Qed.

Lemma avx2_bgr_register (lo hi : list Z) :
  List.length lo = 16%nat -> List.length hi = 16%nat ->
  let shuffle := _mm256_setr_epi8 (shuffle_bgr24 ++ shuffle_bgr24) in
  let opaque := _mm256_setr_epi8 (opaque_argb ++ opaque_argb) in
  _mm256_or_si256 (_mm256_shuffle_epi8 (_mm256_setr_m128i lo hi) shuffle)
                  opaque
  = shuffled_bgr 4 lo ++ shuffled_bgr 4 hi.
Proof. intros Hl Hh. explode lo Hl. explode hi Hh. reflexivity. Qed.

Lemma shuffled_bgr_scalar (n : nat) :
  forall v, Forall is_byte v -> (n * 3 <= List.length v)%nat ->
    shuffled_bgr n v = convert 3 bgr24_chunk n v.
Proof.
  induction n as [|n IH]; intros v Hb Hl; [reflexivity|].
  destruct v as [|p0 [|p1 [|p2 v]]]; try (simpl in Hl; lia).
  inversion Hb as [|? ? H0 Hb0]; subst.
  inversion Hb0 as [|? ? H1 Hb1]; subst.
  inversion Hb1 as [|? ? H2 Hb2]; subst.
  cbn [shuffled_bgr convert firstn skipn bgr24_chunk].
  rewrite !Z.lor_0_r, bgr24_word_bytes by assumption.
  rewrite IH; [reflexivity|assumption|simpl in Hl; lia].
Qed.

Section BgrVectorSteps.

Variable src : list Z.
Hypothesis src_bytes : Forall is_byte src.

(** Four pixels from sixteen loaded bytes. *)
Lemma four_pixels (so : Z) :
  0 <= so -> so + 16 <= Z.of_nat (List.length src) ->
  shuffled_bgr 4 (firstn 16 (skipn (Z.to_nat so) src))
  = convert 3 bgr24_chunk 4 (skipn (Z.to_nat so) src).
Proof.
  intros H0 H1.
  destruct (chunk_at src src_bytes so 16 H0 ltac:(lia)) as (Hl & Hb).
  rewrite shuffled_bgr_scalar by (assumption || lia).
  rewrite (convert_firstn 3 bgr24_chunk 4).
  rewrite (convert_firstn 3 bgr24_chunk 4 (skipn (Z.to_nat so) src)).
  rewrite firstn_firstn. reflexivity.
Qed.

Lemma four_pixels_length (so : Z) :
  0 <= so -> so + 12 <= Z.of_nat (List.length src) ->
  List.length (convert 3 bgr24_chunk 4 (skipn (Z.to_nat so) src)) = 16%nat.
Proof.
  intros H0 H1.
  rewrite (convert_length 3 4 bgr24_chunk); try lia.
  - apply bgr24_chunk_length.
  - rewrite length_skipn. lia.
Qed.

Lemma bgr24_ssse3_block :
  converts_block 3 4 bgr24_chunk src 4 4 0 (bgr24_ssse3_step src).
Proof.
  intros so done rest H0 _ H1 H2. exists []. split; [reflexivity|].
  unfold bgr24_ssse3_step, _mm_lddqu_si128, _mm_storeu_si128. cbv zeta.
  rewrite (load_ok src so 16) by lia. cbn [bind].
  destruct (chunk_at src src_bytes so 16 H0 ltac:(lia)) as (Hl & _).
  change (Z.to_nat 16) with 16%nat.
  rewrite (ssse3_bgr_register _ Hl), four_pixels by lia.
  pose proof (four_pixels_length so H0 ltac:(lia)) as Hc.
  rewrite store_app; [|reflexivity|rewrite Hc; lia].
  cbn [bind app]. rewrite Hc.
  apply kstate_eq; [lia|lia|]. reflexivity.
Qed.

Lemma bgr24_neon_block :
  converts_block 3 4 bgr24_chunk src 4 4 0 (bgr24_neon_step src).
Proof.
  intros so done rest H0 _ H1 H2. exists []. split; [reflexivity|].
  unfold bgr24_neon_step, vld1q_u8, vst1q_u8. cbv zeta.
  rewrite (load_ok src so 16) by lia. cbn [bind].
  destruct (chunk_at src src_bytes so 16 H0 ltac:(lia)) as (Hl & _).
  change (Z.to_nat 16) with 16%nat.
  rewrite (neon_bgr_register _ Hl), four_pixels by lia.
  pose proof (four_pixels_length so H0 ltac:(lia)) as Hc.
  rewrite store_app; [|reflexivity|rewrite Hc; lia].
  cbn [bind app]. rewrite Hc.
  apply kstate_eq; [lia|lia|]. reflexivity.
Qed.

Lemma bgr24_avx2_block :
  converts_block 3 4 bgr24_chunk src 8 4 0 (bgr24_avx2_step src).
Proof.
  intros so done rest H0 _ H1 H2. exists []. split; [reflexivity|].
  unfold bgr24_avx2_step, _mm_loadu_si128, _mm256_storeu_si256. cbv zeta.
  rewrite (load_ok src so 16), (load_ok src (so + 12) 16) by lia.
  cbn [bind].
  destruct (chunk_at src src_bytes so 16 H0 ltac:(lia)) as (Hl & _).
  destruct (chunk_at src src_bytes (so + 12) 16 ltac:(lia) ltac:(lia))
    as (Hh & _).
  change (Z.to_nat 16) with 16%nat.
  rewrite (avx2_bgr_register _ _ Hl Hh), !four_pixels by lia.
  pose proof (four_pixels_length so H0 ltac:(lia)) as Hc.
  pose proof (four_pixels_length (so + 12) ltac:(lia) ltac:(lia)) as Hc'.
  rewrite store_app; [|reflexivity|rewrite length_app, Hc, Hc'; lia].
  cbn [bind app]. rewrite length_app, Hc, Hc'.
  apply kstate_eq; [lia|lia|].
  pose proof (convert_plus 3 bgr24_chunk 4 4 (skipn (Z.to_nat so) src)) as Hp.
  change (4 + 4)%nat with 8%nat in Hp. rewrite Hp, <- skipn_plus.
  replace (Z.to_nat (so + 12)) with (Z.to_nat so + 4 * 3)%nat by lia.
  rewrite <- !app_assoc. reflexivity.
Qed.

End BgrVectorSteps.

(** *** The BGR kernels on whole buffers *)

Lemma three_small : Z.of_nat 3 < 2 ^ 63.
Proof. reflexivity. Qed.

Lemma six_small : Z.of_nat 6 < 2 ^ 63.
Proof. reflexivity. Qed.

Section BgrKernels.

Variables (src dst : list Z) (N : nat).
Let src_len := Z.of_nat (List.length src).

Hypothesis src_bytes : Forall is_byte src.
Hypothesis src_pixels : List.length src = (N * 3)%nat.
Hypothesis src_addressable : src_len < 2 ^ 63.
Hypothesis dst_fits : (N * 4 <= List.length dst)%nat.

Lemma bgr24_generic_converts :
  bgr24_to_argb32_generic src src_len dst =
  Done (converted 3 4 bgr24_chunk src dst N).
Proof.
  unfold bgr24_to_argb32_generic.
  destruct (scalar_kernel 3 4 bgr24_chunk src dst ltac:(lia) three_small
              bgr24_chunk_length N src_pixels src_addressable
              dst_fits (bgr24_pixel src) 3 eq_refl
              (bgr24_pixel_block src)) as (so & do & H).
  fold src_len in H. rewrite H. reflexivity.
Qed.

Lemma bgr24_ssse3_converts :
  12 <= src_len ->
  _openslide_bgr24_to_argb32_ssse3 src src_len dst =
  Done (converted 3 4 bgr24_chunk src dst N).
Proof.
  intros Hlen. unfold _openslide_bgr24_to_argb32_ssse3. cbv zeta.
  destruct (vector_kernel 3 4 bgr24_chunk src dst ltac:(lia) three_small
              bgr24_chunk_length N src_pixels src_addressable
              dst_fits 4 4 0 (bgr24_ssse3_step src)
              (bgr24_pixel src) 12 3 eq_refl eq_refl
              ltac:(lia) ltac:(lia) ltac:(lia)
              (bgr24_ssse3_block src src_bytes)
              (bgr24_pixel_block src) Hlen) as (so & do & H).
  fold src_len in H. cbv zeta in H. apply (after_vector_loop _ _ _ H).
Qed.

Lemma bgr24_neon_converts :
  12 <= src_len ->
  bgr24_to_argb32_neon src src_len dst =
  Done (converted 3 4 bgr24_chunk src dst N).
Proof.
  intros Hlen. unfold bgr24_to_argb32_neon. cbv zeta.
  destruct (vector_kernel 3 4 bgr24_chunk src dst ltac:(lia) three_small
              bgr24_chunk_length N src_pixels src_addressable
              dst_fits 4 4 0 (bgr24_neon_step src)
              (bgr24_pixel src) 12 3 eq_refl eq_refl
              ltac:(lia) ltac:(lia) ltac:(lia)
              (bgr24_neon_block src src_bytes)
              (bgr24_pixel_block src) Hlen) as (so & do & H).
  fold src_len in H. cbv zeta in H. apply (after_vector_loop _ _ _ H).
Qed.

Lemma bgr24_avx2_converts :
  24 <= src_len ->
  _openslide_bgr24_to_argb32_avx2 src src_len dst =
  Done (converted 3 4 bgr24_chunk src dst N).
Proof.
  intros Hlen. unfold _openslide_bgr24_to_argb32_avx2. cbv zeta.
  destruct (vector_kernel 3 4 bgr24_chunk src dst ltac:(lia) three_small
              bgr24_chunk_length N src_pixels src_addressable
              dst_fits 8 4 0 (bgr24_avx2_step src)
              (bgr24_pixel src) 24 3 eq_refl eq_refl
              ltac:(lia) ltac:(lia) ltac:(lia)
              (bgr24_avx2_block src src_bytes)
              (bgr24_pixel_block src) Hlen) as (so & do & H).
  fold src_len in H. cbv zeta in H. apply (after_vector_loop _ _ _ H).
Qed.

Lemma bgr24_converted_opaque :
  converted 3 4 bgr24_chunk src dst N
  = opaque_pixels src ++ skipn (4 * N) dst.
Proof.
  unfold converted. rewrite (bgr24_chunks_opaque N src src_bytes src_pixels).
  rewrite (Nat.mul_comm N 4). reflexivity.
Qed.

End BgrKernels.

Section Bgr48Kernel.

Variables (src dst : list Z) (N : nat).
Let src_len := Z.of_nat (List.length src).

Hypothesis src_bytes : Forall is_byte src.
Hypothesis src_pixels : List.length src = (N * 6)%nat.
Hypothesis src_addressable : src_len < 2 ^ 63.
Hypothesis dst_fits : (N * 4 <= List.length dst)%nat.

Lemma bgr48_generic_converts :
  _openslide_bgr48_to_argb32_generic src src_len dst =
  Done (opaque_pixels48 src ++ skipn (4 * N) dst).
Proof.
  unfold _openslide_bgr48_to_argb32_generic.
  destruct (scalar_kernel 6 4 bgr48_chunk src dst ltac:(lia) six_small
              bgr48_chunk_length N src_pixels src_addressable
              dst_fits (bgr48_pixel src) 6 eq_refl
              (bgr48_pixel_block src)) as (so & do & H).
  fold src_len in H. rewrite H. cbn [bind]. unfold converted.
  rewrite (bgr48_chunks_opaque N src src_bytes src_pixels).
  rewrite (Nat.mul_comm N 4). reflexivity.
Qed.

End Bgr48Kernel.

(** X9.  The scalar BGR24 kernel, on a buffer of [N] pixels of three bytes
    and a destination with room for [N] words, returns and leaves for
    every pixel its blue, green and red byte followed by an alpha of 255.
    The destination past the [N] words is not changed. *)
Theorem bgr24_generic_writes_opaque_pixels (src dst : list Z) (N : nat) :
  Forall is_byte src ->
  List.length src = (3 * N)%nat ->
  Z.of_nat (List.length src) < 2 ^ 63 ->
  (4 * N <= List.length dst)%nat ->
  bgr24_to_argb32_generic src (Z.of_nat (List.length src)) dst
  = Done (opaque_pixels src ++ skipn (4 * N) dst).
Proof.
  intros Hb Hl Ha Hd.
  assert (Hl' : List.length src = (N * 3)%nat) by lia.
  assert (Hd' : (N * 4 <= List.length dst)%nat) by lia.
  rewrite <- (bgr24_converted_opaque src dst N Hb Hl').
  apply bgr24_generic_converts; assumption.
Qed.

Lemma bgr24_generic_writes_opaque_pixels_witness :
  bgr24_to_argb32_generic [1; 2; 3; 4; 5; 6] 6 (repeat 0 9)
  = Done [1; 2; 3; 255; 4; 5; 6; 255; 0].
Proof.
  apply (bgr24_generic_writes_opaque_pixels [1; 2; 3; 4; 5; 6] (repeat 0 9) 2).
  - repeat (constructor; [unfold is_byte; lia|]). constructor.
  - reflexivity.
  - simpl. lia.
  - simpl. lia.
Defined.

(** X10.  On a buffer of whole pixels that holds at least one vector step (12
    bytes for SSSE3 and NEON, 24 bytes for AVX2) the vector BGR24 kernels
    return and leave the bytes the scalar kernel leaves. *)
Theorem bgr24_vector_kernels_write_opaque_pixels
        (src dst : list Z) (N : nat) :
  Forall is_byte src ->
  List.length src = (3 * N)%nat ->
  Z.of_nat (List.length src) < 2 ^ 63 ->
  (4 * N <= List.length dst)%nat ->
  let src_len := Z.of_nat (List.length src) in
  let out := opaque_pixels src ++ skipn (4 * N) dst in
  (12 <= src_len ->
   _openslide_bgr24_to_argb32_ssse3 src src_len dst = Done out /\
   bgr24_to_argb32_neon src src_len dst = Done out) /\
  (24 <= src_len ->
   _openslide_bgr24_to_argb32_avx2 src src_len dst = Done out).
Proof.
  intros Hb Hl Ha Hd src_len out.
  assert (Hl' : List.length src = (N * 3)%nat) by lia.
  assert (Hd' : (N * 4 <= List.length dst)%nat) by lia.
  unfold out. rewrite <- (bgr24_converted_opaque src dst N Hb Hl').
  split; [intros Hlen; split|intros Hlen].
  - apply bgr24_ssse3_converts; assumption.
  - apply bgr24_neon_converts; assumption.
  - apply bgr24_avx2_converts; assumption.
Qed.

Lemma ramp_bytes (n : nat) : Forall is_byte (ramp n).
Proof.
  unfold ramp. apply Forall_forall. intros b Hb.
  apply in_map_iff in Hb. destruct Hb as (k & <- & _).
  apply Z.mod_pos_bound. lia.
Qed.

Lemma bgr24_vector_kernels_write_opaque_pixels_witness :
  let src := ramp 27 in
  let dst := repeat 0 37 in
  let out := opaque_pixels src ++ [0] in
  _openslide_bgr24_to_argb32_ssse3 src 27 dst = Done out /\
  bgr24_to_argb32_neon src 27 dst = Done out /\
  _openslide_bgr24_to_argb32_avx2 src 27 dst = Done out.
Proof.
  intros src dst out.
  destruct (bgr24_vector_kernels_write_opaque_pixels src dst 9)
    as (H12 & H24).
  - apply ramp_bytes.
  - reflexivity.
  - simpl. lia.
  - simpl. lia.
  - destruct H12 as (Hs & Hn); [simpl; lia|].
    split; [exact Hs|split; [exact Hn|apply H24; simpl; lia]].
Defined.

(** X11.  The BGR48 kernel, on a buffer of [N] pixels of three little-endian
    16-bit channels, returns and leaves for every pixel the high byte of
    its blue, green and red channel followed by an alpha of 255. *)
Theorem bgr48_generic_writes_high_bytes (src dst : list Z) (N : nat) :
  Forall is_byte src ->
  List.length src = (6 * N)%nat ->
  Z.of_nat (List.length src) < 2 ^ 63 ->
  (4 * N <= List.length dst)%nat ->
  _openslide_bgr48_to_argb32_generic src (Z.of_nat (List.length src)) dst
  = Done (opaque_pixels48 src ++ skipn (4 * N) dst).
Proof.
  intros Hb Hl Ha Hd.
  apply bgr48_generic_converts; try assumption; lia.
Qed.

Lemma bgr48_generic_writes_high_bytes_witness :
  _openslide_bgr48_to_argb32_generic
    [0; 1; 0; 2; 0; 3; 9; 4; 9; 5; 9; 6] 12 (repeat 0 9)
  = Done [1; 2; 3; 255; 4; 5; 6; 255; 0].
Proof.
  apply (bgr48_generic_writes_high_bytes
           [0; 1; 0; 2; 0; 3; 9; 4; 9; 5; 9; 6] (repeat 0 9) 2).
  - repeat (constructor; [unfold is_byte; lia|]). constructor.
  - reflexivity.
  - simpl. lia.
  - simpl. lia.
Defined.

(** X12.  On every buffer, whatever its length, the SSE3, AVX2 and NEON
    restore kernels return and leave what the scalar kernel leaves: for
    [half = src_len / 2], the first [half] bytes of the buffer interleaved
    with the next [half] bytes.  A last odd byte is not read, and the
    destination past [2 * half] bytes is not changed. *)
Theorem restore_variants_agree (src dst : list Z) :
  let src_len := Z.of_nat (List.length src) in
  src_len < 2 ^ 63 ->
  2 * (src_len / 2) <= Z.of_nat (List.length dst) ->
  let half := (List.length src / 2)%nat in
  let out := interleave (firstn half src) (firstn half (skipn half src))
             ++ skipn (2 * half) dst in
  restore_czi_zstd1_generic src src_len dst = Done out /\
  _openslide_restore_czi_zstd1_sse3 src src_len dst = Done out /\
  _openslide_restore_czi_zstd1_avx2 src src_len dst = Done out /\
  restore_czi_zstd1_neon src src_len dst = Done out.
Proof.
  intros src_len Ha Hd half out.
  change out with (restored src dst).
  repeat split.
  - apply generic_restores; assumption.
  - apply sse3_restores; assumption.
  - apply avx2_restores; assumption.
  - apply neon_restores; assumption.
Qed.

Lemma restore_variants_agree_witness :
  let src := [1; 2; 3; 11; 12; 13; 99] in
  let dst := repeat 0 7 in
  let out := [1; 11; 2; 12; 3; 13; 0] in
  restore_czi_zstd1_generic src 7 dst = Done out /\
  _openslide_restore_czi_zstd1_sse3 src 7 dst = Done out /\
  _openslide_restore_czi_zstd1_avx2 src 7 dst = Done out /\
  restore_czi_zstd1_neon src 7 dst = Done out.
Proof.
  intros src dst out.
  apply (restore_variants_agree src dst); simpl; lia.
Defined.

Lemma planes_of_interleave (a : list Z) :
  forall b, List.length a = List.length b ->
            low_plane (interleave a b) = a /\
            high_plane (interleave a b) = b.
Proof.
  induction a as [|x a IH]; intros [|y b] Hl; simpl in Hl; try lia.
  - split; reflexivity.
  - destruct (IH b ltac:(lia)) as (Hlo & Hhi).
    cbn [interleave low_plane high_plane]. rewrite Hlo, Hhi.
    split; reflexivity.
Qed.

(** X13.  Restoring loses nothing: on a buffer of even length and a
    destination of the same size, the low bytes of the restored samples
    followed by their high bytes are the buffer again. *)
Theorem split_inverts_restore (src dst : list Z) :
  Nat.Even (List.length src) ->
  Z.of_nat (List.length src) < 2 ^ 63 ->
  List.length dst = List.length src ->
  exists out,
    restore_czi_zstd1_generic src (Z.of_nat (List.length src)) dst = Done out /\
    List.length out = List.length src /\
    split_planes out = src.
Proof.
  intros [k Hk] Ha Hd.
  assert (Hfit : 2 * (Z.of_nat (List.length src) / 2)
                 <= Z.of_nat (List.length dst)).
  { pose proof (Z.mul_div_le (Z.of_nat (List.length src)) 2). lia. }
  exists (restored src dst). split; [apply generic_restores; assumption|].
  unfold restored. cbv zeta.
  assert (Hhalf : (List.length src / 2 = k)%nat).
  { rewrite Hk. replace (2 * k)%nat with (k * 2)%nat by lia.
    apply Nat.div_mul. lia. }
  rewrite Hhalf.
  rewrite (skipn_all2 dst) by lia. rewrite app_nil_r.
  assert (Hl1 : List.length (firstn k src) = k)
    by (rewrite length_firstn; lia).
  assert (Hl2 : List.length (firstn k (skipn k src)) = k)
    by (rewrite length_firstn, length_skipn; lia).
  split.
  - rewrite interleave_length by lia. lia.
  - unfold split_planes.
    destruct (planes_of_interleave (firstn k src) (firstn k (skipn k src)))
      as (-> & ->); [lia|].
    rewrite (firstn_all2 (skipn k src)) by (rewrite length_skipn; lia).
    apply firstn_skipn.
Qed.

Lemma split_inverts_restore_witness :
  exists out,
    restore_czi_zstd1_generic [1; 2; 3; 11; 12; 13] 6 (repeat 0 6) = Done out /\
    List.length out = 6%nat /\
    split_planes out = [1; 2; 3; 11; 12; 13].
Proof.
  apply (split_inverts_restore [1; 2; 3; 11; 12; 13] (repeat 0 6)).
  - exists 3%nat. reflexivity.
  - simpl. lia.
  - reflexivity.
Defined.

(** *** The dispatchers (openslide-image.c)

    Every kernel is called through a global function pointer that starts
    out at a dispatcher.  The dispatcher stores the variant for the build
    and the CPU into the pointer and calls it. *)

(** The build options. *)
Record build : Type := mk_build {
  USE_AVX2 : bool;
  USE_SSSE3 : bool;
  USE_NEON : bool
}.

(** The functions each of the pointers can hold. *)
Inductive bgr24_fn : Type :=
| bgr24_dispatch_fn | bgr24_avx2_fn | bgr24_ssse3_fn | bgr24_neon_fn
| bgr24_generic_fn.

Inductive bgr48_fn : Type :=
| bgr48_dispatch_fn | bgr48_generic_fn.

Inductive restore_fn : Type :=
| restore_dispatch_fn | restore_avx2_fn | restore_sse3_fn | restore_neon_fn
| restore_generic_fn.

Inductive gray16_fn : Type :=
| gray16_dispatch_fn | gray16_avx2_fn | gray16_sse2_fn | gray16_generic_fn.

Record globals : Type := mk_globals {
  _openslide_bgr24_to_argb32 : bgr24_fn;
  _openslide_bgr48_to_argb32 : bgr48_fn;
  _openslide_restore_czi_zstd1 : restore_fn;
  _openslide_gray16_to_gray8 : gray16_fn
}.

(** The pointers as the program starts. *)
Definition initial_globals : globals :=
  mk_globals bgr24_dispatch_fn bgr48_dispatch_fn restore_dispatch_fn
             gray16_dispatch_fn.

Definition set_bgr24 (g : globals) (f : bgr24_fn) : globals :=
  mk_globals f (_openslide_bgr48_to_argb32 g) (_openslide_restore_czi_zstd1 g)
             (_openslide_gray16_to_gray8 g).
Definition set_bgr48 (g : globals) (f : bgr48_fn) : globals :=
  mk_globals (_openslide_bgr24_to_argb32 g) f (_openslide_restore_czi_zstd1 g)
             (_openslide_gray16_to_gray8 g).
Definition set_restore (g : globals) (f : restore_fn) : globals :=
  mk_globals (_openslide_bgr24_to_argb32 g) (_openslide_bgr48_to_argb32 g) f
             (_openslide_gray16_to_gray8 g).
Definition set_gray16 (g : globals) (f : gray16_fn) : globals :=
  mk_globals (_openslide_bgr24_to_argb32 g) (_openslide_bgr48_to_argb32 g)
             (_openslide_restore_czi_zstd1 g) f.

Section Dispatch.

Variable b : build.
Variable __builtin_cpu_supports : string -> bool.

Definition bgr24_to_argb32_dispatch (g : globals) (src : list Z) (src_len : Z)
           (dst : list Z) : globals * outcome (list Z) :=
  if USE_AVX2 b && __builtin_cpu_supports "avx2" then
    (set_bgr24 g bgr24_avx2_fn, _openslide_bgr24_to_argb32_avx2 src src_len dst)
  else if USE_SSSE3 b && __builtin_cpu_supports "ssse3" then
    (set_bgr24 g bgr24_ssse3_fn,
     _openslide_bgr24_to_argb32_ssse3 src src_len dst)
  else if USE_NEON b then
    (set_bgr24 g bgr24_neon_fn, bgr24_to_argb32_neon src src_len dst)
  else
    (set_bgr24 g bgr24_generic_fn, bgr24_to_argb32_generic src src_len dst).

(** Not enough 48 bits RGB slide for testing. No SIMD for now. *)
Definition bgr48_to_argb32_dispatch (g : globals) (src : list Z) (src_len : Z)
           (dst : list Z) : globals * outcome (list Z) :=
  (set_bgr48 g bgr48_generic_fn,
   _openslide_bgr48_to_argb32_generic src src_len dst).

Definition restore_czi_zstd1_dispatch (g : globals) (src : list Z)
           (src_len : Z) (dst : list Z) : globals * outcome (list Z) :=
  if USE_AVX2 b && __builtin_cpu_supports "avx2" then
    (set_restore g restore_avx2_fn,
     _openslide_restore_czi_zstd1_avx2 src src_len dst)
  else if USE_SSSE3 b && __builtin_cpu_supports "ssse3" then
    (set_restore g restore_sse3_fn,
     _openslide_restore_czi_zstd1_sse3 src src_len dst)
  else if USE_NEON b then
    (set_restore g restore_neon_fn, restore_czi_zstd1_neon src src_len dst)
  else
    (set_restore g restore_generic_fn,
     restore_czi_zstd1_generic src src_len dst).

(** The kernels run on the CPU the dispatcher asks; [src_addr] is the
    address in the pointer [src]. *)
Definition gray16_to_gray8_dispatch (g : globals) (src_addr : Z)
           (src : list Z) (src_len : Z)
           (pixel_real_bits : Z) (dst : list Z) : globals * outcome (list Z) :=
  if USE_AVX2 b && __builtin_cpu_supports "avx2" then
    (set_gray16 g gray16_avx2_fn,
     _openslide_gray16_to_gray8_avx2 src src_len pixel_real_bits dst)
  else if USE_SSSE3 b && __builtin_cpu_supports "sse3" then
    (set_gray16 g gray16_sse2_fn,
     _openslide_gray16_to_gray8_sse2 __builtin_cpu_supports src_addr
                                     src src_len pixel_real_bits dst)
  else
    (set_gray16 g gray16_generic_fn,
     gray16_to_gray8_generic src src_len pixel_real_bits dst).

(** A call through each of the pointers. *)
Definition call_bgr24_to_argb32 (g : globals) (src : list Z) (src_len : Z)
           (dst : list Z) : globals * outcome (list Z) :=
  match _openslide_bgr24_to_argb32 g with
  | bgr24_dispatch_fn => bgr24_to_argb32_dispatch g src src_len dst
  | bgr24_avx2_fn => (g, _openslide_bgr24_to_argb32_avx2 src src_len dst)
  | bgr24_ssse3_fn => (g, _openslide_bgr24_to_argb32_ssse3 src src_len dst)
  | bgr24_neon_fn => (g, bgr24_to_argb32_neon src src_len dst)
  | bgr24_generic_fn => (g, bgr24_to_argb32_generic src src_len dst)
  end.

Definition call_bgr48_to_argb32 (g : globals) (src : list Z) (src_len : Z)
           (dst : list Z) : globals * outcome (list Z) :=
  match _openslide_bgr48_to_argb32 g with
  | bgr48_dispatch_fn => bgr48_to_argb32_dispatch g src src_len dst
  | bgr48_generic_fn => (g, _openslide_bgr48_to_argb32_generic src src_len dst)
  end.

Definition call_restore_czi_zstd1 (g : globals) (src : list Z) (src_len : Z)
           (dst : list Z) : globals * outcome (list Z) :=
  match _openslide_restore_czi_zstd1 g with
  | restore_dispatch_fn => restore_czi_zstd1_dispatch g src src_len dst
  | restore_avx2_fn => (g, _openslide_restore_czi_zstd1_avx2 src src_len dst)
  | restore_sse3_fn => (g, _openslide_restore_czi_zstd1_sse3 src src_len dst)
  | restore_neon_fn => (g, restore_czi_zstd1_neon src src_len dst)
  | restore_generic_fn => (g, restore_czi_zstd1_generic src src_len dst)
  end.

Definition call_gray16_to_gray8 (g : globals) (src_addr : Z)
           (src : list Z) (src_len : Z)
           (pixel_real_bits : Z) (dst : list Z) : globals * outcome (list Z) :=
  match _openslide_gray16_to_gray8 g with
  | gray16_dispatch_fn =>
      gray16_to_gray8_dispatch g src_addr src src_len pixel_real_bits dst
  | gray16_avx2_fn =>
      (g, _openslide_gray16_to_gray8_avx2 src src_len pixel_real_bits dst)
  | gray16_sse2_fn =>
      (g, _openslide_gray16_to_gray8_sse2 __builtin_cpu_supports src_addr
                                          src src_len pixel_real_bits dst)
  | gray16_generic_fn =>
      (g, gray16_to_gray8_generic src src_len pixel_real_bits dst)
  end.

End Dispatch.

(** *** What a call through a pointer gives *)

(** X14.  Whatever the build and the CPU, and whether the pointer still holds
    the dispatcher or not, a restore through the pointer returns and
    leaves the two halves of the buffer interleaved.  After the call the
    pointer holds a kernel, not the dispatcher, and further calls leave
    the pointers as they are. *)
Theorem restore_through_pointer
        (b : build) (cpu : string -> bool) (g : globals) (src dst : list Z) :
  let src_len := Z.of_nat (List.length src) in
  src_len < 2 ^ 63 ->
  2 * (src_len / 2) <= Z.of_nat (List.length dst) ->
  let first := call_restore_czi_zstd1 b cpu g src src_len dst in
  let second := call_restore_czi_zstd1 b cpu (fst first) src src_len dst in
  snd first = Done (restored src dst) /\
  snd second = Done (restored src dst) /\
  _openslide_restore_czi_zstd1 (fst first) <> restore_dispatch_fn /\
  fst second = fst first.
Proof.
  intros src_len Ha Hd first second.
  pose proof (generic_restores src dst Ha Hd) as Hg.
  pose proof (sse3_restores src dst Ha Hd) as Hs.
  pose proof (avx2_restores src dst Ha Hd) as Hv.
  pose proof (neon_restores src dst Ha Hd) as Hn.
  fold src_len in Hg, Hs, Hv, Hn.
  unfold second, first, call_restore_czi_zstd1, restore_czi_zstd1_dispatch.
  destruct (_openslide_restore_czi_zstd1 g) eqn:E;
    try (cbn [fst snd]; rewrite E; cbn [fst snd];
         repeat split; try assumption; discriminate).
  destruct (USE_AVX2 b && cpu "avx2"%string);
    [|destruct (USE_SSSE3 b && cpu "ssse3"%string);
      [|destruct (USE_NEON b)]];
    cbn [fst snd set_restore _openslide_restore_czi_zstd1];
    repeat split; try assumption; discriminate.
Qed.

Lemma restore_through_pointer_witness :
  let b := mk_build true true false in
  let cpu := fun feature => String.eqb feature "ssse3" in
  let src := [1; 2; 3; 11; 12; 13] in
  let dst := repeat 0 6 in
  let first := call_restore_czi_zstd1 b cpu initial_globals src 6 dst in
  let second := call_restore_czi_zstd1 b cpu (fst first) src 6 dst in
  snd first = Done [1; 11; 2; 12; 3; 13] /\
  snd second = Done [1; 11; 2; 12; 3; 13] /\
  _openslide_restore_czi_zstd1 (fst first) <> restore_dispatch_fn /\
  fst second = fst first.
Proof.
  intros b cpu src dst.
  apply (restore_through_pointer b cpu initial_globals src dst); simpl; lia.
Defined.

(** X15.  On a buffer of whole pixels of at least 24 bytes a BGR24 conversion
    through the pointer returns and leaves the same bytes on every build
    and every CPU: every pixel as blue, green, red and 255. *)
Theorem bgr24_through_pointer
        (b : build) (cpu : string -> bool) (g : globals)
        (src dst : list Z) (N : nat) :
  Forall is_byte src ->
  List.length src = (3 * N)%nat ->
  Z.of_nat (List.length src) < 2 ^ 63 ->
  (4 * N <= List.length dst)%nat ->
  24 <= Z.of_nat (List.length src) ->
  snd (call_bgr24_to_argb32 b cpu g src (Z.of_nat (List.length src)) dst)
  = Done (opaque_pixels src ++ skipn (4 * N) dst).
Proof.
  intros Hb Hl Ha Hd Hlen.
  assert (Hl' : List.length src = (N * 3)%nat) by lia.
  assert (Hd' : (N * 4 <= List.length dst)%nat) by lia.
  rewrite <- (bgr24_converted_opaque src dst N Hb Hl').
  pose proof (bgr24_generic_converts src dst N Hl' Ha Hd') as Hg.
  pose proof (bgr24_ssse3_converts src dst N Hb Hl' Ha Hd' ltac:(lia)) as Hs.
  pose proof (bgr24_neon_converts src dst N Hb Hl' Ha Hd' ltac:(lia)) as Hn.
  pose proof (bgr24_avx2_converts src dst N Hb Hl' Ha Hd' Hlen) as Hv.
  unfold call_bgr24_to_argb32, bgr24_to_argb32_dispatch.
  destruct (_openslide_bgr24_to_argb32 g); try assumption.
  destruct (USE_AVX2 b && cpu "avx2"%string);
    [|destruct (USE_SSSE3 b && cpu "ssse3"%string);
      [|destruct (USE_NEON b)]]; assumption.
Qed.

Lemma bgr24_through_pointer_witness :
  snd (call_bgr24_to_argb32 (mk_build true true false) (fun _ => true)
                            initial_globals (ramp 27) 27 (repeat 0 36))
  = Done (opaque_pixels (ramp 27) ++ []).
Proof.
  apply (bgr24_through_pointer (mk_build true true false) (fun _ => true)
                               initial_globals (ramp 27) (repeat 0 36) 9).
  - apply ramp_bytes.
  - reflexivity.
  - simpl. lia.
  - simpl. lia.
  - simpl. lia.
Defined.

(** X16.  On a buffer of at least 32 bytes of 16-bit samples, for a real bit
    depth of 9 to 16, the first Gray16 conversion through the pointer and
    every later one return and leave the same bytes on every build and
    CPU: every sample shifted right by the depth minus 8, or 255 when
    that has a non-zero high byte.  The condition is on the one case in
    which the dispatcher installs the SSE2 kernel (no AVX2 path, a build
    with USE_SSSE3, a CPU that reports SSE3): there the CPU must have
    SSSE3 as well, which the dispatcher does not test, and the address of
    the buffer must be a multiple of 16. *)
Theorem gray16_through_pointer
        (b : build) (cpu : cpu_t) (g : globals) (src_addr : Z)
        (src dst : list Z) (pixel_real_bits : Z) (N : nat) :
  Forall is_byte src ->
  List.length src = (2 * N)%nat ->
  Z.of_nat (List.length src) < 2 ^ 63 ->
  (N <= List.length dst)%nat ->
  9 <= pixel_real_bits <= 16 ->
  32 <= Z.of_nat (List.length src) ->
  _openslide_gray16_to_gray8 g = gray16_dispatch_fn ->
  (USE_AVX2 b && cpu "avx2"%string = false ->
   USE_SSSE3 b && cpu "sse3"%string = true ->
   cpu "ssse3"%string = true /\ src_addr mod 16 = 0) ->
  let src_len := Z.of_nat (List.length src) in
  let out := map (saturated_shift (pixel_real_bits - 8) src) (seq 0 N)
             ++ skipn N dst in
  let first := call_gray16_to_gray8 b cpu g src_addr src src_len
                                    pixel_real_bits dst in
  let second := call_gray16_to_gray8 b cpu (fst first) src_addr src src_len
                                     pixel_real_bits dst in
  snd first = Done out /\
  snd second = Done out /\
  _openslide_gray16_to_gray8 (fst first) <> gray16_dispatch_fn /\
  fst second = fst first.
Proof.
  intros Hb Hl Ha Hd Hbits Hlen Hg Hsse src_len out first second.
  assert (Hl' : List.length src = (N * 2)%nat) by lia.
  assert (Hd' : (N * 1 <= List.length dst)%nat) by lia.
  assert (Hout : converted 2 1 (gray_chunk (pixel_real_bits - 8)) src dst N
                 = out).
  { unfold converted, out.
    rewrite (gray_chunks_saturate (pixel_real_bits - 8) N)
      by (lia || assumption).
    rewrite Nat.mul_1_r. reflexivity. }
  pose proof (gray_generic_converts src dst pixel_real_bits N Hb Hl' Ha Hd')
    as Hgen.
  pose proof (gray_avx2_converts src dst pixel_real_bits N Hb Hl' Ha Hd'
                                 Hbits Hlen) as Hv.
  rewrite Hout in Hgen, Hv. fold src_len in Hgen, Hv.
  unfold second, first, call_gray16_to_gray8, gray16_to_gray8_dispatch.
  rewrite Hg.
  destruct (USE_AVX2 b && cpu "avx2"%string).
  { cbn [fst snd set_gray16 _openslide_gray16_to_gray8].
    repeat split; try assumption; discriminate. }
  destruct (USE_SSSE3 b && cpu "sse3"%string).
  - destruct (Hsse eq_refl eq_refl) as (Hcpu & Haddr).
    pose proof (gray_sse2_converts src dst pixel_real_bits N Hb Hl' Ha Hd'
                                   Hbits cpu src_addr Hcpu Haddr ltac:(lia))
      as Hs.
    rewrite Hout in Hs. fold src_len in Hs.
    cbn [fst snd set_gray16 _openslide_gray16_to_gray8].
    repeat split; try assumption; discriminate.
  - cbn [fst snd set_gray16 _openslide_gray16_to_gray8].
    repeat split; try assumption; discriminate.
Qed.

Lemma gray16_through_pointer_witness :
  let b := mk_build false true false in
  let first := call_gray16_to_gray8 b cpu_with_all initial_globals 4096
                                    (ramp 32) 32 14 (repeat 0 16) in
  let second := call_gray16_to_gray8 b cpu_with_all (fst first) 4096
                                     (ramp 32) 32 14 (repeat 0 16) in
  snd first = Done (map (saturated_shift 6 (ramp 32)) (seq 0 16) ++ []) /\
  snd second = Done (map (saturated_shift 6 (ramp 32)) (seq 0 16) ++ []) /\
  _openslide_gray16_to_gray8 (fst first) <> gray16_dispatch_fn /\
  fst second = fst first.
Proof.
  intros b.
  apply (gray16_through_pointer b cpu_with_all initial_globals 4096
                                (ramp 32) (repeat 0 16) 14 16).
  - apply ramp_bytes.
  - reflexivity.
  - simpl. lia.
  - simpl. lia.
  - lia.
  - simpl. lia.
  - reflexivity.
  - intros _ _. split; reflexivity.
Defined.

(** *** Where the SSE2 Gray16 kernel faults *)

(** The vector loop of the SSE2 kernel runs at least once on a buffer of
    32 bytes or more. *)
Lemma gray16_sse2_first_step (cpu : cpu_t) (src_addr : Z) (src : list Z)
      (src_len pixel_real_bits : Z) (dst : list Z) :
  32 <= src_len < 2 ^ 63 ->
  gray16_sse2_step cpu src_addr src (pixel_real_bits - 8) (0, 0, dst) = Fault ->
  _openslide_gray16_to_gray8_sse2 cpu src_addr src src_len pixel_real_bits dst
  = Fault.
Proof.
  intros Hlen Hstep. unfold _openslide_gray16_to_gray8_sse2. cbv zeta.
  assert (H63 : 2 ^ 63 = 9223372036854775808) by reflexivity.
  assert (H64 : 2 ^ 64 = 18446744073709551616) by reflexivity.
  assert (Hq : 2 <= src_len / 16) by (apply Z.div_le_lower_bound; lia).
  assert (Hq' : src_len / 16 <= src_len)
    by (apply Z.div_le_upper_bound; lia).
  rewrite (wrap64_id (src_len / 16 - 1)) by lia.
  rewrite for_lt_faults; [reflexivity|lia|lia|exact Hstep].
Qed.

Lemma gray16_sse2_step_unaligned (cpu : cpu_t) (src_addr : Z) (src : list Z)
      (nshift : Z) (dst : list Z) :
  src_addr mod 16 <> 0 ->
  gray16_sse2_step cpu src_addr src nshift (0, 0, dst) = Fault.
Proof.
  intros H. unfold gray16_sse2_step, _mm_load_si128. cbv zeta.
  rewrite Z.add_0_r. destruct (Z.eqb_spec (src_addr mod 16) 0); [lia|].
  reflexivity.
Qed.

Lemma gray16_sse2_step_without_ssse3 (cpu : cpu_t) (src_addr : Z)
      (src : list Z) (nshift : Z) (s : kstate) :
  cpu "ssse3"%string = false ->
  gray16_sse2_step cpu src_addr src nshift s = Fault.
Proof.
  intros H. unfold gray16_sse2_step, _mm_load_si128, needs. cbv zeta.
  destruct s as [[so do] dst]. rewrite H.
  destruct ((src_addr + so) mod 16 =? 0); [|reflexivity].
  unfold load.
  destruct ((so <? 0) || (16 <? 0) || (Z.of_nat (List.length src) <? so + 16));
    reflexivity.
Qed.

Section Sse2Faults.

Variables (b : build) (cpu : cpu_t) (src_addr : Z) (src dst : list Z)
          (pixel_real_bits : Z) (N : nat).
Let src_len := Z.of_nat (List.length src).

Hypothesis src_bytes : Forall is_byte src.
Hypothesis src_samples : List.length src = (2 * N)%nat.
Hypothesis src_addressable : src_len < 2 ^ 63.
Hypothesis dst_fits : (N <= List.length dst)%nat.
Hypothesis depth : 8 <= pixel_real_bits <= 16.
Hypothesis one_vector_step : 32 <= src_len.

(** The SSE2 kernel is the one the dispatcher installs. *)
Hypothesis no_avx2 : USE_AVX2 b && cpu "avx2"%string = false.
Hypothesis sse3 : USE_SSSE3 b && cpu "sse3"%string = true.

Lemma scalar_gray_result :
  gray16_to_gray8_generic src src_len pixel_real_bits dst
  = Done (map (saturated_shift (pixel_real_bits - 8) src) (seq 0 N)
          ++ skipn N dst).
Proof.
  assert (Hl' : List.length src = (N * 2)%nat) by lia.
  assert (Hd' : (N * 1 <= List.length dst)%nat) by lia.
  pose proof (gray_generic_converts src dst pixel_real_bits N src_bytes Hl'
                                    src_addressable Hd') as Hgen.
  unfold converted in Hgen.
  rewrite (gray_chunks_saturate (pixel_real_bits - 8) N) in Hgen
    by (lia || assumption).
  rewrite Nat.mul_1_r in Hgen. exact Hgen.
Qed.

Lemma sse2_fault_through_pointer (g : globals) :
  _openslide_gray16_to_gray8 g = gray16_dispatch_fn ->
  _openslide_gray16_to_gray8_sse2 cpu src_addr src src_len pixel_real_bits dst
  = Fault ->
  let first := call_gray16_to_gray8 b cpu g src_addr src src_len
                                    pixel_real_bits dst in
  snd first = Fault /\
  _openslide_gray16_to_gray8 (fst first) = gray16_sse2_fn /\
  snd (call_gray16_to_gray8 b cpu (fst first) src_addr src src_len
                            pixel_real_bits dst) = Fault.
Proof.
  intros Hg Hk first.
  unfold first, call_gray16_to_gray8, gray16_to_gray8_dispatch.
  rewrite Hg, no_avx2, sse3.
  cbn [fst snd set_gray16 _openslide_gray16_to_gray8].
  repeat split; exact Hk.
Qed.

End Sse2Faults.

(** X29.  The SSE2 Gray16 kernel loads its source with an aligned load.  On
    a buffer of 32 bytes or more whose address is not a multiple of 16
    the first vector step faults, on every CPU.  Where the dispatcher
    installs this kernel (no AVX2 path, a build with USE_SSSE3, a CPU that
    reports SSE3) the first conversion through the pointer faults and so
    does every later one, although the buffer is one the scalar kernel
    converts. *)
Theorem gray16_sse2_faults_on_unaligned_source
        (b : build) (cpu : cpu_t) (g : globals) (src_addr : Z)
        (src dst : list Z) (pixel_real_bits : Z) (N : nat) :
  Forall is_byte src ->
  List.length src = (2 * N)%nat ->
  Z.of_nat (List.length src) < 2 ^ 63 ->
  (N <= List.length dst)%nat ->
  8 <= pixel_real_bits <= 16 ->
  32 <= Z.of_nat (List.length src) ->
  src_addr mod 16 <> 0 ->
  USE_AVX2 b && cpu "avx2"%string = false ->
  USE_SSSE3 b && cpu "sse3"%string = true ->
  _openslide_gray16_to_gray8 g = gray16_dispatch_fn ->
  let src_len := Z.of_nat (List.length src) in
  let first := call_gray16_to_gray8 b cpu g src_addr src src_len
                                    pixel_real_bits dst in
  (forall any_cpu : cpu_t,
      _openslide_gray16_to_gray8_sse2 any_cpu src_addr src src_len
                                      pixel_real_bits dst = Fault) /\
  snd first = Fault /\
  _openslide_gray16_to_gray8 (fst first) = gray16_sse2_fn /\
  snd (call_gray16_to_gray8 b cpu (fst first) src_addr src src_len
                            pixel_real_bits dst) = Fault /\
  gray16_to_gray8_generic src src_len pixel_real_bits dst
  = Done (map (saturated_shift (pixel_real_bits - 8) src) (seq 0 N)
          ++ skipn N dst).
Proof.
  intros Hb Hl Ha Hd Hbits Hlen Haddr Hno Hsse Hg src_len first.
  assert (Hk : forall any_cpu : cpu_t,
             _openslide_gray16_to_gray8_sse2 any_cpu src_addr src src_len
                                             pixel_real_bits dst = Fault).
  { intros any_cpu. apply gray16_sse2_first_step; [unfold src_len; lia|].
    apply gray16_sse2_step_unaligned, Haddr. }
  split; [exact Hk|].
  destruct (sse2_fault_through_pointer b cpu src_addr src dst pixel_real_bits
              Hno Hsse g Hg (Hk cpu)) as (H1 & H2 & H3).
  split; [exact H1|]. split; [exact H2|]. split; [exact H3|].
  apply (scalar_gray_result src dst pixel_real_bits N); assumption.
Qed.

(** A CPU of the first SSE3 generation: SSE3, but neither SSSE3 nor
    AVX2. *)
Definition cpu_sse3_only : cpu_t :=
  fun feature => String.eqb feature "sse3".

Lemma gray16_sse2_faults_on_unaligned_source_witness :
  let b := mk_build true true false in
  let first := call_gray16_to_gray8 b cpu_sse3_only initial_globals 4100
                                    (ramp 32) 32 14 (repeat 0 16) in
  (forall any_cpu : cpu_t,
      _openslide_gray16_to_gray8_sse2 any_cpu 4100 (ramp 32) 32 14
                                      (repeat 0 16) = Fault) /\
  snd first = Fault /\
  _openslide_gray16_to_gray8 (fst first) = gray16_sse2_fn /\
  snd (call_gray16_to_gray8 b cpu_sse3_only (fst first) 4100
                            (ramp 32) 32 14 (repeat 0 16)) = Fault /\
  gray16_to_gray8_generic (ramp 32) 32 14 (repeat 0 16)
  = Done (map (saturated_shift (14 - 8) (ramp 32)) (seq 0 16) ++ []).
Proof.
  intros b.
  apply (gray16_sse2_faults_on_unaligned_source
           b cpu_sse3_only initial_globals 4100 (ramp 32) (repeat 0 16) 14 16).
  - apply ramp_bytes.
  - reflexivity.
  - simpl. lia.
  - simpl. lia.
  - lia.
  - simpl. lia.
  - discriminate.
  - reflexivity.
  - reflexivity.
  - reflexivity.
Defined.

(** X30.  The dispatcher installs the SSE2 Gray16 kernel on a CPU that
    reports SSE3, but the kernel shuffles with PSHUFB, an SSSE3
    instruction.  On a CPU with SSE3 and without SSSE3 (and no AVX2
    path, in a build with USE_SSSE3) the first conversion of a buffer of
    32 bytes or more through the pointer faults, whatever the address of
    the buffer; the pointer is left at the SSE2 kernel and every later
    conversion faults too, although the buffer is one the scalar kernel
    converts. *)
Theorem gray16_dispatch_to_sse2_needs_ssse3
        (b : build) (cpu : cpu_t) (g : globals) (src_addr : Z)
        (src dst : list Z) (pixel_real_bits : Z) (N : nat) :
  Forall is_byte src ->
  List.length src = (2 * N)%nat ->
  Z.of_nat (List.length src) < 2 ^ 63 ->
  (N <= List.length dst)%nat ->
  8 <= pixel_real_bits <= 16 ->
  32 <= Z.of_nat (List.length src) ->
  cpu "ssse3"%string = false ->
  USE_AVX2 b && cpu "avx2"%string = false ->
  USE_SSSE3 b && cpu "sse3"%string = true ->
  _openslide_gray16_to_gray8 g = gray16_dispatch_fn ->
  let src_len := Z.of_nat (List.length src) in
  let first := call_gray16_to_gray8 b cpu g src_addr src src_len
                                    pixel_real_bits dst in
  snd first = Fault /\
  _openslide_gray16_to_gray8 (fst first) = gray16_sse2_fn /\
  snd (call_gray16_to_gray8 b cpu (fst first) src_addr src src_len
                            pixel_real_bits dst) = Fault /\
  gray16_to_gray8_generic src src_len pixel_real_bits dst
  = Done (map (saturated_shift (pixel_real_bits - 8) src) (seq 0 N)
          ++ skipn N dst).
Proof.
  intros Hb Hl Ha Hd Hbits Hlen Hcpu Hno Hsse Hg src_len first.
  assert (Hk : _openslide_gray16_to_gray8_sse2 cpu src_addr src src_len
                                               pixel_real_bits dst = Fault).
  { apply gray16_sse2_first_step; [unfold src_len; lia|].
    apply gray16_sse2_step_without_ssse3, Hcpu. }
  destruct (sse2_fault_through_pointer b cpu src_addr src dst pixel_real_bits
              Hno Hsse g Hg Hk) as (H1 & H2 & H3).
  split; [exact H1|]. split; [exact H2|]. split; [exact H3|].
  apply (scalar_gray_result src dst pixel_real_bits N); assumption.
Qed.

Lemma gray16_dispatch_to_sse2_needs_ssse3_witness :
  let b := mk_build true true false in
  let first := call_gray16_to_gray8 b cpu_sse3_only initial_globals 4096
                                    (ramp 32) 32 14 (repeat 0 16) in
  snd first = Fault /\
  _openslide_gray16_to_gray8 (fst first) = gray16_sse2_fn /\
  snd (call_gray16_to_gray8 b cpu_sse3_only (fst first) 4096
                            (ramp 32) 32 14 (repeat 0 16)) = Fault /\
  gray16_to_gray8_generic (ramp 32) 32 14 (repeat 0 16)
  = Done (map (saturated_shift (14 - 8) (ramp 32)) (seq 0 16) ++ []).
Proof.
  intros b.
  apply (gray16_dispatch_to_sse2_needs_ssse3
           b cpu_sse3_only initial_globals 4096 (ramp 32) (repeat 0 16) 14 16).
  - apply ramp_bytes.
  - reflexivity.
  - simpl. lia.
  - simpl. lia.
  - lia.
  - simpl. lia.
  - reflexivity.
  - reflexivity.
  - reflexivity.
  - reflexivity.
Defined.

End Image.
